(* ===== verification/_CoqProject ===== *)
-Q . S2P
Prelude.v
GoStrings.v
GoUtf8.v
GoText.v
GoFloat.v
GoTime.v
GoOs.v
Message.v
ConfigPkg.v
GoCrypto.v
Json.v
JsonDecode.v
JsonEncode.v
JsonCompact.v
JsonEnvelope.v
JsonNumber.v
JsonAny.v
JsonTime.v
Wal.v
WalSegments.v
WalWriter.v
WalRefine.v
WalReplay.v
WalDurable.v
JsonEntry.v
WalTheorems.v
Threads.v
Sink.v
SinkOwn.v
SinkMachine.v
SinkTheorems.v
SinkDrain.v
SinkWal.v
Gin.v
Metrics.v
RateLimit.v
Observability.v
Auth.v
Pipeline.v
Dispatcher.v
SinkAdapters.v
DispatchOwn.v
DispatchSystem.v
DispatchTheorems.v
Server.v
SinkAdapterTheorems.v
ServerTheorems.v
Client.v
Replay.v
ServerLife.v
ClientTheorems.v
Logging.v
LoggingTheorems.v
LogLines.v
Gateway.v
GatewayTheorems.v
