(* ===== verification/Prelude.v ===== *)
(** * A verification development of logateway

    logateway is a log gateway written in Go.  An upload arrives over HTTP,
    passes the rate limits, the authentication and the resolution of its
    project, becomes a recycled [message.Message] and is handed to a pool of
    goroutines.  There it runs through its project's pipeline and is copied to
    one worker pool per sink of the project.  A pool delivers to Redis or Kafka
    with retries and a circuit breaker; what it cannot take or deliver goes,
    under the fallback strategy, to a write-ahead log on disk, which a
    background loop replays into the same pools.  The configuration is reloaded
    while the gateway runs; health, metrics and daily log files report on it.
    An example client signs and sends test messages.

    ** Method

    The Go code is embedded shallowly.  A call that may fail is
    [St S A = S -> result A * S] (Prelude): it returns a value, an error or a
    panic, and the state it wrote stays written.  Integers are [Z] with
    [wrap64] where the code can overflow; [float64] is [SpecFloat] at 53 bits.
    Goroutines are trees of atomic actions ([Threads.Thr]): what a mutex, a
    channel operation or one system call makes indivisible is one action, and
    any other goroutine may act in between.  Three program logics are built on
    this: [hoare]/[keeps] for sequential calls, [wp] (total correctness of a
    goroutine running alone, whatever timing decides) and [holds] (ownership
    of messages under any interleaving).  The standard library is modelled as
    far as the program uses it, and executable: what is written through
    [encoding/json] is the text Go writes.

    ** Files

    Foundations
    - Prelude: fixed-width integers, errors, the state monad, Hoare rules, the
      hint database [keeps] and the tactic [keeps_auto].
    - GoStrings, GoUtf8, GoText, GoFloat, GoTime: [strings], [strconv], [fmt],
      [unicode/utf8], [path/filepath], [float64] with its shortest decimal
      text, durations.
    - GoOs: the file system and [bufio]: directory entries, inodes with a
      durable part, handles, an oracle that makes any call fail, and [crash],
      a power failure.
    - GoCrypto: SHA-256, HMAC and hexadecimal, with test vectors.
    - Json (the scanner and values), JsonDecode (structs, maps, raw messages),
      JsonEncode (strings, structs), JsonCompact (raw messages), JsonNumber,
      JsonTime, JsonAny ([map[string]interface{}]), JsonEnvelope
      ([message.Envelope]), JsonEntry ([wal.Entry]): [encoding/json].
    - Threads: goroutines and their logics.

    Components
    - Message (internal/message): the message and envelope pools with the
      memory they recycle.
    - ConfigPkg (internal/config): [Config], [applyDefaults], [Manager] and the
      debouncing watch loop.
    - Wal (internal/wal): [Writer] with [NewWriter], [Write], [rotate],
      [Close], [syncTick], the replay loop and [ReadAll], against the interface
      [EntryCodec], which JsonEntry implements.  WalSegments, WalWriter,
      WalRefine, WalReplay and WalDurable hold the lemmas (names and numbers of
      segments; the invariant under faults; refinement of a byte string on a
      healthy disk; replay; durability), WalTheorems the guarantees.
    - Sink (internal/sink/worker.go, sink.go): [WorkerPool] and its methods
      against the interfaces [Sink] (the backend) and [MsgLog] (the log).
      SinkOwn: ownership of messages ([pool_inv], [LogSafe], [LogSpec]).
      SinkMachine: workers, callers and recovery probes as a machine
      ([mstep]).  SinkTheorems and SinkDrain: the guarantees.  SinkWal:
      [wal.Writer] implements [MsgLog] with its laws.
    - SinkAdapters (redis_sink.go, kafka_sink.go): settings, envelopes,
      commands; SinkAdapterTheorems.
    - Pipeline (internal/pipeline): chains, the built-in processors and the
      registry.
    - Dispatcher (internal/project): [Initialize], [resolveSinkConfig],
      [Dispatch], [DispatchStrict], [ReplayBackoff], [Shutdown] over pools
      shared by address.  DispatchOwn: ownership across pools.
      DispatchSystem: all goroutines of the core together.  DispatchTheorems.
    - Gin: contexts, headers, answers.  RateLimit (internal/ratelimit), Auth
      (internal/auth), Observability (internal/observability), Metrics
      (internal/metrics and the metrics middleware).
    - Server (internal/server): the upload route with all its middlewares;
      ServerTheorems; ServerLife: uploads around a shutdown.  Replay: the
      callback of the replayer.  Gateway, GatewayTheorems: [New] with the
      routes it registers, [Run], [Close], and [main] of cmd/gateway.
    - Logging (internal/logging): the daily files and level filters;
      LoggingTheorems; LogLines: structured entries and the logging
      middleware.
    - Client (examples/send_message_client.go): options, signing, one request,
      the workers as a step relation; ClientTheorems.

    ** What the theorems show

    - The log.  What is written is replayed exactly once and in order after a
      clean restart (C1) and, written synchronously, after a power failure
      (C2), through the JSON encoder and decoder.  Under any fault a replay
      removes only segments whose entries were all accepted (C3), the writer
      only appends (C17), an acknowledged synchronous write survives (C18) and
      nothing panics (C31); on a healthy disk the segmented, buffered log is
      one growing byte string (C16).  Failures of the code: an over-long line
      blocks the replay (C38), and a rotation during a replay pass loses the
      new segment (C39).
    - The worker pool.  A message has one owner under any interleaving (C4) and
      ends delivered once or logged once (C12); a full pool's message is
      replayed later (C20); shutdown drains the channel (C19) and ends (C10);
      the breaker counts failures exactly (C32); the float64 watermarks of the
      replay pacing are exact (C33).
    - Dispatch.  Pools never share a message (C11); an upload reaches every
      sink of its project or its log record (C13); a replayed entry stops at
      the first sink that refuses (C35), and a segment is removed only when its
      entries are queued (C9); settings take precedence as documented (C34) and
      reach the clients (C27); processors refine functions on objects (C23);
      what a sink sends reads back as the upload (C8).
    - The upload route.  One answer and no panic, success only for what passed
      every check (C5); what is let through is authentic (C14) and not a
      repetition (C15); rates are bounded (C21).  The example client and the
      gateway agree on signatures, bodies and answers (C7), and the client
      sends each message once and ends (C26).  A task that starts after
      shutdown is lost (C40), a failure of the code.
    - The life of the gateway.  [New] establishes what the other theorems
      assume (C6), stopping is safe in any order (C22), reloads are atomic
      (C36) and debounced (C37).
    - Reporting.  Level files hold their lines (C24, C30), an entry is one line
      (C28), health reflects the probes (C29), metrics count what happened
      (C25).

    ** Bounds and fuel

    Sizes and segment numbers of the log theorems stay below [bound = 2^61],
    so that no int64 sum overflows.  [buf_write_loop] (bufio.Writer.Write) has
    fuel 2: after one flush the rest is either buffered or written directly.
    [evict] has the size of the cache as fuel, one turn per entry
    ([evict_spec]).  The JSON parser has twice the length of the text and one
    more; more fuel never changes the result ([parse_enough]).  The duration
    parser has the length of the text, one byte or more per term.
    [shortest_from] tries up to 17 digits; should they not read back,
    [shortest] takes all digits, so what is printed always reads back
    ([shortest_reads]).  [send_attempts] counts the three attempts of the code.
    [replayLoop], [DispatchSystem.worker] and [recoveryLoop] take the number of
    turns of an endless loop; their theorems hold for every number.

    ** What is a parameter

    The YAML decoder, fsnotify's events, the ants pool, gin's acceptance of
    routes, the app key store, go-redis ([RedisClient]), kafka-go
    ([KafkaWriter]), golang.org/x/time/rate ([RateLimiter] with its laws and a
    token bucket as instance), the Prometheus client ([Prometheus] with its
    laws and a registry as instance), the answers of the network, the clock,
    random numbers and UUIDs.

    ** What is not modelled

    The HTTP server and transport, gin's routing, flag parsing, the pprof and
    Prometheus handlers: libraries the sources only call.  The log lines the
    code prints are left out except where the program formats them itself
    (LogLines, [Setup]).  The metrics calls are modelled as the events of
    Metrics and not threaded through the components that make them.  Data
    races are not modelled: an access without the lock is an atomic action. *)

From Stdlib Require Import ZArith Lia Ascii String.
From stdpp Require Import base tactics numbers strings gmap list sorting.

(** ** Go's fixed-width integers *)

Declare Scope go_scope.
Delimit Scope go_scope with go.

Definition two63 : Z := 2 ^ 63.
Definition two64 : Z := 2 ^ 64.

(** The value of an [int64] (and of an [int], on the 64-bit targets the
    project builds for) after a computation that produced [z]. *)
Definition wrap64 (z : Z) : Z := (z + two63) mod two64 - two63.

(** The same for [uint64]. *)
Definition wrapu64 (z : Z) : Z := z mod two64.

Definition in_int64 (z : Z) : Prop := (- two63 <= z < two63)%Z.

Infix "+64" := (fun a b => wrap64 (a + b)%Z) (at level 50, left associativity) : go_scope.
Infix "-64" := (fun a b => wrap64 (a - b)%Z) (at level 50, left associativity) : go_scope.

Lemma wrap64_id z : in_int64 z -> wrap64 z = z.
Proof. unfold in_int64, wrap64, two63, two64. intros. rewrite Z.mod_small; lia. Qed.

Lemma wrap64_range z : in_int64 (wrap64 z).
Proof.
  unfold in_int64, wrap64, two63, two64.
  pose proof (Z.mod_pos_bound (z + 2 ^ 63) (2 ^ 64)). lia.
Qed.

Lemma wrap64_above z : (two63 <= z < two63 + two64)%Z -> wrap64 z = (z - two64)%Z.
Proof.
  unfold wrap64, two63, two64. intros.
  rewrite <- (Z.mod_unique (z + 2 ^ 63) (2 ^ 64) 1 (z + 2 ^ 63 - 2 ^ 64)); lia.
Qed.

(** ** Errors and outcomes

    An [error] value keeps what the code can observe of it: the text and,
    through [errors.Is], the sentinel it wraps. *)

Inductive error :=
| ErrorString (msg : string)                  (* fmt.Errorf / errors.New *)
| WrapError (prefix : string) (e : error)     (* fmt.Errorf("prefix: %w", e) *)
| ErrNotExist                                 (* os.ErrNotExist *)
| ErrClosed                                   (* os.ErrClosed *)
| ErrTooLong                                  (* bufio.ErrTooLong *)
| SysError (what : string).                   (* any other failure of a call *)

#[global] Instance error_eq_dec : EqDecision error.
Proof. solve_decision. Defined.

Fixpoint errors_Is (e target : error) : bool :=
  bool_decide (e = target) ||
  match e with WrapError _ e' => errors_Is e' target | _ => false end.

(** A call returns a value, returns a non-nil error, or panics. *)
Inductive result (A : Type) :=
| Ok (a : A)
| Err (e : error)
| Panic (why : string).
Arguments Ok {A} a.
Arguments Err {A} e.
Arguments Panic {A} why.

Definition is_ok {A} (r : result A) : bool :=
  match r with Ok _ => true | _ => false end.

Definition is_panic {A} (r : result A) : bool :=
  match r with Panic _ => true | _ => false end.

(** ** Stateful calls

    [St S A] is a Go call that may read and write the state [S] and returns
    [A] or an error.  State written before an error or a panic stays written. *)

Definition St (S A : Type) : Type := S -> result A * S.

Section monad.
Context {S : Type}.

Definition ret {A} (a : A) : St S A := fun s => (Ok a, s).
Definition fail {A} (e : error) : St S A := fun s => (Err e, s).
Definition panic {A} (why : string) : St S A := fun s => (Panic why, s).
Definition get : St S S := fun s => (Ok s, s).
Definition modify (f : S -> S) : St S unit := fun s => (Ok tt, f s).

(** [if err != nil { return err }] after [m], then [k]. *)
Definition bind {A B} (m : St S A) (k : A -> St S B) : St S B := fun s =>
  match m s with
  | (Ok a, s') => k a s'
  | (Err e, s') => (Err e, s')
  | (Panic p, s') => (Panic p, s')
  end.

(** [v, err := m()], the error being inspected by the caller. *)
Definition attempt {A} (m : St S A) : St S (result A) := fun s =>
  match m s with
  | (Panic p, s') => (Panic p, s')
  | (r, s') => (Ok r, s')
  end.

(** [_ = m()]. *)
Definition ignore {A} (m : St S A) : St S unit := bind (attempt m) (fun _ => ret tt).

(** [fmt.Errorf("prefix: %w", err)] around the error of [m]. *)
Definition wrapErr {A} (prefix : string) (m : St S A) : St S A := fun s =>
  match m s with
  | (Err e, s') => (Err (WrapError prefix e), s')
  | r => r
  end.

(** [defer func() { if r := recover(); r != nil { err = ... } }()]. *)
Definition recovering {A} (h : string -> error) (m : St S A) : St S A := fun s =>
  match m s with
  | (Panic p, s') => (Err (h p), s')
  | r => r
  end.
End monad.

Notation "x <- m ;; k" := (bind m (fun x => k))
  (at level 100, m at next level, right associativity) : go_scope.
Notation "m ;;; k" := (bind m (fun _ => k))
  (at level 100, right associativity) : go_scope.

(** ** A Hoare logic for stateful calls

    [hoare P m Q]: from a state satisfying [P] the call [m] ends with an
    outcome and a state related by [Q].  Calls are total functions, so this
    is total correctness. *)

Section hoare.
Context {S : Type}.

Definition hoare {A} (P : S -> Prop) (m : St S A) (Q : result A -> S -> Prop) : Prop :=
  forall s, P s -> Q (m s).1 (m s).2.

(** The state property [I] is kept whatever the outcome. *)
Definition keeps {A} (I : S -> Prop) (m : St S A) : Prop := hoare I m (fun _ => I).

Lemma keeps_run {A} (I : S -> Prop) (m : St S A) s r s' :
  keeps I m -> m s = (r, s') -> I s -> I s'.
Proof. intros H E HI. specialize (H s HI). by rewrite E in H. Qed.

Lemma keeps_ret {A} (I : S -> Prop) (a : A) : keeps I (ret a).
Proof. intros s H. exact H. Qed.

Lemma keeps_fail {A} (I : S -> Prop) e : keeps I (fail (A := A) e).
Proof. intros s H. exact H. Qed.

Lemma keeps_panic {A} (I : S -> Prop) p : keeps I (panic (A := A) p).
Proof. intros s H. exact H. Qed.

Lemma keeps_get (I : S -> Prop) : keeps I get.
Proof. intros s H. exact H. Qed.

Lemma keeps_modify (I : S -> Prop) f : (forall s, I s -> I (f s)) -> keeps I (modify f).
Proof. intros Hf s H. by apply Hf. Qed.

Lemma keeps_bind {A B} (I : S -> Prop) (m : St S A) (k : A -> St S B) :
  keeps I m -> (forall a, keeps I (k a)) -> keeps I (bind m k).
Proof.
  intros Hm Hk s HI. specialize (Hm s HI). unfold bind.
  destruct (m s) as [[a|e|p] s']; simpl in *; try done. by apply Hk.
Qed.

Lemma keeps_attempt {A} (I : S -> Prop) (m : St S A) : keeps I m -> keeps I (attempt m).
Proof.
  intros Hm s HI. specialize (Hm s HI). unfold attempt.
  destruct (m s) as [[] ?]; done.
Qed.

Lemma keeps_ignore {A} (I : S -> Prop) (m : St S A) : keeps I m -> keeps I (ignore m).
Proof.
  intros Hm. apply keeps_bind; [by apply keeps_attempt|]. intros; apply keeps_ret.
Qed.

Lemma keeps_wrapErr {A} (I : S -> Prop) p (m : St S A) : keeps I m -> keeps I (wrapErr p m).
Proof.
  intros Hm s HI. specialize (Hm s HI). unfold wrapErr.
  destruct (m s) as [[] ?]; done.
Qed.

Lemma keeps_recovering {A} (I : S -> Prop) h (m : St S A) :
  keeps I m -> keeps I (recovering h m).
Proof.
  intros Hm s HI. specialize (Hm s HI). unfold recovering.
  destruct (m s) as [[] ?]; done.
Qed.

(** Inversion of a successful call. *)
Lemma bind_Ok {A B} (m : St S A) (k : A -> St S B) s b s' :
  bind m k s = (Ok b, s') -> exists a s1, m s = (Ok a, s1) /\ k a s1 = (Ok b, s').
Proof. unfold bind. destruct (m s) as [[a|e|p] s1]; naive_solver. Qed.

Lemma wrapErr_Ok {A} p (m : St S A) s a s' :
  wrapErr p m s = (Ok a, s') -> m s = (Ok a, s').
Proof. unfold wrapErr. destruct (m s) as [[] ?]; naive_solver. Qed.

Lemma bind_run_Ok {A B} (m : St S A) (k : A -> St S B) s a s1 :
  m s = (Ok a, s1) -> bind m k s = k a s1.
Proof. unfold bind. by intros ->. Qed.

Lemma bind_run_Err {A B} (m : St S A) (k : A -> St S B) s e s1 :
  m s = (Err e, s1) -> bind m k s = (Err e, s1).
Proof. unfold bind. by intros ->. Qed.

Lemma wrapErr_run_Ok {A} p (m : St S A) s a s1 :
  m s = (Ok a, s1) -> wrapErr p m s = (Ok a, s1).
Proof. unfold wrapErr. by intros ->. Qed.

Lemma wrapErr_run_Err {A} p (m : St S A) s e s1 :
  m s = (Err e, s1) -> wrapErr p m s = (Err (WrapError p e), s1).
Proof. unfold wrapErr. by intros ->. Qed.

Lemma bind_bind {A B C} (m : St S A) (k : A -> St S B) (k' : B -> St S C) s :
  bind (bind m k) k' s = bind m (fun a => bind (k a) k') s.
Proof. unfold bind. by destruct (m s) as [[] ?]. Qed.

Lemma bind_cong {A B} (m : St S A) (k k' : A -> St S B) s :
  (forall a s1, k a s1 = k' a s1) -> bind m k s = bind m k' s.
Proof. intros Hk. unfold bind. by destruct (m s) as [[] ?]. Qed.

Lemma ignore_snd {A} (m : St S A) s : (ignore m s).2 = (m s).2.
Proof. unfold ignore, bind, attempt. by destruct (m s) as [[] ?]. Qed.
End hoare.

Create HintDb keeps.
#[export] Hint Resolve keeps_ret keeps_fail keeps_panic keeps_get keeps_bind
  keeps_attempt keeps_ignore keeps_wrapErr keeps_recovering : keeps.

(** Split every conditional and match of a call down to the primitive calls,
    which the [keeps] database covers. *)
Ltac keeps_step :=
  match goal with
  | |- keeps _ (bind _ _) => apply keeps_bind; [|intros ?]
  | |- keeps _ (if ?b then _ else _) => destruct b eqn:?
  | |- keeps _ (match ?x with _ => _ end) => destruct x eqn:?
  | |- keeps _ _ => solve [eauto with keeps]
  | |- keeps _ (ignore _) => apply keeps_ignore
  | |- keeps _ (attempt _) => apply keeps_attempt
  | |- keeps _ (wrapErr _ _) => apply keeps_wrapErr
  | |- keeps _ (recovering _ _) => apply keeps_recovering
  end.
Ltac keeps_auto := repeat keeps_step.

(** ** Calls on a part of the state *)

Section zoom.
Context {S T : Type} (view : S -> T) (put_back : T -> S -> S).

Definition zoom {A} (m : St T A) : St S A := fun s =>
  let '(r, t) := m (view s) in (r, put_back t s).

Lemma keeps_zoom {A} (I : S -> Prop) (m : St T A) :
  (forall s, I s -> I (put_back (m (view s)).2 s)) -> keeps I (zoom m).
Proof. intros H s HI. unfold zoom. specialize (H s HI). by destruct (m (view s)). Qed.

Lemma zoom_run {A} (m : St T A) s r t :
  m (view s) = (r, t) -> zoom m s = (r, put_back t s).
Proof. unfold zoom. by intros ->. Qed.
End zoom.

(** ** Copying a map: [for k, v := range src { dst[k] = v }] *)

Lemma foldl_insert_union {A} (fs d : gmap string A) : foldl (fun acc kv => <[kv.1 := kv.2]> acc) d (map_to_list fs) = fs ∪ d.
Proof.
  revert d; induction fs as [|k v fs Hk Hf IH] using map_first_key_ind; intros d.
  - by rewrite map_to_list_empty, map_empty_union.
  - rewrite (map_to_list_insert_first_key _ _ _ Hk Hf). cbn [foldl]. rewrite IH. cbn [fst snd].
    rewrite <- insert_union_l, <- insert_union_r by done. done.
Qed.
