(* ===== verification/GoStrings.v ===== *)
(** * The parts of Go's [strings], [strconv] and [fmt] the gateway uses

    Go strings are byte sequences; they are Rocq [string]s here, [[]byte]
    values are lists of [ascii].  Definitions first, then the facts the
    components rely on. *)

From Stdlib Require Import ZArith Lia Ascii String.
From stdpp Require Import base tactics numbers strings list.
From S2P Require Import Prelude.

Abbreviation bytes := (list ascii).

(** [string(b)] and [[]byte(s)]. *)
Abbreviation bytes_of := list_ascii_of_string.
Abbreviation string_of := string_of_list_ascii.

(** A byte as a number, and the byte a number has as its low 8 bits. *)
Definition byte_val (c : ascii) : Z := Z.of_N (N_of_ascii c).
Definition byte_of (z : Z) : ascii := ascii_of_N (Z.to_N (z mod 256)).

(** ** [strings] *)

Fixpoint HasPrefix (s prefix : string) : bool :=
  match prefix, s with
  | EmptyString, _ => true
  | String p prefix', String c s' => Ascii.eqb p c && HasPrefix s' prefix'
  | String _ _, EmptyString => false
  end.

Fixpoint string_drop (n : nat) (s : string) : string :=
  match n, s with
  | O, _ => s
  | S n', String _ s' => string_drop n' s'
  | S _, EmptyString => EmptyString
  end.

Fixpoint string_take (n : nat) (s : string) : string :=
  match n, s with
  | S n', String c s' => String c (string_take n' s')
  | _, _ => EmptyString
  end.

(** [len(s) >= len(suffix) && s[len(s)-len(suffix):] == suffix]. *)
Definition HasSuffix (s suffix : string) : bool :=
  (String.length suffix <=? String.length s)%nat &&
  String.eqb (string_drop (String.length s - String.length suffix) s) suffix.

Definition TrimPrefix (s prefix : string) : string :=
  if HasPrefix s prefix then string_drop (String.length prefix) s else s.

Definition TrimSuffix (s suffix : string) : string :=
  if HasSuffix s suffix
  then string_take (String.length s - String.length suffix) s else s.

Definition lower_ascii (c : ascii) : ascii :=
  let n := N_of_ascii c in
  if ((65 <=? n) && (n <=? 90))%N then ascii_of_N (n + 32) else c.

(** [strings.ToLower].  Besides A-Z, exactly two code points have an ASCII
    lower-case form, U+0130 and the Kelvin sign U+212A; any other non-ASCII
    text is left as it is, so the function decides correctly whether the
    lower-cased string equals a given ASCII string, which is all the gateway
    asks of it. *)
Fixpoint ToLower (s : string) : string :=
  match s with
  | EmptyString => EmptyString
  | String "196" (String "176" s') => String "i" (ToLower s')
  | String "226" (String "132" (String "170" s')) => String "k" (ToLower s')
  | String c s' => String (lower_ascii c) (ToLower s')
  end.

(** ** [strconv] *)

Definition digit_val (c : ascii) : option Z :=
  let n := N_of_ascii c in
  if ((48 <=? n) && (n <=? 57))%N then Some (Z.of_N (n - 48)) else None.

Fixpoint digits_val (acc : Z) (s : string) : option Z :=
  match s with
  | EmptyString => Some acc
  | String c s' =>
      match digit_val c with
      | Some d => digits_val (acc * 10 + d) s'
      | None => None
      end
  end.

(** [strconv.ParseInt(s, 10, 64)], and [strconv.Atoi] where [int] is 64 bits
    wide: an optional sign, then at least one decimal digit, in range. *)
Definition ParseInt (s : string) : option Z :=
  let '(neg, body) :=
    match s with
    | String "-" r => (true, r)
    | String "+" r => (false, r)
    | _ => (false, s)
    end in
  if String.eqb body EmptyString then None else
  match digits_val 0 body with
  | None => None
  | Some v =>
      let z := if neg : bool then (- v)%Z else v in
      if ((- two63 <=? z) && (z <? two63))%Z then Some z else None
  end.

Definition Atoi : string -> option Z := ParseInt.

(** ** [fmt]: the decimal verbs *)

Definition digit_char (d : Z) : ascii := ascii_of_N (48 + Z.to_N d).

(** The [k] low decimal digits of [n]. *)
Fixpoint fixed_digits (k : nat) (n : Z) : string :=
  match k with
  | O => EmptyString
  | S k' => String (digit_char (n / 10 ^ Z.of_nat k' mod 10)) (fixed_digits k' n)
  end.

(** The number of decimal digits of [n], [1 <= n], when at most [fuel + k]. *)
Fixpoint count_digits (fuel k : nat) (n : Z) : nat :=
  match fuel with
  | O => k
  | S fuel' => if (n <? 10 ^ Z.of_nat k)%Z then k else count_digits fuel' (S k) n
  end.

(** Every 64-bit magnitude has at most 20 digits. *)
Definition ndigits (n : Z) : nat := count_digits 19 1 n.

(** [%0wd]: zero-padded to the width [w], sign included. *)
Definition Sprintf_0d (w : nat) (n : Z) : string :=
  if (n <? 0)%Z
  then String "-" (fixed_digits (Nat.max (w - 1) (ndigits (- n))) (- n))
  else fixed_digits (Nat.max w (ndigits n)) n.

(** [%d] and [strconv.Itoa]. *)
Definition Itoa (n : Z) : string := Sprintf_0d 0 n.

(** ** Facts *)

Lemma string_app_length s t : String.length (s +:+ t) = (String.length s + String.length t)%nat.
Proof. induction s as [|c s IH]; [done|]. unfold String.app in *. simpl. by rewrite IH. Qed.

Lemma string_app_nil s : s +:+ EmptyString = s.
Proof. induction s as [|c s IH]; [done|]. unfold String.app in *. simpl. by rewrite IH. Qed.

Lemma string_app_cons c s t : String c s +:+ t = String c (s +:+ t).
Proof. done. Qed.

Lemma string_app_assoc s t u : (s +:+ t) +:+ u = s +:+ t +:+ u.
Proof. induction s as [|c s IH]; [done|]. rewrite !string_app_cons. by rewrite IH. Qed.

Lemma list_ascii_app s t : list_ascii_of_string (s +:+ t) = list_ascii_of_string s ++ list_ascii_of_string t.
Proof. induction s as [|c s IH]; [done|]. rewrite string_app_cons. cbn. by rewrite IH. Qed.

Lemma string_drop_app s t : string_drop (String.length s) (s +:+ t) = t.
Proof. induction s as [|c s IH]; [done|]. exact IH. Qed.

Lemma string_take_app s t : string_take (String.length s) (s +:+ t) = s.
Proof. induction s as [|c s IH]; [by destruct t|]. rewrite string_app_cons. simpl. by rewrite IH. Qed.

Lemma string_take_drop n s : string_take n s +:+ string_drop n s = s.
Proof.
  revert s; induction n as [|n IH]; intros [|c s]; try done.
  simpl. rewrite string_app_cons. by rewrite IH.
Qed.

Lemma HasPrefix_app p s : HasPrefix (p +:+ s) p = true.
Proof. induction p as [|c p IH]; [by destruct s|]. rewrite string_app_cons. simpl.
  by rewrite Ascii.eqb_refl, IH. Qed.

Lemma HasPrefix_split s p : HasPrefix s p = true -> s = p +:+ TrimPrefix s p.
Proof.
  intros H. unfold TrimPrefix. rewrite H. revert s H.
  induction p as [|c p IH]; intros s H; [by destruct s|].
  destruct s as [|c' s]; simpl in H; [done|].
  apply andb_true_iff in H as [Hc H]. apply Ascii.eqb_eq in Hc as ->.
  rewrite string_app_cons. simpl. f_equal. by apply IH.
Qed.

Lemma HasSuffix_app s t : HasSuffix (s +:+ t) t = true.
Proof.
  unfold HasSuffix. rewrite string_app_length.
  replace (String.length s + String.length t - String.length t)%nat with (String.length s) by lia.
  rewrite string_drop_app, String.eqb_refl, andb_true_r. apply Nat.leb_le. lia.
Qed.

Lemma HasSuffix_split s t : HasSuffix s t = true -> s = TrimSuffix s t +:+ t.
Proof.
  intros H. unfold TrimSuffix. rewrite H. unfold HasSuffix in H.
  apply andb_true_iff in H as [_ H]. apply String.eqb_eq in H.
  pose proof (string_take_drop (String.length s - String.length t) s) as Hs.
  by rewrite H in Hs.
Qed.

Lemma TrimPrefix_app p s : TrimPrefix (p +:+ s) p = s.
Proof. unfold TrimPrefix. by rewrite HasPrefix_app, string_drop_app. Qed.

Lemma TrimSuffix_app s t : TrimSuffix (s +:+ t) t = s.
Proof.
  unfold TrimSuffix. rewrite HasSuffix_app, string_app_length.
  replace (String.length s + String.length t - String.length t)%nat with (String.length s) by lia.
  apply string_take_app.
Qed.

(** *** Decimal printing and parsing are inverse *)

Lemma digit_val_char d : (0 <= d < 10)%Z -> digit_val (digit_char d) = Some d.
Proof.
  intros H.
  assert (Hd : (d = 0 \/ d = 1 \/ d = 2 \/ d = 3 \/ d = 4 \/ d = 5 \/ d = 6 \/ d = 7 \/ d = 8 \/ d = 9)%Z) by lia.
  by destruct_or! Hd; subst.
Qed.

Lemma digits_val_fixed k n acc :
  (0 <= n)%Z ->
  digits_val acc (fixed_digits k n) = Some (acc * 10 ^ Z.of_nat k + n mod 10 ^ Z.of_nat k)%Z.
Proof.
  intros Hn. revert acc. induction k as [|k IH]; intros acc.
  - simpl. rewrite Z.mod_1_r. f_equal. lia.
  - cbn [fixed_digits digits_val].
    rewrite digit_val_char by (apply Z.mod_pos_bound; lia). rewrite IH. f_equal.
    replace (Z.of_nat (S k)) with (Z.of_nat k + 1)%Z by lia.
    rewrite Z.pow_add_r, Z.pow_1_r by lia.
    rewrite (Z.rem_mul_r n (10 ^ Z.of_nat k) 10) by lia. ring.
Qed.

Lemma count_digits_bound fuel k n :
  (0 <= n)%Z -> (n < 10 ^ Z.of_nat (fuel + k))%Z ->
  (n < 10 ^ Z.of_nat (count_digits fuel k n))%Z /\ (k <= count_digits fuel k n)%nat.
Proof.
  revert k; induction fuel as [|fuel IH]; intros k Hn H; simpl; [done|].
  case_match eqn:E; [apply Z.ltb_lt in E; lia|].
  destruct (IH (S k)) as [H1 H2]; [done| by rewrite Nat.add_succ_r|]. lia.
Qed.

Lemma ndigits_bound n : (0 <= n <= two63)%Z -> (n < 10 ^ Z.of_nat (ndigits n))%Z /\ (1 <= ndigits n)%nat.
Proof. intros H. apply count_digits_bound; [lia|]. unfold two63 in H. simpl. lia. Qed.

Lemma fixed_digits_nonempty k n : (1 <= k)%nat -> fixed_digits k n <> EmptyString.
Proof. intros. destruct k; [lia|done]. Qed.

Lemma digits_val_fixed_exact k n :
  (0 <= n < 10 ^ Z.of_nat k)%Z -> digits_val 0 (fixed_digits k n) = Some n.
Proof. intros H. rewrite digits_val_fixed by lia. rewrite Z.mod_small by lia. done. Qed.

(** A string of digits does not start with a sign. *)
Lemma ParseInt_unsigned s v :
  digits_val 0 s = Some v -> s <> EmptyString -> (v < two63)%Z -> (0 <= v)%Z -> ParseInt s = Some v.
Proof.
  intros Hv Hne Hlt Hpos. unfold ParseInt.
  assert (Hs : match s with
          | String "-" r => (true, r) | String "+" r => (false, r) | _ => (false, s)
          end = (false, s)).
  { destruct s as [|[[] [] [] [] [] [] [] []] s]; try done. }
  rewrite Hs. destruct (String.eqb_spec s EmptyString); [done|]. rewrite Hv.
  replace (- two63 <=? v)%Z with true by (symmetry; apply Z.leb_le; unfold two63; lia).
  replace (v <? two63)%Z with true by (symmetry; apply Z.ltb_lt; lia). done.
Qed.

Lemma ParseInt_negative s v :
  digits_val 0 s = Some v -> s <> EmptyString -> (0 <= v <= two63)%Z ->
  ParseInt (String "-" s) = Some (- v)%Z.
Proof.
  intros Hv Hne Hlt. unfold ParseInt.
  destruct (String.eqb_spec s EmptyString); [done|]. rewrite Hv.
  replace (- two63 <=? - v)%Z with true by (symmetry; apply Z.leb_le; lia).
  replace (- v <? two63)%Z with true by (symmetry; apply Z.ltb_lt; unfold two63 in *; lia). done.
Qed.

Lemma pow10_mono j k : (j <= k)%nat -> (10 ^ Z.of_nat j <= 10 ^ Z.of_nat k)%Z.
Proof. intros. apply Z.pow_le_mono_r; lia. Qed.

Lemma Atoi_Sprintf w n : in_int64 n -> Atoi (Sprintf_0d w n) = Some n.
Proof.
  intros [Hlo Hhi]. unfold Atoi, Sprintf_0d. case_match eqn:E.
  - apply Z.ltb_lt in E. destruct (ndigits_bound (- n)) as [Hb Hk]; [lia|].
    pose proof (pow10_mono (ndigits (- n)) (Nat.max (w - 1) (ndigits (- n)))).
    rewrite (ParseInt_negative _ (- n)); [f_equal; lia | | apply fixed_digits_nonempty; lia | lia].
    apply digits_val_fixed_exact. lia.
  - apply Z.ltb_ge in E. destruct (ndigits_bound n) as [Hb Hk]; [lia|].
    pose proof (pow10_mono (ndigits n) (Nat.max w (ndigits n))).
    apply ParseInt_unsigned; [| apply fixed_digits_nonempty; lia | lia | lia].
    apply digits_val_fixed_exact. lia.
Qed.

(** *** Lower-casing leaves plain ASCII alone *)

Definition plain (c : ascii) : bool :=
  let n := N_of_ascii c in (n <? 128)%N && negb ((65 <=? n) && (n <=? 90))%N.

Fixpoint all_plain (s : string) : bool :=
  match s with EmptyString => true | String c s' => plain c && all_plain s' end.

Lemma ToLower_plain s : all_plain s = true -> ToLower s = s.
Proof.
  induction s as [|c s IH]; [done|]. simpl. intros [Hc Hs]%andb_true_iff.
  specialize (IH Hs).
  destruct c as [[] [] [] [] [] [] [] []]; try done; simpl; by rewrite IH.
Qed.

Lemma all_plain_app s t : all_plain (s +:+ t) = all_plain s && all_plain t.
Proof. induction s as [|c s IH]; [done|]. rewrite string_app_cons. simpl. by rewrite IH, andb_assoc. Qed.

Lemma digits_val_plain s acc v : digits_val acc s = Some v -> all_plain s = true.
Proof.
  revert acc; induction s as [|c s IH]; intros acc; [done|]. simpl.
  destruct (digit_val c) eqn:E; [|done]. intros H. rewrite (IH _ H), andb_true_r.
  by destruct c as [[] [] [] [] [] [] [] []].
Qed.

Lemma Atoi_plain s n : Atoi s = Some n -> all_plain s = true.
Proof.
  unfold Atoi, ParseInt. intros H.
  destruct (match s with
            | String "-" r => (true, r) | String "+" r => (false, r) | _ => (false, s)
            end) as [neg body] eqn:E.
  assert (Hb : all_plain body = true).
  { destruct (String.eqb body EmptyString); [done|].
    destruct (digits_val 0 body) eqn:Ev; [|done]. by eapply digits_val_plain. }
  destruct s as [|c s]; [done|].
  destruct c as [[] [] [] [] [] [] [] []]; simplify_eq; try done.
Qed.

Lemma Atoi_range s n : Atoi s = Some n -> in_int64 n.
Proof.
  unfold Atoi, ParseInt, in_int64. intros H.
  destruct (match s with
            | String "-" r => (true, r) | String "+" r => (false, r) | _ => (false, s)
            end) as [neg body] eqn:E.
  repeat case_match; simplify_eq;
    match goal with Hr : (_ && _) = true |- _ =>
      apply andb_true_iff in Hr as [?%Z.leb_le ?%Z.ltb_lt] end; done.
Qed.

(** ** [time.Duration.String]

    [fmtFrac] drops the trailing zeros of the fraction, and the point with
    them when nothing is left. *)
Fixpoint trim_zeros (prec : nat) (v : Z) : nat * Z :=
  match prec with
  | O => (O, v)
  | S prec' => if (v mod 10 =? 0)%Z then trim_zeros prec' (v / 10) else (prec, v)
  end.

Definition fmtFrac (v : Z) (prec : nat) : string :=
  let frac := (v mod 10 ^ Z.of_nat prec)%Z in
  match trim_zeros prec frac with
  | (O, _) => EmptyString
  | (k, f) => String "." (fixed_digits k f)
  end.

Definition Duration_String (d : Z) : string :=
  let u := Z.abs d in
  let sign := if (d <? 0)%Z then "-" else EmptyString in
  if (u =? 0)%Z then "0s" else
  if (u <? 1000)%Z then sign +:+ Itoa u +:+ "ns" else
  if (u <? 1000000)%Z then sign +:+ Itoa (u / 1000) +:+ fmtFrac u 3 +:+ "µs" else
  if (u <? 1000000000)%Z then sign +:+ Itoa (u / 1000000) +:+ fmtFrac u 6 +:+ "ms" else
  let s := (u / 1000000000)%Z in
  let secs := Itoa (s mod 60) +:+ fmtFrac u 9 +:+ "s" in
  let m := (s / 60)%Z in
  if (m =? 0)%Z then sign +:+ secs else
  let mins := Itoa (m mod 60) +:+ "m" +:+ secs in
  let h := (m / 60)%Z in
  if (h =? 0)%Z then sign +:+ mins else sign +:+ Itoa h +:+ "h" +:+ mins.

Example duration_examples :
  Duration_String 5000000000 = "5s" /\ Duration_String 3100000000 = "3.1s" /\
  Duration_String 10000000 = "10ms" /\ Duration_String 5400000000000 = "1h30m0s" /\
  Duration_String (-1500) = "-1.5µs".
Proof. vm_compute. repeat split. Qed.

(** ** Bytes *)

Lemma byte_val_range c : (0 <= byte_val c < 256)%Z.
Proof. unfold byte_val. pose proof (N_ascii_bounded c). lia. Qed.

Lemma byte_val_of z : (0 <= z < 256)%Z -> byte_val (byte_of z) = z.
Proof.
  intros Hz. unfold byte_val, byte_of. rewrite Z.mod_small by done. rewrite N_ascii_embedding by lia. lia.
Qed.

Lemma byte_of_val c : byte_of (byte_val c) = c.
Proof.
  unfold byte_val, byte_of. rewrite Z.mod_small by (pose proof (N_ascii_bounded c); lia).
  rewrite N2Z.id. apply ascii_N_embedding.
Qed.
