(* ===== verification/GoUtf8.v ===== *)
(** * [unicode/utf8]

    Runes are numbers.  A byte sequence that is not UTF-8 decodes to
    replacement characters, one per offending byte. *)

From Stdlib Require Import ZArith Lia Ascii String.
From stdpp Require Import base tactics numbers strings list.
From S2P Require Import Prelude GoStrings.

Module utf8.
Local Open Scope Z_scope.

Definition RuneError : Z := 0xFFFD.

Definition between (lo hi z : Z) : bool := (lo <=? z) && (z <=? hi).

Definition is_surrogate (r : Z) : bool := between 0xD800 0xDFFF r.

(** The runes that have an encoding. *)
Definition ValidRune (r : Z) : bool := between 0 0x10FFFF r && negb (is_surrogate r).

(** [EncodeRune]; what is not a rune is written as [RuneError]. *)
Definition encode_valid (r : Z) : bytes :=
  if r <? 0x80 then [byte_of r]
  else if r <? 0x800 then [byte_of (0xC0 + r / 64); byte_of (0x80 + r mod 64)]
  else if r <? 0x10000 then
    [byte_of (0xE0 + r / 4096); byte_of (0x80 + r / 64 mod 64); byte_of (0x80 + r mod 64)]
  else
    [byte_of (0xF0 + r / 262144); byte_of (0x80 + r / 4096 mod 64);
     byte_of (0x80 + r / 64 mod 64); byte_of (0x80 + r mod 64)].

Definition EncodeRune (r : Z) : bytes := encode_valid (if ValidRune r then r else RuneError).

(** [DecodeRune] of a non-empty sequence: the rune and its size. *)
Definition cont (z : Z) : bool := between 0x80 0xBF z.

Definition DecodeRune (b : bytes) : Z * nat :=
  match byte_val <$> b with
  | [] => (RuneError, 0%nat)
  | b0 :: rest =>
      if b0 <? 0x80 then (b0, 1%nat)
      else if between 0xC2 0xDF b0 then
        match rest with
        | b1 :: _ => if cont b1 then ((b0 - 0xC0) * 64 + (b1 - 0x80), 2%nat) else (RuneError, 1%nat)
        | _ => (RuneError, 1%nat)
        end
      else if between 0xE0 0xEF b0 then
        match rest with
        | b1 :: b2 :: _ =>
            if between (if b0 =? 0xE0 then 0xA0 else 0x80) (if b0 =? 0xED then 0x9F else 0xBF) b1 && cont b2
            then ((b0 - 0xE0) * 4096 + (b1 - 0x80) * 64 + (b2 - 0x80), 3%nat) else (RuneError, 1%nat)
        | _ => (RuneError, 1%nat)
        end
      else if between 0xF0 0xF4 b0 then
        match rest with
        | b1 :: b2 :: b3 :: _ =>
            if between (if b0 =? 0xF0 then 0x90 else 0x80) (if b0 =? 0xF4 then 0x8F else 0xBF) b1 && cont b2 && cont b3
            then ((b0 - 0xF0) * 262144 + (b1 - 0x80) * 4096 + (b2 - 0x80) * 64 + (b3 - 0x80), 4%nat)
            else (RuneError, 1%nat)
        | _ => (RuneError, 1%nat)
        end
      else (RuneError, 1%nat)
  end.

(** The runes of a byte sequence; [skip] bytes belong to the rune before. *)
Fixpoint runes (skip : nat) (b : bytes) : list Z :=
  match b with
  | [] => []
  | c :: b' =>
      match skip with
      | S k => runes k b'
      | O => let '(r, n) := DecodeRune b in r :: runes (pred n) b'
      end
  end.

(** [strings.ToValidUTF8(s, "\uFFFD")], byte by byte. *)
Definition to_valid (b : bytes) : bytes := concat (EncodeRune <$> runes 0 b).

(** ** Decoding what was encoded *)

Lemma between_iff lo hi z : between lo hi z = true <-> lo <= z <= hi.
Proof. unfold between. rewrite andb_true_iff, !Z.leb_le. done. Qed.

Lemma between_false lo hi z : between lo hi z = false <-> ~ lo <= z <= hi.
Proof. rewrite <- between_iff. by destruct (between lo hi z). Qed.

Lemma ValidRune_range r : ValidRune r = true <-> 0 <= r <= 0x10FFFF /\ ~ 0xD800 <= r <= 0xDFFF.
Proof.
  unfold ValidRune, is_surrogate. rewrite andb_true_iff, negb_true_iff, between_iff, between_false. done.
Qed.

Lemma RuneError_valid : ValidRune RuneError = true.
Proof. done. Qed.

Lemma ValidRune_if r : ValidRune (if ValidRune r then r else RuneError) = true.
Proof. by destruct (ValidRune r) eqn:E. Qed.

(** The decision of [DecodeRune], each test decided by arithmetic. *)
Ltac decide_bounds :=
  repeat match goal with
  | |- context [(?a <? ?b)%Z] => first
      [ rewrite (proj2 (Z.ltb_lt a b)) by lia | rewrite (proj2 (Z.ltb_ge a b)) by lia ]
  | |- context [(?a =? ?b)%Z] => first
      [ rewrite (proj2 (Z.eqb_eq a b)) by lia | rewrite (proj2 (Z.eqb_neq a b)) by lia ]
  | |- context [between ?l ?h ?z] => first
      [ rewrite (proj2 (between_iff l h z)) by lia | rewrite (proj2 (between_false l h z)) by lia ]
  end.

Lemma decode_encode r rest :
  ValidRune r = true -> DecodeRune (encode_valid r ++ rest) = (r, length (encode_valid r)).
Proof.
  intros [Hr Hs]%ValidRune_range. unfold encode_valid.
  destruct (Z.ltb_spec r 0x80) as [H1|H1]; [|destruct (Z.ltb_spec r 0x800) as [H2|H2];
    [|destruct (Z.ltb_spec r 0x10000) as [H3|H3]]]; unfold DecodeRune; cbn [app fmap list_fmap length].
  - rewrite byte_val_of by lia. by decide_bounds.
  - set (q := r / 64). set (m := r mod 64).
    assert (Hq : r = 64 * q + m /\ 0 <= m < 64) by (unfold q, m; Z.to_euclidean_division_equations; lia).
    rewrite !byte_val_of by lia. unfold cont. decide_bounds. f_equal. lia.
  - set (q := r / 4096). set (m := r / 64 mod 64). set (l := r mod 64).
    assert (Hq : r = 4096 * q + 64 * m + l /\ 0 <= m < 64 /\ 0 <= l < 64)
      by (unfold q, m, l; Z.to_euclidean_division_equations; lia).
    rewrite !byte_val_of by lia. unfold cont. decide_bounds.
    destruct (Z.eqb_spec (0xE0 + q) 0xE0), (Z.eqb_spec (0xE0 + q) 0xED);
      decide_bounds; cbn [andb]; f_equal; lia.
  - set (q := r / 262144). set (m := r / 4096 mod 64). set (l := r / 64 mod 64). set (k := r mod 64).
    assert (Hq : r = 262144 * q + 4096 * m + 64 * l + k /\ 0 <= m < 64 /\ 0 <= l < 64 /\ 0 <= k < 64)
      by (unfold q, m, l, k; Z.to_euclidean_division_equations; lia).
    rewrite !byte_val_of by lia. unfold cont. decide_bounds.
    destruct (Z.eqb_spec (0xF0 + q) 0xF0), (Z.eqb_spec (0xF0 + q) 0xF4);
      decide_bounds; cbn [andb]; f_equal; lia.
Qed.

Lemma encode_valid_nonempty r : encode_valid r <> [].
Proof. unfold encode_valid. by repeat case_match. Qed.

(** What [DecodeRune] finds: a rune, of at least one byte of the input. *)
Lemma decode_valid c b : let '(r, n) := DecodeRune (c :: b) in
  ValidRune r = true /\ (1 <= n <= length (c :: b))%nat.
Proof.
  unfold DecodeRune. cbn [fmap list_fmap]. pose proof (byte_val_range c) as Hc. set (b0 := byte_val c) in *.
  destruct (Z.ltb_spec b0 0x80); [split; [apply ValidRune_range; lia|cbn; lia]|].
  destruct (between 0xC2 0xDF b0) eqn:E2; [apply between_iff in E2|].
  { destruct b as [|c1 b]; [by split; [|cbn; lia]|]. cbn [fmap list_fmap].
    destruct (cont (byte_val c1)) eqn:E; [|by split; [|cbn; lia]]. apply between_iff in E.
    split; [apply ValidRune_range; lia|cbn; lia]. }
  destruct (between 0xE0 0xEF b0) eqn:E3; [apply between_iff in E3|].
  { destruct b as [|c1 [|c2 b]]; [by split; [|cbn; lia]..|]. cbn [fmap list_fmap].
    destruct (_ && _) eqn:E; [|by split; [|cbn; lia]]. apply andb_true_iff in E as [Ea Eb].
    apply between_iff in Ea, Eb. split; [apply ValidRune_range|cbn; lia].
    destruct (Z.eqb_spec b0 0xE0), (Z.eqb_spec b0 0xED); lia. }
  destruct (between 0xF0 0xF4 b0) eqn:E4; [apply between_iff in E4|by split; [|cbn; lia]].
  destruct b as [|c1 [|c2 [|c3 b]]]; [by split; [|cbn; lia]..|]. cbn [fmap list_fmap].
  destruct (_ && _) eqn:E; [|by split; [|cbn; lia]]. apply andb_true_iff in E as [E Ec]. apply andb_true_iff in E as [Ea Eb].
  apply between_iff in Ea, Eb, Ec. split; [apply ValidRune_range|cbn; lia].
  destruct (Z.eqb_spec b0 0xF0), (Z.eqb_spec b0 0xF4); lia.
Qed.

Lemma runes_skip k b : (k <= length b)%nat -> runes k b = runes 0 (drop k b).
Proof.
  revert k; induction b as [|c b IH]; intros [|k] Hk; cbn in *; [done|lia|done|]. apply IH. lia.
Qed.

Lemma runes_cons c b : runes 0 (c :: b) = let '(r, n) := DecodeRune (c :: b) in r :: runes 0 (drop n (c :: b)).
Proof.
  cbn [runes]. pose proof (decode_valid c b) as Hv. destruct (DecodeRune (c :: b)) as [r n]. destruct Hv as [_ Hn].
  destruct n as [|n]; [lia|]. cbn [pred drop]. by rewrite runes_skip by (cbn in Hn; lia).
Qed.

Lemma runes_encode rs : Forall (fun r => ValidRune r = true) rs -> runes 0 (concat (encode_valid <$> rs)) = rs.
Proof.
  induction 1 as [|r rs Hr _ IH]; [done|]. cbn [fmap list_fmap concat].
  pose proof (decode_encode r (concat (encode_valid <$> rs)) Hr) as Hd.
  pose proof (encode_valid_nonempty r) as Hne. destruct (encode_valid r) as [|c e] eqn:Ee; [done|].
  cbn [app] in *. rewrite runes_cons, Hd, app_comm_cons, drop_app_length. by rewrite IH.
Qed.

Lemma runes_valid k b : Forall (fun r => ValidRune r = true) (runes k b).
Proof.
  revert k; induction b as [|c b IH]; intros [|k]; cbn [runes]; [done|done| |apply IH].
  pose proof (decode_valid c b) as Hv. destruct (DecodeRune (c :: b)) as [r n]. constructor; [apply Hv|apply IH].
Qed.

Lemma EncodeRune_valid r : ValidRune r = true -> EncodeRune r = encode_valid r.
Proof. intros Hr. unfold EncodeRune. by rewrite Hr. Qed.

Lemma to_valid_runes b : to_valid b = concat (encode_valid <$> runes 0 b).
Proof.
  unfold to_valid. f_equal. apply list_fmap_ext. intros i r Hi. apply EncodeRune_valid.
  exact (Forall_lookup_1 _ _ _ _ (runes_valid 0 b) Hi).
Qed.

(** Cleaning is idempotent, and its fixed points are the valid sequences. *)
Lemma to_valid_idem b : to_valid (to_valid b) = to_valid b.
Proof. rewrite !to_valid_runes. by rewrite runes_encode by apply runes_valid. Qed.
End utf8.
