(* ===== verification/GoText.v ===== *)
(** * [strings.EqualFold] and [path/filepath.Join]

    What the log writers use of Go's text functions: comparison under case
    folding, and the joining and cleaning of slash-separated paths. *)

From Stdlib Require Import ZArith Lia Ascii String.
From stdpp Require Import base tactics numbers strings list.
From S2P Require Import Prelude GoStrings GoUtf8.

Import utf8.
Local Open Scope Z_scope.

(** ** [strings.EqualFold]

    Two texts are equal under simple Unicode case folding when their runes
    are, one by one.  The folding classes that hold an ASCII character are
    written out: a letter and its other case and, for k and s, the Kelvin sign
    and the long s.  [wide] is the table for two runes outside ASCII. *)
Section folding.
Context (wide : Z -> Z -> bool).

Definition lower_rune (r : Z) : Z := if between 65 90 r then r + 32 else r.

(** The ASCII form of a rune, if its folding class has one. *)
Definition ascii_fold (r : Z) : option Z :=
  if r <? 0x80 then Some (lower_rune r)
  else if r =? 0x212A then Some 107
  else if r =? 0x17F then Some 115
  else None.

Definition rune_fold_eq (r1 r2 : Z) : bool :=
  match ascii_fold r1, ascii_fold r2 with
  | Some c1, Some c2 => c1 =? c2
  | None, None => (r1 =? r2) || wide r1 r2
  | _, _ => false
  end.

Fixpoint fold_eq (s t : list Z) : bool :=
  match s, t with
  | [], [] => true
  | r1 :: s', r2 :: t' => rune_fold_eq r1 r2 && fold_eq s' t'
  | _, _ => false
  end.

Definition EqualFold (s t : bytes) : bool := fold_eq (runes 0 s) (runes 0 t).

(** Byte-wise equality up to the case of ASCII letters. *)
Definition ascii_byte (c : ascii) : Prop := byte_val c < 0x80.

Definition same_letters (s t : bytes) : Prop := lower_ascii <$> s = lower_ascii <$> t.

Lemma lower_ascii_val c : byte_val (lower_ascii c) = lower_rune (byte_val c).
Proof. by destruct c as [[] [] [] [] [] [] [] []]. Qed.

Lemma lower_ascii_eq c d : lower_rune (byte_val c) = lower_rune (byte_val d) <-> lower_ascii c = lower_ascii d.
Proof.
  rewrite <- !lower_ascii_val. split; [|by intros ->].
  intros H. by rewrite <- (byte_of_val (lower_ascii c)), H, byte_of_val.
Qed.

(** A byte outside ASCII starts a rune outside ASCII, a replacement
    character when nothing else belongs to it. *)
Lemma decode_wide c b : 0x80 <= byte_val c ->
  let '(r, n) := DecodeRune (c :: b) in 0x80 <= r /\ (n = 1%nat -> r = RuneError).
Proof.
  intros Hc. unfold DecodeRune. cbn [fmap list_fmap]. set (b0 := byte_val c) in *.
  assert (Herr : 0x80 <= RuneError /\ (1%nat = 1%nat -> RuneError = RuneError)) by (by unfold RuneError).
  destruct (Z.ltb_spec b0 0x80); [lia|].
  destruct (between 0xC2 0xDF b0) eqn:E2; [apply between_iff in E2|].
  { destruct b as [|c1 b]; [done|]. cbn [fmap list_fmap].
    destruct (cont (byte_val c1)) eqn:E; [|done]. apply between_iff in E. split; [lia|done]. }
  destruct (between 0xE0 0xEF b0) eqn:E3; [apply between_iff in E3|].
  { destruct b as [|c1 [|c2 b]]; [done..|]. cbn [fmap list_fmap].
    destruct (_ && _) eqn:E; [|done]. apply andb_true_iff in E as [Ea Eb].
    apply between_iff in Ea, Eb. split; [|done]. destruct (Z.eqb_spec b0 0xE0); lia. }
  destruct (between 0xF0 0xF4 b0) eqn:E4; [apply between_iff in E4|done].
  destruct b as [|c1 [|c2 [|c3 b]]]; [done..|]. cbn [fmap list_fmap].
  destruct (_ && _) eqn:E; [|done]. apply andb_true_iff in E as [E Ec]. apply andb_true_iff in E as [Ea Eb].
  apply between_iff in Ea, Eb, Ec. split; [|done]. destruct (Z.eqb_spec b0 0xF0); lia.
Qed.

Lemma decode_ascii c b : ascii_byte c -> DecodeRune (c :: b) = (byte_val c, 1%nat).
Proof. unfold ascii_byte. intros Hc. unfold DecodeRune. cbn [fmap list_fmap]. by apply Z.ltb_lt in Hc as ->. Qed.

Lemma runes_ascii t : Forall ascii_byte t -> runes 0 t = byte_val <$> t.
Proof. induction 1 as [|c t Hc _ IH]; [done|]. rewrite runes_cons, decode_ascii by done. cbn [drop]. rewrite drop_0, IH. done. Qed.

Lemma ascii_fold_ascii c : ascii_byte c -> ascii_fold (byte_val c) = Some (lower_rune (byte_val c)).
Proof. unfold ascii_byte, ascii_fold. by intros ->%Z.ltb_lt. Qed.

(** A text that folds to an ASCII text is at least as long, and is that text
    up to the case of its letters when it is as long. *)
Lemma fold_ascii s t : Forall ascii_byte t -> fold_eq (runes 0 s) (byte_val <$> t) = true ->
  (length t <= length s)%nat /\ (length s = length t -> same_letters s t).
Proof.
  unfold same_letters. intros Ht. revert s; induction Ht as [|d t Hd _ IH]; intros [|c s]; cbn [fmap list_fmap].
  - done.
  - by rewrite runes_cons; destruct (DecodeRune (c :: s)).
  - done.
  - rewrite runes_cons. pose proof (decode_valid c s) as Hv. pose proof (decode_wide c s) as Hw.
    destruct (DecodeRune (c :: s)) as [r n] eqn:Ed. cbn [fold_eq]. intros [Hr Hs]%andb_true_iff.
    apply IH in Hs as [Hlen Hs]. rewrite length_drop in Hlen, Hs. cbn [length] in *.
    split; [lia|]. intros E. assert (n = 1)%nat as -> by lia. cbn [drop] in *. rewrite drop_0 in *.
    rewrite Hs by lia. f_equal. apply lower_ascii_eq. unfold rune_fold_eq in Hr.
    rewrite (ascii_fold_ascii d) in Hr by done. destruct (decide (byte_val c < 0x80)) as [Hc|Hc].
    + rewrite decode_ascii in Ed by done. injection Ed as <-. rewrite ascii_fold_ascii in Hr by done.
      by apply Z.eqb_eq in Hr.
    + destruct Hw as [_ Hw]; [lia|]. by rewrite Hw in Hr.
Qed.

(** On texts of the same length [EqualFold] with an ASCII text ignores the
    case of the letters and nothing else. *)
Lemma EqualFold_ascii s t : Forall ascii_byte t -> length s = length t ->
  EqualFold s t = true <-> same_letters s t.
Proof.
  intros Ht Hl. unfold EqualFold. rewrite (runes_ascii t) by done. split; [intros; by apply fold_ascii|].
  unfold same_letters. clear Hl. revert s; induction Ht as [|d t Hd Ht IH]; intros [|c s]; try done.
  cbn [fmap list_fmap]. intros [= Hc Hs]. apply lower_ascii_eq in Hc.
  assert (ascii_byte c) as Hca.
  { unfold ascii_byte, lower_rune in *. pose proof (byte_val_range c).
    destruct (between 65 90 (byte_val c)) eqn:E1, (between 65 90 (byte_val d)) eqn:E2;
      rewrite ?between_iff, ?between_false in *; lia. }
  rewrite runes_cons, decode_ascii by done. cbn [drop fold_eq]. rewrite drop_0, IH by done. rewrite andb_true_r.
  unfold rune_fold_eq. rewrite !ascii_fold_ascii by done. by apply Z.eqb_eq.
Qed.
End folding.

(** ** [filepath.Join] *)

(** The elements of a path. *)
Fixpoint path_elements (s : string) : list string :=
  match s with
  | EmptyString => [EmptyString]
  | String c s' =>
      if Ascii.eqb c "/" then EmptyString :: path_elements s'
      else match path_elements s' with e :: es => String c e :: es | [] => [String c EmptyString] end
  end.

(** One element of [Clean], on the elements kept so far, last first. *)
Definition clean_element (rooted : bool) (kept : list string) (e : string) : list string :=
  if String.eqb e "" || String.eqb e "." then kept
  else if String.eqb e ".." then
    match kept with
    | k :: kept' => if String.eqb k ".." then e :: kept else kept'
    | [] => if rooted then [] else [e]
    end
  else e :: kept.

Definition Clean (s : string) : string :=
  let rooted := HasPrefix s "/" in
  let kept := String.concat "/" (reverse (foldl (clean_element rooted) [] (path_elements s))) in
  if rooted then "/" +:+ kept else if String.eqb kept "" then "." else kept.

Definition Join (a b : string) : string :=
  if String.eqb a "" then (if String.eqb b "" then "" else Clean b)
  else if String.eqb b "" then Clean a else Clean (a +:+ "/" +:+ b).

Example joined :
  (Join "logs" "error", Join "/var//log/" "./warn", Join "logs/x" "../../..", Join "" "", Join "logs" "")
  = ("logs/error", "/var/log/warn", "..", "", "logs").
Proof. vm_compute. reflexivity. Qed.
