(* ===== verification/GoFloat.v ===== *)
(** * [float64]

    IEEE 754 binary64 as in [SpecFloat]: 53 bits of precision, rounding to
    nearest.  Conversions to and from integers and decimal text
    ([strconv.ParseFloat], [strconv.FormatFloat] with the shortest
    representation). *)

From Stdlib Require Import ZArith Lia Ascii String SpecFloat.
From stdpp Require Import base tactics numbers strings list.
From S2P Require Import Prelude GoStrings.

Definition f64 : Type := spec_float.
Definition f64_of_Z (z : Z) : f64 := binary_normalize 53 1024 z 0 false.
Definition f64_div : f64 -> f64 -> f64 := SFdiv 53 1024.
Definition f64_sub : f64 -> f64 -> f64 := SFsub 53 1024.
Definition f64_mul : f64 -> f64 -> f64 := SFmul 53 1024.
Definition f64_geb (x y : f64) : bool := SFleb y x.

(** Conversion to an integer type, towards zero. *)
Definition f64_trunc (x : f64) : Z :=
  match x with
  | S754_finite s m e =>
      let v := if (0 <=? e)%Z then Z.shiftl (Z.pos m) e else Z.shiftr (Z.pos m) (- e) in
      if s then (- v)%Z else v
  | _ => 0%Z
  end.

(** [int(x)]: what amd64 makes of a value out of range is the least integer. *)
Definition f64_to_int (x : f64) : Z :=
  match x with
  | S754_infinity _ | S754_nan => (- two63)%Z
  | _ => let z := f64_trunc x in if ((- two63 <=? z) && (z <? two63))%Z then z else (- two63)%Z
  end.

(** ** Decimal text to [float64]

    [m * 10 ^ e], correctly rounded.  For a negative exponent the quotient is
    taken with at least 66 bits and a sticky bit, more than the rounding
    looks at. *)
Definition f64_of_decimal (neg : bool) (m e : Z) : f64 :=
  let signed z := if neg then (- z)%Z else z in
  if (m =? 0)%Z then S754_zero neg
  else if (0 <=? e)%Z then binary_normalize 53 1024 (signed (m * 10 ^ e)%Z) 0 neg
  else
    let den := (10 ^ (- e))%Z in
    let s := Z.max 0 (66 + Z.log2 den - Z.log2 m) in
    let q := (m * 2 ^ s / den)%Z in
    let sticky := if (m * 2 ^ s mod den =? 0)%Z then 0%Z else 1%Z in
    binary_normalize 53 1024 (signed (2 * q + sticky)%Z) (- (s + 1)) neg.

Definition is_inf (x : f64) : bool := match x with S754_infinity _ => true | _ => false end.

(** ** [float64] to decimal text: the shortest digits that read back *)

(** A positive finite number as a fraction. *)
Definition num_den (m : positive) (e : Z) : Z * Z :=
  if (0 <=? e)%Z then (Z.pos m * 2 ^ e, 1)%Z else (Z.pos m, 2 ^ (- e))%Z.

(** The exponent [k] with [10^(k-1) <= n/d < 10^k], found from an estimate. *)
Fixpoint fix_exp (fuel : nat) (n d k : Z) : Z :=
  let ge j := if (0 <=? j)%Z then (10 ^ j * d <=? n)%Z else (d <=? n * 10 ^ (- j))%Z in
  match fuel with
  | O => k
  | S f => if ge k then fix_exp f n d (k + 1)%Z else if ge (k - 1)%Z then k else fix_exp f n d (k - 1)%Z
  end.

Definition decimal_exp (n d : Z) : Z :=
  fix_exp 8 n d ((Z.log2 n - Z.log2 d) * 30103 / 100000 + 1)%Z.

Definition f64_eqb (x y : f64) : bool := match SFcompare x y with Some Eq => true | _ => false end.

(** [len] digits: the neighbours below and above; whichever reads back, the
    nearer one if both do. *)
Definition try_digits (x : f64) (n d k : Z) (len : nat) : option Z :=
  let p := (k - Z.of_nat len)%Z in
  let '(n', d') := if (0 <=? p)%Z then (n, d * 10 ^ p)%Z else (n * 10 ^ (- p), d)%Z in
  let lo := (n' / d')%Z in
  let r := (n' mod d')%Z in
  let ok z := f64_eqb (f64_of_decimal false z p) x in
  if (r =? 0)%Z then (if ok lo then Some lo else None)
  else match ok lo, ok (lo + 1)%Z with
       | true, true => Some (if (2 * r <? d')%Z || ((2 * r =? d')%Z && Z.even lo) then lo else lo + 1)%Z
       | true, false => Some lo
       | false, true => Some (lo + 1)%Z
       | false, false => None
       end.

Fixpoint shortest_from (fuel len : nat) (x : f64) (n d k : Z) : Z * Z :=
  match fuel with
  | O => (0, 0)%Z
  | S f => match try_digits x n d k len with
           | Some z => (z, (k - Z.of_nat len)%Z)
           | None => shortest_from f (S len) x n d k
           end
  end.

Fixpoint strip_zeros (fuel : nat) (z e : Z) : Z * Z :=
  match fuel with
  | O => (z, e)
  | S f => if (z mod 10 =? 0)%Z then strip_zeros f (z / 10)%Z (e + 1)%Z else (z, e)
  end.

(** All the digits of a positive finite number. *)
Definition exact_digits (m : positive) (e : Z) : Z * Z :=
  if (0 <=? e)%Z then (Z.pos m * 2 ^ e, 0)%Z else (Z.pos m * 5 ^ (- e), e)%Z.

(** The digits and the exponent of a positive finite number.  Seventeen
    digits always read back; the last case makes that evident without an
    error analysis. *)
Definition shortest (m : positive) (e : Z) : Z * Z :=
  let '(n, d) := num_den m e in
  let '(z, p) := shortest_from 17 1 (S754_finite false m e) n d (decimal_exp n d) in
  let '(z, p) := strip_zeros 18 z p in
  if (0 <? z)%Z && f64_eqb (f64_of_decimal false z p) (S754_finite false m e) then (z, p) else exact_digits m e.

(** The digits of [0 <= z], at most [log2 z + 1] of them, and with zeros in
    front up to [w]. *)
Definition pad_digits (w : nat) (z : Z) : string := fixed_digits (Nat.max w (count_digits (Z.to_nat (Z.log2 z)) 1 z)) z.
Definition digits_of (z : Z) : string := pad_digits 0 z.

(** [%e] with at least [w] digits of exponent, and [%f]. *)
Definition fmt_e (w : nat) (z p : Z) : string :=
  let ds := digits_of z in
  let exp := (p + Z.of_nat (String.length ds) - 1)%Z in
  string_take 1 ds +:+ (if (String.length ds =? 1)%nat then EmptyString else String "." (string_drop 1 ds)) +:+
  String "e" (String (if (exp <? 0)%Z then "-" else "+") (pad_digits w (Z.abs exp))).

Definition fmt_f (z p : Z) : string :=
  let ds := digits_of z in
  let dp := (p + Z.of_nat (String.length ds))%Z in
  if (0 <=? p)%Z then ds +:+ fixed_digits (Z.to_nat p) 0
  else if (0 <? dp)%Z then string_take (Z.to_nat dp) ds +:+ String "." (string_drop (Z.to_nat dp) ds)
  else String "0" (String "." (fixed_digits (Z.to_nat (- dp)) 0 +:+ ds)).

Definition with_sign (neg : bool) (s : string) : string := if neg then String "-" s else s.

(** The encoder's format: plain unless below 1e-6 or from 1e21. *)
Definition FormatJSON (x : f64) : option string :=
  match x with
  | S754_zero neg => Some (with_sign neg "0")
  | S754_finite neg m e =>
      let '(z, p) := shortest m e in
      let '(n, d) := num_den m e in
      Some (with_sign neg (if (n * 1000000 <? d)%Z || (10 ^ 21 * d <=? n)%Z then fmt_e 1 z p else fmt_f z p))
  | _ => None
  end.

(** [fmt.Sprint], that is [%v]: an exponent from 1e6 on. *)
Definition Sprint_float (x : f64) : string :=
  match x with
  | S754_zero neg => with_sign neg "0"
  | S754_finite neg m e =>
      let '(z, p) := shortest m e in
      let exp := (p + Z.of_nat (String.length (digits_of z)) - 1)%Z in
      with_sign neg (if (exp <? -4)%Z || (6 <=? exp)%Z then fmt_e 2 z p else fmt_f z p)
  | S754_infinity neg => if neg then "-Inf" else "+Inf"
  | S754_nan => "NaN"
  end.

Example format_examples :
  FormatJSON (f64_of_decimal false 1 (-1)) = Some "0.1" /\
  FormatJSON (f64_of_decimal true 12345678901234567890 0) = Some "-12345678901234567000" /\
  FormatJSON (f64_of_decimal false 1 21) = Some "1e+21" /\
  FormatJSON (f64_of_decimal false 5 (-324)) = Some "5e-324" /\
  FormatJSON (f64_of_decimal false 17976931348623157 292) = Some "1.7976931348623157e+308" /\
  Sprint_float (f64_of_decimal false 12345678 0) = "1.2345678e+07".
Proof. vm_compute. repeat split. Qed.

(** ** Integers of 53 bits are exact *)

Lemma digits2_shift n m : Zpos (digits2_pos (shift_pos n m)) = (Zpos n + Zpos (digits2_pos m))%Z.
Proof.
  unfold shift_pos. rewrite Pos2Nat.inj_iter. rewrite <- (positive_nat_Z n).
  induction (Pos.to_nat n) as [|k IH]; [done|]. rewrite Nat2Z.inj_succ. cbn [Nat.iter nat_rect digits2_pos].
  change (nat_rect (fun _ => positive) m (fun _ => xO) k) with (Nat.iter k xO m) in *.
  rewrite Pos2Z.inj_succ. cbn in IH |- *. lia.
Qed.

Lemma shift_pos_Z n m : Zpos (shift_pos n m) = (Zpos m * 2 ^ Zpos n)%Z.
Proof. rewrite shift_pos_correct. rewrite Z.pow_pos_fold. lia. Qed.

Lemma digits2_bound m k : (0 <= k)%Z -> (Zpos m < 2 ^ k)%Z -> (Zpos (digits2_pos m) <= k)%Z.
Proof.
  revert k; induction m as [m IH|m IH|]; intros k Hk Hm.
  1-2: assert (Hk1 : (1 <= k)%Z) by (destruct (decide (k = 0)%Z) as [->|]; [cbn in Hm; lia|lia]);
       replace k with (1 + (k - 1))%Z in Hm by lia; rewrite Z.pow_add_r in Hm by lia;
       specialize (IH (k - 1)%Z ltac:(lia)); cbn [digits2_pos]; rewrite Pos2Z.inj_succ; lia.
  cbn. destruct (decide (k = 0)%Z) as [->|]; [cbn in Hm; lia|lia].
Qed.

(** A 53-bit mantissa at an exponent in range is not rounded. *)
Lemma round_exact s m e :
  Zpos (digits2_pos m) = 53%Z -> (-1074 <= e <= 971)%Z ->
  binary_round_aux 53 1024 s (Zpos m) e loc_Exact = S754_finite s m e.
Proof.
  intros Hd He. unfold binary_round_aux.
  assert (Hshr : shr_fexp 53 1024 (Zpos m) e loc_Exact = ({| shr_m := Zpos m; shr_r := false; shr_s := false |}, e)).
  { unfold shr_fexp, fexp, emin. cbn [Zdigits2]. rewrite Hd.
    replace (Z.max (53 + e - 53) (3 - 1024 - 53) - e)%Z with 0%Z by lia. done. }
  rewrite Hshr. cbn [shr_m shr_r shr_s loc_of_shr_record round_nearest_even]. rewrite Hshr. cbn [shr_m].
  rewrite (proj2 (Z.leb_le e (1024 - 53))) by lia. done.
Qed.

Lemma f64_of_pos s m :
  (Zpos m < 2 ^ 53)%Z -> exists m' e, binary_round 53 1024 s m 0 = S754_finite s m' e /\
    (e <= 0)%Z /\ Zpos m' = (Zpos m * 2 ^ (- e))%Z.
Proof.
  intros Hm. pose proof (digits2_bound m 53 ltac:(lia) Hm) as Hd. pose proof (Pos2Z.is_pos (digits2_pos m)) as Hp.
  unfold binary_round, shl_align, fexp, emin.
  replace (Z.max (Zpos (digits2_pos m) + 0 - 53) (3 - 1024 - 53) - 0)%Z with (Zpos (digits2_pos m) - 53)%Z by lia.
  replace (Z.max (Zpos (digits2_pos m) + 0 - 53) (3 - 1024 - 53))%Z with (Zpos (digits2_pos m) - 53)%Z by lia.
  destruct (Zpos (digits2_pos m) - 53)%Z as [|k|k] eqn:Ek; [|lia|].
  - exists m, 0%Z. rewrite round_exact by lia. split; [done|]. split; [lia|]. cbn. lia.
  - exists (shift_pos k m), (Zneg k). change (PosDef.Pos.iter xO m k) with (shift_pos k m).
    rewrite round_exact; [|rewrite digits2_shift; lia|lia].
    split; [done|]. split; [lia|]. rewrite shift_pos_Z. done.
Qed.

Lemma f64_trunc_of_Z z : (- 2 ^ 53 < z < 2 ^ 53)%Z -> f64_trunc (f64_of_Z z) = z.
Proof.
  intros Hz. unfold f64_of_Z, binary_normalize. destruct z as [|m|m]; [done|..].
  - destruct (f64_of_pos false m ltac:(lia)) as (m' & e & -> & He & Hm'). cbn [f64_trunc].
    destruct (Z.leb_spec 0 e) as [H0|H0]; [assert (e = 0)%Z as -> by lia; rewrite Z.shiftl_0_r; cbn in Hm'; lia|].
    rewrite Z.shiftr_div_pow2 by lia. rewrite Hm'. apply Z.div_mul. lia.
  - destruct (f64_of_pos true m ltac:(lia)) as (m' & e & -> & He & Hm'). cbn [f64_trunc].
    destruct (Z.leb_spec 0 e) as [H0|H0]; [assert (e = 0)%Z as -> by lia; rewrite Z.shiftl_0_r; cbn in Hm'; lia|].
    rewrite Z.shiftr_div_pow2 by lia. rewrite Hm'. rewrite Z.div_mul by lia. done.
Qed.

(** [int(float64(z))] *)
Lemma f64_to_int_of_Z z : (- 2 ^ 53 < z < 2 ^ 53)%Z -> f64_to_int (f64_of_Z z) = z.
Proof.
  intros Hz. pose proof (f64_trunc_of_Z z Hz) as Ht. unfold f64_to_int. rewrite Ht.
  assert (((- two63 <=? z) && (z <? two63))%Z = true) as ->
    by (apply andb_true_iff; rewrite Z.leb_le, Z.ltb_lt; unfold two63; lia).
  unfold f64_of_Z, binary_normalize in *. destruct z as [|m|m]; [done|..].
  - by destruct (f64_of_pos false m ltac:(lia)) as (m' & e & -> & _).
  - by destruct (f64_of_pos true m ltac:(lia)) as (m' & e & -> & _).
Qed.

(** ** Products of integers of 53 bits are exact *)

Definition shl (m : positive) (n : Z) : positive := match n with Zpos k => shift_pos k m | _ => m end.

Lemma shl_Z m n : (0 <= n)%Z -> Zpos (shl m n) = (Zpos m * 2 ^ n)%Z.
Proof. intros Hn. destruct n as [|k|k]; [cbn; lia|apply shift_pos_Z|lia]. Qed.

Lemma digits2_shl m n : (0 <= n)%Z -> Zpos (digits2_pos (shl m n)) = (Zpos (digits2_pos m) + n)%Z.
Proof. intros Hn. destruct n as [|k|k]; [cbn [shl]; lia|cbn [shl]; rewrite digits2_shift; lia|lia]. Qed.

Lemma digits2_lower m : (2 ^ (Zpos (digits2_pos m) - 1) <= Zpos m)%Z.
Proof.
  induction m as [m IH|m IH|]; cbn [digits2_pos]; [..|done];
    rewrite Pos2Z.inj_succ; replace (Z.succ (Zpos (digits2_pos m)) - 1)%Z with (1 + (Zpos (digits2_pos m) - 1))%Z by lia;
    rewrite Z.pow_add_r by lia; lia.
Qed.

Lemma iter_pos_nat {A} (f : A -> A) n x : @SpecFloat.iter_pos A f n x = Nat.iter (Pos.to_nat n) f x.
Proof.
  revert x; induction n as [n IH|n IH|]; intros x; cbn [SpecFloat.iter_pos]; [..|done].
  - rewrite !IH, Pos2Nat.inj_xI, <- Nat.iter_add, Nat.iter_succ_r. f_equal. lia.
  - rewrite !IH, Pos2Nat.inj_xO, <- Nat.iter_add. f_equal. lia.
Qed.

Lemma iter_shr k m :
  @SpecFloat.iter_pos _ shr_1 k {| shr_m := Zpos (shift_pos k m); shr_r := false; shr_s := false |} =
  {| shr_m := Zpos m; shr_r := false; shr_s := false |}.
Proof.
  rewrite iter_pos_nat. unfold shift_pos. rewrite Pos2Nat.inj_iter.
  induction (Pos.to_nat k) as [|n IH]; [done|]. rewrite Nat.iter_succ_r. exact IH.
Qed.

(** The float of an integer: its mantissa filled up to 53 bits. *)
Definition norm53 (s : bool) (m : positive) : f64 :=
  S754_finite s (shl m (53 - Zpos (digits2_pos m))) (Zpos (digits2_pos m) - 53).

Lemma round_norm53 s m n :
  (Zpos m < 2 ^ 53)%Z -> (53 - Zpos (digits2_pos m) <= n <= 1074)%Z ->
  binary_round_aux 53 1024 s (Zpos (shl m n)) (- n) loc_Exact = norm53 s m.
Proof.
  intros Hm Hn. pose proof (digits2_bound m 53 ltac:(lia) Hm) as Hd. pose proof (Pos2Z.is_pos (digits2_pos m)) as Hp.
  unfold norm53. set (d := Zpos (digits2_pos m)) in *. set (q := shl m (53 - d)).
  assert (Hq : Zpos (digits2_pos q) = 53%Z) by (unfold q; rewrite digits2_shl; lia).
  rewrite <- (round_exact s q (d - 53) Hq) by lia. unfold binary_round_aux.
  assert (Hshr : shr_fexp 53 1024 (Zpos (shl m n)) (- n) loc_Exact = shr_fexp 53 1024 (Zpos q) (d - 53) loc_Exact);
    [|by rewrite Hshr].
  unfold shr_fexp, fexp, emin. cbn [Zdigits2]. rewrite Hq, digits2_shl by lia. fold d.
  replace (Z.max (d + n + - n - 53) (3 - 1024 - 53) - - n)%Z with (d - 53 + n)%Z by lia.
  replace (Z.max (53 + (d - 53) - 53) (3 - 1024 - 53) - (d - 53))%Z with 0%Z by lia.
  destruct (d - 53 + n)%Z as [|k|k] eqn:Ek; [|..|lia].
  - cbn [shr shr_record_of_loc]. unfold q. replace (53 - d)%Z with n by lia. f_equal. lia.
  - assert (Hs : shl m n = shift_pos k q).
    { apply Pos2Z.inj. rewrite shift_pos_Z, shl_Z by lia. unfold q. rewrite shl_Z by lia.
      rewrite <- Z.mul_assoc, <- Z.pow_add_r by lia. f_equal. f_equal. lia. }
    cbn [shr shr_record_of_loc]. rewrite Hs, iter_shr. f_equal. lia.
Qed.

Lemma f64_of_norm53 m : (Zpos m < 2 ^ 53)%Z -> f64_of_Z (Zpos m) = norm53 false m.
Proof.
  intros Hm. pose proof (digits2_bound m 53 ltac:(lia) Hm) as Hd. pose proof (Pos2Z.is_pos (digits2_pos m)) as Hp.
  rewrite <- (round_norm53 false m (53 - Zpos (digits2_pos m))) by lia.
  unfold f64_of_Z, binary_normalize, binary_round, shl_align, fexp, emin.
  replace (Z.max (Zpos (digits2_pos m) + 0 - 53) (3 - 1024 - 53) - 0)%Z with (- (53 - Zpos (digits2_pos m)))%Z by lia.
  replace (Z.max (Zpos (digits2_pos m) + 0 - 53) (3 - 1024 - 53))%Z with (- (53 - Zpos (digits2_pos m)))%Z by lia.
  by destruct (53 - Zpos (digits2_pos m))%Z as [|k|k] eqn:Ek; [| |lia].
Qed.

Lemma f64_mul_int a b :
  (0 < a)%Z -> (0 < b)%Z -> (a * b < 2 ^ 53)%Z -> f64_mul (f64_of_Z a) (f64_of_Z b) = f64_of_Z (a * b).
Proof.
  intros Ha Hb Hab. destruct a as [|a|a], b as [|b|b]; try lia.
  rewrite <- Pos2Z.inj_mul in *. rewrite !f64_of_norm53 by nia. unfold f64_mul, norm53 at 1 2. cbn [SFmul xorb].
  set (na := (53 - Zpos (digits2_pos a))%Z). set (nb := (53 - Zpos (digits2_pos b))%Z).
  pose proof (digits2_bound a 53 ltac:(lia) ltac:(nia)). pose proof (digits2_bound b 53 ltac:(lia) ltac:(nia)).
  pose proof (Pos2Z.is_pos (digits2_pos a)). pose proof (Pos2Z.is_pos (digits2_pos b)).
  assert (Hm : Zpos (shl a na * shl b nb) = Zpos (shl (a * b) (na + nb))).
  { rewrite Pos2Z.inj_mul, !shl_Z by lia. rewrite Z.pow_add_r by lia. nia. }
  rewrite Hm. replace (Zpos (digits2_pos a) - 53 + (Zpos (digits2_pos b) - 53))%Z with (- (na + nb))%Z by lia.
  apply round_norm53; [done|]. split; [|lia].
  enough (Zpos (digits2_pos a) + Zpos (digits2_pos b) - 2 < Zpos (digits2_pos (a * b)))%Z by lia.
  destruct (Z.lt_ge_cases (Zpos (digits2_pos a) + Zpos (digits2_pos b) - 2) (Zpos (digits2_pos (a * b)))) as [|Hle]; [done|].
  exfalso. pose proof (digits2_lower a) as La. pose proof (digits2_lower b) as Lb.
  assert (Hup : (Zpos (a * b) < 2 ^ Zpos (digits2_pos (a * b)))%Z).
  { clear. induction (a * b)%positive as [m IH|m IH|]; cbn [digits2_pos]; [..|done];
      rewrite Pos2Z.inj_succ, Z.pow_succ_r by lia; lia. }
  assert (Hmono : (2 ^ Zpos (digits2_pos (a * b)) <= 2 ^ (Zpos (digits2_pos a) - 1) * 2 ^ (Zpos (digits2_pos b) - 1))%Z).
  { rewrite <- Z.pow_add_r by lia. apply Z.pow_le_mono_r; lia. }
  nia.
Qed.

(** ** What rounding returns is a binary64 number *)

Lemma digits2_log2 m : Zpos (digits2_pos m) = (Z.log2 (Zpos m) + 1)%Z.
Proof.
  pose proof (digits2_lower m) as Hl.
  assert (Hup : (Zpos m < 2 ^ Zpos (digits2_pos m))%Z).
  { clear. induction m as [m IH|m IH|]; cbn [digits2_pos]; [..|done]; rewrite Pos2Z.inj_succ, Z.pow_succ_r by lia; lia. }
  rewrite (Z.log2_unique (Zpos m) (Zpos (digits2_pos m) - 1)); [lia|lia|].
  by replace (Z.succ (Zpos (digits2_pos m) - 1)) with (Zpos (digits2_pos m)) by lia.
Qed.

Lemma shr_1_div r : (0 <= shr_m r)%Z -> shr_m (shr_1 r) = (shr_m r / 2)%Z.
Proof.
  destruct r as [[|[p|p|]|p] ? ?]; cbn [shr_1 shr_m]; intros Hr; try done; try lia.
  - rewrite (Pos2Z.inj_xI p). Z.to_euclidean_division_equations. lia.
  - rewrite (Pos2Z.inj_xO p). Z.to_euclidean_division_equations. lia.
Qed.

Lemma iter_shr_div k r : (0 <= shr_m r)%Z -> shr_m (@SpecFloat.iter_pos _ shr_1 k r) = (shr_m r / 2 ^ Zpos k)%Z.
Proof.
  rewrite iter_pos_nat, <- (positive_nat_Z k). induction (Pos.to_nat k) as [|n IH]; intros Hr; [cbn; by rewrite Z.div_1_r|].
  cbn [Nat.iter nat_rect]. change (nat_rect (fun _ => shr_record) r (fun _ => shr_1) n) with (Nat.iter n shr_1 r).
  specialize (IH Hr). rewrite shr_1_div; rewrite IH; [|apply Z.div_pos; [done|lia]].
  rewrite Zdiv_Zdiv by lia. f_equal. rewrite Nat2Z.inj_succ, Z.pow_succ_r by lia. lia.
Qed.

(** One shift to the exponent the format asks for. *)
Lemma shr_fexp_spec m e l : (0 <= m)%Z -> (e <= fexp 53 1024 (Zdigits2 m + e))%Z ->
  exists r, shr_fexp 53 1024 m e l = (r, fexp 53 1024 (Zdigits2 m + e)) /\
    shr_m r = (m / 2 ^ (fexp 53 1024 (Zdigits2 m + e) - e))%Z.
Proof.
  intros Hm He. unfold shr_fexp. set (E := fexp 53 1024 (Zdigits2 m + e)) in *.
  assert (Hl : shr_m (shr_record_of_loc m l) = m) by (by destruct l as [|[]]).
  destruct (E - e)%Z as [|k|k] eqn:Ek; [|..|lia]; cbn [shr].
  - exists (shr_record_of_loc m l). rewrite Z.div_1_r. split; [f_equal; lia|done].
  - eexists. split; [f_equal; lia|]. by rewrite iter_shr_div, Hl by (by rewrite Hl).
Qed.

Lemma digits_bound m k : (0 <= m)%Z -> (0 <= k)%Z -> (m < 2 ^ k)%Z -> (Zdigits2 m <= k)%Z.
Proof. intros Hm Hk H. destruct m as [|m|m]; [done| |lia]. by apply digits2_bound. Qed.

Lemma digits_lower m k : (0 <= k)%Z -> (2 ^ k <= m)%Z -> (k + 1 <= Zdigits2 m)%Z.
Proof.
  intros Hk H. pose proof (Z.pow_pos_nonneg 2 k). destruct m as [|m|m]; [lia| |lia]. cbn [Zdigits2]. rewrite digits2_log2.
  apply Z.log2_le_mono in H. rewrite Z.log2_pow2 in H by done. lia.
Qed.

Lemma digits_upper m : (0 <= m)%Z -> (m < 2 ^ Zdigits2 m)%Z.
Proof.
  intros Hm. destruct m as [|m|m]; [done| |lia]. cbn [Zdigits2]. rewrite digits2_log2.
  destruct (Z.log2_spec (Zpos m)); [lia|]. by replace (Z.log2 (Zpos m) + 1)%Z with (Z.succ (Z.log2 (Zpos m))) by lia.
Qed.

(** Mantissas of the second step: at most [2 ^ 53], and of 53 bits when the
    exponent is above the least one. *)
Lemma second_shift M E : (0 <= M <= 2 ^ 53)%Z -> (-1074 <= E)%Z -> (E = -1074 \/ 2 ^ 52 <= M)%Z ->
  exists r e, shr_fexp 53 1024 M E loc_Exact = (r, e) /\ (0 <= shr_m r)%Z /\
    forall m, shr_m r = Zpos m -> fexp 53 1024 (Zpos (digits2_pos m) + e) = e.
Proof.
  intros HM HE Hnorm. destruct (decide (M = 2 ^ 53)%Z) as [->|Hne].
  - assert (Hf : fexp 53 1024 (Zdigits2 (2 ^ 53) + E) = (E + 1)%Z).
    { unfold fexp, emin. change (Zdigits2 (2 ^ 53)) with 54%Z. lia. }
    destruct (shr_fexp_spec (2 ^ 53) E loc_Exact) as (r & Er & Hr); [lia|lia|]. rewrite Hf in *.
    exists r, (E + 1)%Z. split; [done|]. replace (E + 1 - E)%Z with 1%Z in Hr by lia. change (2 ^ 53 / 2 ^ 1)%Z with (2 ^ 52)%Z in Hr.
    split; [lia|]. intros m Hm. rewrite Hm in Hr. assert (Zpos (digits2_pos m) = 53%Z) as ->.
    { change (Zpos (digits2_pos m)) with (Zdigits2 (Zpos m)). rewrite Hr. reflexivity. }
    unfold fexp, emin. lia.
  - assert (Hd : (Zdigits2 M <= 53)%Z) by (apply digits_bound; lia).
    assert (Hf : fexp 53 1024 (Zdigits2 M + E) = E).
    { unfold fexp, emin. destruct Hnorm as [->|HM2]; [lia|]. pose proof (digits_lower M 52 ltac:(lia) HM2). lia. }
    destruct (shr_fexp_spec M E loc_Exact) as (r & Er & Hr); [lia|lia|]. rewrite Hf in *.
    exists r, E. split; [done|]. rewrite Z.sub_diag in Hr. change (2 ^ 0)%Z with 1%Z in Hr. rewrite Z.div_1_r in Hr.
    split; [lia|]. intros m Hm. rewrite Hm in Hr. by rewrite <- Hr in Hf.
Qed.

Lemma nearest_even_cases m l : round_nearest_even m l = m \/ round_nearest_even m l = (m + 1)%Z.
Proof. destruct l as [|[]]; cbn; auto. destruct (Z.even m); auto. Qed.

Lemma round_aux_valid s m e l : (0 <= m)%Z -> (e <= fexp 53 1024 (Zdigits2 m + e))%Z ->
  valid_binary 53 1024 (binary_round_aux 53 1024 s m e l) = true /\ binary_round_aux 53 1024 s m e l <> S754_nan.
Proof.
  intros Hm He. unfold binary_round_aux. destruct (shr_fexp_spec m e l Hm He) as (r & -> & Hr).
  set (E := fexp 53 1024 (Zdigits2 m + e)) in *. set (k := (E - e)%Z) in *.
  assert (HE : E = Z.max (Zdigits2 m + e - 53) (-1074)) by (unfold E, fexp, emin; lia).
  assert (H53 : (shr_m r < 2 ^ 53)%Z).
  { rewrite Hr. apply Z.div_lt_upper_bound; [lia|]. rewrite <- Z.pow_add_r by lia.
    eapply Z.lt_le_trans; [by apply digits_upper|]. apply Z.pow_le_mono_r; lia. }
  assert (H0 : (0 <= shr_m r)%Z) by (rewrite Hr; apply Z.div_pos; lia).
  assert (Hnorm : (E = -1074 \/ 2 ^ 52 <= shr_m r)%Z).
  { destruct (decide (E = -1074)%Z) as [|HE']; [by left|]. right. rewrite Hr. apply Z.div_le_lower_bound; [lia|].
    rewrite <- Z.pow_add_r by lia. replace (k + 52)%Z with (Zdigits2 m - 1)%Z by lia.
    destruct m as [|p|p]; [exfalso; unfold k in *; cbn in HE; lia| |lia]. apply digits2_lower. }
  destruct (second_shift (round_nearest_even (shr_m r) (loc_of_shr_record r)) E) as (r2 & e2 & -> & H2 & Hcan).
  - destruct (nearest_even_cases (shr_m r) (loc_of_shr_record r)) as [->| ->]; lia.
  - lia.
  - destruct Hnorm as [?|?]; [by left|right]. destruct (nearest_even_cases (shr_m r) (loc_of_shr_record r)) as [->| ->]; lia.
  - destruct (shr_m r2) as [|p|p] eqn:E2; [done| |lia]. destruct (Z.leb_spec e2 (1024 - 53)) as [Hle|]; [|done].
    split; [|done]. cbn [valid_binary]. unfold bounded, canonical_mantissa. apply andb_true_iff. split.
    + apply Zeq_is_eq_bool. by apply Hcan.
    + by apply Z.leb_le.
Qed.

Lemma binary_round_valid s m e :
  valid_binary 53 1024 (binary_round 53 1024 s m e) = true /\ binary_round 53 1024 s m e <> S754_nan.
Proof.
  unfold binary_round, shl_align. set (F := fexp 53 1024 (Zpos (digits2_pos m) + e)).
  destruct (F - e)%Z as [|k|k] eqn:Ek; apply round_aux_valid; try lia; cbn [Zdigits2]; fold F; [lia..|].
  change (PosDef.Pos.iter xO m k) with (shift_pos k m). rewrite digits2_shift. unfold F in *.
  replace (Zpos k + Zpos (digits2_pos m) + fexp 53 1024 (Zpos (digits2_pos m) + e))%Z with (Zpos (digits2_pos m) + e)%Z by lia. lia.
Qed.

(** Zero, infinite, or finite and canonical. *)
Definition f64_ok (x : f64) : Prop := valid_binary 53 1024 x = true /\ x <> S754_nan.

Lemma f64_of_decimal_ok neg m e : f64_ok (f64_of_decimal neg m e).
Proof.
  assert (Hn : forall z e' s, f64_ok (binary_normalize 53 1024 z e' s)).
  { intros [|p|p] e' s; [by split|apply binary_round_valid..]. }
  unfold f64_of_decimal. destruct (_ =? _)%Z; [by split|]. destruct (_ <=? _)%Z; apply Hn.
Qed.

(** ** Exact decimals are not rounded *)

Lemma round_canonical s m e j : bounded 53 1024 m e = true -> (0 <= j)%Z ->
  binary_round 53 1024 s (shl m j) (e - j) = S754_finite s m e.
Proof.
  unfold bounded, canonical_mantissa. rewrite andb_true_iff, Z.leb_le. intros [Hc%Zeq_bool_eq Hm] Hj.
  unfold binary_round, shl_align. rewrite digits2_shl by lia.
  replace (Zpos (digits2_pos m) + j + (e - j))%Z with (Zpos (digits2_pos m) + e)%Z by lia. rewrite Hc.
  assert (Haux : binary_round_aux 53 1024 s (Zpos (shl m j)) (e - j) loc_Exact = S754_finite s m e).
  { unfold binary_round_aux.
    assert (Hs1 : shr_fexp 53 1024 (Zpos (shl m j)) (e - j) loc_Exact = ({| shr_m := Zpos m; shr_r := false; shr_s := false |}, e)).
    { unfold shr_fexp. cbn [Zdigits2]. rewrite digits2_shl by lia.
      replace (Zpos (digits2_pos m) + j + (e - j))%Z with (Zpos (digits2_pos m) + e)%Z by lia. rewrite Hc.
      replace (e - (e - j))%Z with j by lia. destruct j as [|k|k]; [cbn; f_equal; lia| |lia].
      cbn [shr shr_record_of_loc shl]. rewrite iter_shr. f_equal. lia. }
    assert (Hs2 : shr_fexp 53 1024 (Zpos m) e loc_Exact = ({| shr_m := Zpos m; shr_r := false; shr_s := false |}, e)).
    { unfold shr_fexp. cbn [Zdigits2]. by rewrite Hc, Z.sub_diag. }
    rewrite Hs1. cbn [shr_m loc_of_shr_record round_nearest_even]. rewrite Hs2. cbn [shr_m].
    by rewrite (proj2 (Z.leb_le e (1024 - 53))) by lia. }
  replace (e - (e - j))%Z with j by lia. destruct j as [|k|k]; [exact Haux..|lia].
Qed.

Lemma normalize_shl (neg : bool) m j e' z : (0 <= j)%Z -> (Zpos m * 2 ^ j = z)%Z ->
  binary_normalize 53 1024 (if neg then (- z)%Z else z) e' neg = binary_round 53 1024 neg (shl m j) e'.
Proof. intros Hj <-. rewrite <- shl_Z by done. by destruct neg. Qed.

Lemma exact_digits_read neg m e : bounded 53 1024 m e = true ->
  let '(z, p) := exact_digits m e in (0 < z)%Z /\ f64_of_decimal neg z p = S754_finite neg m e.
Proof.
  intros Hb. unfold exact_digits. destruct (Z.leb_spec 0 e) as [He|He].
  - pose proof (Z.pow_pos_nonneg 2 e ltac:(lia) He). split; [lia|]. unfold f64_of_decimal.
    rewrite (proj2 (Z.eqb_neq (Zpos m * 2 ^ e) 0)) by lia. cbn [Z.leb Z.compare Z.pow]. rewrite Z.mul_1_r.
    rewrite (normalize_shl neg m e) by done. replace 0%Z with (e - e)%Z by lia. by apply round_canonical.
  - set (k := (- e)%Z). assert (Hk : (0 < k)%Z) by lia. pose proof (Z.pow_pos_nonneg 5 k ltac:(lia) ltac:(lia)) as H5.
    pose proof (Z.pow_pos_nonneg 2 k ltac:(lia) ltac:(lia)) as H2.
    split; [lia|]. unfold f64_of_decimal. rewrite (proj2 (Z.eqb_neq (Zpos m * 5 ^ k) 0)), (proj2 (Z.leb_gt 0 e)) by lia.
    fold k. set (z := (Zpos m * 5 ^ k)%Z). assert (H10 : (10 ^ k = 5 ^ k * 2 ^ k)%Z) by (by rewrite <- Z.pow_mul_l).
    set (s := Z.max 0 (66 + Z.log2 (10 ^ k) - Z.log2 z)).
    assert (Hs : (k <= s)%Z).
    { assert (Hlog : Z.log2 (10 ^ k) = (Z.log2 (5 ^ k) + k)%Z) by (rewrite H10, Z.log2_mul_pow2 by lia; lia).
      pose proof (Z.log2_mul_above (Zpos m) (5 ^ k) ltac:(lia) ltac:(lia)) as Ha. fold z in Ha.
      assert (Zpos (digits2_pos m) <= 53)%Z; [|pose proof (digits2_log2 m); lia].
      unfold bounded, canonical_mantissa in Hb. apply andb_true_iff in Hb as [Hc%Zeq_bool_eq _]. unfold fexp, emin in Hc. lia. }
    assert (Hz : (z * 2 ^ s = Zpos m * 2 ^ (s - k) * 10 ^ k)%Z).
    { unfold z. replace s with (s - k + k)%Z at 1 by lia. rewrite Z.pow_add_r by lia. rewrite H10. ring. }
    cbv zeta. rewrite Hz, Z.div_mul, Z.mod_mul by lia. cbn [Z.eqb]. rewrite Z.add_0_r.
    rewrite (normalize_shl neg m (s - k + 1)); [|lia|rewrite Z.pow_add_r by lia; lia].
    replace (- (s + 1))%Z with (e - (s - k + 1))%Z by lia. apply round_canonical; [done|lia].
Qed.

Lemma round_opp m e : binary_round 53 1024 true m e = SFopp (binary_round 53 1024 false m e).
Proof.
  unfold binary_round. destruct (shl_align _ _ _) as [m' e']. unfold binary_round_aux.
  destruct (shr_fexp _ _ _ _ _) as [r1 e1]. destruct (shr_fexp _ _ _ _ _) as [r2 e2]. destruct (shr_m r2); [done| |done].
  by destruct (_ <=? _)%Z.
Qed.

Lemma normalize_opp z e : (0 <= z)%Z -> binary_normalize 53 1024 (- z) e true = SFopp (binary_normalize 53 1024 z e false).
Proof. intros Hz. destruct z as [|m|m]; [done|apply round_opp|lia]. Qed.

Lemma f64_of_decimal_opp m e : (0 < m)%Z -> f64_of_decimal true m e = SFopp (f64_of_decimal false m e).
Proof.
  intros Hm. unfold f64_of_decimal. destruct (m =? 0)%Z; [done|]. destruct (Z.leb_spec 0 e) as [He|He].
  - apply normalize_opp. pose proof (Z.pow_nonneg 10 e). lia.
  - apply normalize_opp. cbv zeta. set (x := (m * 2 ^ _)%Z).
    assert (0 <= x / 10 ^ (- e))%Z; [|destruct (_ =? _)%Z; lia].
    apply Z_div_nonneg_nonneg; [|apply Z.pow_nonneg; lia]. apply Z.mul_nonneg_nonneg; [lia|]. apply Z.pow_nonneg. lia.
Qed.

Lemma f64_eqb_finite x m e : f64_eqb x (S754_finite false m e) = true -> x = S754_finite false m e.
Proof.
  unfold f64_eqb. destruct x as [[]|[]| |[] m' e']; try done. cbn.
  destruct (Z.compare_spec e' e) as [->| |]; [|done..]. destruct (Pos.compare_cont Eq m' m) eqn:E; [|done..].
  by apply Pos.compare_eq in E as ->.
Qed.

(** The digits of a number read back as the number. *)
Lemma shortest_reads neg m e : bounded 53 1024 m e = true ->
  let '(z, p) := shortest m e in (0 < z)%Z /\ f64_of_decimal neg z p = S754_finite neg m e.
Proof.
  intros Hb. unfold shortest. destruct (num_den m e) as [n d]. destruct (shortest_from _ _ _ _ _ _) as [z0 p0].
  destruct (strip_zeros 18 z0 p0) as [z p]. destruct (_ && _) eqn:E; [|by apply exact_digits_read].
  apply andb_true_iff in E as [Hz%Z.ltb_lt E%f64_eqb_finite]. split; [done|]. destruct neg; [|done].
  by rewrite f64_of_decimal_opp, E.
Qed.
