(* ===== verification/GoTime.v ===== *)
(** * [time.ParseDuration]

    Reading a duration back from text, and that it inverts
    [time.Duration.String]. *)

From Stdlib Require Import ZArith Lia Ascii String SpecFloat.
From stdpp Require Import base tactics numbers strings sets list.
From S2P Require Import Prelude GoStrings GoFloat.

Module time.
Local Open Scope Z_scope.

(** [leadingInt]: the digits in front, [None] when they overflow. *)
Fixpoint leadingInt (x : Z) (s : string) : option (Z * string) :=
  match s with
  | String c s' =>
      match digit_val c with
      | Some d =>
          if two63 / 10 <? x then None else
          let y := x * 10 + d in if two63 <? y then None else leadingInt y s'
      | None => Some (x, s)
      end
  | EmptyString => Some (x, EmptyString)
  end.

(** [leadingFraction]: digits beyond the precision are skipped. *)
Fixpoint leadingFraction (x : Z) (scale : f64) (overflow : bool) (s : string) : Z * f64 * string :=
  match s with
  | String c s' =>
      match digit_val c with
      | Some d =>
          if overflow then leadingFraction x scale true s' else
          if (two63 - 1) / 10 <? x then leadingFraction x scale true s' else
          let y := x * 10 + d in
          if two63 <? y then leadingFraction x scale true s'
          else leadingFraction y (f64_mul scale (f64_of_Z 10)) false s'
      | None => (x, scale, s)
      end
  | EmptyString => (x, scale, EmptyString)
  end.

(** Up to the next digit or point. *)
Fixpoint take_unit (s : string) : string * string :=
  match s with
  | String c s' =>
      match digit_val c with
      | Some _ => (EmptyString, s)
      | None => if Ascii.eqb c "." then (EmptyString, s) else let '(u, r) := take_unit s' in (String c u, r)
      end
  | EmptyString => (EmptyString, EmptyString)
  end.

(** [unitMap], with both spellings of the micro sign. *)
Definition unitMap (u : string) : option Z :=
  if String.eqb u "ns" then Some 1
  else if String.eqb u "us" then Some 1000
  else if String.eqb u "µs" then Some 1000
  else if String.eqb u "μs" then Some 1000
  else if String.eqb u "ms" then Some 1000000
  else if String.eqb u "s" then Some 1000000000
  else if String.eqb u "m" then Some 60000000000
  else if String.eqb u "h" then Some 3600000000000
  else None.

(** The nanoseconds of a fraction. *)
Definition frac_ns (f unit : Z) (scale : f64) : Z :=
  f64_trunc (f64_mul (f64_of_Z f) (f64_div (f64_of_Z unit) scale)).

Definition same_length (s t : string) : bool := Nat.eqb (String.length s) (String.length t).

(** One number with its unit, and the rest. *)
Definition parse_term (s : string) : option (Z * string) :=
  '(v, s1) ← leadingInt 0 s;
  let pre := negb (same_length s s1) in
  let '(f, scale, s2, post) :=
    match s1 with
    | String "." r => let '(f, scale, s2) := leadingFraction 0 (f64_of_Z 1) false r in (f, scale, s2, negb (same_length r s2))
    | _ => (0, f64_of_Z 1, s1, false)
    end in
  if negb pre && negb post then None else
  let '(u, s3) := take_unit s2 in
  if String.eqb u "" then None else
  unit ← unitMap u;
  if two63 / unit <? v then None else
  let w := if 0 <? f then v * unit + frac_ns f unit scale else v * unit in
  if two63 <? w then None else Some (w, s3).

(** The loop; every turn consumes a character. *)
Fixpoint parse_terms (fuel : nat) (d : Z) (s : string) : option Z :=
  match s, fuel with
  | EmptyString, _ => Some d
  | _, O => None
  | _, S fuel' =>
      '(v, s') ← parse_term s;
      let d' := (d + v) mod two64 in
      if two63 <? d' then None else parse_terms fuel' d' s'
  end.

Definition ParseDuration (s : string) : option Z :=
  let '(neg, s) := match s with
                   | String "-" r => (true, r)
                   | String "+" r => (false, r)
                   | _ => (false, s)
                   end in
  if String.eqb s "0" then Some 0 else
  if String.eqb s "" then None else
  d ← parse_terms (String.length s) 0 s;
  if neg : bool then Some (wrap64 (- d)) else if two63 - 1 <? d then None else Some d.

Example parse_examples :
  ParseDuration "5s" = Some 5000000000 /\ ParseDuration "-1.5h" = Some (-5400000000000) /\
  ParseDuration "1h0m0.25s" = Some 3600250000000 /\ ParseDuration "" = None /\ ParseDuration "3" = None /\
  ParseDuration ".5ms" = Some 500000 /\ ParseDuration "10x" = None.
Proof. vm_compute. repeat split. Qed.

(** ** Reading back what [String] prints *)

(** The text after a run of digits. *)
Definition no_digit (s : string) : Prop := match s with String c _ => digit_val c = None | EmptyString => True end.

Lemma leadingInt_digits k n x rest :
  0 <= n -> 0 <= x -> no_digit rest -> x * 10 ^ Z.of_nat k + n mod 10 ^ Z.of_nat k <= two63 ->
  leadingInt x (fixed_digits k n +:+ rest) = Some (x * 10 ^ Z.of_nat k + n mod 10 ^ Z.of_nat k, rest).
Proof.
  intros Hn. revert x. induction k as [|k IH]; intros x Hx Hr Hb.
  - cbn [fixed_digits]. change (Z.of_nat 0) with 0. rewrite Z.pow_0_r, Z.mod_1_r, Z.mul_1_r, Z.add_0_r.
    destruct rest as [|c rest]; [done|]. change (leadingInt x (String c rest) = Some (x, String c rest)).
    unfold no_digit in Hr. cbn [leadingInt]. by rewrite Hr.
  - set (d := n / 10 ^ Z.of_nat k mod 10).
    assert (Hd : 0 <= d < 10) by (apply Z.mod_pos_bound; lia).
    assert (Hpow : 10 ^ Z.of_nat (S k) = 10 * 10 ^ Z.of_nat k) by (rewrite Nat2Z.inj_succ, Z.pow_succ_r; lia).
    assert (Hmod : n mod 10 ^ Z.of_nat (S k) = 10 ^ Z.of_nat k * d + n mod 10 ^ Z.of_nat k).
    { rewrite Hpow, Z.mul_comm. rewrite Z.rem_mul_r by lia. unfold d. lia. }
    assert (Hlo : 0 <= n mod 10 ^ Z.of_nat k) by (apply Z.mod_pos_bound; lia).
    assert (Hp1 : 1 <= 10 ^ Z.of_nat k) by lia.
    rewrite Hmod, Hpow in *. cbn [fixed_digits]. rewrite string_app_cons. cbn [leadingInt]. fold d.
    rewrite digit_val_char by done.
    assert (Hxd : x * 10 + d <= two63) by nia.
    assert (Hx10 : two63 / 10 <? x = false) by (apply Z.ltb_ge; apply Z.div_le_lower_bound; lia).
    rewrite Hx10, (proj2 (Z.ltb_ge two63 (x * 10 + d)) Hxd). rewrite IH; [f_equal; f_equal; ring|lia|done|].
    replace ((x * 10 + d) * 10 ^ Z.of_nat k) with (x * (10 * 10 ^ Z.of_nat k) + 10 ^ Z.of_nat k * d) by ring. lia.
Qed.

Lemma leadingInt_Itoa n rest :
  0 <= n <= two63 -> no_digit rest -> leadingInt 0 (Itoa n +:+ rest) = Some (n, rest).
Proof.
  intros Hn Hr. unfold Itoa, Sprintf_0d. rewrite (proj2 (Z.ltb_ge n 0)) by lia. cbn [Nat.max].
  destruct (ndigits_bound n Hn) as [Hb _]. rewrite leadingInt_digits; [|lia..|done|]; rewrite Z.mod_small by lia; [|lia].
  f_equal.
Qed.

Definition scale_of (k : nat) : f64 := Nat.iter k (fun s => f64_mul s (f64_of_Z 10)) (f64_of_Z 1).

Lemma leadingFraction_digits k n x j rest :
  0 <= n -> 0 <= x -> no_digit rest -> (x + 1) * 10 ^ Z.of_nat k <= 10 ^ 9 ->
  leadingFraction x (scale_of j) false (fixed_digits k n +:+ rest) =
    (x * 10 ^ Z.of_nat k + n mod 10 ^ Z.of_nat k, scale_of (k + j), rest).
Proof.
  intros Hn. revert x j. induction k as [|k IH]; intros x j Hx Hr Hb.
  - cbn [fixed_digits]. change (Z.of_nat 0) with 0. rewrite Z.pow_0_r, Z.mod_1_r, Z.mul_1_r, Z.add_0_r.
    destruct rest as [|c rest]; [done|].
    change (leadingFraction x (scale_of j) false (String c rest) = (x, scale_of j, String c rest)).
    unfold no_digit in Hr. cbn [leadingFraction]. by rewrite Hr.
  - set (d := n / 10 ^ Z.of_nat k mod 10).
    assert (Hd : 0 <= d < 10) by (apply Z.mod_pos_bound; lia).
    assert (Hpow : 10 ^ Z.of_nat (S k) = 10 * 10 ^ Z.of_nat k) by (rewrite Nat2Z.inj_succ, Z.pow_succ_r; lia).
    assert (Hmod : n mod 10 ^ Z.of_nat (S k) = 10 ^ Z.of_nat k * d + n mod 10 ^ Z.of_nat k).
    { rewrite Hpow, Z.mul_comm. rewrite Z.rem_mul_r by lia. unfold d. lia. }
    assert (Hp1 : 1 <= 10 ^ Z.of_nat k) by lia.
    rewrite Hmod, Hpow in *. cbn [fixed_digits]. rewrite string_app_cons. cbn [leadingFraction]. fold d.
    rewrite digit_val_char by done.
    assert (Hxd : x * 10 + d < 10 ^ 9) by nia.
    rewrite (proj2 (Z.ltb_ge ((two63 - 1) / 10) x)) by (apply Z.div_le_lower_bound; unfold two63; lia).
    rewrite (proj2 (Z.ltb_ge two63 (x * 10 + d))) by (unfold two63; lia).
    change (f64_mul (scale_of j) (f64_of_Z 10)) with (scale_of (S j)). rewrite IH; [|lia|done|nia].
    rewrite Nat.add_succ_r. f_equal. f_equal. ring.
Qed.

(** Letters of a unit. *)
Fixpoint unit_chars (u : string) : bool :=
  match u with
  | EmptyString => true
  | String c u' => negb (Ascii.eqb c ".") && match digit_val c with None => unit_chars u' | Some _ => false end
  end.

(** The text after a unit: nothing, or the next number. *)
Definition digit_head (s : string) : Prop :=
  match s with String c _ => is_Some (digit_val c) | EmptyString => True end.

Lemma take_unit_app u rest : unit_chars u = true -> digit_head rest -> take_unit (u +:+ rest) = (u, rest).
Proof.
  intros Hu Hr. induction u as [|c u IH].
  - destruct rest as [|c rest]; [done|]. change (take_unit (String c rest) = ("", String c rest)).
    destruct Hr as [d Hd]. cbn [take_unit]. by rewrite Hd.
  - cbn [unit_chars] in Hu. apply andb_true_iff in Hu as [Hp%negb_true_iff Hd].
    rewrite string_app_cons. cbn [take_unit]. destruct (digit_val c); [done|]. by rewrite Hp, IH.
Qed.

Lemma Itoa_length n : 0 <= n <= two63 -> (1 <= String.length (Itoa n))%nat.
Proof.
  intros Hn. unfold Itoa, Sprintf_0d. rewrite (proj2 (Z.ltb_ge n 0)) by lia. cbn [Nat.max].
  destruct (ndigits_bound n Hn) as [_ Hk]. destruct (ndigits n); [lia|]. cbn. lia.
Qed.

Lemma Itoa_digit_head n rest : 0 <= n <= two63 -> digit_head (Itoa n +:+ rest).
Proof.
  intros Hn. unfold Itoa, Sprintf_0d. rewrite (proj2 (Z.ltb_ge n 0)) by lia. cbn [Nat.max].
  destruct (ndigits_bound n Hn) as [_ Hk]. destruct (ndigits n) as [|k]; [lia|]. cbn [fixed_digits].
  rewrite string_app_cons. unfold digit_head. rewrite digit_val_char; [done|]. apply Z.mod_pos_bound. lia.
Qed.

Lemma longer s t : (1 <= String.length s)%nat -> same_length (s +:+ t) t = false.
Proof. intros Hs. unfold same_length. apply Nat.eqb_neq. rewrite string_app_length. lia. Qed.

(** A unit that can follow a number. *)
Record unit_ok (u : string) (unit : Z) : Prop := {
  uo_map : unitMap u = Some unit;
  uo_chars : unit_chars u = true;
  uo_ne : u <> "";
}.

Lemma unit_no_digit u unit rest : unit_ok u unit -> no_digit (u +:+ rest).
Proof.
  intros [_ Hc Hn]. destruct u as [|c u]; [done|]. rewrite string_app_cons. cbn [no_digit unit_chars] in *.
  apply andb_true_iff in Hc as [_ Hc]. by destruct (digit_val c).
Qed.

Lemma unit_no_point u unit rest : unit_ok u unit -> forall r, u +:+ rest <> String "." r.
Proof.
  intros [_ Hc Hn] r. destruct u as [|c u]; [done|]. rewrite string_app_cons. intros [= -> _].
  by cbn [unit_chars] in Hc.
Qed.

Lemma term_end u unit rest v f scale :
  unit_ok u unit -> digit_head rest -> 0 < unit -> v * unit <= two63 ->
  let w := if 0 <? f then v * unit + frac_ns f unit scale else v * unit in w <= two63 ->
  (let '(u, s3) := take_unit (u +:+ rest) in
   if String.eqb u "" then None else
   unit ← unitMap u;
   if two63 / unit <? v then None else
   let w := if 0 <? f then v * unit + frac_ns f unit scale else v * unit in
   if two63 <? w then None else Some (w, s3)) = Some (w, rest).
Proof.
  intros [Hm Hc Hn] Hr Hu Hv w Hw. rewrite take_unit_app by done. apply String.eqb_neq in Hn as ->. rewrite Hm.
  cbn [mbind option_bind]. rewrite (proj2 (Z.ltb_ge (two63 / unit) v)) by (apply Z.div_le_lower_bound; lia). fold w.
  by rewrite (proj2 (Z.ltb_ge two63 w)).
Qed.

Lemma parse_term_int v u unit rest :
  unit_ok u unit -> digit_head rest -> 0 < unit -> 0 <= v <= two63 -> v * unit <= two63 ->
  parse_term (Itoa v +:+ u +:+ rest) = Some (v * unit, rest).
Proof.
  intros Hu Hr Hunit Hv Hb. unfold parse_term. rewrite leadingInt_Itoa by (done || by eapply unit_no_digit).
  cbn [mbind option_bind]. rewrite longer by (by apply Itoa_length). cbn [negb andb].
  pose proof (unit_no_point u unit rest Hu) as Hnp.
  assert (Hsel : match u +:+ rest with
    | String "." r => let '(f, scale, s2) := leadingFraction 0 (f64_of_Z 1) false r in (f, scale, s2, negb (same_length r s2))
    | _ => (0, f64_of_Z 1, u +:+ rest, false) end = (0, f64_of_Z 1, u +:+ rest, false)).
  { destruct (u +:+ rest) as [|c t]; [done|].
    destruct (decide (c = "."%char)) as [->|Hc]; [by destruct (Hnp t)|].
    destruct c as [[] [] [] [] [] [] [] []]; done. }
  rewrite Hsel. exact (term_end u unit rest v 0 (f64_of_Z 1) Hu Hr Hunit Hb Hb).
Qed.

(** The scale divides the units that are printed with a fraction exactly. *)
Lemma scale_divides p k :
  p ∈ [3; 6; 9]%nat -> (k <= p)%nat -> f64_div (f64_of_Z (10 ^ Z.of_nat p)) (scale_of k) = f64_of_Z (10 ^ Z.of_nat (p - k)).
Proof.
  intros Hp Hk. repeat (apply elem_of_cons in Hp as [->|Hp]; [
    do 10 (destruct k as [|k]; [first [lia|vm_compute; reflexivity]|]); lia|]). by apply elem_of_nil in Hp.
Qed.

Lemma frac_exact f p k :
  p ∈ [3; 6; 9]%nat -> (k <= p)%nat -> 0 < f < 10 ^ Z.of_nat k ->
  frac_ns f (10 ^ Z.of_nat p) (scale_of k) = f * 10 ^ Z.of_nat (p - k).
Proof.
  intros Hp Hk Hf. unfold frac_ns. rewrite scale_divides by done.
  assert (Hp9 : 10 ^ Z.of_nat p <= 10 ^ 9).
  { apply Z.pow_le_mono_r; [lia|]. repeat (apply elem_of_cons in Hp as [->|Hp]; [lia|]). by apply elem_of_nil in Hp. }
  assert (Hlt : f * 10 ^ Z.of_nat (p - k) < 10 ^ Z.of_nat p).
  { assert (Hsp : 10 ^ Z.of_nat p = 10 ^ Z.of_nat k * 10 ^ Z.of_nat (p - k)) by (rewrite <- Z.pow_add_r by lia; f_equal; lia). nia. }
  rewrite f64_mul_int, f64_trunc_of_Z; nia.
Qed.

Lemma trim_zeros_spec prec v k f :
  0 <= v < 10 ^ Z.of_nat prec -> trim_zeros prec v = (k, f) ->
  (k <= prec)%nat /\ v = f * 10 ^ Z.of_nat (prec - k) /\ 0 <= f < 10 ^ Z.of_nat k /\ ((0 < k)%nat -> 0 < f).
Proof.
  revert v. induction prec as [|prec IH]; intros v Hv; cbn [trim_zeros].
  { intros [= <- <-]. change (10 ^ Z.of_nat (0 - 0)) with 1. change (10 ^ Z.of_nat 0) with 1 in *. split_and!; lia. }
  assert (Hpow : 10 ^ Z.of_nat (S prec) = 10 * 10 ^ Z.of_nat prec) by (rewrite Nat2Z.inj_succ, Z.pow_succ_r; lia).
  destruct (Z.eqb_spec (v mod 10) 0) as [Hm|Hm].
  - intros Ht. pose proof (Z.div_mod v 10 ltac:(lia)) as Hdm.
    destruct (IH (v / 10)) as (Hk & Heq & Hf & Hpos); [|done|].
    { split; [apply Z.div_pos; lia|]. apply Z.div_lt_upper_bound; lia. }
    split; [lia|]. split; [|done]. replace (S prec - k)%nat with (S (prec - k)) by lia.
    rewrite Nat2Z.inj_succ, Z.pow_succ_r by lia. lia.
  - intros [= <- <-]. split; [lia|]. rewrite Nat.sub_diag. split; [cbn; lia|]. split; [lia|]. intros _.
    destruct (decide (v = 0)) as [->|]; [done|lia].
Qed.

Lemma parse_term_frac v w p u rest :
  p ∈ [3; 6; 9]%nat -> unit_ok u (10 ^ Z.of_nat p) -> digit_head rest -> 0 <= v <= two63 ->
  v * 10 ^ Z.of_nat p + w mod 10 ^ Z.of_nat p <= two63 ->
  parse_term (Itoa v +:+ fmtFrac w p +:+ u +:+ rest) = Some (v * 10 ^ Z.of_nat p + w mod 10 ^ Z.of_nat p, rest).
Proof.
  intros Hp Hu Hr Hv Hb. set (unit := 10 ^ Z.of_nat p) in *.
  assert (Hunit : 0 < unit) by (unfold unit; lia).
  assert (Hm : 0 <= w mod unit < unit) by (by apply Z.mod_pos_bound).
  unfold fmtFrac. fold unit. destruct (trim_zeros p (w mod unit)) as [k f] eqn:Et.
  destruct (trim_zeros_spec p (w mod unit) k f Hm Et) as (Hk & Heq & Hf & Hpos).
  destruct k as [|k].
  - change (EmptyString +:+ u +:+ rest) with (u +:+ rest). rewrite (parse_term_int v u unit) by (done || lia).
    do 2 f_equal. change (10 ^ Z.of_nat 0) with 1 in Hf. nia.
  - set (kk := S k) in *. specialize (Hpos ltac:(lia)).
    rewrite string_app_cons. unfold parse_term. rewrite leadingInt_Itoa by done. cbn [mbind option_bind].
    rewrite longer by (by apply Itoa_length). cbn [negb andb].
    assert (Hp9 : 10 ^ Z.of_nat kk <= 10 ^ 9).
    { apply Z.pow_le_mono_r; [lia|]. clear -Hp Hk. repeat (apply elem_of_cons in Hp as [->|Hp]; [lia|]). by apply elem_of_nil in Hp. }
    change (f64_of_Z 1) with (scale_of 0). rewrite leadingFraction_digits; [|lia|lia|by eapply unit_no_digit|lia].
    rewrite Z.mul_0_l, Z.add_0_l, Z.mod_small, Nat.add_0_r by lia.
    assert (Hfr : frac_ns f unit (scale_of kk) = w mod unit) by (unfold unit at 1; rewrite frac_exact by (done || lia); lia).
    pose proof (term_end u unit rest v f (scale_of kk) Hu Hr Hunit) as Hend. cbn zeta in Hend.
    assert (Hif : (if 0 <? f then v * unit + frac_ns f unit (scale_of kk) else v * unit) = v * unit + w mod unit)
      by (by rewrite (proj2 (Z.ltb_lt 0 f) Hpos), Hfr).
    rewrite Hif in Hend. apply Hend; lia.
Qed.

(** One more term. *)
Lemma parse_terms_step fuel d v s s' :
  parse_term s = Some (v, s') -> s <> "" -> 0 <= d -> 0 <= v -> d + v <= two63 ->
  parse_terms (S fuel) d s = parse_terms fuel (d + v) s'.
Proof.
  intros Ht Hs Hd Hv Hb. destruct s as [|c s]; [done|]. cbn [parse_terms]. rewrite Ht. cbn [mbind option_bind].
  rewrite Z.mod_small by (unfold two63, two64 in *; lia). by rewrite (proj2 (Z.ltb_ge two63 (d + v))).
Qed.

Lemma parse_terms_end fuel d : parse_terms fuel d "" = Some d.
Proof. by destruct fuel. Qed.

Lemma unsigned_head body : digit_head body -> body <> "" ->
  match body with
  | String "-" r => (true, r)
  | String "+" r => (false, r)
  | _ => (false, body)
  end = (false, body).
Proof.
  intros Hd Hn. destruct body as [|c t]; [done|]. destruct Hd as [d Hd].
  by destruct c as [[] [] [] [] [] [] [] []].
Qed.

Definition sign_of (d : Z) : string := if d <? 0 then "-" else EmptyString.

Lemma parse_signed d body :
  in_int64 d -> digit_head body -> (2 <= String.length body)%nat ->
  parse_terms (String.length body) 0 body = Some (Z.abs d) -> ParseDuration (sign_of d +:+ body) = Some d.
Proof.
  intros Hd Hh Hlen Hp. unfold in_int64 in Hd.
  assert (H0 : String.eqb body "0" = false) by (apply String.eqb_neq; intros ->; cbn in Hlen; lia).
  assert (H1 : String.eqb body "" = false) by (apply String.eqb_neq; intros ->; cbn in Hlen; lia).
  unfold ParseDuration, sign_of. destruct (Z.ltb_spec d 0) as [Hneg|Hpos].
  - rewrite string_app_cons. change ("" +:+ body) with body. rewrite H0, H1, Hp. cbn [mbind option_bind].
    f_equal. rewrite Z.abs_neq, Z.opp_involutive by lia. by apply wrap64_id.
  - change ("" +:+ body) with body. rewrite unsigned_head by (done || by apply String.eqb_neq).
    rewrite H0, H1, Hp. cbn [mbind option_bind]. rewrite Z.abs_eq by lia.
    rewrite (proj2 (Z.ltb_ge (two63 - 1) d)); [done|lia].
Qed.

Lemma app_ne s t : s <> "" -> s +:+ t <> "".
Proof. by destruct s. Qed.

Lemma Itoa_ne n t : 0 <= n <= two63 -> Itoa n +:+ t <> "".
Proof. intros Hn. apply app_ne. pose proof (Itoa_length n Hn). intros E. rewrite E in *. cbn in *. lia. Qed.

(** The terms of a duration below a second, and of one above. *)
Lemma parse_one v w p u :
  p ∈ [3; 6; 9]%nat -> unit_ok u (10 ^ Z.of_nat p) -> 0 <= v <= two63 -> 0 <= w ->
  v * 10 ^ Z.of_nat p + w mod 10 ^ Z.of_nat p <= two63 -> forall d fuel, 0 <= d ->
  d + (v * 10 ^ Z.of_nat p + w mod 10 ^ Z.of_nat p) <= two63 ->
  parse_terms (S fuel) d (Itoa v +:+ fmtFrac w p +:+ u) = Some (d + (v * 10 ^ Z.of_nat p + w mod 10 ^ Z.of_nat p)).
Proof.
  intros Hp Hu Hv Hw Hb d fuel Hd Hs. rewrite <- (string_app_nil u).
  pose proof (Z.mod_pos_bound w (10 ^ Z.of_nat p) ltac:(lia)).
  erewrite parse_terms_step; [|by apply (parse_term_frac v w p u "")|by apply Itoa_ne|lia|nia|lia].
  apply parse_terms_end.
Qed.

Lemma parse_more v u unit rest d fuel :
  unit_ok u unit -> digit_head rest -> 0 < unit -> 0 <= v <= two63 -> v * unit <= two63 -> 0 <= d ->
  d + v * unit <= two63 -> parse_terms (S fuel) d (Itoa v +:+ u +:+ rest) = parse_terms fuel (d + v * unit) rest.
Proof.
  intros. erewrite parse_terms_step; [done|by apply parse_term_int|by apply Itoa_ne|lia|nia|lia].
Qed.

Lemma fuel_at_least n m : (n <= m)%nat -> exists k, m = (n + k)%nat.
Proof. intros. exists (m - n)%nat. lia. Qed.

(** The units printed. *)
Lemma units_ok :
  unit_ok "ns" 1 /\ unit_ok "µs" (10 ^ Z.of_nat 3) /\ unit_ok "ms" (10 ^ Z.of_nat 6) /\
  unit_ok "s" (10 ^ Z.of_nat 9) /\ unit_ok "m" 60000000000 /\ unit_ok "h" 3600000000000.
Proof. done. Qed.

(** A duration printed as one number with a fraction. *)
Lemma parse_fraction d v w p un :
  in_int64 d -> p ∈ [3; 6; 9]%nat -> unit_ok un (10 ^ Z.of_nat p) -> 0 <= v <= two63 -> 0 <= w ->
  v * 10 ^ Z.of_nat p + w mod 10 ^ Z.of_nat p = Z.abs d ->
  ParseDuration (sign_of d +:+ Itoa v +:+ fmtFrac w p +:+ un) = Some d.
Proof.
  intros Hd Hp Hun Hv Hw Hval. pose proof (Itoa_length v Hv). unfold in_int64 in *.
  assert (1 <= String.length un)%nat by (destruct Hun as [_ _ Hne]; destruct un; [done|cbn; lia]).
  apply parse_signed; [done|by apply Itoa_digit_head|rewrite !string_app_length; lia|].
  destruct (fuel_at_least 1 (String.length (Itoa v +:+ fmtFrac w p +:+ un))) as [k ->]; [rewrite string_app_length; lia|].
  change (1 + k)%nat with (S k). rewrite parse_one; [f_equal; lia|done|done|done|done|lia..].
Qed.

(** Minutes and seconds, and hours in front of them. *)
Definition secs_text (sec u : Z) : string := Itoa (sec mod 60) +:+ fmtFrac u 9 +:+ "s".
Definition mins_text (mi sec u : Z) : string := Itoa (mi mod 60) +:+ "m" +:+ secs_text sec u.

Lemma secs_text_head sec u : (1 <= String.length (secs_text sec u))%nat /\ digit_head (secs_text sec u).
Proof.
  pose proof (Z.mod_pos_bound sec 60 ltac:(lia)). assert (0 <= sec mod 60 <= two63) by (unfold two63; lia).
  split; [|by apply Itoa_digit_head]. unfold secs_text. rewrite string_app_length.
  pose proof (Itoa_length (sec mod 60) ltac:(lia)). lia.
Qed.

Lemma parse_mins mi sec u d fuel :
  0 <= u -> 0 <= d -> let v := (mi mod 60) * 60000000000 + ((sec mod 60) * 1000000000 + u mod 1000000000) in
  d + v <= two63 -> parse_terms (S (S fuel)) d (mins_text mi sec u) = Some (d + v).
Proof.
  intros Hu Hd v Hb. destruct units_ok as (_ & _ & _ & Us & Um & _).
  pose proof (Z.mod_pos_bound sec 60 ltac:(lia)). pose proof (Z.mod_pos_bound mi 60 ltac:(lia)).
  pose proof (Z.mod_pos_bound u 1000000000 ltac:(lia)). destruct (secs_text_head sec u) as [_ Hsd].
  unfold mins_text. rewrite (parse_more (mi mod 60) "m" 60000000000) by (done || lia).
  unfold secs_text. rewrite (parse_one (sec mod 60) u 9 "s");
    [f_equal; change (10 ^ Z.of_nat 9) with 1000000000; lia|set_solver|done|lia|lia|..];
    change (10 ^ Z.of_nat 9) with 1000000000; lia.
Qed.

Lemma parse_long d :
  in_int64 d -> let u := Z.abs d in let sec := u / 1000000000 in let mi := sec / 60 in let h := mi / 60 in
  ParseDuration (sign_of d +:+ mins_text mi sec u) = (if h =? 0 then Some d else ParseDuration (sign_of d +:+ mins_text mi sec u)) /\
  ParseDuration (sign_of d +:+ Itoa h +:+ "h" +:+ mins_text mi sec u) = Some d.
Proof.
  intros Hd u sec mi h. assert (Hu : 0 <= u <= two63) by (unfold u, in_int64 in *; lia).
  pose proof (Z.div_mod u 1000000000 ltac:(lia)) as Hu9. pose proof (Z.div_mod sec 60 ltac:(lia)) as Hs60.
  pose proof (Z.div_mod mi 60 ltac:(lia)) as Hm60. fold sec in Hu9. fold mi in Hs60. fold h in Hm60.
  pose proof (Z.mod_pos_bound u 1000000000 ltac:(lia)). pose proof (Z.mod_pos_bound sec 60 ltac:(lia)).
  pose proof (Z.mod_pos_bound mi 60 ltac:(lia)). assert (0 <= sec) by (by apply Z.div_pos; lia).
  assert (0 <= mi) by (by apply Z.div_pos; lia). assert (0 <= h) by (by apply Z.div_pos; lia).
  assert (Hml : (2 <= String.length (mins_text mi sec u))%nat /\ digit_head (mins_text mi sec u)).
  { split; [|apply Itoa_digit_head; lia]. unfold mins_text. rewrite !string_app_length.
    pose proof (Itoa_length (mi mod 60) ltac:(lia)). destruct (secs_text_head sec u). lia. }
  destruct Hml as [Hml Hmd]. destruct units_ok as (_ & _ & _ & _ & _ & Uh). split.
  - destruct (Z.eqb_spec h 0) as [Hh|_]; [|done]. apply parse_signed; [done|done|done|].
    destruct (fuel_at_least 2 _ Hml) as [k ->]. change (2 + k)%nat with (S (S k)). rewrite parse_mins by lia. f_equal. lia.
  - pose proof (Itoa_length h ltac:(lia)).
    apply parse_signed; [done|apply Itoa_digit_head; lia|rewrite !string_app_length; lia|].
    destruct (fuel_at_least 3 (String.length (Itoa h +:+ "h" +:+ mins_text mi sec u))) as [k ->];
      [rewrite !string_app_length; cbn; lia|].
    change (3 + k)%nat with (S (S (S k))). rewrite (parse_more h "h" 3600000000000) by (done || lia).
    rewrite parse_mins by lia. f_equal. lia.
Qed.

(** [ParseDuration] inverts [String] on every duration. *)
Lemma parse_print_duration d : in_int64 d -> ParseDuration (Duration_String d) = Some d.
Proof.
  intros Hd. unfold Duration_String. fold (sign_of d). set (u := Z.abs d).
  assert (Hu : 0 <= u <= two63) by (unfold u, in_int64 in *; lia). destruct units_ok as (Uns & Uus & Ums & Us & _ & _).
  destruct (Z.eqb_spec u 0) as [Hz|Hz]; [unfold u in Hz; replace d with 0 by lia; done|].
  destruct (Z.ltb_spec u 1000).
  { pose proof (Itoa_length u Hu). apply parse_signed; [done|by apply Itoa_digit_head|rewrite string_app_length; cbn; lia|].
    destruct (fuel_at_least 1 (String.length (Itoa u +:+ "ns"))) as [k ->]; [rewrite string_app_length; lia|].
    change (1 + k)%nat with (S k). change "ns" with ("ns" +:+ ""). rewrite (parse_more u "ns" 1) by (done || lia).
    rewrite parse_terms_end. fold u. f_equal. lia. }
  pose proof (Z.div_mod u 1000 ltac:(lia)). pose proof (Z.div_mod u 1000000 ltac:(lia)).
  pose proof (Z.div_pos u 1000 ltac:(lia) ltac:(lia)). pose proof (Z.div_pos u 1000000 ltac:(lia) ltac:(lia)).
  pose proof (Z.mod_pos_bound u 1000 ltac:(lia)). pose proof (Z.mod_pos_bound u 1000000 ltac:(lia)).
  destruct (Z.ltb_spec u 1000000).
  { apply parse_fraction; [done|set_solver|done|lia|lia|]. change (10 ^ Z.of_nat 3) with 1000. lia. }
  destruct (Z.ltb_spec u 1000000000).
  { apply parse_fraction; [done|set_solver|done|lia|lia|]. change (10 ^ Z.of_nat 6) with 1000000. lia. }
  destruct (parse_long d Hd) as [Hmin Hhour]. fold u in Hmin, Hhour. cbn zeta in Hmin, Hhour.
  destruct (Z.eqb_spec (u / 1000000000 / 60) 0) as [Hm|Hm].
  - pose proof (Z.div_mod u 1000000000 ltac:(lia)). pose proof (Z.div_mod (u / 1000000000) 60 ltac:(lia)).
    pose proof (Z.mod_pos_bound u 1000000000 ltac:(lia)). pose proof (Z.mod_pos_bound (u / 1000000000) 60 ltac:(lia)).
    apply parse_fraction; [done|set_solver|done|lia|lia|]. change (10 ^ Z.of_nat 9) with 1000000000. lia.
  - destruct (u / 1000000000 / 60 / 60 =? 0); [exact Hmin|exact Hhour].
Qed.

(** ** Dates

    Days are counted from 0001-01-01. *)

Definition is_leap (y : Z) : bool := (y mod 4 =? 0) && (negb (y mod 100 =? 0) || (y mod 400 =? 0)).

Definition days_before_year (y : Z) : Z :=
  let p := y - 1 in 365 * p + p / 4 - p / 100 + p / 400.

(** The year and the day in it. *)
Definition year_yday (d : Z) : Z * Z :=
  let n400 := d / 146097 in
  let d1 := d mod 146097 in
  let n100 := Z.min (d1 / 36524) 3 in
  let d2 := d1 - 36524 * n100 in
  let n4 := d2 / 1461 in
  let d3 := d2 mod 1461 in
  let n1 := Z.min (d3 / 365) 3 in
  (400 * n400 + 100 * n100 + 4 * n4 + n1 + 1, d3 - 365 * n1).

Definition month_lengths (leap : bool) : list Z := [31; if leap then 29 else 28; 31; 30; 31; 30; 31; 31; 30; 31; 30; 31].

Fixpoint month_day (m : Z) (lens : list Z) (yday : Z) : Z * Z :=
  match lens with
  | [] => (m, yday + 1)
  | l :: lens' => if yday <? l then (m, yday + 1) else month_day (m + 1) lens' (yday - l)
  end.

Definition civil (d : Z) : Z * Z * Z :=
  let '(y, yday) := year_yday d in
  let '(m, day) := month_day 1 (month_lengths (is_leap y)) yday in (y, m, day).

(** [Format("2006-01-02")]. *)
Definition format_date (d : Z) : string :=
  let '(y, m, day) := civil d in Sprintf_0d 4 y +:+ "-" +:+ Sprintf_0d 2 m +:+ "-" +:+ Sprintf_0d 2 day.

Example dates :
  format_date 0 = "0001-01-01" /\ format_date 719162 = "1970-01-01" /\ format_date 738944 = "2024-02-29" /\
  format_date 738945 = "2024-03-01" /\ format_date 146096 = "0400-12-31".
Proof. vm_compute. repeat split. Qed.

(** The day can be computed back from the date. *)
Lemma year_yday_days d : let '(y, yday) := year_yday d in days_before_year y + yday = d.
Proof.
  unfold year_yday, days_before_year. cbn zeta. set (n400 := d / 146097). set (d1 := d mod 146097).
  assert (Hd : d = 146097 * n400 + d1 /\ 0 <= d1 < 146097) by (unfold n400, d1; Z.to_euclidean_division_equations; lia).
  set (n100 := Z.min (d1 / 36524) 3).
  assert (H100 : 0 <= n100 <= 3 /\ 0 <= d1 - 36524 * n100 <= 36524 /\ (n100 < 3 -> d1 - 36524 * n100 < 36524))
    by (unfold n100; Z.to_euclidean_division_equations; lia).
  set (d2 := d1 - 36524 * n100) in *. set (n4 := d2 / 1461). set (d3 := d2 mod 1461).
  assert (H4 : d2 = 1461 * n4 + d3 /\ 0 <= d3 < 1461 /\ 0 <= n4 <= 24)
    by (unfold n4, d3; Z.to_euclidean_division_equations; lia).
  set (n1 := Z.min (d3 / 365) 3). assert (H1 : 0 <= n1 <= 3) by (unfold n1; Z.to_euclidean_division_equations; lia).
  replace (400 * n400 + 100 * n100 + 4 * n4 + n1 + 1 - 1) with (400 * n400 + 100 * n100 + 4 * n4 + n1) by lia.
  assert (E4 : (400 * n400 + 100 * n100 + 4 * n4 + n1) / 4 = 100 * n400 + 25 * n100 + n4)
    by (symmetry; apply (Z.div_unique _ _ _ n1); lia).
  assert (E100 : (400 * n400 + 100 * n100 + 4 * n4 + n1) / 100 = 4 * n400 + n100)
    by (symmetry; apply (Z.div_unique _ _ _ (4 * n4 + n1)); lia).
  assert (E400 : (400 * n400 + 100 * n100 + 4 * n4 + n1) / 400 = n400)
    by (symmetry; apply (Z.div_unique _ _ _ (100 * n100 + 4 * n4 + n1)); lia).
  rewrite E4, E100, E400. lia.
Qed.

Lemma month_day_inj m lens yd1 yd2 :
  0 <= yd1 -> 0 <= yd2 -> month_day m lens yd1 = month_day m lens yd2 -> yd1 = yd2.
Proof.
  assert (Hge : forall lens m yd, m <= (month_day m lens yd).1).
  { clear. induction lens as [|l lens IH]; intros m yd; cbn [month_day]; [cbn; lia|].
    destruct (yd <? l); [cbn; lia|]. specialize (IH (m + 1) (yd - l)). lia. }
  revert m yd1 yd2; induction lens as [|l lens IH]; intros m yd1 yd2 H1 H2; cbn [month_day]; [intros [= ?]; lia|].
  destruct (Z.ltb_spec yd1 l), (Z.ltb_spec yd2 l).
  - intros [= ?]. lia.
  - intros E. specialize (Hge lens (m + 1) (yd2 - l)). rewrite <- E in Hge. cbn in Hge. lia.
  - intros E. specialize (Hge lens (m + 1) (yd1 - l)). rewrite E in Hge. cbn in Hge. lia.
  - intros E. apply IH in E; lia.
Qed.

Lemma yday_nonneg d : 0 <= (year_yday d).2.
Proof. unfold year_yday. cbn [snd]. Z.to_euclidean_division_equations. lia. Qed.

Lemma civil_inj d1 d2 : civil d1 = civil d2 -> d1 = d2.
Proof.
  unfold civil. pose proof (year_yday_days d1) as H1. pose proof (year_yday_days d2) as H2.
  pose proof (yday_nonneg d1) as N1. pose proof (yday_nonneg d2) as N2.
  destruct (year_yday d1) as [y1 yd1], (year_yday d2) as [y2 yd2].
  destruct (month_day 1 (month_lengths (is_leap y1)) yd1) as [m1 day1] eqn:E1,
    (month_day 1 (month_lengths (is_leap y2)) yd2) as [m2 day2] eqn:E2.
  intros [= -> -> ->]. rewrite <- E2 in E1. apply month_day_inj in E1; [subst; lia|done|done].
Qed.

Fixpoint all_digits (s : string) : Prop :=
  match s with EmptyString => True | String c s' => is_Some (digit_val c) /\ all_digits s' end.

Lemma fixed_digits_digits k n : all_digits (fixed_digits k n).
Proof.
  induction k as [|k IH]; [done|]. cbn [fixed_digits all_digits]. split; [|done].
  rewrite digit_val_char; [done|]. apply Z.mod_pos_bound. lia.
Qed.

Lemma split_dash a b a' b' : all_digits a -> all_digits a' -> a +:+ "-" +:+ b = a' +:+ "-" +:+ b' -> a = a' /\ b = b'.
Proof.
  revert a'; induction a as [|c a IH]; intros [|c' a'] Ha Ha' E; simpl in E; injection E.
  - intros E'. change (b = b') in E'. by subst.
  - intros _ <-. by destruct Ha' as [[d Hd] _].
  - intros _ ->. by destruct Ha as [[d Hd] _].
  - intros E' ->. destruct (IH a') as [-> ->]; [apply Ha|apply Ha'|exact E'|]. done.
Qed.

Lemma Sprintf_digits w n : 0 <= n -> all_digits (Sprintf_0d w n).
Proof. intros Hn. unfold Sprintf_0d. rewrite (proj2 (Z.ltb_ge n 0)) by lia. apply fixed_digits_digits. Qed.

Lemma Sprintf_inj w m n : in_int64 m -> in_int64 n -> Sprintf_0d w m = Sprintf_0d w n -> m = n.
Proof. intros Hm Hn E. apply (f_equal Atoi) in E. rewrite !Atoi_Sprintf in E by done. by injection E. Qed.

Lemma month_day_range m lens yd : 0 <= yd -> Forall (Z.le 0) lens ->
  m <= (month_day m lens yd).1 <= m + Z.of_nat (length lens) /\ 1 <= (month_day m lens yd).2 <= yd + 1.
Proof.
  intros Hy Hl. revert m yd Hy; induction Hl as [|l lens Hl _ IH]; intros m yd Hy; cbn [month_day length]; [cbn; lia|].
  destruct (Z.ltb_spec yd l); [cbn; lia|]. specialize (IH (m + 1) (yd - l) ltac:(lia)). lia.
Qed.

(** Days of the first nine million years have different dates. *)
Lemma format_date_inj d1 d2 :
  0 <= d1 < 2 ^ 62 -> 0 <= d2 < 2 ^ 62 -> format_date d1 = format_date d2 -> d1 = d2.
Proof.
  intros H1 H2 E. apply civil_inj. revert E. unfold format_date, civil.
  assert (Hr : forall d, 0 <= d < 2 ^ 62 -> 0 <= (year_yday d).1 <= d + 1 /\ 0 <= (year_yday d).2 <= d).
  { intros d Hd. pose proof (year_yday_days d) as Hy. pose proof (yday_nonneg d). unfold year_yday in *. cbn [fst snd] in *.
    unfold days_before_year in Hy. Z.to_euclidean_division_equations. lia. }
  destruct (Hr d1 H1) as [Hy1 Hd1], (Hr d2 H2) as [Hy2 Hd2].
  destruct (year_yday d1) as [y1 yd1], (year_yday d2) as [y2 yd2]. cbn [fst snd] in *.
  assert (Hlen : forall b, Forall (Z.le 0) (month_lengths b)) by (intros []; repeat constructor; lia).
  pose proof (month_day_range 1 (month_lengths (is_leap y1)) yd1 ltac:(lia) (Hlen _)) as [Hm1 Hday1].
  pose proof (month_day_range 1 (month_lengths (is_leap y2)) yd2 ltac:(lia) (Hlen _)) as [Hm2 Hday2].
  destruct (month_day 1 (month_lengths (is_leap y1)) yd1) as [m1 day1], (month_day 1 (month_lengths (is_leap y2)) yd2) as [m2 day2].
  cbn [fst snd length month_lengths] in *. intros E.
  apply split_dash in E as [Ey E]; [|apply Sprintf_digits; lia..]. apply split_dash in E as [Em Eday]; [|apply Sprintf_digits; lia..].
  apply Sprintf_inj in Ey, Em, Eday; try (unfold in_int64, two63; lia). by subst.
Qed.
End time.
