(* ===== verification/GoOs.v ===== *)
(** * The parts of Go's [os] and [bufio] the write-ahead log uses

    The state is one directory with its inodes and the table of open files.
    A directory entry names an inode, so removing a file that is still open
    leaves the inode to its handles, as on the POSIX systems the gateway is
    deployed on.  An inode has the bytes written to it and the length of the
    prefix that has reached stable storage.

    Any call may fail: [fs_fault n] says whether the [n]-th call fails, with
    which error and, for a read or a write, after how many bytes. *)

From Stdlib Require Import ZArith Lia Ascii String.
From stdpp Require Import base tactics numbers strings gmap list sorting.
From S2P Require Import Prelude GoStrings.

(** ** Data *)

Record inode := Inode { i_data : bytes; i_durable : nat }.

Inductive dirent := DFile (ino : nat) | DDir.

Record handle := Handle { h_ino : nat; h_open : bool }.

Record FS := MkFS {
  fs_dir : option (gmap string dirent);      (* None: no such directory *)
  fs_inodes : gmap nat inode;
  fs_handles : gmap nat handle;
  fs_next : nat;                             (* next inode or handle number *)
  fs_clock : nat;                            (* calls made so far *)
  fs_fault : nat -> option (nat * error);
}.

#[global] Instance dirent_eq_dec : EqDecision dirent.
Proof. solve_decision. Defined.

Definition set_dir (d : option (gmap string dirent)) (fs : FS) : FS :=
  MkFS d (fs_inodes fs) (fs_handles fs) (fs_next fs) (fs_clock fs) (fs_fault fs).
Definition set_inode (i : nat) (nd : inode) (fs : FS) : FS :=
  MkFS (fs_dir fs) (<[i := nd]> (fs_inodes fs)) (fs_handles fs) (fs_next fs)
       (fs_clock fs) (fs_fault fs).
Definition set_handle (h : nat) (hd : handle) (fs : FS) : FS :=
  MkFS (fs_dir fs) (fs_inodes fs) (<[h := hd]> (fs_handles fs)) (fs_next fs)
       (fs_clock fs) (fs_fault fs).
Definition bump (fs : FS) : FS :=
  MkFS (fs_dir fs) (fs_inodes fs) (fs_handles fs) (S (fs_next fs)) (fs_clock fs) (fs_fault fs).
Definition tick (fs : FS) : FS :=
  MkFS (fs_dir fs) (fs_inodes fs) (fs_handles fs) (fs_next fs) (S (fs_clock fs)) (fs_fault fs).

(** The fault of the call being made. *)
Definition fault_now (fs : FS) : option (nat * error) := fs_fault fs (fs_clock fs).

(** A call that has no effect when it fails. *)
Definition syscall {A} (m : St FS A) : St FS A := fun fs =>
  match fault_now fs with
  | Some (_, e) => (Err e, tick fs)
  | None => m (tick fs)
  end.

(** ** [os] *)

Definition MkdirAll : St FS unit :=
  syscall (modify (fun fs => set_dir (Some (default ∅ (fs_dir fs))) fs)).

(** Byte-wise comparison of names. *)
Definition name_le (x y : string * dirent) : Prop := String.leb x.1 y.1 = true.
#[global] Instance name_le_dec : RelDecision name_le.
Proof. intros x y. unfold name_le. apply _. Defined.

(** [os.ReadDir]: the entries sorted by file name. *)
Definition ReadDir : St FS (list (string * dirent)) :=
  syscall (fun fs =>
    match fs_dir fs with
    | None => (Err ErrNotExist, fs)
    | Some d => (Ok (merge_sort name_le (map_to_list d)), fs)
    end).

(** A new handle on inode [i]. *)
Definition new_handle (i : nat) (fs : FS) : nat * FS :=
  (fs_next fs, bump (set_handle (fs_next fs) (Handle i true) fs)).

(** [os.OpenFile(name, O_WRONLY|O_APPEND)], with [O_CREATE] when [create]. *)
Definition OpenAppend (create : bool) (name : string) : St FS nat :=
  syscall (fun fs =>
    match fs_dir fs with
    | None => (Err ErrNotExist, fs)
    | Some d =>
        match d !! name with
        | Some DDir => (Err (SysError "is a directory"), fs)
        | Some (DFile i) => let '(h, fs') := new_handle i fs in (Ok h, fs')
        | None =>
            if create then
              let i := fs_next fs in
              let fs1 := bump (set_inode i (Inode [] 0) (set_dir (Some (<[name := DFile i]> d)) fs)) in
              let '(h, fs') := new_handle i fs1 in (Ok h, fs')
            else (Err ErrNotExist, fs)
        end
    end).

(** The inode behind an open handle. *)
Definition fd_ino (h : nat) (fs : FS) : option nat :=
  match fs_handles fs !! h with
  | Some (Handle i true) => Some i
  | _ => None
  end.

Definition ino_data (i : nat) (fs : FS) : bytes :=
  match fs_inodes fs !! i with Some nd => i_data nd | None => [] end.
Definition ino_durable (i : nat) (fs : FS) : nat :=
  match fs_inodes fs !! i with Some nd => i_durable nd | None => 0 end.

(** [f.Write(b)]: the number of bytes written and the error. *)
Definition FileWrite (h : nat) (b : bytes) (fs : FS) : (nat * option error) * FS :=
  match fd_ino h fs with
  | None => ((0, Some ErrClosed), fs)
  | Some i =>
      let append n := set_inode i (Inode (ino_data i fs ++ take n b) (ino_durable i fs)) (tick fs) in
      match fault_now fs with
      | Some (n, e) => ((min n (length b), Some e), append n)
      | None => ((length b, None), append (length b))
      end
  end.

(** [f.Sync()]. *)
Definition FileSync (h : nat) : St FS unit := fun fs =>
  match fd_ino h fs with
  | None => (Err ErrClosed, fs)
  | Some i =>
      syscall (modify (fun fs =>
        set_inode i (Inode (ino_data i fs) (length (ino_data i fs))) fs)) fs
  end.

(** [f.Close()]: the handle is gone whether or not an error is reported. *)
Definition FileClose (h : nat) : St FS unit := fun fs =>
  match fd_ino h fs with
  | None => (Err ErrClosed, fs)
  | Some i =>
      let fs' := set_handle h (Handle i false) (tick fs) in
      match fault_now fs with
      | Some (_, e) => (Err e, fs')
      | None => (Ok tt, fs')
      end
  end.

(** [f.Stat()], its [Size()]. *)
Definition FileSize (h : nat) : St FS Z := fun fs =>
  match fd_ino h fs with
  | None => (Err ErrClosed, fs)
  | Some i => syscall (ret (Z.of_nat (length (ino_data i fs)))) fs
  end.

(** [os.Remove] of a file name. *)
Definition Remove (name : string) : St FS unit :=
  syscall (fun fs =>
    match fs_dir fs with
    | None => (Err ErrNotExist, fs)
    | Some d =>
        match d !! name with
        | Some (DFile _) => (Ok tt, set_dir (Some (delete name d)) fs)
        | Some DDir => (Err (SysError "is a directory"), fs)
        | None => (Err ErrNotExist, fs)
        end
    end).

(** [os.Open] and the reads that follow: the bytes delivered, and the error
    that ended the reading early, if any. *)
Definition ReadFile (name : string) : St FS (bytes * option error) :=
  syscall (fun fs =>
    match fs_dir fs with
    | None => (Err ErrNotExist, fs)
    | Some d =>
        match d !! name with
        | Some (DFile i) =>
            match fault_now fs with
            | Some (n, e) => (Ok (take n (ino_data i fs), Some e), tick fs)
            | None => (Ok (ino_data i fs, None), tick fs)
            end
        | Some DDir => (Ok ([], Some (SysError "is a directory")), tick fs)
        | None => (Err ErrNotExist, fs)
        end
    end).

(** A power failure keeps the durable prefix of every inode (the weakest
    guarantee) and no open file; the machine starts again without faults. *)
Definition crash (fs : FS) : FS :=
  MkFS (fs_dir fs) ((fun nd => Inode (take (i_durable nd) (i_data nd)) (i_durable nd)) <$> fs_inodes fs)
       ∅ (fs_next fs) 0 (fun _ => None).

(** ** [bufio.Writer] of 64 KiB over a file *)

Definition bufSize : Z := Z.shiftl 64 10.

Record BufWriter := MkBuf { b_buf : bytes; b_err : option error; b_fd : nat }.

Definition Available (b : BufWriter) : Z := (bufSize - Z.of_nat (length (b_buf b)))%Z.

Definition BufFlush : St (BufWriter * FS) unit := fun '(b, fs) =>
  match b_err b with
  | Some e => (Err e, (b, fs))
  | None =>
      if bool_decide (b_buf b = []) then (Ok tt, (b, fs)) else
      let '((n, err), fs') := FileWrite (b_fd b) (b_buf b) fs in
      match err with
      | Some e => (Err e, (MkBuf (drop n (b_buf b)) (Some e) (b_fd b), fs'))
      | None => (Ok tt, (MkBuf [] None (b_fd b), fs'))
      end
  end.

(** The loop [for len(p) > b.Available() && b.err == nil], returning what is
    left of [p].  Two turns are always enough: after one that flushes, the
    buffer is empty and the next writes the rest directly. *)
Fixpoint buf_write_loop (fuel : nat) (p : bytes) (s : BufWriter * FS) : bytes * (BufWriter * FS) :=
  let '(b, fs) := s in
  match fuel with
  | O => (p, s)
  | S fuel' =>
      if bool_decide (Available b < Z.of_nat (length p))%Z && bool_decide (b_err b = None) then
        if bool_decide (b_buf b = []) then
          let '((n, err), fs') := FileWrite (b_fd b) p fs in
          buf_write_loop fuel' (drop n p) (MkBuf [] err (b_fd b), fs')
        else
          let n := Z.to_nat (Available b) in
          let '(_, s') := BufFlush (MkBuf (b_buf b ++ take n p) None (b_fd b), fs) in
          buf_write_loop fuel' (drop n p) s'
      else (p, s)
  end.

Definition BufWrite (p : bytes) : St (BufWriter * FS) Z := fun s =>
  let '(rest, (b, fs)) := buf_write_loop 2 p s in
  match b_err b with
  | Some e => (Err e, (b, fs))
  | None => (Ok (Z.of_nat (length p)), (MkBuf (b_buf b ++ rest) None (b_fd b), fs))
  end.

(** ** Facts *)

Definition no_faults (fs : FS) : Prop := forall n, fs_fault fs n = None.

(** [fs'] is [fs] up to the contents of inode [i] and the clock. *)
Definition fs_frame (i : nat) (fs fs' : FS) : Prop :=
  fs_dir fs' = fs_dir fs /\ fs_handles fs' = fs_handles fs /\ fs_next fs' = fs_next fs /\
  fs_fault fs' = fs_fault fs /\ forall j, j <> i -> fs_inodes fs' !! j = fs_inodes fs !! j.

(** [fs'] is [fs] after the bytes [w] were appended to the file behind [h]. *)
Definition appended (h : nat) (w : bytes) (fs fs' : FS) : Prop :=
  match fd_ino h fs with
  | None => fs' = fs /\ w = []
  | Some i => fs_frame i fs fs' /\ ino_data i fs' = ino_data i fs ++ w /\
              ino_durable i fs' = ino_durable i fs
  end.

Lemma fs_frame_refl i fs : fs_frame i fs fs.
Proof. by repeat split. Qed.

Lemma fs_frame_trans i fs1 fs2 fs3 :
  fs_frame i fs1 fs2 -> fs_frame i fs2 fs3 -> fs_frame i fs1 fs3.
Proof.
  intros (H1 & H2 & H3 & H4 & H5) (K1 & K2 & K3 & K4 & K5). repeat split; try congruence.
  intros j Hj. by rewrite K5, H5.
Qed.

Lemma fs_frame_fd_ino i h fs fs' : fs_frame i fs fs' -> fd_ino h fs' = fd_ino h fs.
Proof. intros (_ & H & _). unfold fd_ino. by rewrite H. Qed.

Lemma fs_frame_ino_data i j fs fs' : fs_frame i fs fs' -> j <> i -> ino_data j fs' = ino_data j fs.
Proof. intros (_ & _ & _ & _ & H) Hj. unfold ino_data. by rewrite H. Qed.

Lemma fs_frame_no_faults i fs fs' : fs_frame i fs fs' -> no_faults fs -> no_faults fs'.
Proof. intros (_ & _ & _ & H & _) Hn n. by rewrite H. Qed.

Lemma appended_refl h fs : appended h [] fs fs.
Proof.
  unfold appended. destruct (fd_ino h fs); [|done].
  split; [apply fs_frame_refl|]. by rewrite app_nil_r.
Qed.

Lemma appended_fd_ino h h' w fs fs' : appended h w fs fs' -> fd_ino h' fs' = fd_ino h' fs.
Proof.
  unfold appended. destruct (fd_ino h fs); [|naive_solver].
  intros [H _]. by eapply fs_frame_fd_ino.
Qed.

Lemma appended_trans h w1 w2 fs1 fs2 fs3 :
  appended h w1 fs1 fs2 -> appended h w2 fs2 fs3 -> appended h (w1 ++ w2) fs1 fs3.
Proof.
  intros H1 H2. pose proof (appended_fd_ino _ h _ _ _ H1) as Hfd.
  unfold appended in *. rewrite Hfd in H2. destruct (fd_ino h fs1) as [i|].
  - destruct H1 as (F1 & D1 & U1), H2 as (F2 & D2 & U2).
    split; [by eapply fs_frame_trans|]. by rewrite D2, D1, app_assoc, U2, U1.
  - naive_solver.
Qed.

Lemma ino_data_set i nd fs : ino_data i (set_inode i nd fs) = i_data nd.
Proof. unfold ino_data. simpl. by rewrite lookup_insert_eq. Qed.

Lemma ino_durable_set i nd fs : ino_durable i (set_inode i nd fs) = i_durable nd.
Proof. unfold ino_durable. simpl. by rewrite lookup_insert_eq. Qed.

Lemma ino_data_set_ne i j nd fs : i <> j -> ino_data j (set_inode i nd fs) = ino_data j fs.
Proof. intros. unfold ino_data. simpl. by rewrite lookup_insert_ne. Qed.

Lemma set_inode_frame i nd fs : fs_frame i fs (set_inode i nd (tick fs)).
Proof. repeat split. intros j Hj. simpl. by rewrite lookup_insert_ne. Qed.

(** A file write appends a prefix of its argument, all of it on success. *)
Lemma FileWrite_spec h b fs n err fs' :
  FileWrite h b fs = ((n, err), fs') ->
  n <= length b /\ appended h (take n b) fs fs' /\
  (err = None -> n = length b /\ is_Some (fd_ino h fs)).
Proof.
  unfold FileWrite, appended. destruct (fd_ino h fs) as [i|] eqn:E.
  - destruct (fault_now fs) as [[k e]|]; intros [= <- <- <-];
      rewrite ino_data_set, ino_durable_set; simpl.
    + split; [lia|]. split; [|done]. split; [apply set_inode_frame|]. split; [|done].
      f_equal. destruct (decide (k <= length b)); [f_equal; lia|].
      by rewrite !take_ge by lia.
    + split; [lia|]. split; [|by eauto]. split; [apply set_inode_frame|done].
  - intros [= <- <- <-]. split; [lia|]. done.
Qed.

Lemma FileWrite_no_fault h b fs i :
  no_faults fs -> fd_ino h fs = Some i -> (FileWrite h b fs).1 = (length b, None).
Proof. intros Hn Hi. unfold FileWrite, fault_now. by rewrite Hi, Hn. Qed.

(** Flushing conserves bytes even when it fails half-way. *)
Lemma BufFlush_spec b fs r b' fs' :
  BufFlush (b, fs) = (r, (b', fs')) ->
  b_fd b' = b_fd b /\
  (exists w, appended (b_fd b) w fs fs' /\ w ++ b_buf b' = b_buf b) /\
  (r = Ok tt -> b_buf b' = [] /\ b_err b = None /\ b_err b' = None) /\
  (r <> Ok tt -> exists e, r = Err e /\ b_err b' = Some e).
Proof.
  unfold BufFlush. destruct (b_err b) as [e|] eqn:Ee.
  { intros [= <- <- <-]. split; [done|]. split; [exists []; split; [apply appended_refl|done]|].
    naive_solver. }
  case_bool_decide as Hb.
  { intros [= <- <- <-]. split; [done|]. split; [exists []; split; [apply appended_refl|done]|].
    naive_solver. }
  destruct (FileWrite (b_fd b) (b_buf b) fs) as [[n err] fs1] eqn:Ew.
  destruct (FileWrite_spec _ _ _ _ _ _ Ew) as (Hn & Ha & He).
  destruct err as [e|]; intros [= <- <- <-]; simpl.
  - split; [done|]. split; [exists (take n (b_buf b)); split; [done|apply take_drop]|]. naive_solver.
  - destruct (He eq_refl) as [-> _]. rewrite take_ge in Ha by lia.
    split; [done|]. split; [exists (b_buf b); split; [done|apply app_nil_r]|]. naive_solver.
Qed.

Lemma BufFlush_no_fault b fs i :
  no_faults fs -> fd_ino (b_fd b) fs = Some i -> b_err b = None ->
  (BufFlush (b, fs)).1 = Ok tt.
Proof.
  intros Hn Hi He. unfold BufFlush. rewrite He. case_bool_decide; [done|].
  pose proof (FileWrite_no_fault (b_fd b) (b_buf b) fs i Hn Hi) as Hw.
  destruct (FileWrite _ _ _) as [[n err] fs1]. by simplify_eq/=.
Qed.

(** The loop of [Write] conserves bytes; two turns end it. *)
Lemma buf_write_loop_spec fuel p b fs rest b' fs' :
  buf_write_loop fuel p (b, fs) = (rest, (b', fs')) ->
  b_fd b' = b_fd b /\
  exists w, appended (b_fd b) w fs fs' /\ w ++ b_buf b' ++ rest = b_buf b ++ p /\
            (b_err b' = None -> b_err b = None).
Proof.
  revert p b fs; induction fuel as [|fuel IH]; intros p b fs; cbn [buf_write_loop].
  { intros [= <- <- <-]. split; [done|]. exists []. split; [apply appended_refl|done]. }
  case_match eqn:Ec; cycle 1.
  { intros [= <- <- <-]. split; [done|]. exists []. split; [apply appended_refl|done]. }
  apply andb_true_iff in Ec as [_ Herr%bool_decide_eq_true].
  case_bool_decide as Hb.
  - destruct (FileWrite (b_fd b) p fs) as [[n err] fs1] eqn:Ew. intros H.
    destruct (FileWrite_spec _ _ _ _ _ _ Ew) as (Hn & Ha & _).
    apply IH in H as (-> & w & Hw & Heq & _). split; [done|]. simpl in *.
    exists (take n p ++ w). split; [by eapply appended_trans|]. split; [|done].
    rewrite <- app_assoc, Heq, Hb. simpl. apply take_drop.
  - set (k := Z.to_nat (Available b)).
    destruct (BufFlush (MkBuf (b_buf b ++ take k p) None (b_fd b), fs)) as [r [b1 fs1]] eqn:Ef.
    destruct (BufFlush_spec _ _ _ _ _ Ef) as (Hfd & (w1 & Ha1 & Hw1) & _). intros H.
    apply IH in H as (Hfd' & w & Hw & Heq & _). simpl in *. rewrite Hfd in *.
    split; [done|]. exists (w1 ++ w). split; [by eapply appended_trans|]. split; [|done].
    rewrite <- app_assoc, Heq, app_assoc, Hw1, <- app_assoc. by rewrite take_drop.
Qed.

Lemma bufSize_pos : (0 < bufSize)%Z.
Proof. done. Qed.

Lemma Available_empty fd err : Available (MkBuf [] err fd) = bufSize.
Proof. unfold Available. simpl. lia. Qed.

(** Buffered writing: on success exactly [p] joined the file-plus-buffer. *)
Lemma BufWrite_spec p b fs r b' fs' :
  BufWrite p (b, fs) = (r, (b', fs')) ->
  b_fd b' = b_fd b /\
  (exists w rest, appended (b_fd b) w fs fs' /\ w ++ b_buf b' ++ rest = b_buf b ++ p /\
                  (r = Ok (Z.of_nat (length p)) -> rest = [])) /\
  (forall z, r = Ok z -> z = Z.of_nat (length p) /\ b_err b = None /\ b_err b' = None) /\
  (forall e, r = Err e -> b_err b' = Some e) /\ (forall q, r <> Panic q).
Proof.
  unfold BufWrite. destruct (buf_write_loop 2 p (b, fs)) as [rest [b1 fs1]] eqn:El.
  destruct (buf_write_loop_spec _ _ _ _ _ _ _ El) as (Hfd & w & Ha & Heq & Herr).
  destruct (b_err b1) as [e|] eqn:E1; intros [= <- <- <-]; simpl.
  - split; [done|]. split; [by exists w, rest|]. naive_solver.
  - split; [done|]. split; [exists w, []; by rewrite app_nil_r|]. naive_solver.
Qed.

Lemma buf_write_loop_S fuel p b fs :
  buf_write_loop (S fuel) p (b, fs) =
    if bool_decide (Available b < Z.of_nat (length p))%Z && bool_decide (b_err b = None) then
      if bool_decide (b_buf b = []) then
        let '((n, err), fs') := FileWrite (b_fd b) p fs in
        buf_write_loop fuel (drop n p) (MkBuf [] err (b_fd b), fs')
      else
        let n := Z.to_nat (Available b) in
        let '(_, s') := BufFlush (MkBuf (b_buf b ++ take n p) None (b_fd b), fs) in
        buf_write_loop fuel (drop n p) s'
    else (p, (b, fs)).
Proof. done. Qed.

(** With an empty buffer one turn is enough. *)
Lemma buf_write_loop_empty fuel p fd fs rest b' fs' :
  buf_write_loop (S fuel) p (MkBuf [] None fd, fs) = (rest, (b', fs')) -> b_err b' = None ->
  (Z.of_nat (length (b_buf b') + length rest) <= bufSize)%Z.
Proof.
  cbn [buf_write_loop b_buf b_err b_fd]. rewrite Available_empty.
  case_match eqn:Ec; cycle 1.
  { intros [= <- <- <-] _. apply andb_false_iff in Ec as [Ec|Ec]; [|done].
    apply bool_decide_eq_false in Ec. simpl. lia. }
  rewrite bool_decide_eq_true_2 by done.
  destruct (FileWrite fd p fs) as [[n err] fs1] eqn:Ew.
  destruct (FileWrite_spec _ _ _ _ _ _ Ew) as (_ & _ & Hn). destruct err as [e|].
  - destruct fuel; cbn [buf_write_loop b_err].
    + by intros [= <- <- <-].
    + rewrite (bool_decide_eq_false_2 (Some e = None)), andb_false_r by done. by intros [= <- <- <-].
  - destruct (Hn eq_refl) as [-> _]. rewrite drop_ge by lia.
    destruct fuel; cbn [buf_write_loop b_err]; [by intros [= <- <- <-]|].
    rewrite (bool_decide_eq_false_2 (_ < _)%Z)
      by (rewrite Available_empty; pose proof bufSize_pos; simpl; lia).
    by intros [= <- <- <-].
Qed.

(** Two turns always are: the final copy never overflows the buffer. *)
Lemma buf_write_loop_fits p b fs rest b' fs' :
  (Z.of_nat (length (b_buf b)) <= bufSize)%Z ->
  buf_write_loop 2 p (b, fs) = (rest, (b', fs')) -> b_err b' = None ->
  (Z.of_nat (length (b_buf b') + length rest) <= bufSize)%Z.
Proof.
  intros Hb H He. destruct (decide (b_buf b = [])) as [Hnil|Hnil].
  { destruct (buf_write_loop_spec _ _ _ _ _ _ _ H) as (_ & w & _ & _ & Herr).
    destruct b as [buf err fd]; cbn [b_buf b_err b_fd] in *. rewrite (Herr He), Hnil in H.
    by eapply buf_write_loop_empty. }
  rewrite (buf_write_loop_S 1) in H. case_match eqn:Ec; cycle 1.
  { simplify_eq. rewrite He, andb_false_iff, !bool_decide_eq_false in Ec.
    destruct Ec as [Ec|]; [|done]. unfold Available in Ec. lia. }
  rewrite (bool_decide_eq_false_2 (b_buf b = [])) in H by done. cbn zeta in H.
  destruct (BufFlush _) as [r [b1 fs1]] eqn:Ef.
  destruct (BufFlush_spec _ _ _ _ _ Ef) as (_ & _ & Hok & Hbad).
  destruct (decide (b_err b1 = None)) as [E1|E1].
  - destruct b1 as [buf1 err1 fd1]; cbn [b_buf b_err b_fd] in *; subst.
    assert (r = Ok tt) as Hr by (destruct r as [[]|e|q]; [done| |];
      destruct Hbad as (? & ? & ?); done).
    destruct (Hok Hr) as [-> _]. by eapply (buf_write_loop_empty 0).
  - rewrite (buf_write_loop_S 0) in H. rewrite (bool_decide_eq_false_2 (b_err b1 = None)), andb_false_r in H
      by done. by simplify_eq.
Qed.

Lemma BufWrite_fits p b fs z b' fs' :
  (Z.of_nat (length (b_buf b)) <= bufSize)%Z -> BufWrite p (b, fs) = (Ok z, (b', fs')) ->
  (Z.of_nat (length (b_buf b')) <= bufSize)%Z.
Proof.
  intros Hb. unfold BufWrite. destruct (buf_write_loop 2 p (b, fs)) as [rest [b1 fs1]] eqn:El.
  destruct (b_err b1) eqn:E1; [done|]. intros [= <- <- <-]. simpl. rewrite length_app.
  by eapply buf_write_loop_fits.
Qed.

(** Without faults writing to an open file succeeds. *)
Lemma buf_write_loop_no_fault fuel p b fs i :
  no_faults fs -> fd_ino (b_fd b) fs = Some i -> b_err b = None ->
  b_err (buf_write_loop fuel p (b, fs)).2.1 = None.
Proof.
  revert p b fs; induction fuel as [|fuel IH]; intros p b fs Hn Hi He; [done|].
  rewrite buf_write_loop_S. destruct (bool_decide _ && bool_decide _); [|done].
  destruct (bool_decide (b_buf b = [])).
  - pose proof (FileWrite_no_fault (b_fd b) p fs i Hn Hi) as Hw.
    destruct (FileWrite _ _ _) as [[n err] fs1] eqn:Ew. cbn [fst] in Hw. simplify_eq.
    destruct (FileWrite_spec _ _ _ _ _ _ Ew) as (_ & Ha & _).
    pose proof (appended_fd_ino _ (b_fd b) _ _ _ Ha) as Hfd.
    unfold appended in Ha. rewrite Hi in Ha. destruct Ha as [Hf _].
    apply IH; [by eapply fs_frame_no_faults|simpl; congruence|done].
  - cbn zeta. destruct (BufFlush (MkBuf _ None (b_fd b), fs)) as [r [b1 fs1]] eqn:Ef.
    destruct (BufFlush_spec _ _ _ _ _ Ef) as (Hfd & (w & Ha & _) & Hok & _).
    pose proof (BufFlush_no_fault
      (MkBuf (b_buf b ++ take (Z.to_nat (Available b)) p) None (b_fd b)) fs i Hn Hi eq_refl) as Hr.
    rewrite Ef in Hr. destruct (Hok Hr) as (_ & _ & He1). simpl in *.
    pose proof (appended_fd_ino _ (b_fd b) _ _ _ Ha) as Hfd'.
    unfold appended in Ha. rewrite Hi in Ha. destruct Ha as [Hf _].
    apply IH; [by eapply fs_frame_no_faults|congruence|done].
Qed.

Lemma BufWrite_no_fault p b fs i :
  no_faults fs -> fd_ino (b_fd b) fs = Some i -> b_err b = None ->
  (BufWrite p (b, fs)).1 = Ok (Z.of_nat (length p)).
Proof.
  intros Hn Hi He. unfold BufWrite. pose proof (buf_write_loop_no_fault 2 p b fs i Hn Hi He) as Hl.
  destruct (buf_write_loop 2 p (b, fs)) as [rest [b1 fs1]]. simpl in Hl. by rewrite Hl.
Qed.

(** ** Well-formed directories *)

(** The entry of a name. *)
Definition entry (f : FS) (name : string) : option dirent := default ∅ (fs_dir f) !! name.

(** The bytes of a file, by its name. *)
Definition file_bytes (f : FS) (name : string) : bytes :=
  match entry f name with Some (DFile i) => ino_data i f | _ => [] end.

Record fs_ok (f : FS) : Prop := {
  ok_dir : forall n i, entry f n = Some (DFile i) -> i < fs_next f;
  ok_inj : forall n1 n2 i, entry f n1 = Some (DFile i) -> entry f n2 = Some (DFile i) -> n1 = n2;
  ok_handle : forall h hd, fs_handles f !! h = Some hd -> h < fs_next f;
}.

Lemma fs_ok_ext f f' :
  fs_dir f' = fs_dir f -> fs_handles f' = fs_handles f -> fs_next f' = fs_next f ->
  fs_ok f -> fs_ok f'.
Proof. intros Hd Hh Hn [H1 H2 H3]. split; unfold entry in *; rewrite ?Hd, ?Hh, ?Hn; eauto. Qed.

Lemma fs_ok_frame i f f' : fs_frame i f f' -> fs_ok f -> fs_ok f'.
Proof. intros (? & ? & ? & _). by apply fs_ok_ext. Qed.

Lemma fs_ok_appended h w f f' : appended h w f f' -> fs_ok f -> fs_ok f'.
Proof.
  unfold appended. destruct (fd_ino h f); [|naive_solver]. intros [H _]. by eapply fs_ok_frame.
Qed.

Lemma appended_dir h w f f' : appended h w f f' -> fs_dir f' = fs_dir f.
Proof. unfold appended. destruct (fd_ino h f); [|naive_solver]. by intros [(? & _) _]. Qed.

Lemma appended_fault h w f f' : appended h w f f' -> fs_fault f' = fs_fault f.
Proof. unfold appended. destruct (fd_ino h f); [|naive_solver]. by intros [(_ & _ & _ & ? & _) _]. Qed.

Lemma fd_ino_lt h i f : fs_ok f -> fd_ino h f = Some i -> h < fs_next f.
Proof.
  intros Hok. unfold fd_ino. destruct (fs_handles f !! h) eqn:E; [|done].
  intros _. by eapply ok_handle.
Qed.

(** Opening a segment for appending. *)
Lemma OpenAppend_spec create name f r f' :
  fs_ok f -> OpenAppend create name f = (r, f') ->
  fs_ok f' /\ fs_fault f' = fs_fault f /\
  (forall h', h' < fs_next f -> fd_ino h' f' = fd_ino h' f) /\
  (forall j, j < fs_next f -> fs_inodes f' !! j = fs_inodes f !! j) /\
  match r with
  | Ok h => exists i d, fs_dir f = Some d /\ fs_next f <= h /\ fd_ino h f' = Some i /\
      (d !! name = Some (DFile i) /\ fs_dir f' = Some d \/
       create = true /\ d !! name = None /\ fs_dir f' = Some (<[name := DFile i]> d) /\
       fs_inodes f' !! i = Some (Inode [] 0) /\ fs_next f <= i)
  | Err _ => f' = tick f
  | Panic _ => False
  end.
Proof.
  intros [H1 H2 H3]. unfold OpenAppend, syscall.
  assert (Htick : fs_ok (tick f)) by (by eapply fs_ok_ext; [..|split]).
  destruct (fault_now f) as [[n e]|]; [by intros [= <- <-]|].
  cbn [fs_dir tick]. destruct (fs_dir f) as [d|] eqn:Ed; [|by intros [= <- <-]].
  assert (Hent : forall x, entry f x = d !! x) by (intros; unfold entry; by rewrite Ed).
  destruct (d !! name) as [[i|]|] eqn:En; [| by intros [= <- <-] |].
  - unfold new_handle. intros [= <- <-]. simpl. rewrite Ed. split; [split|split; [done|]].
    + intros n j. unfold entry. simpl. rewrite Ed. simpl. rewrite <- Hent. intros ?%H1. simpl. lia.
    + intros n1 n2 j. unfold entry. simpl. rewrite Ed. simpl. rewrite <- !Hent. apply H2.
    + intros h hd Hh. simpl in *. destruct (decide (h = fs_next f)); [lia|].
      rewrite lookup_insert_ne in Hh by done. apply H3 in Hh. lia.
    + split; [|split; [done|]].
      * intros h' Hh'. unfold fd_ino. simpl. by rewrite lookup_insert_ne by lia.
      * exists i, d. split; [done|]. split; [lia|].
        split; [unfold fd_ino; simpl; by rewrite lookup_insert_eq|]. by left.
  - destruct create; [|by intros [= <- <-]]. unfold new_handle. intros [= <- <-]. simpl.
    assert (Hent' : forall x, default ∅ (Some (<[name := DFile (fs_next f)]> d)) !! x
                     = if decide (name = x) then Some (DFile (fs_next f)) else entry f x).
    { intros x. simpl. rewrite Hent. apply lookup_insert. }
    split; [split|split; [done|]].
    + intros n j. unfold entry. cbn [fs_dir bump set_handle set_inode set_dir tick]. rewrite Hent'.
      simpl. case_decide; intros Hx; [simplify_eq; lia|apply H1 in Hx; lia].
    + intros n1 n2 j. unfold entry. cbn [fs_dir bump set_handle set_inode set_dir tick]. rewrite !Hent'.
      repeat case_decide; intros Hx Hy; simplify_eq; try done.
      * apply H1 in Hy. lia.
      * apply H1 in Hx. lia.
      * by eapply H2.
    + intros h hd Hh. simpl in *. destruct (decide (h = S (fs_next f))); [lia|].
      rewrite lookup_insert_ne in Hh by done. apply H3 in Hh. lia.
    + split; [|split].
      * intros h' Hh'. unfold fd_ino. simpl. by rewrite lookup_insert_ne by lia.
      * intros j Hj. by rewrite lookup_insert_ne by lia.
      * exists (fs_next f), d. split; [done|]. split; [lia|].
        split; [unfold fd_ino; simpl; by rewrite lookup_insert_eq|]. right.
        rewrite lookup_insert_eq. split_and!; try done; lia.
Qed.

Lemma FileSync_spec h f r f' :
  FileSync h f = (r, f') ->
  match r with
  | Ok _ => exists i, fd_ino h f = Some i /\ fs_frame i f f' /\ ino_data i f' = ino_data i f /\
                      ino_durable i f' = length (ino_data i f)
  | Err _ => f' = f \/ f' = tick f
  | Panic _ => False
  end.
Proof.
  unfold FileSync, syscall. destruct (fd_ino h f) as [i|] eqn:Ei; [|intros [= <- <-]; by left].
  destruct (fault_now f) as [[n e]|]; [intros [= <- <-]; by right|].
  unfold modify. intros [= <- <-]. exists i. split; [done|]. split; [apply set_inode_frame|].
  by rewrite ino_data_set, ino_durable_set.
Qed.

Lemma FileClose_spec h f r f' :
  FileClose h f = (r, f') ->
  fs_dir f' = fs_dir f /\ fs_inodes f' = fs_inodes f /\ fs_next f' = fs_next f /\
  fs_fault f' = fs_fault f /\ fd_ino h f' = None /\
  (forall h', h' <> h -> fd_ino h' f' = fd_ino h' f) /\ (forall p, r <> Panic p) /\
  (fs_ok f -> fs_ok f').
Proof.
  unfold FileClose. destruct (fd_ino h f) as [i|] eqn:Ei; [|intros [= <- <-]; by split_and!].
  assert (Hh : is_Some (fs_handles f !! h)).
  { unfold fd_ino in Ei. by destruct (fs_handles f !! h). }
  set (f1 := set_handle h (Handle i false) (tick f)). intros H.
  assert (f' = f1 /\ forall p, r <> Panic p) as [-> Hr]
    by (destruct (fault_now f) as [[n e]|]; by simplify_eq).
  split_and!; try done.
  - unfold fd_ino. simpl. by rewrite lookup_insert_eq.
  - intros h' Hne. unfold fd_ino. simpl. by rewrite lookup_insert_ne.
  - intros [H1 H2 H3]. split; [exact H1|exact H2|]. intros h' hd. simpl.
    destruct (decide (h = h')) as [->|]; [intros _; destruct Hh; by eapply H3|].
    rewrite lookup_insert_ne by done. apply H3.
Qed.

Lemma MkdirAll_spec f r f' :
  fs_ok f -> MkdirAll f = (r, f') ->
  fs_ok f' /\ (forall p, r <> Panic p) /\ fs_fault f' = fs_fault f /\
  fs_inodes f' = fs_inodes f /\ fs_next f' = fs_next f /\
  (forall x, entry f' x = entry f x) /\ (r = Ok tt -> fs_dir f' = Some (default ∅ (fs_dir f))).
Proof.
  intros [H1 H2 H3]. unfold MkdirAll, syscall. destruct (fault_now f) as [[n e]|]; intros [= <- <-].
  - split; [by split|]. by split_and!.
  - split; [by split|]. by split_and!.
Qed.

Lemma OpenAppend_no_fault create name f d i :
  no_faults f -> fs_dir f = Some d -> d !! name = Some (DFile i) ->
  exists h f', OpenAppend create name f = (Ok h, f').
Proof.
  intros Hn Hd Hl. unfold OpenAppend, syscall, fault_now. rewrite Hn. cbn [fs_dir tick].
  rewrite Hd, Hl. by eexists _, _.
Qed.
