(* ===== verification/Message.v ===== *)
(** * Package [message] (internal/message/message.go)

    The messages that travel through the gateway and the two [sync.Pool]s
    that recycle them.  Messages are shared by pointer and cleared when they
    are released, so the pools are modelled with their memory: cells at
    addresses and the list of addresses handed back to the pool.  An address
    handed back twice, or read after it was handed back, is visible in that
    state. *)

From Stdlib Require Import ZArith Lia Ascii String.
From stdpp Require Import base tactics numbers strings gmap list.
From S2P Require Import Prelude GoStrings.

(** ** [time] *)

(** [time.Time]: nanoseconds since 0001-01-01T00:00:00Z, and the offset of
    its location east of UTC in seconds.  The zero [Time] is that instant. *)
Record Time := MkTime { t_ns : Z; t_offset : Z }.
Definition zeroTime : Time := MkTime 0 0.

#[global] Instance Time_eq_dec : EqDecision Time.
Proof. solve_decision. Defined.

(** [json.RawMessage], a slice that may be nil. *)
Abbreviation RawMessage := (option bytes).
Definition raw_bytes (d : RawMessage) : bytes := default [] d.

(** ** [sync.Pool]

    [Get] hands out some address put back earlier or, when the pool is empty
    or the runtime has dropped its contents, a new one: the argument [c] of
    [PoolGet] is the runtime's choice. *)

Record Pool (T : Type) := MkPool {
  cells : gmap nat T;
  free : list nat;
  next : nat;
}.
Arguments MkPool {T} cells free next.
Arguments cells {T} _.
Arguments free {T} _.
Arguments next {T} _.

Definition emptyPool {T} : Pool T := MkPool ∅ [] 0.

Definition PoolGet {T} (new : T) (c : option nat) (p : Pool T) : nat * Pool T :=
  match c ≫= fun i => free p !! i with
  | Some a => (a, MkPool (cells p) (delete (default 0 c) (free p)) (next p))
  | None => (next p, MkPool (<[next p := new]> (cells p)) (free p) (S (next p)))
  end.

Definition PoolPut {T} (a : nat) (p : Pool T) : Pool T :=
  MkPool (cells p) (a :: free p) (next p).

(** [*a] and [*a = v]. *)
Definition load {T} (a : nat) : St (Pool T) T := fun p =>
  match cells p !! a with
  | Some v => (Ok v, p)
  | None => (Panic "nil pointer dereference", p)
  end.
Definition store {T} (a : nat) (v : T) : St (Pool T) unit :=
  modify (fun p => MkPool (<[a := v]> (cells p)) (free p) (next p)).

(** ** The package *)

Module message.

Record Message := MkMessage {
  RequestID : string;
  TraceID : string;
  Project : string;
  Router : string;
  Data : RawMessage;
  Env : string;
  Headers : gmap string string;
  Timestamp : Time;
}.

Record GatewayMeta := MkGatewayMeta {
  gm_RequestID : string;
  gm_TraceID : string;
  gm_ReceivedAt : Time;
  gm_Env : string;
}.

Record Envelope := MkEnvelope {
  env_GatewayMeta : GatewayMeta;
  env_Project : string;
  env_Router : string;
  env_Data : RawMessage;
}.

(** The body of an upload, and of every answer of the upload endpoint. *)
Record UploadRequest := MkUploadRequest {
  req_Project : string;
  req_Router : string;
  req_Data : RawMessage;
}.

Record UploadResponse := MkUploadResponse {
  resp_Code : Z;
  resp_Message : string;
  resp_RequestID : string;
  resp_TraceID : string;
}.

(** [&Message{Headers: make(map[string]string, 4)}]. *)
Definition newMessage : Message := MkMessage "" "" "" "" None "" ∅ zeroTime.

Definition newEnvelope : Envelope :=
  MkEnvelope (MkGatewayMeta "" "" zeroTime "") "" "" None.

Definition AcquireMessage (c : option nat) : St (Pool Message) nat := fun p =>
  let '(a, p') := PoolGet newMessage c p in (Ok a, p').

(** Clears every field and hands the message back; nil is ignored. *)
Definition ReleaseMessage (msg : option nat) : St (Pool Message) unit :=
  match msg with
  | None => ret tt
  | Some a =>
      (m <- load a ;;
       store a (MkMessage "" "" "" "" None ""
                  (foldr (fun k => delete k) (Headers m) (map_to_list (Headers m)).*1)
                  zeroTime) ;;;
       modify (PoolPut a))%go
  end.

Definition AcquireEnvelope (c : option nat) : St (Pool Envelope) nat := fun p =>
  let '(a, p') := PoolGet newEnvelope c p in (Ok a, p').

Definition ReleaseEnvelope (env : nat) : St (Pool Envelope) unit :=
  (_ <- load env ;;
   store env (MkEnvelope (MkGatewayMeta "" "" zeroTime "") "" "" None) ;;;
   modify (PoolPut env))%go.

(** *** Invariant and its preservation *)

(** The pool is sound: no address was handed back twice, and a message
    waiting in the pool carries nothing of the request it served. *)
Record pool_ok (p : Pool Message) : Prop := {
  pool_nodup : NoDup (free p);
  pool_blank : forall a, a ∈ free p -> cells p !! a = Some newMessage;
  pool_fresh : forall a, is_Some (cells p !! a) -> a < next p;
}.

(** A pointer the program may use: allocated and not handed back. *)
Definition live (p : Pool Message) (a : nat) : Prop :=
  is_Some (cells p !! a) /\ a ∉ free p.

Lemma emptyPool_ok : pool_ok emptyPool.
Proof. split; [constructor|set_solver|]. intros a [v Hv]. simpl in Hv. by rewrite lookup_empty in Hv. Qed.

Lemma clear_headers (h : gmap string string) :
  foldr (fun k => delete k) h (map_to_list h).*1 = ∅.
Proof.
  apply map_empty. intros k.
  assert (Hg : forall ks m, foldr (fun k => delete k) m ks !! k
                = if decide (k ∈ ks) then None else (m : gmap string string) !! k).
  { intros ks m. induction ks as [|k' ks IH]; cbn [foldr].
    - case_decide as Hk; [set_solver|done].
    - destruct (decide (k' = k)) as [->|Hne].
      + rewrite lookup_delete_eq. destruct (decide (k ∈ k :: ks)); set_solver.
      + rewrite lookup_delete_ne, IH by done.
        destruct (decide (k ∈ ks)), (decide (k ∈ k' :: ks)); set_solver. }
  rewrite Hg. case_decide as Hin; [done|].
  destruct (h !! k) as [v|] eqn:E; [|done]. exfalso. apply Hin.
  apply list_elem_of_fmap. exists (k, v). split; [done|]. by apply elem_of_map_to_list.
Qed.

(** A message taken from a sound pool is blank, live, and distinct from every
    pointer in use; the pointers in use are untouched. *)
Lemma AcquireMessage_spec c p :
  pool_ok p ->
  exists a p', AcquireMessage c p = (Ok a, p') /\ pool_ok p' /\
    cells p' !! a = Some newMessage /\ live p' a /\ ~ live p a /\
    (forall b, live p b -> live p' b /\ cells p' !! b = cells p !! b).
Proof.
  intros [Hnd Hbl Hfr]. unfold AcquireMessage, PoolGet.
  destruct (c ≫= fun i => free p !! i) as [a|] eqn:E.
  - destruct c as [i|]; simpl in E; [|done]. eexists a, _. split; [done|].
    assert (Ha : a ∈ free p) by (apply list_elem_of_lookup; eauto).
    pose proof (delete_Permutation _ _ _ E) as Hperm. simpl.
    assert (Hnd' : NoDup (a :: delete i (free p))) by (by rewrite <- Hperm).
    apply NoDup_cons in Hnd' as [Hnotin Hnd'].
    assert (Hsub : forall b, b ∈ delete i (free p) -> b ∈ free p)
      by (intros b Hb; rewrite Hperm; set_solver).
    split; [split; simpl; auto|]. split; [by apply Hbl|].
    split; [by split; [rewrite Hbl by done|]|]. split; [by intros [_ []]|].
    intros b [Hb1 Hb2]. split; [|done]. split; [done|]. simpl. auto.
  - eexists (next p), _. split; [done|]. simpl.
    assert (Hn : cells p !! next p = None).
    { destruct (cells p !! next p) eqn:En; [|done].
      specialize (Hfr (next p)). rewrite En in Hfr. specialize (Hfr (mk_is_Some _ _ eq_refl)). lia. }
    assert (Hfree : next p ∉ free p) by (intros Hin; apply Hbl in Hin; congruence).
    split; [split; simpl; [done| |]|].
    + intros a Ha. rewrite lookup_insert_ne by congruence. auto.
    + intros a [v Hv]. destruct (decide (a = next p)) as [->|]; [lia|].
      rewrite lookup_insert_ne in Hv by done. specialize (Hfr a (mk_is_Some _ _ Hv)). lia.
    + rewrite lookup_insert_eq. split; [done|]. split; [split; simpl; [by rewrite lookup_insert_eq|done]|].
      split; [intros [Hs _]; rewrite Hn in Hs; by destruct Hs|].
      intros b [Hb1 Hb2]. assert (b <> next p) by (intros ->; rewrite Hn in Hb1; by destruct Hb1).
      unfold live. simpl. by rewrite lookup_insert_ne.
Qed.

(** Releasing a live message keeps the pool sound and touches no other. *)
Lemma ReleaseMessage_spec a p :
  pool_ok p -> live p a ->
  exists p', ReleaseMessage (Some a) p = (Ok tt, p') /\ pool_ok p' /\ ~ live p' a /\
    (forall b, b <> a -> live p b -> live p' b /\ cells p' !! b = cells p !! b).
Proof.
  intros [Hnd Hbl Hfr] [[m Hm] Ha]. unfold ReleaseMessage, bind, load. rewrite Hm. simpl.
  eexists. split; [done|]. rewrite clear_headers. simpl.
  split; [split; simpl|].
  - by constructor.
  - intros b Hb. destruct (decide (b = a)) as [->|]; [by rewrite lookup_insert_eq|].
    rewrite lookup_insert_ne by done. set_solver.
  - intros b [v Hv]. destruct (decide (b = a)) as [->|]; [by apply Hfr; rewrite Hm|].
    rewrite lookup_insert_ne in Hv by done. eauto.
  - split; [intros [_ Hin]; simpl in Hin; set_solver|].
    intros b Hne [Hb1 Hb2]. unfold live. simpl. rewrite lookup_insert_ne by done. set_solver.
Qed.
End message.
