(* ===== verification/ConfigPkg.v ===== *)
(** * Package [config] (internal/config/config.go)

    The configuration, its defaults, the manager that loads and reloads it
    and the loop that debounces file events.  The YAML decoder and the file
    watcher are not part of the repository: decoding is a parameter, and the
    watcher's events are the inputs of the loop. *)

From Stdlib Require Import ZArith Lia Ascii String SpecFloat.
From stdpp Require Import base tactics numbers strings gmap list.
From S2P Require Import Prelude GoStrings.

(** [interface{}] as YAML and JSON decoding fill it. *)
Inductive any :=
| VNil
| VString (s : string)
| VBool (b : bool)
| VInt (z : Z)
| VFloat (f : spec_float)
| VList (l : list any)
| VMap (m : list (string * any)).

(** [map[string]interface{}]. *)
Abbreviation anymap := (gmap string any).

Module config.
Local Open Scope go_scope.

Definition Millisecond : Z := 1000000.
Definition Second : Z := 1000 * Millisecond.

(** ** The configuration *)

Record ServerConfig := MkServerConfig {
  ListenAddr : string;
  ReadTimeout : Z;
  WriteTimeout : Z;
  MaxBodyBytes : Z;
  MaxConnsPerIP : Z;
  GlobalRateLimit : Z;
  AntsPoolSize : Z;
  Backpressure : string;
  IdleTimeout : Z;
  Env : string;
}.

Record AuthConfig := MkAuthConfig {
  AuthEnabled : bool;
  TimestampWindow : Z;
  NonceTTLSeconds : Z;
  NonceCacheSize : Z;
}.

Record SinkRef := MkSinkRef {
  ref_Type : string;
  ref_Instance : string;
  ref_Workers : Z;
  ref_ChannelSize : Z;
  ref_Config : anymap;
}.

Record SinkInstanceConfig := MkSinkInstanceConfig {
  inst_Type : string;
  inst_Workers : Z;
  inst_ChannelSize : Z;
  inst_Config : anymap;
}.

Record PipelineRef := MkPipelineRef { pipe_Type : string; pipe_Config : anymap }.

Record ProjectConfig := MkProjectConfig {
  Name : string;
  Enabled : bool;
  Sinks : list SinkRef;
  RateLimit : Z;
  ProjMaxBodyBytes : Z;
  AuthRequired : bool;
  Pipelines : list PipelineRef;
}.

Record RedisSinkConfig := MkRedisSinkConfig {
  Addr : string;
  Password : string;
  DB : Z;
  PoolSize : Z;
  MinIdleConns : Z;
  DialTimeout : Z;
  RedisReadTimeout : Z;
  RedisWriteTimeout : Z;
  Key : string;
  RedisType : string;
  MaxLen : Z;
}.

Record KafkaSinkConfig := MkKafkaSinkConfig {
  Brokers : list string;
  Topic : string;
  PartitionKey : string;
  Compression : string;
  BatchSize : Z;
  BatchTimeout : Z;
}.

Record SinksConfig := MkSinksConfig { Redis : RedisSinkConfig; Kafka : KafkaSinkConfig }.

Record LogConfig := MkLogConfig {
  Level : string;
  ConsoleEnabled : bool;
  ConsoleFormat : string;
  FileEnabled : bool;
  FileDir : string;
  FileLevels : list string;
  FileMaxAge : Z;
}.

Record MetricsConfig := MkMetricsConfig { MetricsEnabled : bool; MetricsPath : string; MetricsPort : Z }.
Record PprofConfig := MkPprofConfig { PprofEnabled : bool; PprofPath : string }.

Record WALConfig := MkWALConfig {
  WALEnabled : bool;
  WALDir : string;
  MaxSegmentBytes : Z;
  MaxSegments : Z;
  SyncInterval : Z;
}.

Record Config := MkConfig {
  Server : ServerConfig;
  Auth : AuthConfig;
  Projects : list ProjectConfig;
  SinksCfg : SinksConfig;
  SinkInstances : gmap string SinkInstanceConfig;
  MaxDepth : Z;                       (* Pipeline.MaxDepth *)
  Log : LogConfig;
  Metrics : MetricsConfig;
  WAL : WALConfig;
  Pprof : PprofConfig;
}.

(** ** Defaults *)

Definition or_str (v d : string) : string := if String.eqb v "" then d else v.
Definition or_int (v d : Z) : Z := if (v =? 0)%Z then d else v.

Definition server_defaults (s : ServerConfig) : ServerConfig :=
  MkServerConfig (or_str (ListenAddr s) ":8080") (or_int (ReadTimeout s) (3 * Second))
    (or_int (WriteTimeout s) (5 * Second)) (or_int (MaxBodyBytes s) (Z.shiftl 1 20)) (MaxConnsPerIP s)
    (if (GlobalRateLimit s <=? 0)%Z then 20000 else GlobalRateLimit s)%Z (or_int (AntsPoolSize s) 10000)
    (or_str (Backpressure s) "drop") (or_int (IdleTimeout s) (120 * Second)) (Env s).

Definition auth_defaults (a : AuthConfig) : AuthConfig :=
  MkAuthConfig (AuthEnabled a) (or_int (TimestampWindow a) 300) (or_int (NonceTTLSeconds a) 300)
    (or_int (NonceCacheSize a) 100000).

Definition redis_defaults (r : RedisSinkConfig) : RedisSinkConfig :=
  MkRedisSinkConfig (Addr r) (Password r) (DB r) (or_int (PoolSize r) 100) (or_int (MinIdleConns r) 10)
    (or_int (DialTimeout r) (5 * Second)) (or_int (RedisReadTimeout r) (3 * Second))
    (or_int (RedisWriteTimeout r) (3 * Second)) (Key r) (RedisType r) (MaxLen r).

Definition wal_defaults (w : WALConfig) : WALConfig :=
  MkWALConfig (WALEnabled w) (or_str (WALDir w) "data/wal") (or_int (MaxSegmentBytes w) (Z.shiftl 64 20))
    (or_int (MaxSegments w) 10) (or_int (SyncInterval w) (100 * Millisecond)).

Definition log_defaults (l : LogConfig) : LogConfig :=
  MkLogConfig (Level l) (ConsoleEnabled l) (ConsoleFormat l) (FileEnabled l) (or_str (FileDir l) "logs")
    (FileLevels l) (FileMaxAge l).

Definition applyDefaults (c : Config) : Config :=
  MkConfig (server_defaults (Server c)) (auth_defaults (Auth c)) (Projects c)
    (MkSinksConfig (redis_defaults (Redis (SinksCfg c))) (Kafka (SinksCfg c)))
    (SinkInstances c) (MaxDepth c) (log_defaults (Log c)) (Metrics c) (wal_defaults (WAL c)) (Pprof c).

(** ** The manager

    [W] is the state the callbacks work on and the file system [readFile]
    reads; [yaml] decodes. *)
Section manager.
Context {W : Type} (readFile : string -> St W bytes) (yaml : bytes -> result Config).

Record Manager := MkManager {
  current : option Config;
  path : string;
  onReload : list (Config -> St W unit);
  watching : bool;                    (* watcher != nil *)
  stopClosed : bool;
  closeOnce : bool;
}.

Definition onW {A} : St W A -> St (Manager * W) A := zoom snd (fun w s => (s.1, w)).
Definition modM (f : Manager -> Manager) : St (Manager * W) unit := modify (fun s => (f s.1, s.2)).

Definition set_current (c : Config) (m : Manager) : Manager :=
  MkManager (Some c) (path m) (onReload m) (watching m) (stopClosed m) (closeOnce m).

Definition OnReload (fn : Config -> St W unit) : St (Manager * W) unit :=
  modM (fun m => MkManager (current m) (path m) (onReload m ++ [fn]) (watching m) (stopClosed m) (closeOnce m)).

(** Each callback in turn; a panic of one is recovered and logged. *)
Fixpoint run_callbacks (fns : list (Config -> St W unit)) (c : Config) : St W unit :=
  match fns with
  | [] => ret tt
  | fn :: fns' => ignore (recovering ErrorString (fn c)) ;;; run_callbacks fns' c
  end.

Definition load : St (Manager * W) unit := fun s =>
  (data <- onW (readFile (path s.1)) ;;
   cfg <- (fun s => (yaml data, s)) ;;
   let cfg := applyDefaults cfg in
   let callbacks := onReload s.1 in
   modM (set_current cfg) ;;;
   onW (run_callbacks callbacks cfg)) s.

Definition Reload : St (Manager * W) unit := load.

Definition emptyManager (p : string) : Manager := MkManager None p [] false false false.

Definition NewManager (p : string) : St W Manager := fun w =>
  match load (emptyManager p, w) with
  | (Ok _, (m, w')) => (Ok m, w')
  | (Err e, (_, w')) => (Err e, w')
  | (Panic q, (_, w')) => (Panic q, w')
  end.

(** [fsnotify]: making a watcher, and adding a file to it.  Where either
    fails [m.watcher] is nil again.  The loop [Watch] starts is [watch_step]. *)
Definition Watch (newWatcher : St W unit) (addFile : string -> St W unit) : St (Manager * W) unit := fun s =>
  if watching s.1 then (Ok tt, s) else
  (onW newWatcher ;;;
   onW (addFile (path s.1)) ;;;
   modM (fun m => MkManager (current m) (path m) (onReload m) true (stopClosed m) (closeOnce m))) s.

Definition Get (m : Manager) : result Config :=
  match current m with Some c => Ok c | None => Panic "interface conversion: interface is nil" end.

Definition find_project (name : string) (ps : list ProjectConfig) : option ProjectConfig :=
  snd <$> list_find (fun p => Name p = name /\ Enabled p = true) ps.

Definition GetProject (name : string) (m : Manager) : result (option ProjectConfig) :=
  match Get m with
  | Ok c => Ok (find_project name (Projects c))
  | Err e => Err e
  | Panic p => Panic p
  end.

Definition Close : St (Manager * W) unit := fun s =>
  let m := s.1 in
  if closeOnce m then (Ok tt, s) else
  if stopClosed m then (Panic "close of closed channel", s) else
  (Ok tt, (MkManager (current m) (path m) (onReload m) (watching m) true true, s.2)).
End manager.
Arguments Manager W : clear implicits.

(** ** The watcher's loop

    A timer is running (with the time it fires at) or there is none.  Inputs
    carry the time at which the loop handles them. *)

Definition debounce : Z := 500 * Millisecond.

Inductive watch_input :=
| FileEvent (write_or_create : bool)   (* from watcher.Events *)
| WatchError                           (* from watcher.Errors *)
| TimerFired                           (* from timerCh *)
| Stopped.                             (* stopCh, or a closed channel *)

Record watch_state := MkWatch { timer : option Z; running : bool }.

(** The next state and whether it reloads; [None] when the input cannot
    happen. *)
Definition watch_step (t : Z) (i : watch_input) (s : watch_state) : option (watch_state * bool) :=
  if negb (running s) then None else
  match i with
  | FileEvent true => Some (MkWatch (Some (t + debounce)%Z) true, false)
  | FileEvent false | WatchError => Some (s, false)
  | TimerFired =>
      match timer s with
      | Some d => if (d <=? t)%Z then Some (MkWatch None true, true) else None
      | None => None
      end
  | Stopped => Some (MkWatch None false, false)
  end.

(** The times of the reloads along a run. *)
Fixpoint watch_run (ins : list (Z * watch_input)) (s : watch_state) : option (list Z * watch_state) :=
  match ins with
  | [] => Some ([], s)
  | (t, i) :: ins' =>
      match watch_step t i s with
      | Some (s', reload) =>
          match watch_run ins' s' with
          | Some (ts, s'') => Some ((if reload then [t] else []) ++ ts, s'')
          | None => None
          end
      | None => None
      end
  end.
End config.

Import config.
Local Open Scope go_scope.

(** ** Theorems *)

Lemma or_str_idem v d : or_str (or_str v d) d = or_str v d.
Proof. unfold or_str. destruct (String.eqb v "") eqn:E; [|by rewrite E]. by destruct (String.eqb d ""). Qed.

Lemma or_int_idem v d : or_int (or_int v d) d = or_int v d.
Proof. unfold or_int. destruct (v =? 0)%Z eqn:E; [|by rewrite E]. by destruct (d =? 0)%Z. Qed.

Lemma or_int_nonzero v d : d <> 0%Z -> or_int v d <> 0%Z.
Proof. intros Hd. unfold or_int. destruct (Z.eqb_spec v 0); done. Qed.

Lemma or_str_nonempty v d : d <> "" -> or_str v d <> "".
Proof. intros Hd. unfold or_str. destruct (String.eqb_spec v ""); done. Qed.

(** [applyDefaults] is idempotent, so reloading an effective
    configuration changes nothing, and leaves no zero value behind in the
    settings it completes; the global rate limit becomes positive. *)
Theorem defaults_idempotent_and_complete c :
  applyDefaults (applyDefaults c) = applyDefaults c /\
  let c' := applyDefaults c in
  ListenAddr (Server c') <> "" /\ Backpressure (Server c') <> "" /\ WALDir (WAL c') <> "" /\
  MaxBodyBytes (Server c') <> 0%Z /\ (0 < GlobalRateLimit (Server c'))%Z /\
  TimestampWindow (Auth c') <> 0%Z /\ NonceTTLSeconds (Auth c') <> 0%Z /\ NonceCacheSize (Auth c') <> 0%Z /\
  MaxSegmentBytes (WAL c') <> 0%Z /\ MaxSegments (WAL c') <> 0%Z /\ PoolSize (Redis (SinksCfg c')) <> 0%Z.
Proof.
  split.
  - destruct c as [[] [] ? [[] ?] ? ? [] ? [] ?]. unfold applyDefaults, server_defaults, auth_defaults,
      redis_defaults, wal_defaults, log_defaults. cbn [Server Auth SinksCfg Redis Kafka WAL Log Projects
      SinkInstances MaxDepth Metrics Pprof ListenAddr ReadTimeout WriteTimeout MaxBodyBytes MaxConnsPerIP
      GlobalRateLimit AntsPoolSize Backpressure IdleTimeout Env AuthEnabled TimestampWindow NonceTTLSeconds
      NonceCacheSize Addr Password DB PoolSize MinIdleConns DialTimeout RedisReadTimeout RedisWriteTimeout Key
      RedisType MaxLen WALEnabled WALDir MaxSegmentBytes MaxSegments SyncInterval Level ConsoleEnabled
      ConsoleFormat FileEnabled FileDir FileLevels FileMaxAge].
    rewrite !or_str_idem, !or_int_idem. do 2 f_equal.
    destruct (Z.leb_spec GlobalRateLimit0 0); [done|]. by rewrite (proj2 (Z.leb_gt _ _)).
  - cbn. split_and!; try (by apply or_str_nonempty); try (by apply or_int_nonzero).
    destruct (Z.leb_spec (GlobalRateLimit (Server c)) 0); lia.
Qed.

(** A configured [sync_interval] of 0, documented as syncing every
    entry, never reaches the log: the effective interval is 100 ms. *)
Theorem sync_every_entry_unreachable c :
  SyncInterval (WAL c) = 0%Z -> SyncInterval (WAL (applyDefaults c)) = (100 * Millisecond)%Z.
Proof. cbn. unfold or_int. by intros ->. Qed.

Section manager.
Context {W : Type} (readFile : string -> St W bytes) (yaml : bytes -> result Config).

(** The callbacks' effects on the world, each applied to what the one before
    left, panics and errors included. *)
Lemma run_callbacks_all fns c w :
  run_callbacks fns c w = (Ok tt, foldl (fun w (fn : Config -> St W unit) => (fn c w).2) w fns).
Proof.
  revert w; induction fns as [|fn fns IH]; intros w; [done|]. cbn [run_callbacks foldl].
  unfold bind at 1, ignore, bind, attempt, recovering. destruct (fn c w) as [[]]; apply IH.
Qed.

(** C36.  A reload that cannot read or decode the file keeps the current
    configuration and runs no callback.  A successful one installs the new
    configuration with its defaults and runs every registered callback on it,
    in order, whichever of them panic, and returns nil. *)
Theorem reload_is_all_or_nothing m w :
  match readFile (path m) w with
  | (Ok data, w1) =>
      match yaml data with
      | Ok c => Reload readFile yaml (m, w) =
          (Ok tt, (set_current (applyDefaults c) m,
                   foldl (fun w (fn : Config -> St W unit) => (fn (applyDefaults c) w).2) w1 (onReload m)))
      | Err e => Reload readFile yaml (m, w) = (Err e, (m, w1))
      | Panic p => Reload readFile yaml (m, w) = (Panic p, (m, w1))
      end
  | (Err e, w1) => Reload readFile yaml (m, w) = (Err e, (m, w1))
  | (Panic p, w1) => Reload readFile yaml (m, w) = (Panic p, (m, w1))
  end.
Proof.
  unfold Reload, load, bind, onW, zoom. cbn [fst snd].
  destruct (readFile (path m) w) as [[data|e|p] w1]; try done. destruct (yaml data) as [c|e|p]; try done.
  cbn [modM modify fst snd]. by rewrite run_callbacks_all.
Qed.

(** [GetProject] returns the first enabled project of that name and nil
    exactly when there is none. *)
Theorem get_project_first_enabled name m c r :
  current m = Some c -> GetProject (W := W) name m = Ok r ->
  match r with
  | Some p => exists before after, Projects c = before ++ p :: after /\ Name p = name /\ Enabled p = true /\
                forall q, q ∈ before -> Name q = name -> Enabled q = false
  | None => forall q, q ∈ Projects c -> Name q = name -> Enabled q = false
  end.
Proof.
  intros Hc. unfold GetProject, Get. rewrite Hc. intros [= <-]. unfold find_project.
  destruct (list_find _ (Projects c)) as [[i p]|] eqn:E; cbn.
  - apply list_find_Some in E as (Hi & [Hn He] & Hb).
    exists (take i (Projects c)), (drop (S i) (Projects c)). split; [by rewrite take_drop_middle|].
    split_and!; try done. intros q Hq Hname. apply list_elem_of_lookup in Hq as (j & Hj).
    apply lookup_take_Some in Hj as [Hj Hlt]. specialize (Hb j q Hj Hlt).
    destruct (Enabled q) eqn:Eq; [|done]. by destruct Hb.
  - apply list_find_None in E. rewrite Forall_forall in E. intros q Hq Hname. specialize (E q Hq).
    destruct (Enabled q) eqn:Eq; [|done]. by destruct E.
Qed.
End manager.

(** *** Debouncing *)

Lemma watch_run_app a b s :
  watch_run (a ++ b) s =
  match watch_run a s with
  | Some (ts, s') => match watch_run b s' with Some (ts', s'') => Some (ts ++ ts', s'') | None => None end
  | None => None
  end.
Proof.
  revert s; induction a as [|[t i] a IH]; intros s; cbn.
  - by destruct (watch_run b s) as [[]|].
  - destruct (watch_step t i s) as [[s' r]|]; [|done]. cbn. rewrite IH.
    destruct (watch_run a s') as [[ts s1]|]; [|done]. cbn.
    destruct (watch_run b s1) as [[ts' s2]|]; [|done]. cbn. by rewrite app_assoc.
Qed.

Definition is_write (i : watch_input) : bool := match i with FileEvent true => true | _ => false end.
Definition is_fire (i : watch_input) : bool := match i with TimerFired => true | _ => false end.

(** The pending timer was set by the last write, and nothing fired since. *)
Definition armed_by (a : list (Z * watch_input)) (d : Z) : Prop :=
  exists a1 tw a2, a = a1 ++ (tw, FileEvent true) :: a2 /\ d = (tw + debounce)%Z /\
    Forall (fun ti => is_write ti.2 = false /\ is_fire ti.2 = false) a2.

Lemma watch_armed a ts s d :
  watch_run a (MkWatch None true) = Some (ts, s) -> timer s = Some d -> armed_by a d.
Proof.
  revert ts s d; induction a as [|[t i] a IH] using rev_ind; intros ts s d Hr Hd.
  { injection Hr as <- <-. done. }
  rewrite watch_run_app in Hr. destruct (watch_run a (MkWatch None true)) as [[ts1 s1]|]; [|done]. cbn in Hr.
  unfold watch_step in Hr. destruct (running s1); [|done]. cbn in Hr.
  assert (Hkeep : is_write i = false -> is_fire i = false -> timer s1 = Some d -> armed_by (a ++ [(t, i)]) d).
  { intros Hw Hf H1. destruct (IH ts1 s1 d eq_refl H1) as (a1 & tw & a2 & -> & -> & Hq).
    exists a1, tw, (a2 ++ [(t, i)]). split; [by rewrite <- app_assoc|]. split; [done|].
    apply Forall_app. split; [done|]. by constructor. }
  destruct i as [[]| | |]; cbn in Hr.
  - injection Hr as <- <-. cbn in Hd. injection Hd as <-. by exists a, t, [].
  - injection Hr as <- <-. by apply Hkeep.
  - injection Hr as <- <-. by apply Hkeep.
  - destruct (timer s1) as [d1|]; [|done]. destruct (d1 <=? t)%Z; [|done]. cbn in Hr. by injection Hr as <- <-.
  - by injection Hr as <- <-.
Qed.

(** C37.  Debouncing: every reload happens at least 500 ms after the last
    write or create event before it, and since that event the timer has not
    fired: a burst of events causes one reload, after it has ended. *)
Theorem reload_is_debounced a t b ts s :
  watch_run (a ++ (t, TimerFired) :: b) (MkWatch None true) = Some (ts, s) ->
  exists d, armed_by a d /\ (d <= t)%Z.
Proof.
  rewrite watch_run_app. intros Hr. destruct (watch_run a (MkWatch None true)) as [[ts1 s1]|] eqn:E; [|done].
  cbn in Hr. unfold watch_step in Hr. destruct (running s1); [|done]. cbn in Hr.
  destruct (timer s1) as [d|] eqn:Ed; [|done]. exists d. split; [by eapply watch_armed|].
  destruct (Z.leb_spec d t); [done|discriminate].
Qed.

(** *** Instances *)

Definition empty_config : Config :=
  MkConfig (MkServerConfig "" 0 0 0 0 0 0 "" 0 "") (MkAuthConfig false 0 0 0)
    [MkProjectConfig "p" false [] 1 0 false []; MkProjectConfig "p" true [] 2 0 false []]
    (MkSinksConfig (MkRedisSinkConfig "" "" 0 0 0 0 0 0 "" "" 0) (MkKafkaSinkConfig [] "" "" "" 0 0))
    ∅ 0 (MkLogConfig "" false "" false "" [] 0) (MkMetricsConfig false "" 0) (MkWALConfig true "" 0 0 0)
    (MkPprofConfig false "").

Lemma sync_every_entry_unreachable_witness :
  SyncInterval (WAL (applyDefaults empty_config)) = (100 * Millisecond)%Z.
Proof. apply (sync_every_entry_unreachable empty_config). reflexivity. Defined.

Lemma get_project_first_enabled_witness :
  exists before after, Projects empty_config = before ++ MkProjectConfig "p" true [] 2 0 false [] :: after /\
    Name (MkProjectConfig "p" true [] 2 0 false []) = "p" /\ Enabled (MkProjectConfig "p" true [] 2 0 false []) = true /\
    forall q, q ∈ before -> Name q = "p" -> Enabled q = false.
Proof.
  apply (get_project_first_enabled (W := unit) "p" (MkManager (Some empty_config) "" [] false false false)
    empty_config (Some (MkProjectConfig "p" true [] 2 0 false []))); reflexivity.
Defined.

Lemma reload_is_debounced_witness :
  exists d, armed_by [(0, FileEvent true); (100 * Millisecond, FileEvent true)]%Z d /\ (d <= 600 * Millisecond)%Z.
Proof.
  eapply (reload_is_debounced _ _ [(700 * Millisecond, Stopped)%Z]). vm_compute. reflexivity.
Defined.
