(* ===== verification/GoCrypto.v ===== *)
(** * The parts of [crypto/sha256], [crypto/hmac] and [encoding/hex] the
    gateway uses *)

From Stdlib Require Import ZArith Lia Ascii String.
From stdpp Require Import base tactics numbers strings gmap list.
From S2P Require Import Prelude GoStrings.

Local Open Scope Z_scope.

(** ** Words *)

Definition mask32 : Z := 2 ^ 32 - 1.
Definition add32 (a b : Z) : Z := (a + b) mod 2 ^ 32.
Definition rotr (x : Z) (n : Z) : Z := Z.lor (Z.shiftr x n) (Z.land (Z.shiftl x (32 - n)) mask32).
Definition not32 (x : Z) : Z := Z.lxor x mask32.

(** Big-endian. *)
Definition be_bytes (n : nat) (z : Z) : bytes :=
  (fun i => byte_of (Z.shiftr z (8 * Z.of_nat i))) <$> rev (seq 0 n).
Definition be_word (b : bytes) : Z := foldl (fun acc c => acc * 256 + byte_val c) 0 b.

(** ** SHA-256 *)

(** Its constants as FIPS 180-4 defines them: the first 32 bits of the
    fractional parts of the cube roots of the first 64 primes, and of the
    square roots of the first 8. *)
Fixpoint primes (fuel : nat) (n : Z) (found : list Z) : list Z :=
  match fuel with
  | O => rev found
  | S fuel' => primes fuel' (n + 1) (if existsb (fun q => n mod q =? 0) found then found else n :: found)
  end.

(** The largest [r] below [2 ^ bits] (plus [lo]) with [r ^ 3 <= n]. *)
Fixpoint cube_root (bits : nat) (lo n : Z) : Z :=
  match bits with
  | O => lo
  | S bits' =>
      let r := lo + 2 ^ Z.of_nat bits' in
      cube_root bits' (if r ^ 3 <=? n then r else lo) n
  end.

Definition K256 : list Z :=
  Eval vm_compute in (fun q => cube_root 36 0 (q * 2 ^ 96) mod 2 ^ 32) <$> primes 310 2 [].

Record Digest := MkDigest { dA : Z; dB : Z; dC : Z; dD : Z; dE : Z; dF : Z; dG : Z; dH : Z }.

Definition H256 : Digest :=
  Eval vm_compute in
  match (fun q => Z.sqrt (q * 2 ^ 64) mod 2 ^ 32) <$> take 8 (primes 310 2 []) with
  | [a; b; c; d; e; f; g; h] => MkDigest a b c d e f g h
  | _ => MkDigest 0 0 0 0 0 0 0 0
  end.

(** The message schedule, latest word first. *)
Definition sigma0 (x : Z) : Z := Z.lxor (Z.lxor (rotr x 7) (rotr x 18)) (Z.shiftr x 3).
Definition sigma1 (x : Z) : Z := Z.lxor (Z.lxor (rotr x 17) (rotr x 19)) (Z.shiftr x 10).
Definition next_word (w : list Z) : Z :=
  add32 (add32 (sigma1 (nth 1 w 0)) (nth 6 w 0)) (add32 (sigma0 (nth 14 w 0)) (nth 15 w 0)).
Fixpoint extend (n : nat) (w : list Z) : list Z :=
  match n with O => w | S n' => extend n' (next_word w :: w) end.
Definition schedule (words : list Z) : list Z := rev (extend 48 (rev words)).

Definition round (d : Digest) (kw : Z * Z) : Digest :=
  let s1 := Z.lxor (Z.lxor (rotr (dE d) 6) (rotr (dE d) 11)) (rotr (dE d) 25) in
  let chv := Z.lxor (Z.land (dE d) (dF d)) (Z.land (not32 (dE d)) (dG d)) in
  let t1 := add32 (add32 (add32 (dH d) s1) (add32 chv kw.1)) kw.2 in
  let s0 := Z.lxor (Z.lxor (rotr (dA d) 2) (rotr (dA d) 13)) (rotr (dA d) 22) in
  let maj := Z.lxor (Z.lxor (Z.land (dA d) (dB d)) (Z.land (dA d) (dC d))) (Z.land (dB d) (dC d)) in
  MkDigest (add32 t1 (add32 s0 maj)) (dA d) (dB d) (dC d) (add32 (dD d) t1) (dE d) (dF d) (dG d).

Definition compress (d : Digest) (block : list Z) : Digest :=
  let r := foldl round d (combine K256 (schedule block)) in
  MkDigest (add32 (dA d) (dA r)) (add32 (dB d) (dB r)) (add32 (dC d) (dC r)) (add32 (dD d) (dD r))
           (add32 (dE d) (dE r)) (add32 (dF d) (dF r)) (add32 (dG d) (dG r)) (add32 (dH d) (dH r)).

Fixpoint chunks (n : nat) (size : nat) (b : bytes) : list bytes :=
  match n with O => [] | S n' => take size b :: chunks n' size (drop size b) end.

Definition pad (b : bytes) : bytes :=
  let len := Z.of_nat (length b) in
  b ++ byte_of 128 :: replicate (Z.to_nat ((55 - len) mod 64)) (byte_of 0) ++ be_bytes 8 (8 * len).

Definition sha256 (b : bytes) : bytes :=
  let p := pad b in
  let d := foldl (fun d blk => compress d (be_word <$> chunks 16 4 blk)) H256
             (chunks (Nat.div (length p) 64) 64 p) in
  concat (be_bytes 4 <$> [dA d; dB d; dC d; dD d; dE d; dF d; dG d; dH d]).

(** ** HMAC *)

Definition xor_byte (m : Z) (c : ascii) : ascii := byte_of (Z.lxor (byte_val c) m).

Definition hmac_sha256 (key data : bytes) : bytes :=
  let key := if (64 <? Z.of_nat (length key)) then sha256 key else key in
  let key := key ++ replicate (64 - length key) (byte_of 0) in
  sha256 ((xor_byte 0x5c <$> key) ++ sha256 ((xor_byte 0x36 <$> key) ++ data)).

(** [hmac.Equal]. *)
Definition hmac_Equal (a b : bytes) : bool := bool_decide (a = b).

(** ** [encoding/hex] *)

Definition hex_digit (z : Z) : ascii := byte_of (if z <? 10 then 48 + z else 87 + z).
Definition hex_val (c : ascii) : option Z :=
  let v := byte_val c in
  if (48 <=? v) && (v <=? 57) then Some (v - 48)
  else if (97 <=? v) && (v <=? 102) then Some (v - 87)
  else if (65 <=? v) && (v <=? 70) then Some (v - 55)
  else None.

Fixpoint hex_EncodeToString (b : bytes) : bytes :=
  match b with
  | [] => []
  | c :: b' => hex_digit (byte_val c / 16) :: hex_digit (byte_val c mod 16) :: hex_EncodeToString b'
  end.

Fixpoint hex_DecodeString (s : bytes) : option bytes :=
  match s with
  | [] => Some []
  | [_] => None
  | a :: c :: s' =>
      match hex_val a, hex_val c with
      | Some x, Some y => cons (byte_of (16 * x + y)) <$> hex_DecodeString s'
      | _, _ => None
      end
  end.

Lemma hex_byte c : exists x y, hex_val (hex_digit (byte_val c / 16)) = Some x /\
  hex_val (hex_digit (byte_val c mod 16)) = Some y /\ byte_of (16 * x + y) = c.
Proof. destruct c as [[] [] [] [] [] [] [] []]; by eexists _, _. Qed.

Lemma hex_roundtrip b : hex_DecodeString (hex_EncodeToString b) = Some b.
Proof.
  induction b as [|c b IH]; [done|]. cbn [hex_EncodeToString hex_DecodeString].
  destruct (hex_byte c) as (x & y & -> & -> & E). by rewrite IH, E.
Qed.

Lemma sha256_length b : length (sha256 b) = 32%nat.
Proof. reflexivity. Qed.

(** FIPS 180-2 and RFC 4231 test vectors. *)
Lemma hmac_sha256_length key data : length (hmac_sha256 key data) = 32%nat.
Proof. apply sha256_length. Qed.

Example sha256_abc : hex_EncodeToString (sha256 (list_ascii_of_string "abc")) =
  list_ascii_of_string "ba7816bf8f01cfea414140de5dae2223b00361a396177a9cb410ff61f20015ad".
Proof. vm_compute. reflexivity. Qed.

Example hmac_rfc4231_2 :
  hex_EncodeToString (hmac_sha256 (list_ascii_of_string "Jefe")
    (list_ascii_of_string "what do ya want for nothing?")) =
  list_ascii_of_string "5bdcc146bf60754e6a042426089575c75a003f089d2739839dec58b964ec3843".
Proof. vm_compute. reflexivity. Qed.
