(* ===== verification/Json.v ===== *)
(** * [encoding/json]: texts, values and decoding

    The scanner and the decoder of package [encoding/json] for what the
    gateway gives them: structs with [json] tags, [map[string]interface{}],
    [json.RawMessage].  A text is parsed to a value first ([Valid] comes
    before decoding in Go too); members of objects keep their source text,
    which is what a [RawMessage] receives. *)

From Stdlib Require Import ZArith Lia Ascii String SpecFloat.
From stdpp Require Import base tactics numbers strings gmap list.
From S2P Require Import Prelude GoStrings GoUtf8 GoCrypto.

Module json.

(** ** Characters *)

Definition quote : ascii := "034".
Definition backslash : ascii := "\".

Definition is_space (c : ascii) : bool :=
  Ascii.eqb c " " || Ascii.eqb c "009" || Ascii.eqb c "010" || Ascii.eqb c "013".

Fixpoint skip_ws (b : bytes) : bytes :=
  match b with
  | c :: b' => if is_space c then skip_ws b' else b
  | [] => []
  end.

Definition is_digit (c : ascii) : bool := utf8.between 48 57 (byte_val c).
Definition is_hex (c : ascii) : bool := match hex_val c with Some _ => true | None => false end.

(** [\b], [\f] and so on; the character after the backslash decides. *)
Definition simple_escape (c : ascii) : option ascii :=
  if Ascii.eqb c quote then Some quote
  else if Ascii.eqb c backslash then Some backslash
  else if Ascii.eqb c "/" then Some "/"%char
  else if Ascii.eqb c "b" then Some "008"%char
  else if Ascii.eqb c "f" then Some "012"%char
  else if Ascii.eqb c "n" then Some "010"%char
  else if Ascii.eqb c "r" then Some "013"%char
  else if Ascii.eqb c "t" then Some "009"%char
  else None.

Definition hex4 (h1 h2 h3 h4 : ascii) : Z :=
  let v c := default 0%Z (hex_val c) in
  (((v h1 * 16 + v h2) * 16 + v h3) * 16 + v h4)%Z.

(** ** Strings *)

(** The source of a string up to its closing quote, and the rest. *)
Fixpoint scan_string (b : bytes) : option (bytes * bytes) :=
  match b with
  | [] => None
  | c :: b' =>
      if Ascii.eqb c quote then Some ([], b')
      else if Ascii.eqb c backslash then
        match b' with
        | e :: b1 =>
            match simple_escape e with
            | Some _ => '(s, r) ← scan_string b1; Some (c :: e :: s, r)
            | None =>
                if Ascii.eqb e "u" then
                  match b1 with
                  | h1 :: h2 :: h3 :: h4 :: b2 =>
                      if is_hex h1 && is_hex h2 && is_hex h3 && is_hex h4
                      then '(s, r) ← scan_string b2; Some (c :: e :: h1 :: h2 :: h3 :: h4 :: s, r)
                      else None
                  | _ => None
                  end
                else None
            end
        | [] => None
        end
      else if (byte_val c <? 32)%Z then None
      else '(s, r) ← scan_string b'; Some (c :: s, r)
  end.

(** The surrogate pair of two code units, if they are one. *)
Definition pair_rune (r1 r2 : Z) : option Z :=
  if utf8.between 0xD800 0xDBFF r1 && utf8.between 0xDC00 0xDFFF r2
  then Some ((r1 - 0xD800) * 1024 + (r2 - 0xDC00) + 0x10000)%Z else None.

(** [unquoteBytes]; [skip] bytes belong to the rune before. *)
Fixpoint unquote (skip : nat) (s : bytes) : bytes :=
  match s with
  | [] => []
  | c :: s' =>
      match skip with
      | S k => unquote k s'
      | O =>
          if Ascii.eqb c backslash then
            match s' with
            | [] => []
            | e :: s1 =>
                match simple_escape e with
                | Some x => x :: unquote 0 s1
                | None =>
                    match s1 with
                    | h1 :: h2 :: h3 :: h4 :: s2 =>
                        let r1 := hex4 h1 h2 h3 h4 in
                        if utf8.is_surrogate r1 then
                          match s2 with
                          | c2 :: e2 :: k1 :: k2 :: k3 :: k4 :: s3 =>
                              match (if Ascii.eqb c2 backslash && Ascii.eqb e2 "u"
                                     then pair_rune r1 (hex4 k1 k2 k3 k4) else None) with
                              | Some r => utf8.EncodeRune r ++ unquote 0 s3
                              | None => utf8.EncodeRune utf8.RuneError ++ unquote 0 s2
                              end
                          | _ => utf8.EncodeRune utf8.RuneError ++ unquote 0 s2
                          end
                        else utf8.EncodeRune r1 ++ unquote 0 s2
                    | _ => []
                    end
                end
            end
          else
            let '(r, n) := utf8.DecodeRune s in utf8.EncodeRune r ++ unquote (pred n) s'
      end
  end.

(** ** Numbers *)

Fixpoint take_digits (b : bytes) : bytes * bytes :=
  match b with
  | c :: b' => if is_digit c then let '(d, r) := take_digits b' in (c :: d, r) else ([], b)
  | [] => ([], [])
  end.

(** An optional part of a number: its text and the rest. *)
Definition scan_frac (b : bytes) : option (bytes * bytes) :=
  match b with
  | c :: b' =>
      if Ascii.eqb c "." then
        match take_digits b' with ([], _) => None | (d, r) => Some (c :: d, r) end
      else Some ([], b)
  | [] => Some ([], [])
  end.

Definition scan_exp (b : bytes) : option (bytes * bytes) :=
  match b with
  | c :: b' =>
      if Ascii.eqb c "e" || Ascii.eqb c "E" then
        let '(sign, b1) := match b' with
                           | s :: b1 => if Ascii.eqb s "+" || Ascii.eqb s "-" then ([s], b1) else ([], b')
                           | [] => ([], [])
                           end in
        match take_digits b1 with ([], _) => None | (d, r) => Some (c :: sign ++ d, r) end
      else Some ([], b)
  | [] => Some ([], [])
  end.

Definition scan_int (b : bytes) : option (bytes * bytes) :=
  match b with
  | c :: b' =>
      if Ascii.eqb c "0" then Some ([c], b')
      else match take_digits b with ([], _) => None | (d, r) => Some (d, r) end
  | [] => None
  end.

Definition scan_number (b : bytes) : option (bytes * bytes) :=
  let '(sign, b1) := match b with
                     | c :: b1 => if Ascii.eqb c "-" then ([c], b1) else ([], b)
                     | [] => ([], [])
                     end in
  '(i, b2) ← scan_int b1;
  '(f, b3) ← scan_frac b2;
  '(e, b4) ← scan_exp b3;
  Some (sign ++ i ++ f ++ e, b4).

(** ** Values *)

Inductive jval :=
| JNull
| JBool (b : bool)
| JNum (lit : bytes)
| JStr (s : bytes)
| JArr (vs : list jval)
| JObj (ms : list (bytes * (bytes * jval))).    (* key, source text, value *)

(** A literal name at the front of the input. *)
Fixpoint strip (p b : bytes) : option bytes :=
  match p, b with
  | [], _ => Some b
  | x :: p', c :: b' => if Ascii.eqb x c then strip p' b' else None
  | _ :: _, [] => None
  end.

Definition maxNestingDepth : Z := 10000.

(** [value]: the value at the front and the rest of the input.  [elements]
    and [members] are called behind the opening bracket. *)
Fixpoint value (fuel : nat) (depth : Z) (b : bytes) {struct fuel} : option (jval * bytes) :=
  match fuel, b with
  | S f, c :: b' =>
      if Ascii.eqb c quote then '(s, r) ← scan_string b'; Some (JStr (unquote 0 s), r)
      else if Ascii.eqb c "[" then
        if (maxNestingDepth <=? depth)%Z then None else
        match strip ["]"%char] (skip_ws b') with
        | Some r => Some (JArr [], r)
        | None => '(vs, r) ← elements f (depth + 1) (skip_ws b'); Some (JArr vs, r)
        end
      else if Ascii.eqb c "{" then
        if (maxNestingDepth <=? depth)%Z then None else
        match strip ["}"%char] (skip_ws b') with
        | Some r => Some (JObj [], r)
        | None => '(ms, r) ← members f (depth + 1) (skip_ws b'); Some (JObj ms, r)
        end
      else if Ascii.eqb c "n" then r ← strip (bytes_of "null") b; Some (JNull, r)
      else if Ascii.eqb c "t" then r ← strip (bytes_of "true") b; Some (JBool true, r)
      else if Ascii.eqb c "f" then r ← strip (bytes_of "false") b; Some (JBool false, r)
      else '(lit, r) ← scan_number b; Some (JNum lit, r)
  | _, _ => None
  end
with elements (fuel : nat) (depth : Z) (b : bytes) {struct fuel} : option (list jval * bytes) :=
  match fuel with
  | O => None
  | S f =>
      '(v, r) ← value f depth b;
      match skip_ws r with
      | c :: r' =>
          if Ascii.eqb c "," then '(vs, r2) ← elements f depth (skip_ws r'); Some (v :: vs, r2)
          else if Ascii.eqb c "]" then Some ([v], r')
          else None
      | [] => None
      end
  end
with members (fuel : nat) (depth : Z) (b : bytes) {struct fuel} : option (list (bytes * (bytes * jval)) * bytes) :=
  match fuel, b with
  | S f, c :: b' =>
      if Ascii.eqb c quote then
        '(k, r) ← scan_string b';
        r1 ← strip [":"%char] (skip_ws r);
        let b2 := skip_ws r1 in
        '(v, r2) ← value f depth b2;
        let m := (unquote 0 k, (take (length b2 - length r2) b2, v)) in
        match skip_ws r2 with
        | c2 :: r3 =>
            if Ascii.eqb c2 "," then '(ms, r4) ← members f depth (skip_ws r3); Some (m :: ms, r4)
            else if Ascii.eqb c2 "}" then Some ([m], r3)
            else None
        | [] => None
        end
      else None
  | _, _ => None
  end.

(** A whole text: one value between blanks. *)
Definition parse_with (fuel : nat) (b : bytes) : option jval :=
  '(v, r) ← value fuel 0 (skip_ws b);
  match skip_ws r with [] => Some v | _ => None end.

Definition parse (b : bytes) : option jval := parse_with (2 * length b + 1) b.

Definition Valid (b : bytes) : bool := match parse b with Some _ => true | None => false end.

(** ** Every step consumes input *)

Lemma skip_ws_length b : length (skip_ws b) <= length b.
Proof. induction b as [|c b IH]; cbn; [done|]. destruct (is_space c); cbn; lia. Qed.

Lemma strip_length p b r : strip p b = Some r -> length b = length p + length r.
Proof.
  revert b; induction p as [|x p IH]; intros b; [by intros [= <-]|]. destruct b as [|c b]; [done|].
  cbn. destruct (Ascii.eqb x c); [|done]. intros Hr. rewrite (IH b Hr). lia.
Qed.

Lemma scan_string_length b s r : scan_string b = Some (s, r) -> length b = S (length s + length r).
Proof.
  remember (length b) as n eqn:En. revert b En s r. induction (lt_wf n) as [n _ IH]; intros b -> s r.
  destruct b as [|c b]; [done|]. cbn [scan_string].
  destruct (Ascii.eqb c quote); [intros [= <- <-]; done|]. destruct (Ascii.eqb c backslash).
  - destruct b as [|e b]; [done|]. destruct (simple_escape e).
    + destruct (scan_string b) as [[s1 r1]|] eqn:E; [|done]. intros [= <- <-]. cbn.
      pose proof (IH (length b) ltac:(cbn; lia) b eq_refl s1 r1 E). lia.
    + destruct (Ascii.eqb e "u"); [|done]. destruct b as [|h1 [|h2 [|h3 [|h4 b]]]]; try done.
      destruct (_ && _); [|done]. destruct (scan_string b) as [[s1 r1]|] eqn:E; [|done]. intros [= <- <-]. cbn.
      pose proof (IH (length b) ltac:(cbn; lia) b eq_refl s1 r1 E). lia.
  - destruct (_ <? _)%Z; [done|]. destruct (scan_string b) as [[s1 r1]|] eqn:E; [|done]. intros [= <- <-]. cbn.
    pose proof (IH (length b) ltac:(cbn; lia) b eq_refl s1 r1 E). lia.
Qed.

Lemma take_digits_app b d r : take_digits b = (d, r) -> b = d ++ r.
Proof.
  revert d r; induction b as [|c b IH]; intros d r; cbn; [by intros [= <- <-]|].
  destruct (is_digit c); [|by intros [= <- <-]]. destruct (take_digits b) as [d1 r1]. intros [= <- <-].
  by rewrite (IH d1 r1).
Qed.

Lemma scan_int_app b i r : scan_int b = Some (i, r) -> b = i ++ r /\ i <> [].
Proof.
  unfold scan_int. destruct b as [|c b]; [done|]. destruct (Ascii.eqb c "0"); [by intros [= <- <-]|].
  destruct (take_digits (c :: b)) as [[|x d] r1] eqn:E; [done|]. intros [= <- <-]. by rewrite (take_digits_app _ _ _ E).
Qed.

Lemma scan_frac_app b f r : scan_frac b = Some (f, r) -> b = f ++ r.
Proof.
  unfold scan_frac. destruct b as [|c b]; [by intros [= <- <-]|]. destruct (Ascii.eqb c "."); [|by intros [= <- <-]].
  destruct (take_digits b) as [[|x d] r1] eqn:E; [done|]. intros [= <- <-]. by rewrite (take_digits_app _ _ _ E).
Qed.

Lemma scan_exp_app b e r : scan_exp b = Some (e, r) -> b = e ++ r.
Proof.
  unfold scan_exp. destruct b as [|c b]; [by intros [= <- <-]|]. destruct (_ || _); [|by intros [= <- <-]].
  assert (Hsign : exists sign b1, (match b with
      | s :: b1 => if Ascii.eqb s "+" || Ascii.eqb s "-" then ([s], b1) else ([], b)
      | [] => ([], []) end) = (sign, b1) /\ b = sign ++ b1).
  { destruct b as [|s b]; [by eexists _, _|]. destruct (_ || _); by eexists _, _. }
  destruct Hsign as (sign & b1 & -> & ->). destruct (take_digits b1) as [[|x d] r1] eqn:E; [done|].
  intros [= <- <-]. rewrite (take_digits_app _ _ _ E). cbn. by rewrite <- app_assoc.
Qed.

Lemma scan_number_app b lit r : scan_number b = Some (lit, r) -> b = lit ++ r /\ lit <> [].
Proof.
  unfold scan_number.
  assert (Hsign : exists sign b1, (match b with
      | c :: b1 => if Ascii.eqb c "-" then ([c], b1) else ([], b)
      | [] => ([], []) end) = (sign, b1) /\ b = sign ++ b1).
  { destruct b as [|s b]; [by eexists _, _|]. destruct (Ascii.eqb s "-"); by eexists _, _. }
  destruct Hsign as (sign & b1 & -> & ->).
  destruct (scan_int b1) as [[i b2]|] eqn:Ei; [|done]. destruct (scan_int_app _ _ _ Ei) as [-> Hi]. cbn.
  destruct (scan_frac b2) as [[f b3]|] eqn:Ef; [|done]. apply scan_frac_app in Ef as ->. cbn.
  destruct (scan_exp b3) as [[e b4]|] eqn:Ee; [|done]. apply scan_exp_app in Ee as ->. cbn. intros [= <- <-].
  rewrite <- !app_assoc. split; [done|]. by destruct sign, i.
Qed.

Lemma value_shrinks fuel :
  (forall d b v r, value fuel d b = Some (v, r) -> length r < length b) /\
  (forall d b vs r, elements fuel d b = Some (vs, r) -> length r < length b) /\
  (forall d b ms r, members fuel d b = Some (ms, r) -> length r < length b).
Proof.
  induction fuel as [|f (IHv & IHe & IHm)]; [done|]. split_and!; intros d b v r.
  - destruct b as [|c b]; [done|]. cbn [value length].
    destruct (Ascii.eqb c quote).
    { destruct (scan_string b) as [[s r1]|] eqn:E; [|done]. intros [= <- <-]. apply scan_string_length in E. lia. }
    pose proof (skip_ws_length b) as Hws.
    destruct (Ascii.eqb c "["); [|destruct (Ascii.eqb c "{")].
    + destruct (_ <=? _)%Z; [done|]. destruct (strip _ (skip_ws b)) as [r1|] eqn:Es.
      { intros [= <- <-]. apply strip_length in Es. cbn in Es. lia. }
      destruct (elements f _ _) as [[vs r1]|] eqn:E; [|done]. intros [= <- <-]. apply IHe in E. lia.
    + destruct (_ <=? _)%Z; [done|]. destruct (strip _ (skip_ws b)) as [r1|] eqn:Es.
      { intros [= <- <-]. apply strip_length in Es. cbn in Es. lia. }
      destruct (members f _ _) as [[vs r1]|] eqn:E; [|done]. intros [= <- <-]. apply IHm in E. lia.
    + destruct (Ascii.eqb c "n"); [|destruct (Ascii.eqb c "t"); [|destruct (Ascii.eqb c "f")]].
      1-3: destruct (strip _ (c :: b)) as [r1|] eqn:Es; [|done]; intros [= <- <-];
           apply strip_length in Es; cbn in Es; lia.
      destruct (scan_number (c :: b)) as [[lit r1]|] eqn:En; [|done]. intros [= <- <-].
      apply scan_number_app in En as [En Hne]. apply (f_equal length) in En. rewrite length_app in En.
      destruct lit; [done|]. cbn in En. lia.
  - cbn [elements]. destruct (value f d b) as [[v1 r1]|] eqn:E; [|done]. apply IHv in E. cbn [mbind option_bind].
    pose proof (skip_ws_length r1) as Hws. destruct (skip_ws r1) as [|c r2]; [done|]. cbn in Hws.
    destruct (Ascii.eqb c ",").
    + destruct (elements f d (skip_ws r2)) as [[vs r3]|] eqn:E2; [|done]. intros [= <- <-]. apply IHe in E2.
      pose proof (skip_ws_length r2). lia.
    + destruct (Ascii.eqb c "]"); [|done]. intros [= <- <-]. lia.
  - destruct b as [|c b]; [done|]. cbn [members length]. destruct (Ascii.eqb c quote); [|done].
    destruct (scan_string b) as [[k r1]|] eqn:Ek; [|done]. apply scan_string_length in Ek. cbn [mbind option_bind].
    pose proof (skip_ws_length r1). destruct (strip _ (skip_ws r1)) as [r2|] eqn:Es; [|done].
    apply strip_length in Es. cbn in Es. cbn [mbind option_bind]. pose proof (skip_ws_length r2).
    destruct (value f d (skip_ws r2)) as [[v1 r3]|] eqn:E; [|done]. apply IHv in E. cbn [mbind option_bind].
    pose proof (skip_ws_length r3) as Hws. destruct (skip_ws r3) as [|c2 r4]; [done|]. cbn in Hws.
    destruct (Ascii.eqb c2 ",").
    + destruct (members f d (skip_ws r4)) as [[vs r5]|] eqn:E2; [|done]. intros [= <- <-]. apply IHm in E2.
      pose proof (skip_ws_length r4). lia.
    + destruct (Ascii.eqb c2 "}"); [|done]. intros [= <- <-]. lia.
Qed.

(** ** The parser does not run out of fuel

    [2 n + 1] calls are enough for [n] bytes: a list of elements spends one
    call more than the value in front of it. *)
Definition agree (f g : nat) (n : nat) : Prop :=
  (forall d b, 2 * length b + 1 <= n -> value g d b = value f d b) /\
  (forall d b, 2 * length b + 2 <= n -> elements g d b = elements f d b) /\
  (forall d b, 2 * length b + 2 <= n -> members g d b = members f d b).

Lemma agree_S f g n : agree f g n -> agree (S f) (S g) (S n).
Proof.
  intros (IHv & IHe & IHm). split_and!; intros d b Hf.
  - destruct b as [|c b]; [done|]. cbn [length] in Hf. pose proof (skip_ws_length b).
    cbn [value]. by rewrite IHe, IHm by lia.
  - cbn [elements]. rewrite IHv by lia.
    destruct (value f d b) as [[v r]|] eqn:E; [|done]. cbn [mbind option_bind].
    apply (proj1 (value_shrinks f)) in E. pose proof (skip_ws_length r) as Hw.
    destruct (skip_ws r) as [|c r']; [done|]. cbn in Hw. destruct (Ascii.eqb c ","); [|done].
    pose proof (skip_ws_length r'). by rewrite IHe by lia.
  - destruct b as [|c b]; [done|]. cbn [length] in Hf. cbn [members].
    destruct (Ascii.eqb c quote); [|done]. destruct (scan_string b) as [[k r1]|] eqn:Ek; [|done].
    apply scan_string_length in Ek. cbn [mbind option_bind]. pose proof (skip_ws_length r1).
    destruct (strip _ (skip_ws r1)) as [r2|] eqn:Es; [|done]. apply strip_length in Es. cbn in Es.
    cbn [mbind option_bind]. pose proof (skip_ws_length r2). rewrite IHv by lia.
    destruct (value f d (skip_ws r2)) as [[v r3]|] eqn:E; [|done]. cbn [mbind option_bind].
    apply (proj1 (value_shrinks f)) in E. pose proof (skip_ws_length r3) as Hw.
    destruct (skip_ws r3) as [|c2 r4]; [done|]. cbn in Hw. destruct (Ascii.eqb c2 ","); [|done].
    pose proof (skip_ws_length r4). by rewrite IHm by lia.
Qed.

Lemma value_fuel fuel : agree fuel (S fuel) fuel.
Proof. induction fuel as [|f IH]; [split_and!; intros; lia|]. by apply agree_S. Qed.

Lemma value_enough fuel d b : 2 * length b + 1 <= fuel -> value fuel d b = value (2 * length b + 1) d b.
Proof.
  intros Hf. induction fuel as [|f IH]; [lia|]. destruct (decide (2 * length b + 1 <= f)) as [Hle|Hgt].
  - rewrite (proj1 (value_fuel f)) by done. by apply IH.
  - by replace (S f) with (2 * length b + 1) by lia.
Qed.

Lemma parse_enough fuel b : 2 * length b + 1 <= fuel -> parse_with fuel b = parse b.
Proof.
  intros Hf. unfold parse, parse_with. pose proof (skip_ws_length b).
  rewrite (value_enough fuel) by lia. rewrite (value_enough (2 * length b + 1)) by lia. done.
Qed.
End json.
