(* ===== verification/JsonDecode.v ===== *)
(** * [encoding/json]: decoding into the types the gateway uses

    [json.Unmarshal] into a struct with tagged fields, into
    [map[string]interface{}] and into [json.RawMessage] fields.  A value of
    the wrong type makes the call return an error at the end, but the members
    after it are still decoded. *)

From Stdlib Require Import ZArith Lia Ascii String SpecFloat.
From stdpp Require Import base tactics numbers strings gmap list.
From S2P Require Import Prelude GoStrings GoUtf8 GoFloat GoCrypto Message ConfigPkg Json.

Module jsondec.
Import json.

(** ** Names of fields *)

(** [foldRune] as far as it reaches ASCII: letters, the long s and the Kelvin
    sign fold to capitals; other runes never equal an ASCII letter. *)
Definition foldRune (r : Z) : Z :=
  (if utf8.between 97 122 r then r - 32
   else if r =? 0x17F then 83
   else if r =? 0x212A then 75
   else r)%Z.

Definition foldName (k : bytes) : list Z := foldRune <$> utf8.runes 0 k.

(** The field a key goes to: the one of exactly that name, or else the first
    whose name folds to the same. *)
Definition find_field (names : list string) (key : bytes) : option string :=
  if bool_decide (key ∈ bytes_of <$> names) then Some (string_of key)
  else snd <$> list_find (fun n => foldName (bytes_of n) = foldName key) names.

(** ** Structs

    [set name text value a] stores a member's value, given also as its source
    text, into the field [name]; [false] when the type does not fit. *)

Section struct.
Context {A : Type} (names : list string) (set : string -> bytes -> jval -> A -> A * bool).

Definition decode_member (ae : A * bool) (m : bytes * (bytes * jval)) : A * bool :=
  let '(a, ok) := ae in
  let '(key, (text, v)) := m in
  match find_field names key with
  | None => (a, ok)
  | Some n => let '(a', ok') := set n text v a in (a', ok && ok')
  end.

Definition Unmarshal (zero : A) (b : bytes) : result A :=
  match parse b with
  | None => Err (ErrorString "json: syntax error")
  | Some JNull => Ok zero
  | Some (JObj ms) =>
      let '(a, ok) := foldl decode_member (zero, true) ms in
      if ok then Ok a else Err (ErrorString "json: cannot unmarshal value into field")
  | Some _ => Err (ErrorString "json: cannot unmarshal value into struct")
  end.
End struct.

(** A string field: null leaves it. *)
Definition decode_string (v : jval) (old : string) : string * bool :=
  match v with
  | JStr s => (string_of s, true)
  | JNull => (old, true)
  | _ => (old, false)
  end.

(** [var peek struct { Project string `json:"project"` }]. *)
Definition peek_set (n : string) (text : bytes) (v : jval) (p : string) : string * bool := decode_string v p.

Definition UnmarshalPeek (b : bytes) : result string := Unmarshal ["project"] peek_set "" b.

(** [message.UploadRequest]; a [RawMessage] takes the text of any value. *)
Definition upload_set (n : string) (text : bytes) (v : jval) (r : message.UploadRequest) : message.UploadRequest * bool :=
  if String.eqb n "project" then
    let '(s, ok) := decode_string v (message.req_Project r) in
    (message.MkUploadRequest s (message.req_Router r) (message.req_Data r), ok)
  else if String.eqb n "router" then
    let '(s, ok) := decode_string v (message.req_Router r) in
    (message.MkUploadRequest (message.req_Project r) s (message.req_Data r), ok)
  else (message.MkUploadRequest (message.req_Project r) (message.req_Router r) (Some text), true).

Definition UnmarshalUpload (b : bytes) : result message.UploadRequest :=
  Unmarshal ["project"; "router"; "data"] upload_set (message.MkUploadRequest "" "" None) b.

(** ** [interface{}] *)

(** A number literal as mantissa and decimal exponent. *)
Fixpoint digits_num (acc : Z) (d : bytes) : Z :=
  match d with [] => acc | c :: d' => digits_num (acc * 10 + (byte_val c - 48)) d' end%Z.

Definition exp_num (e : bytes) : Z :=
  match e with
  | [] => 0
  | _ :: s :: d => if Ascii.eqb s "-" then - digits_num 0 d
                   else if Ascii.eqb s "+" then digits_num 0 d else digits_num 0 (s :: d)
  | _ => 0
  end%Z.

Definition number_value (lit : bytes) : f64 :=
  let '(neg, b) := match lit with
                   | c :: b => if Ascii.eqb c "-" then (true, b) else (false, lit)
                   | [] => (false, [])
                   end in
  let '(i, b1) := take_digits b in
  let '(f, b2) := match b1 with
                  | c :: r => if Ascii.eqb c "." then take_digits r else ([], b1)
                  | [] => ([], [])
                  end in
  f64_of_decimal neg (digits_num 0 (i ++ f)) (exp_num b2 - Z.of_nat (length f)).

(** A map inside a value, as a list in the order of its keys (bytewise); the
    last of two members of the same name counts. *)
Fixpoint upsert {A} (k : string) (v : A) (l : list (string * A)) : list (string * A) :=
  match l with
  | [] => [(k, v)]
  | (k', v') :: l' =>
      match String.compare k k' with
      | Eq => (k, v) :: l'
      | Lt => (k, v) :: l
      | Gt => (k', v') :: upsert k v l'
      end
  end.

(** [None] for a number out of the range of float64. *)
Fixpoint to_any (v : jval) : option any :=
  match v with
  | JNull => Some VNil
  | JBool b => Some (VBool b)
  | JNum lit => let x := number_value lit in if is_inf x then None else Some (VFloat x)
  | JStr s => Some (VString (string_of s))
  | JArr vs =>
      VList <$> (fix go vs := match vs with
                              | [] => Some []
                              | v :: vs' => x ← to_any v; xs ← go vs'; Some (x :: xs)
                              end) vs
  | JObj ms =>
      VMap <$> (fix go acc ms := match ms with
                                 | [] => Some acc
                                 | (k, (_, v)) :: ms' => x ← to_any v; go (upsert (string_of k) x acc) ms'
                                 end) [] ms
  end.

(** [json.Unmarshal(b, &data)] for [var data map[string]interface{}]: null
    leaves the map nil. *)
Definition UnmarshalMap (b : bytes) : result (option anymap) :=
  match parse b with
  | None => Err (ErrorString "json: syntax error")
  | Some JNull => Ok None
  | Some (JObj ms) =>
      match to_any (JObj ms) with
      | Some (VMap l) => Ok (Some (list_to_map l))
      | _ => Err (ErrorString "json: cannot unmarshal number into float64")
      end
  | Some _ => Err (ErrorString "json: cannot unmarshal value into map")
  end.
End jsondec.

Import json jsondec.

(** ** Upload requests and the peeked project *)

Lemma find_field_project key :
  find_field ["project"; "router"; "data"] key = Some "project" <-> find_field ["project"] key = Some "project".
Proof.
  unfold find_field. destruct (decide (key = bytes_of "project")) as [->|Hne]; [done|].
  rewrite (bool_decide_false (key ∈ bytes_of <$> ["project"])) by (cbn; set_solver).
  assert (Hcons : forall names, list_find (fun n => foldName (bytes_of n) = foldName key) ("project" :: names) =
    if decide (foldName (bytes_of "project") = foldName key) then Some (0, "project")
    else prod_map S id <$> list_find (fun n => foldName (bytes_of n) = foldName key) names) by done.
  rewrite !Hcons. case_bool_decide as Hin.
  - cbn in Hin. rewrite !elem_of_cons in Hin. destruct Hin as [->|[->|[->|Hin%elem_of_nil]]]; done.
  - destruct (decide _); [done|]. split; [|done]. cbn. intros Hf. exfalso.
    repeat (destruct (decide _) in Hf; cbn in Hf; [done|]). done.
Qed.

Lemma find_field_only_project key : find_field ["project"] key <> Some "project" -> find_field ["project"] key = None.
Proof.
  unfold find_field. case_bool_decide as Hin.
  - cbn in Hin. apply elem_of_cons in Hin as [->|Hin%elem_of_nil]; done.
  - cbn. destruct (decide _); done.
Qed.

Definition agrees (u : message.UploadRequest * bool) (p : string * bool) : Prop :=
  message.req_Project u.1 = p.1 /\ (u.2 = true -> p.2 = true).

Lemma decode_member_agrees u p m :
  agrees u p -> agrees (decode_member ["project"; "router"; "data"] upload_set u m)
                       (decode_member ["project"] peek_set p m).
Proof.
  destruct u as [u ok], p as [p okp], m as [key [text v]]. intros [Hp Hok]. cbn in Hp, Hok. subst p.
  unfold decode_member. destruct (decide (find_field ["project"] key = Some "project")) as [Hf|Hf].
  - rewrite Hf, (proj2 (find_field_project key) Hf). unfold upload_set, peek_set. cbn [String.eqb Ascii.eqb Bool.eqb].
    destruct (decode_string v (message.req_Project u)) as [s ok']. split; [done|]. cbn. destruct ok; [|done].
    by rewrite (Hok eq_refl).
  - rewrite (find_field_only_project key Hf).
    assert (Hf' : find_field ["project"; "router"; "data"] key <> Some "project") by (by intros ?%find_field_project).
    destruct (find_field ["project"; "router"; "data"] key) as [n|]; [|by split].
    assert (Hn : String.eqb n "project" = false) by (apply String.eqb_neq; congruence).
    unfold upload_set. rewrite Hn. destruct (String.eqb n "router").
    + destruct (decode_string v (message.req_Router u)) as [s ok']. split; [done|]. cbn. destruct ok; naive_solver.
    + split; [done|]. cbn. destruct ok; naive_solver.
Qed.

(** A body that decodes as an upload request names the same project to the
    handlers that only look for the project. *)
Lemma upload_and_peek_agree b req :
  UnmarshalUpload b = Ok req -> UnmarshalPeek b = Ok (message.req_Project req).
Proof.
  unfold UnmarshalUpload, UnmarshalPeek, Unmarshal. destruct (parse b) as [[| | | | |ms]|]; try done.
  { by intros [= <-]. }
  assert (Hag : agrees (foldl (decode_member ["project"; "router"; "data"] upload_set) (message.MkUploadRequest "" "" None, true) ms)
                       (foldl (decode_member ["project"] peek_set) ("", true) ms)).
  { assert (Hgen : forall u p, agrees u p -> agrees (foldl (decode_member ["project"; "router"; "data"] upload_set) u ms)
                       (foldl (decode_member ["project"] peek_set) p ms)); [|by apply Hgen].
    induction ms as [|m ms IH]; intros u p Hup; cbn [foldl]; [done|]. by apply IH, decode_member_agrees. }
  destruct (foldl _ (message.MkUploadRequest _ _ _, true) ms) as [u []], (foldl _ ("", true) ms) as [p ok]; [|done].
  destruct Hag as [Hp Hok]. cbn in *. intros [= <-]. rewrite (Hok eq_refl). by rewrite Hp.
Qed.

(** A member of one of the names goes to that field. *)
Lemma decode_field {A} names (set : string -> bytes -> jval -> A -> A * bool) n text v a ok :
  find_field names (utf8.to_valid (bytes_of n)) = Some n ->
  decode_member names set (a, ok) (utf8.to_valid (bytes_of n), (text, v)) = let '(a', ok') := set n text v a in (a', ok && ok').
Proof. intros Hf. unfold decode_member. by rewrite Hf. Qed.
