(* ===== verification/JsonEncode.v ===== *)
(** * [encoding/json]: encoding

    What [json.Marshal] writes for the values the gateway encodes: strings
    with their escapes, times, raw messages, and structs with tagged fields.
    This is the encoder of Go 1.21 with HTML escaping, the default. *)

From Stdlib Require Import ZArith Lia Ascii String.
From stdpp Require Import base tactics numbers strings gmap list.
From S2P Require Import Prelude GoStrings GoUtf8 GoCrypto Message Json.

Module jsonenc.
Import json.

(** ** Strings *)

(** [\u00XY] of a character below 128. *)
Definition u00 (z : Z) : bytes :=
  [backslash; "u"%char; "0"%char; "0"%char; hex_digit (z / 16); hex_digit (z mod 16)].

(** Characters written as they are: printable ASCII except the quote, the
    backslash and [<], [>], [&]. *)
Definition safe (z : Z) : bool :=
  utf8.between 32 127 z && negb (z =? 34)%Z && negb (z =? 92)%Z && negb (z =? 60)%Z && negb (z =? 62)%Z && negb (z =? 38)%Z.

Definition escape_ascii (z : Z) : bytes :=
  if safe z then [byte_of z]
  else if (z =? 34)%Z || (z =? 92)%Z then [backslash; byte_of z]
  else if (z =? 10)%Z then [backslash; "n"%char]
  else if (z =? 13)%Z then [backslash; "r"%char]
  else if (z =? 9)%Z then [backslash; "t"%char]
  else u00 z.

(** A rune and the number of bytes it was decoded from: an invalid byte
    decodes to the replacement character in one byte. *)
Definition escape_rune (r : Z) (n : nat) : bytes :=
  if (r <? 128)%Z then escape_ascii r
  else if (r =? utf8.RuneError)%Z && (n =? 1)%nat then [backslash; "u"%char; "f"%char; "f"%char; "f"%char; "d"%char]
  else if (r =? 0x2028)%Z then [backslash; "u"%char; "2"%char; "0"%char; "2"%char; "8"%char]
  else if (r =? 0x2029)%Z then [backslash; "u"%char; "2"%char; "0"%char; "2"%char; "9"%char]
  else utf8.EncodeRune r.

(** The runes of a text with their widths. *)
Fixpoint segments (skip : nat) (b : bytes) : list (Z * nat) :=
  match b with
  | [] => []
  | _ :: b' =>
      match skip with
      | S k => segments k b'
      | O => let '(r, n) := utf8.DecodeRune b in (r, n) :: segments (pred n) b'
      end
  end.

Definition quote_body (b : bytes) : bytes := concat ((fun '(r, n) => escape_rune r n) <$> segments 0 b).
Definition quote_string (s : string) : bytes := quote :: quote_body (bytes_of s) ++ [quote].
End jsonenc.

Import json jsonenc.

(** ** Strings are read back *)

Lemma segments_runes skip b : (segments skip b).*1 = utf8.runes skip b.
Proof.
  revert skip; induction b as [|c b IH]; intros [|k]; cbn [segments utf8.runes]; [done|done| |apply IH].
  destruct (utf8.DecodeRune (c :: b)) as [r n]. cbn. by rewrite IH.
Qed.

Lemma unquote_skip k b : unquote k b = unquote 0 (drop k b).
Proof. revert b; induction k as [|k IH]; intros [|c b]; cbn; [done..|apply IH]. Qed.

(** What one escaped rune does to the scanner and to the decoder. *)
Definition read_as (e : bytes) (r : Z) : Prop :=
  forall rest, unquote 0 (e ++ rest) = utf8.EncodeRune r ++ unquote 0 rest /\
    scan_string (e ++ rest) = ('(s, t) ← scan_string rest; Some (e ++ s, t)).

Lemma read_as_ascii r : (0 <= r < 128)%Z -> read_as (escape_ascii r) r.
Proof.
  intros Hr. replace r with (Z.of_nat (Z.to_nat r)) by lia. assert (Hk : Z.to_nat r < 128) by lia.
  generalize dependent (Z.to_nat r). clear r Hr. intros k Hk.
  do 128 (destruct k as [|k]; [intros rest; split; reflexivity|]). lia.
Qed.

(** Bytes from 128 on are ordinary to the scanner. *)
Lemma scan_high e rest :
  Forall (fun c => (128 <= byte_val c)%Z) e -> scan_string (e ++ rest) = ('(s, t) ← scan_string rest; Some (e ++ s, t)).
Proof.
  induction 1 as [|c e Hc _ IH]; [cbn [app]; by destruct (scan_string rest) as [[]|]|]. cbn [app scan_string].
  assert (Hq : Ascii.eqb c quote = false) by (apply Ascii.eqb_neq; intros ->; by apply Hc).
  assert (Hb : Ascii.eqb c backslash = false) by (apply Ascii.eqb_neq; intros ->; by apply Hc).
  rewrite Hq, Hb, (proj2 (Z.ltb_ge (byte_val c) 32)) by lia. rewrite IH. by destruct (scan_string rest) as [[]|].
Qed.

Lemma encode_high r : (128 <= r)%Z -> utf8.ValidRune r = true -> Forall (fun c => (128 <= byte_val c)%Z) (utf8.encode_valid r).
Proof.
  intros Hr [Hv _]%utf8.ValidRune_range. unfold utf8.encode_valid. rewrite (proj2 (Z.ltb_ge r 0x80)) by lia.
  destruct (Z.ltb_spec r 0x800); [|destruct (Z.ltb_spec r 0x10000)]; cbn [fmap list_fmap];
    repeat constructor; rewrite byte_val_of; Z.to_euclidean_division_equations; lia.
Qed.

Lemma read_as_rune r : (128 <= r)%Z -> utf8.ValidRune r = true -> read_as (utf8.EncodeRune r) r.
Proof.
  intros Hr Hv rest. rewrite utf8.EncodeRune_valid by done. pose proof (encode_high r Hr Hv) as Hh. split; [|by apply scan_high].
  pose proof (utf8.decode_encode r rest Hv) as Hd. pose proof (utf8.encode_valid_nonempty r) as Hne.
  destruct (utf8.encode_valid r) as [|c e] eqn:Ee; [done|]. apply Forall_cons in Hh as [Hc _]. cbn [app unquote] in *.
  assert (Hb : Ascii.eqb c backslash = false) by (apply Ascii.eqb_neq; intros ->; by apply Hc).
  rewrite Hb, Hd, unquote_skip. cbn [length pred]. rewrite drop_app_length, utf8.EncodeRune_valid, Ee by done. done.
Qed.

Lemma read_as_escape r n : utf8.ValidRune r = true -> read_as (escape_rune r n) r.
Proof.
  intros Hv. pose proof Hv as [Hr _]%utf8.ValidRune_range. unfold escape_rune.
  destruct (Z.ltb_spec r 128) as [|H128]; [apply read_as_ascii; lia|].
  destruct (_ && _) eqn:E; [apply andb_true_iff in E as [->%Z.eqb_eq _]; intros rest; split; reflexivity|].
  destruct (Z.eqb_spec r 0x2028) as [->|]; [intros rest; split; reflexivity|].
  destruct (Z.eqb_spec r 0x2029) as [->|]; [intros rest; split; reflexivity|]. by apply read_as_rune.
Qed.

Lemma read_escapes segs rest :
  Forall (fun s => utf8.ValidRune s.1 = true) segs ->
  let e := concat ((fun '(r, n) => escape_rune r n) <$> segs) in
  unquote 0 (e ++ rest) = concat (utf8.EncodeRune <$> segs.*1) ++ unquote 0 rest /\
  scan_string (e ++ rest) = ('(s, t) ← scan_string rest; Some (e ++ s, t)).
Proof.
  induction 1 as [|[r n] segs Hr _ [IH1 IH2]]; cbn [fmap list_fmap concat fst app].
  { split; [done|]. by destruct (scan_string rest) as [[]|]. }
  set (e := concat _) in *. destruct (read_as_escape r n Hr (e ++ rest)) as [H1 H2]. rewrite <- !app_assoc. split.
  - by rewrite H1, IH1.
  - rewrite H2, IH2. destruct (scan_string rest) as [[s t]|]; [|done]. cbn. by rewrite <- app_assoc.
Qed.

(** What the encoder writes for a string is read back by the scanner
    and the decoder as the same string, with invalid UTF-8 replaced: the
    closing quote is found where it was put, whatever the string holds. *)
Lemma string_roundtrip s rest :
  exists body, quote_string s ++ rest = quote :: body ++ quote :: rest /\
    scan_string (body ++ quote :: rest) = Some (body, rest) /\ unquote 0 body = utf8.to_valid (bytes_of s).
Proof.
  exists (quote_body (bytes_of s)). split; [unfold quote_string; cbn; by rewrite <- app_assoc|].
  assert (Hv : Forall (fun x => utf8.ValidRune x.1 = true) (segments 0 (bytes_of s))).
  { pose proof (utf8.runes_valid 0 (bytes_of s)) as Hr. rewrite <- segments_runes in Hr. by apply Forall_fmap in Hr. }
  unfold quote_body. split.
  - destruct (read_escapes _ (quote :: rest) Hv) as [_ ->]. cbn. by rewrite app_nil_r.
  - destruct (read_escapes _ [] Hv) as [H1 _]. rewrite !app_nil_r in H1. rewrite H1, segments_runes. done.
Qed.
