(* ===== verification/JsonCompact.v ===== *)
(** * [encoding/json]: raw messages are compacted

    [json.Marshal] checks a [json.RawMessage] and copies it without the
    blanks between its tokens, with [<], [>], [&] and the two Unicode line
    separators inside strings written as escapes.  What is copied reads as
    the same value as before. *)

From Stdlib Require Import ZArith Lia Ascii String.
From stdpp Require Import base tactics numbers strings gmap list.
From S2P Require Import Prelude GoStrings GoUtf8 GoCrypto Message Json JsonEncode.

Module jsoncompact.
Import json jsonenc.

(** ** [compact(dst, src, escapeHTML = true)] *)

Definition is_html (c : ascii) : bool := Ascii.eqb c "<" || Ascii.eqb c ">" || Ascii.eqb c "&".

(** U+2028 and U+2029 are E2 80 A8 and E2 80 A9. *)
Definition line_sep (b : bytes) : option bytes :=
  match b with
  | c1 :: c2 :: c3 :: _ =>
      if Ascii.eqb c1 "226" && Ascii.eqb c2 "128" then
        if Ascii.eqb c3 "168" then Some [backslash; "u"%char; "2"%char; "0"%char; "2"%char; "8"%char]
        else if Ascii.eqb c3 "169" then Some [backslash; "u"%char; "2"%char; "0"%char; "2"%char; "9"%char]
        else None
      else None
  | _ => None
  end.

(** [inside]: within a string; [skip]: bytes already copied or replaced. *)
Fixpoint compact (inside : bool) (skip : nat) (b : bytes) : bytes :=
  match b with
  | [] => []
  | c :: b' =>
      match skip with
      | S k => compact inside k b'
      | O =>
          if inside then
            if Ascii.eqb c backslash then
              match b' with
              | [] => [c]
              | e :: _ => c :: e :: compact true 1 b'
              end
            else if Ascii.eqb c quote then c :: compact false 0 b'
            else if is_html c then u00 (byte_val c) ++ compact true 0 b'
            else match line_sep b with
                 | Some e => e ++ compact true 2 b'
                 | None => c :: compact true 0 b'
                 end
          else if is_space c then compact false 0 b'
          else if Ascii.eqb c quote then c :: compact true 0 b'
          else c :: compact false 0 b'
      end
  end.

Definition MarshalRaw (d : RawMessage) : result bytes :=
  match d with
  | None => Ok (bytes_of "null")
  | Some b => if Valid b then Ok (compact false 0 b) else Err (ErrorString "json: error calling MarshalJSON for type json.RawMessage")
  end.

Example compacted :
  option_map string_of_list_ascii (match MarshalRaw (Some (bytes_of (" { " +:+ String quote "a<b" +:+ String quote " : [ 1 , true ] } "))) with Ok b => Some b | _ => None end)
  = Some ("{" +:+ String quote "a\u003cb" +:+ String quote ":[1,true]}").
Proof. vm_compute. reflexivity. Qed.
End jsoncompact.

Import json jsonenc jsoncompact.

(** ** Strings *)

Lemma compact_skip i k b : compact i k b = compact i 0 (drop k b).
Proof. revert b; induction k as [|k IH]; intros [|c b]; cbn; [done..|apply IH]. Qed.

(** The body of a string with its escapes. *)
Fixpoint escape_body (skip : nat) (s : bytes) : bytes :=
  match s with
  | [] => []
  | c :: s' =>
      match skip with
      | S k => escape_body k s'
      | O =>
          if Ascii.eqb c backslash then
            match s' with
            | [] => [c]
            | e :: _ => c :: e :: escape_body 1 s'
            end
          else if is_html c then u00 (byte_val c) ++ escape_body 0 s'
          else match line_sep s with
               | Some e => e ++ escape_body 2 s'
               | None => c :: escape_body 0 s'
               end
      end
  end.

Lemma escape_skip k b : escape_body k b = escape_body 0 (drop k b).
Proof. revert b; induction k as [|k IH]; intros [|c b]; cbn; [done..|apply IH]. Qed.

(** What the scanner accepts between the quotes. *)
Inductive body : bytes -> Prop :=
| body_nil : body []
| body_simple e x s : simple_escape e = Some x -> body s -> body (backslash :: e :: s)
| body_unicode h1 h2 h3 h4 s :
    is_hex h1 = true -> is_hex h2 = true -> is_hex h3 = true -> is_hex h4 = true -> body s ->
    body (backslash :: "u"%char :: h1 :: h2 :: h3 :: h4 :: s)
| body_raw c s : c <> quote -> c <> backslash -> (32 <= byte_val c)%Z -> body s -> body (c :: s).

Lemma scan_string_body b s r : scan_string b = Some (s, r) -> body s /\ b = s ++ quote :: r.
Proof.
  remember (length b) as n eqn:En. revert b En s r. induction (lt_wf n) as [n _ IH]; intros b -> s r.
  destruct b as [|c b]; [done|]. cbn [scan_string].
  destruct (Ascii.eqb_spec c quote) as [->|Hq]; [intros [= <- <-]; split; [constructor|done]|].
  destruct (Ascii.eqb_spec c backslash) as [->|Hb].
  - destruct b as [|e b]; [done|]. destruct (simple_escape e) as [x|] eqn:Ee.
    + destruct (scan_string b) as [[s1 r1]|] eqn:E; [|done]. intros [= <- <-].
      destruct (IH (length b) ltac:(cbn; lia) b eq_refl s1 r1 E) as [Hs ->]. split; [by econstructor|done].
    + destruct (Ascii.eqb_spec e "u") as [->|]; [|done]. destruct b as [|h1 [|h2 [|h3 [|h4 b]]]]; try done.
      destruct (_ && _) eqn:Eh; [|done]. destruct (scan_string b) as [[s1 r1]|] eqn:E; [|done]. intros [= <- <-].
      destruct (IH (length b) ltac:(cbn; lia) b eq_refl s1 r1 E) as [Hs ->].
      rewrite !andb_true_iff in Eh. destruct Eh as [[[? ?] ?] ?]. split; [by constructor|done].
  - destruct (Z.ltb_spec (byte_val c) 32); [done|]. destruct (scan_string b) as [[s1 r1]|] eqn:E; [|done]. intros [= <- <-].
    destruct (IH (length b) ltac:(cbn; lia) b eq_refl s1 r1 E) as [Hs ->]. split; [by constructor|done].
Qed.

Lemma body_scan s r : body s -> scan_string (s ++ quote :: r) = Some (s, r).
Proof.
  induction 1 as [|e x s He _ IH|h1 h2 h3 h4 s H1 H2 H3 H4 _ IH|c s Hq Hb Hc _ IH]; cbn [app scan_string].
  - done.
  - change (Ascii.eqb backslash quote) with false. change (Ascii.eqb backslash backslash) with true. by rewrite He, IH.
  - change (Ascii.eqb backslash quote) with false. change (Ascii.eqb backslash backslash) with true.
    change (simple_escape "u") with (@None ascii). change (Ascii.eqb "u" "u") with true. by rewrite H1, H2, H3, H4, IH.
  - rewrite (proj2 (Ascii.eqb_neq c quote)), (proj2 (Ascii.eqb_neq c backslash)), (proj2 (Z.ltb_ge (byte_val c) 32)) by done.
    by rewrite IH.
Qed.

Lemma body_tail c s : body (c :: s) -> c <> backslash -> body s.
Proof. inversion 1; done. Qed.

(** ** Continuation bytes *)

Definition contb (c : ascii) : bool := utf8.cont (byte_val c).

Lemma contb_range c : contb c = true <-> (0x80 <= byte_val c <= 0xBF)%Z.
Proof. apply utf8.between_iff. Qed.

Fixpoint cont_prefix (b : bytes) : bytes :=
  match b with
  | c :: b' => if contb c then c :: cont_prefix b' else []
  | [] => []
  end.

Lemma body_drop k s : k <= length (cont_prefix s) -> body s -> body (drop k s).
Proof.
  revert s; induction k as [|k IH]; intros s Hlen Hs; [done|].
  destruct s as [|c s]; [done|]. cbn [drop cont_prefix] in *. destruct (contb c) eqn:Ec; [|cbn in Hlen; lia].
  apply IH; [cbn in Hlen; lia|]. apply (body_tail c); [done|]. by intros ->.
Qed.

(** Only continuation bytes matter behind the first byte of a rune. *)
Lemma decode_cont c b : utf8.DecodeRune (c :: b) = utf8.DecodeRune (c :: cont_prefix b).
Proof.
  unfold utf8.DecodeRune. cbn [fmap list_fmap]. destruct (byte_val c <? 0x80)%Z; [done|].
  assert (Hn : forall x, contb x = false -> utf8.cont (byte_val x) = false) by done.
  assert (Hlo : forall x lo hi, contb x = false -> (0x80 <= lo)%Z -> (hi <= 0xBF)%Z -> utf8.between lo hi (byte_val x) = false).
  { intros x lo hi Hx Hl Hh. apply utf8.between_false. apply not_true_iff_false in Hx. rewrite contb_range in Hx. lia. }
  destruct (utf8.between 0xC2 0xDF (byte_val c)).
  { destruct b as [|c1 b]; [done|]. cbn [cont_prefix]. destruct (contb c1) eqn:E1; [done|]. cbn. by rewrite Hn. }
  destruct (utf8.between 0xE0 0xEF (byte_val c)).
  { set (lo := (if byte_val c =? 0xE0 then 0xA0 else 0x80)%Z). set (hi := (if byte_val c =? 0xED then 0x9F else 0xBF)%Z).
    assert (0x80 <= lo)%Z by (subst lo; by case_match). assert (hi <= 0xBF)%Z by (subst hi; by case_match).
    destruct b as [|c1 [|c2 b]]; cbn [cont_prefix].
    - done.
    - by destruct (contb c1).
    - destruct (contb c1) eqn:E1; [|cbn; by rewrite Hlo]. destruct (contb c2) eqn:E2; [done|].
      cbn. rewrite (Hn c2), andb_false_r by done. done. }
  destruct (utf8.between 0xF0 0xF4 (byte_val c)); [|done].
  set (lo := (if byte_val c =? 0xF0 then 0x90 else 0x80)%Z). set (hi := (if byte_val c =? 0xF4 then 0x8F else 0xBF)%Z).
  assert (0x80 <= lo)%Z by (subst lo; by case_match). assert (hi <= 0xBF)%Z by (subst hi; by case_match).
  destruct b as [|c1 [|c2 [|c3 b]]]; cbn [cont_prefix].
  - done.
  - by destruct (contb c1).
  - destruct (contb c1), (contb c2); done.
  - destruct (contb c1) eqn:E1; [|cbn; by rewrite Hlo]. destruct (contb c2) eqn:E2; cycle 1.
    { cbn. rewrite (Hn c2), andb_false_r by done. done. }
    destruct (contb c3) eqn:E3; [done|]. cbn. rewrite (Hn c3), andb_false_r by done. done.
Qed.

(** The bytes of a rune behind the first are continuation bytes. *)
Lemma decode_width c b r n : utf8.DecodeRune (c :: b) = (r, n) -> pred n <= length (cont_prefix b).
Proof.
  rewrite decode_cont. intros E. pose proof (utf8.decode_valid c (cont_prefix b)) as Hv. rewrite E in Hv. cbn in Hv. lia.
Qed.

(** ** Escaping a body *)

Definition sep_escape (d : ascii) : bytes := [backslash; "u"%char; "2"%char; "0"%char; "2"%char; d].

Lemma line_sep_inv s e : line_sep s = Some e ->
  exists c3 d s3, s = "226"%char :: "128"%char :: c3 :: s3 /\ e = sep_escape d /\
    (c3 = "168"%char /\ d = "8"%char \/ c3 = "169"%char /\ d = "9"%char).
Proof.
  unfold line_sep. destruct s as [|c1 [|c2 [|c3 s]]]; try done.
  destruct (Ascii.eqb_spec c1 "226") as [->|]; [|done]. destruct (Ascii.eqb_spec c2 "128") as [->|]; [|done]. cbn [andb].
  destruct (Ascii.eqb_spec c3 "168") as [->|]; [intros [= <-]; eexists _, _, _; by eauto|].
  destruct (Ascii.eqb_spec c3 "169") as [->|]; [intros [= <-]; eexists _, _, _; by eauto|done].
Qed.

Lemma line_sep_app s r : line_sep (s ++ quote :: r) = line_sep s.
Proof.
  destruct s as [|c1 [|c2 [|c3 s]]]; try done; cbn [app line_sep].
  - by destruct r as [|? [|? ?]].
  - destruct r as [|x r]; [done|]. change (Ascii.eqb quote "128") with false. by rewrite andb_false_r.
  - change (Ascii.eqb quote "168") with false. change (Ascii.eqb quote "169") with false. by destruct (_ && _).
Qed.

(** A raw character that is not replaced. *)
Definition kept (c : ascii) (s : bytes) : Prop := is_html c = false /\ line_sep (c :: s) = None.

(** The cases of [escape_body] at the front of a body, by what stands there. *)
Lemma body_cases s (P : bytes -> Prop) :
  P [] ->
  (forall e x s, simple_escape e = Some x -> body s -> P (backslash :: e :: s)) ->
  (forall h1 h2 h3 h4 s, is_hex h1 = true -> is_hex h2 = true -> is_hex h3 = true -> is_hex h4 = true -> body s ->
     P (backslash :: "u"%char :: h1 :: h2 :: h3 :: h4 :: s)) ->
  (forall c s, is_html c = true -> body s -> P (c :: s)) ->
  (forall c3 d s, c3 = "168"%char /\ d = "8"%char \/ c3 = "169"%char /\ d = "9"%char -> body s ->
     P ("226"%char :: "128"%char :: c3 :: s)) ->
  (forall c s, c <> quote -> c <> backslash -> (32 <= byte_val c)%Z -> kept c s -> body s -> P (c :: s)) ->
  body s -> P s.
Proof.
  intros Hnil Hsim Huni Hhtml Hsep Hraw Hs. destruct Hs as [|e x s He Hs|h1 h2 h3 h4 s H1 H2 H3 H4 Hs|c s Hq Hb Hc Hs]; eauto.
  destruct (is_html c) eqn:Eh; [eauto|]. destruct (line_sep (c :: s)) as [e|] eqn:El; [|by apply Hraw].
  apply line_sep_inv in El as (c3 & d & s3 & [= -> ->] & _ & Hd). eapply Hsep; [exact Hd|].
  apply (body_tail c3); [|by intros ->; naive_solver]. by apply (body_tail "128"%char).
Qed.

Lemma escape_simple e s : escape_body 0 (backslash :: e :: s) = backslash :: e :: escape_body 0 s.
Proof. done. Qed.

Lemma is_html_inv c : is_html c = true -> c = "<"%char \/ c = ">"%char \/ c = "&"%char.
Proof.
  unfold is_html. rewrite !orb_true_iff. intros [[->%Ascii.eqb_eq| ->%Ascii.eqb_eq]| ->%Ascii.eqb_eq]; eauto.
Qed.

Lemma escape_kept c s : c <> backslash -> kept c s -> escape_body 0 (c :: s) = c :: escape_body 0 s.
Proof. intros Hb [Hh Hl]. cbn [escape_body]. by rewrite (proj2 (Ascii.eqb_neq c backslash)), Hh, Hl by done. Qed.

Lemma line_sep_head c s : c <> "226"%char -> line_sep (c :: s) = None.
Proof. intros Hc. unfold line_sep. destruct s as [|c2 [|c3 s]]; [done..|]. by rewrite (proj2 (Ascii.eqb_neq c "226")). Qed.

Lemma hex_plain h s : is_hex h = true -> escape_body 0 (h :: s) = h :: escape_body 0 s.
Proof.
  intros Hh. apply escape_kept; [by intros ->|]. split.
  - apply not_true_iff_false. intros [->|[->| ->]]%is_html_inv; done.
  - apply line_sep_head. by intros ->.
Qed.

Lemma escape_unicode h1 h2 h3 h4 s :
  is_hex h1 = true -> is_hex h2 = true -> is_hex h3 = true -> is_hex h4 = true ->
  escape_body 0 (backslash :: "u"%char :: h1 :: h2 :: h3 :: h4 :: s)
  = backslash :: "u"%char :: h1 :: h2 :: h3 :: h4 :: escape_body 0 s.
Proof. intros H1 H2 H3 H4. by rewrite escape_simple, !hex_plain. Qed.

Lemma escape_html c s : is_html c = true -> escape_body 0 (c :: s) = u00 (byte_val c) ++ escape_body 0 s.
Proof. by intros [->|[->| ->]]%is_html_inv. Qed.

Lemma escape_sep c3 d s : c3 = "168"%char /\ d = "8"%char \/ c3 = "169"%char /\ d = "9"%char ->
  escape_body 0 ("226"%char :: "128"%char :: c3 :: s) = sep_escape d ++ escape_body 0 s.
Proof. by intros [[-> ->]|[-> ->]]. Qed.

(** Induction over the tokens of a body. *)
Lemma body_ind' (P : bytes -> Prop) :
  P [] ->
  (forall e x s, simple_escape e = Some x -> body s -> P s -> P (backslash :: e :: s)) ->
  (forall h1 h2 h3 h4 s, is_hex h1 = true -> is_hex h2 = true -> is_hex h3 = true -> is_hex h4 = true -> body s -> P s ->
     P (backslash :: "u"%char :: h1 :: h2 :: h3 :: h4 :: s)) ->
  (forall c s, is_html c = true -> body s -> P s -> P (c :: s)) ->
  (forall c3 d s, c3 = "168"%char /\ d = "8"%char \/ c3 = "169"%char /\ d = "9"%char -> body s -> P s ->
     P ("226"%char :: "128"%char :: c3 :: s)) ->
  (forall c s, c <> quote -> c <> backslash -> (32 <= byte_val c)%Z -> kept c s -> body s ->
     (forall k, k <= length (cont_prefix s) -> P (drop k s)) -> P (c :: s)) ->
  forall s, body s -> P s.
Proof.
  intros Hnil Hsim Huni Hhtml Hsep Hraw s. remember (length s) as n eqn:En. revert s En.
  induction (lt_wf n) as [n _ IH]; intros s -> Hs. revert IH.
  apply (body_cases s (fun s => (forall y, y < length s -> forall s0, y = length s0 -> body s0 -> P s0) -> P s)); try done.
  - intros e x s' He Hs' IH. eapply Hsim; [done..|]. eapply IH; [|done..]. cbn. lia.
  - intros h1 h2 h3 h4 s' H1 H2 H3 H4 Hs' IH. apply Huni; try done. eapply IH; [|done..]. cbn. lia.
  - intros c s' Hc Hs' IH. apply Hhtml; try done. eapply IH; [|done..]. cbn. lia.
  - intros c3 d s' Hd Hs' IH. eapply Hsep; [done..|]. eapply IH; [|done..]. cbn. lia.
  - intros c s' Hq Hb Hc Hk Hs' IH. apply Hraw; try done. intros k Hlen. eapply IH; [|done|].
    + rewrite length_drop. cbn. lia.
    + by apply body_drop.
Qed.

Lemma compact_simple e t : compact true 0 (backslash :: e :: t) = backslash :: e :: compact true 0 t.
Proof. done. Qed.

Lemma compact_raw c t : c <> backslash -> c <> quote -> is_html c = false -> line_sep (c :: t) = None ->
  compact true 0 (c :: t) = c :: compact true 0 t.
Proof.
  intros Hb Hq Hh Hl. cbn [compact].
  by rewrite (proj2 (Ascii.eqb_neq c backslash)), (proj2 (Ascii.eqb_neq c quote)), Hh, Hl by done.
Qed.

Lemma compact_hex h t : is_hex h = true -> compact true 0 (h :: t) = h :: compact true 0 t.
Proof.
  intros Hh. apply compact_raw; [by intros ->|by intros ->| |apply line_sep_head; by intros ->].
  apply not_true_iff_false. intros [->|[->| ->]]%is_html_inv; done.
Qed.

Lemma compact_body s r : body s -> compact true 0 (s ++ quote :: r) = escape_body 0 s ++ quote :: compact false 0 r.
Proof.
  intros Hs. induction Hs as [|e x s He Hs IH|h1 h2 h3 h4 s H1 H2 H3 H4 Hs IH|c s Hc Hs IH|c3 d s Hd Hs IH|c s Hq Hb Hc Hk Hs IH]
    using body_ind'; cbn [app].
  - done.
  - by rewrite escape_simple, compact_simple, IH.
  - by rewrite escape_unicode, compact_simple, !compact_hex, IH by done.
  - rewrite escape_html by done. rewrite <- app_assoc, <- IH. apply is_html_inv in Hc as [->|[->| ->]]; done.
  - rewrite (escape_sep c3 d) by done. rewrite <- app_assoc, <- IH. destruct Hd as [[-> ->]|[-> ->]]; done.
  - rewrite escape_kept by done. destruct Hk as [Hh Hl]. rewrite <- (line_sep_app (c :: s) r) in Hl.
    rewrite compact_raw by done. cbn [app]. f_equal. apply (IH 0). lia.
Qed.

Lemma u00_body c s : is_html c = true -> body s -> body (u00 (byte_val c) ++ s).
Proof. intros [->|[->| ->]]%is_html_inv Hs; by apply body_unicode. Qed.

Lemma escape_is_body s : body s -> body (escape_body 0 s).
Proof.
  intros Hs. induction Hs as [|e x s He Hs IH|h1 h2 h3 h4 s H1 H2 H3 H4 Hs IH|c s Hc Hs IH|c3 d s Hd Hs IH|c s Hq Hb Hc Hk Hs IH]
    using body_ind'.
  - constructor.
  - rewrite escape_simple. by econstructor.
  - rewrite escape_unicode by done. by constructor.
  - rewrite escape_html by done. by apply u00_body.
  - rewrite (escape_sep c3 d) by done. destruct Hd as [[-> ->]|[-> ->]]; by apply body_unicode.
  - rewrite escape_kept by done. constructor; try done. apply (IH 0). lia.
Qed.

Lemma cont_prefix_escape s : body s -> cont_prefix (escape_body 0 s) = cont_prefix s.
Proof.
  intros Hs. induction Hs as [|e x s He Hs IH|h1 h2 h3 h4 s H1 H2 H3 H4 Hs IH|c s Hc Hs IH|c3 d s Hd Hs IH|c s Hq Hb Hc Hk Hs IH]
    using body_ind'; try done.
  - rewrite escape_html by done. apply is_html_inv in Hc as [->|[->| ->]]; done.
  - rewrite (escape_sep c3 d) by done. destruct Hd as [[-> ->]|[-> ->]]; done.
  - rewrite escape_kept by done. cbn [cont_prefix]. destruct (contb c); [|done]. f_equal. apply (IH 0). lia.
Qed.

Lemma cont_kept c s : contb c = true -> c <> backslash /\ kept c s.
Proof.
  intros Hc. split; [by intros ->|]. split.
  - apply not_true_iff_false. intros [->|[->| ->]]%is_html_inv; done.
  - apply line_sep_head. by intros ->.
Qed.

Lemma drop_escape k s : k <= length (cont_prefix s) -> drop k (escape_body 0 s) = escape_body 0 (drop k s).
Proof.
  revert s; induction k as [|k IH]; intros s Hk; [done|]. destruct s as [|c s]; [done|]. cbn [cont_prefix] in Hk.
  destruct (contb c) eqn:Ec; [|cbn in Hk; lia]. destruct (cont_kept c s Ec) as [Hb Hkept].
  rewrite escape_kept by done. cbn [drop]. apply IH. cbn in Hk. lia.
Qed.

(** [unquote] of a raw character. *)
Lemma unquote_raw c s : c <> backslash ->
  unquote 0 (c :: s) = let '(r, n) := utf8.DecodeRune (c :: s) in utf8.EncodeRune r ++ unquote 0 (drop (pred n) s).
Proof.
  intros Hb. cbn [unquote]. rewrite (proj2 (Ascii.eqb_neq c backslash)) by done.
  destruct (utf8.DecodeRune (c :: s)) as [r n]. by rewrite unquote_skip.
Qed.

(** The low half of a surrogate pair behind [\uXXXX], and what follows it. *)
Definition low_half (r1 : Z) (s2 : bytes) : option (Z * bytes) :=
  match s2 with
  | c2 :: e2 :: k1 :: k2 :: k3 :: k4 :: s3 =>
      r ← (if Ascii.eqb c2 backslash && Ascii.eqb e2 "u" then pair_rune r1 (hex4 k1 k2 k3 k4) else None); Some (r, s3)
  | _ => None
  end.

Lemma unquote_unicode h1 h2 h3 h4 s :
  unquote 0 (backslash :: "u"%char :: h1 :: h2 :: h3 :: h4 :: s) =
  let r1 := hex4 h1 h2 h3 h4 in
  if utf8.is_surrogate r1 then
    match low_half r1 s with
    | Some (r, s3) => utf8.EncodeRune r ++ unquote 0 s3
    | None => utf8.EncodeRune utf8.RuneError ++ unquote 0 s
    end
  else utf8.EncodeRune r1 ++ unquote 0 s.
Proof.
  cbn [unquote]. change (Ascii.eqb backslash backslash) with true. change (simple_escape "u") with (@None ascii). cbn iota.
  destruct (utf8.is_surrogate _); [|done]. unfold low_half.
  destruct s as [|c2 [|e2 [|k1 [|k2 [|k3 [|k4 s]]]]]]; try done. by destruct (if _ && _ then _ else _).
Qed.

Lemma pair_rune_low r1 r2 : ~ (0xDC00 <= r2 <= 0xDFFF)%Z -> pair_rune r1 r2 = None.
Proof. intros H. unfold pair_rune. by rewrite (proj2 (utf8.between_false 0xDC00 0xDFFF r2)), andb_false_r by done. Qed.

Lemma low_half_other r1 c s : c <> backslash -> low_half r1 (c :: s) = None.
Proof.
  intros Hc. unfold low_half. destruct s as [|e2 [|k1 [|k2 [|k3 [|k4 s]]]]]; try done.
  by rewrite (proj2 (Ascii.eqb_neq c backslash)).
Qed.

(** Escaping neither makes nor breaks a surrogate pair. *)
Lemma low_half_escape r1 s : body s ->
  low_half r1 (escape_body 0 s) = match low_half r1 s with Some (r, s3) => Some (r, escape_body 0 s3) | None => None end.
Proof.
  intros Hs. pattern s. revert Hs. apply body_cases.
  - done.
  - intros e x s' He Hs'. rewrite escape_simple. assert (Hu : Ascii.eqb e "u" = false) by (apply Ascii.eqb_neq; by intros ->).
    unfold low_half. destruct (escape_body 0 s') as [|? [|? [|? [|? ?]]]], s' as [|? [|? [|? [|? ?]]]]; try done; rewrite Hu, andb_false_r; done.
  - intros h1 h2 h3 h4 s' H1 H2 H3 H4 Hs'. rewrite escape_unicode by done. cbn. by destruct (pair_rune _ _).
  - intros c s' Hc Hs'. rewrite escape_html by done. rewrite (low_half_other r1 c) by (intros ->; done).
    apply is_html_inv in Hc as [->|[->| ->]]; cbn; by rewrite pair_rune_low by (intros [Hlow _]; by apply Hlow).
  - intros c3 d s' Hd Hs'. rewrite (escape_sep c3 d) by done. rewrite low_half_other by done.
    destruct Hd as [[-> ->]|[-> ->]]; cbn; by rewrite pair_rune_low by (intros [Hlow _]; by apply Hlow).
  - intros c s' Hq Hb Hc Hk Hs'. rewrite escape_kept by done. by rewrite !low_half_other by done.
Qed.

(** The escaped body stands for the same string. *)
Lemma unquote_escape s : body s -> unquote 0 (escape_body 0 s) = unquote 0 s.
Proof.
  remember (length s) as n eqn:En. revert s En. induction (lt_wf n) as [n _ IH]; intros s -> Hs. revert IH.
  apply (body_cases s (fun s => (forall y, y < length s -> forall s0, y = length s0 -> body s0 -> unquote 0 (escape_body 0 s0) = unquote 0 s0) ->
    unquote 0 (escape_body 0 s) = unquote 0 s)); try done.
  - intros e x s' He Hs' IH. rewrite escape_simple. cbn [unquote]. change (Ascii.eqb backslash backslash) with true. rewrite He.
    by rewrite (IH (length s')) by (cbn; lia || done).
  - intros h1 h2 h3 h4 s' H1 H2 H3 H4 Hs' IH. rewrite escape_unicode, !unquote_unicode by done.
    cbn zeta. rewrite low_half_escape by done. rewrite (IH (length s')) by (cbn; lia || done).
    destruct (low_half (hex4 h1 h2 h3 h4) s') as [[r s3]|] eqn:El; [|done].
    assert (body s3 /\ length s3 < length s') as [Hb3 Hl3].
    { unfold low_half in El. destruct s' as [|c2 [|e2 [|k1 [|k2 [|k3 [|k4 t]]]]]]; try done.
      destruct (Ascii.eqb_spec c2 backslash) as [->|]; [|done]. destruct (Ascii.eqb_spec e2 "u") as [->|]; [|done].
      cbn [andb] in El. destruct (pair_rune _ _); [|done]. injection El as <- <-. cbn. split; [|lia].
      by inversion Hs'; simplify_eq. }
    by rewrite (IH (length s3)) by (cbn; lia || done).
  - intros c s' Hc Hs' IH. rewrite escape_html by done. specialize (IH (length s') ltac:(cbn; lia) s' eq_refl Hs').
    apply is_html_inv in Hc as [->|[->| ->]]; cbn [u00 app]; rewrite unquote_unicode, unquote_raw by done; cbn; by rewrite IH.
  - intros c3 d s' Hd Hs' IH. rewrite (escape_sep c3 d) by done. specialize (IH (length s') ltac:(cbn; lia) s' eq_refl Hs').
    destruct Hd as [[-> ->]|[-> ->]]; cbn [sep_escape app]; rewrite unquote_unicode, unquote_raw by done; cbn; by rewrite IH.
  - intros c s' Hq Hb Hc Hk Hs' IH. rewrite escape_kept, !unquote_raw by done.
    rewrite (decode_cont c (escape_body 0 s')), cont_prefix_escape, <- decode_cont by done.
    destruct (utf8.DecodeRune (c :: s')) as [r n] eqn:Ed. apply decode_width in Ed. rewrite drop_escape by done.
    f_equal. eapply IH; [|done|].
    + rewrite length_drop. cbn. lia.
    + by apply body_drop.
Qed.

(** A string token, compacted. *)
Lemma scan_compact b s r : scan_string b = Some (s, r) ->
  compact true 0 b = escape_body 0 s ++ quote :: compact false 0 r /\
  (forall x, scan_string (escape_body 0 s ++ quote :: x) = Some (escape_body 0 s, x)) /\
  unquote 0 (escape_body 0 s) = unquote 0 s.
Proof.
  intros [Hs ->]%scan_string_body. split; [by apply compact_body|]. split; [|by apply unquote_escape].
  intros x. by apply body_scan, escape_is_body.
Qed.

(** ** Values *)

(** A value without the source texts of its members. *)
Fixpoint erase (v : jval) : jval :=
  match v with
  | JArr vs => JArr (List.map erase vs)
  | JObj ms => JObj (List.map (fun m => (m.1, ([], erase m.2.2))) ms)
  | _ => v
  end.

Definition erase_member (m : bytes * (bytes * jval)) : bytes * (bytes * jval) := (m.1, ([], erase m.2.2)).

(** Behind a value comes the end of the text or of a list. *)
Definition closing (b : bytes) : Prop :=
  match b with [] => True | c :: _ => c = ","%char \/ c = "]"%char \/ c = "}"%char end.

(** A character that is copied outside strings. *)
Definition plain (c : ascii) : Prop := is_space c = false /\ c <> quote /\ (32 <=? byte_val c)%Z = true.

Lemma compact_plain c b : plain c -> compact false 0 (c :: b) = c :: compact false 0 b.
Proof. intros (Hs & Hq & _). cbn [compact]. by rewrite Hs, (proj2 (Ascii.eqb_neq c quote)) by done. Qed.

Lemma compact_plains p b : Forall plain p -> compact false 0 (p ++ b) = p ++ compact false 0 b.
Proof. induction 1 as [|c p Hc _ IH]; [done|]. cbn [app]. by rewrite compact_plain, IH. Qed.

Lemma compact_skip_ws b : compact false 0 (skip_ws b) = compact false 0 b.
Proof. induction b as [|c b IH]; [done|]. cbn [skip_ws]. destruct (is_space c) eqn:E; [|done]. cbn [compact]. by rewrite E, IH. Qed.

Lemma skip_ws_compact b : skip_ws (compact false 0 b) = compact false 0 b.
Proof.
  induction b as [|c b IH]; [done|]. cbn [compact]. destruct (is_space c) eqn:E; [done|].
  destruct (Ascii.eqb c quote); cbn [skip_ws]; by rewrite E.
Qed.

Lemma skip_ws_head b c b' : skip_ws b = c :: b' -> is_space c = false.
Proof. induction b as [|x b IH]; [done|]. cbn. destruct (is_space x) eqn:E; [done|]. by intros [= -> ->]. Qed.

Lemma closing_plain c b : closing (c :: b) -> plain c.
Proof. by intros [->|[->| ->]]. Qed.

Lemma compact_closing b : closing (skip_ws b) -> closing (compact false 0 b).
Proof.
  rewrite <- compact_skip_ws. destruct (skip_ws b) as [|c b'] eqn:E; [done|]. intros Hc.
  by rewrite compact_plain by (by eapply closing_plain).
Qed.

Lemma strip_app p b r : strip p b = Some r -> b = p ++ r.
Proof.
  revert b; induction p as [|x p IH]; intros b; [by intros [= <-]|]. destruct b as [|c b]; [done|].
  cbn. destruct (Ascii.eqb_spec x c) as [->|]; [|done]. intros Hr. by rewrite (IH b Hr).
Qed.

Lemma strip_same p r : strip p (p ++ r) = Some r.
Proof. induction p as [|x p IH]; [done|]. cbn. by rewrite Ascii.eqb_refl. Qed.

Lemma strip_compact p b r : Forall plain p -> strip p b = Some r -> strip p (compact false 0 b) = Some (compact false 0 r).
Proof. intros Hp ->%strip_app. by rewrite compact_plains, strip_same. Qed.

(** *** Numbers end at a blank or where a list does *)

Definition ending (b : bytes) : Prop :=
  match b with [] => True | c :: _ => is_space c = true \/ c = ","%char \/ c = "]"%char \/ c = "}"%char end.

Lemma closing_ending b : closing b -> ending b.
Proof. destruct b; cbn; eauto. Qed.

Lemma space_cases c : is_space c = true -> c = " "%char \/ c = "009"%char \/ c = "010"%char \/ c = "013"%char.
Proof. unfold is_space. rewrite !orb_true_iff, !Ascii.eqb_eq. tauto. Qed.

Definition no_digit (b : bytes) : Prop := match b with [] => True | c :: _ => is_digit c = false end.

Lemma take_digits_stop b d r x : take_digits b = (d, r) -> no_digit x -> take_digits (d ++ x) = (d, x).
Proof.
  revert d; induction b as [|c b IH]; intros d; cbn [take_digits].
  { intros [= <- <-] Hx. destruct x as [|c x]; [done|]. cbn in *. by rewrite Hx. }
  destruct (is_digit c) eqn:Ec.
  - destruct (take_digits b) as [d1 r1] eqn:E. intros [= <- <-] Hx. cbn. by rewrite Ec, (IH d1).
  - intros [= <- <-] Hx. destruct x as [|c' x]; [done|]. cbn in *. by rewrite Hx.
Qed.

Lemma take_digits_digits b d r : take_digits b = (d, r) -> Forall (fun c => is_digit c = true) d /\ no_digit r.
Proof.
  revert d; induction b as [|c b IH]; intros d; cbn [take_digits].
  { by intros [= <- <-]. }
  destruct (is_digit c) eqn:Ec; [|by intros [= <- <-]].
  destruct (take_digits b) as [d1 r1] eqn:E. intros [= <- <-]. destruct (IH d1 eq_refl). split; [by constructor|done].
Qed.

Lemma is_digit_plain c : is_digit c = true -> plain c.
Proof. destruct c as [[] [] [] [] [] [] [] []]; vm_compute; done. Qed.

Lemma digit_bytes_plain d : Forall (fun c => is_digit c = true) d -> Forall plain d.
Proof. intros H. eapply Forall_impl; [exact H|]. apply is_digit_plain. Qed.

(** Characters that end the fraction of a number. *)
Definition after_frac (b : bytes) : Prop :=
  match b with [] => True | c :: _ => is_digit c = false /\ c <> "."%char end.

(** An ending is nothing a number can go on with. *)
Lemma ending_stops c b : ending (c :: b) ->
  is_digit c = false /\ c <> "."%char /\ Ascii.eqb c "e" || Ascii.eqb c "E" = false.
Proof. cbn. intros [[->|[->|[->| ->]]]%space_cases|[->|[->| ->]]]; done. Qed.

Lemma scan_int_stop b i r x : scan_int b = Some (i, r) -> no_digit x ->
  scan_int (i ++ x) = Some (i, x) /\ Forall plain i /\ exists c i', i = c :: i' /\ is_digit c = true.
Proof.
  unfold scan_int at 1. destruct b as [|c b]; [done|]. destruct (Ascii.eqb_spec c "0") as [->|Hc].
  { intros [= <- <-] _. split; [done|]. split; [by repeat constructor|by eexists _, _]. }
  destruct (take_digits (c :: b)) as [[|y d] r1] eqn:E; [done|]. intros [= <- <-] Hx.
  destruct (take_digits_digits _ _ _ E) as [Hd _]. pose proof Hd as [Hy _]%Forall_cons.
  split; [|split; [by apply digit_bytes_plain|by eexists _, _]].
  apply (take_digits_stop _ _ _ _ E) in Hx. cbn [app] in *. unfold scan_int. rewrite Hx.
  destruct (Ascii.eqb_spec y "0") as [->|]; [|done].
  apply take_digits_app in E. injection E as -> _. done.
Qed.

Lemma scan_frac_stop b f r x : scan_frac b = Some (f, r) -> after_frac x ->
  scan_frac (f ++ x) = Some (f, x) /\ Forall plain f /\ (f = [] \/ exists f', f = "."%char :: f').
Proof.
  unfold scan_frac at 1. intros Hf Hx.
  assert (Hnil : scan_frac x = Some ([], x)).
  { destruct x as [|c x]; [done|]. destruct Hx as (_ & Hc). unfold scan_frac. by rewrite (proj2 (Ascii.eqb_neq c ".")). }
  destruct b as [|c b]; [by injection Hf as <- <-; eauto|].
  destruct (Ascii.eqb_spec c ".") as [->|]; [|by injection Hf as <- <-; eauto].
  destruct (take_digits b) as [[|y d] r1] eqn:E; [done|]. injection Hf as <- <-.
  destruct (take_digits_digits _ _ _ E) as [Hd _].
  split; [|split; [by constructor; [|apply digit_bytes_plain]|right; by eexists]].
  assert (Hs : no_digit x) by (destruct x; [done|apply Hx]). apply (take_digits_stop _ _ _ _ E) in Hs.
  cbn [app] in *. unfold scan_frac. rewrite Hs. done.
Qed.

Lemma scan_exp_stop b e r x : scan_exp b = Some (e, r) -> ending x ->
  scan_exp (e ++ x) = Some (e, x) /\ Forall plain e /\
  (e = [] \/ exists c e', e = c :: e' /\ (c = "e"%char \/ c = "E"%char)).
Proof.
  unfold scan_exp at 1. intros He Hx.
  assert (Hnil : scan_exp x = Some ([], x)).
  { destruct x as [|c x]; [done|]. destruct (ending_stops c x Hx) as (_ & _ & Hc). unfold scan_exp. by rewrite Hc. }
  assert (Hno : no_digit x) by (destruct x as [|c x]; [done|]; apply (ending_stops c x Hx)).
  destruct b as [|c b]; [by injection He as <- <-; eauto|].
  destruct (_ || _) eqn:Ec; [|by injection He as <- <-; eauto].
  assert (Hc : c = "e"%char \/ c = "E"%char) by (rewrite orb_true_iff, !Ascii.eqb_eq in Ec; done).
  set (sg := match b with s :: b1 => _ | [] => _ end) in He. destruct sg as [sign b1] eqn:Es. subst sg.
  destruct (take_digits b1) as [[|y d] r1] eqn:E; [done|]. injection He as <- <-.
  destruct (take_digits_digits _ _ _ E) as [Hd _]. pose proof Hd as [Hy _]%Forall_cons.
  apply (take_digits_stop _ _ _ _ E) in Hno. cbn [app] in Hno.
  assert (Hsign : sign = [] \/ sign = ["+"%char] \/ sign = ["-"%char]).
  { destruct b as [|z b]; [simplify_eq/=; by eauto|]. destruct (Ascii.eqb z "+" || Ascii.eqb z "-") eqn:Ez; [|simplify_eq/=; by eauto].
    injection Es as <- <-. rewrite orb_true_iff, !Ascii.eqb_eq in Ez. destruct Ez as [->| ->]; eauto. }
  assert (Hyn : Ascii.eqb y "+" || Ascii.eqb y "-" = false)
    by (apply not_true_iff_false; rewrite orb_true_iff, !Ascii.eqb_eq; intros [->| ->]; done).
  split; [|split; [|right; eexists _, _; by split]].
  - unfold scan_exp. cbn [app]. rewrite Ec. destruct Hsign as [->|[->| ->]]; cbn [app].
    + rewrite Hyn. cbn iota beta. by rewrite Hno.
    + change (Ascii.eqb "+" "+" || Ascii.eqb "+" "-") with true. cbn iota beta. by rewrite Hno.
    + change (Ascii.eqb "-" "+" || Ascii.eqb "-" "-") with true. cbn iota beta. by rewrite Hno.
  - constructor; [by destruct Hc as [->| ->]|]. apply Forall_app. split; [|by apply digit_bytes_plain].
    destruct Hsign as [->|[->| ->]]; by repeat constructor.
Qed.

(** A number in front of an ending is read as it was. *)
Lemma scan_number_stop b lit r x : scan_number b = Some (lit, r) -> ending x ->
  scan_number (lit ++ x) = Some (lit, x) /\ Forall plain lit.
Proof.
  unfold scan_number at 1. intros Hb Hx.
  set (sg := match b with c :: b1 => _ | [] => _ end) in Hb. destruct sg as [sign b1] eqn:Es. subst sg.
  destruct (scan_int b1) as [[i b2]|] eqn:Ei; [|done]. cbn [mbind option_bind] in Hb.
  destruct (scan_frac b2) as [[f b3]|] eqn:Ef; [|done]. cbn [mbind option_bind] in Hb.
  destruct (scan_exp b3) as [[e b4]|] eqn:Ee; [|done]. injection Hb as <- <-.
  destruct (scan_exp_stop _ _ _ x Ee Hx) as (He & Hpe & Hhe).
  assert (Haf : after_frac (e ++ x)).
  { destruct Hhe as [->|(c & e' & -> & [->| ->])]; cbn; [|by split_and!..].
    destruct x as [|c x]; [done|]. destruct (ending_stops c x Hx) as (? & ? & _). by split. }
  destruct (scan_frac_stop _ _ _ _ Ef Haf) as (Hf & Hpf & Hhf).
  assert (Hai : no_digit (f ++ e ++ x)).
  { destruct Hhf as [->|(f' & ->)]; [|done]. cbn [app]. destruct (e ++ x); [done|]. apply Haf. }
  destruct (scan_int_stop _ _ _ _ Ei Hai) as (Hi & Hpi & c & i' & Hci & Hdig).
  assert (Hsign : sign = [] \/ sign = ["-"%char]).
  { destruct b as [|z b]; [simplify_eq/=; by eauto|]. destruct (Ascii.eqb_spec z "-") as [->|]; simplify_eq/=; eauto. }
  split; [|rewrite !Forall_app; split_and!; try done; destruct Hsign as [->| ->]; by repeat constructor].
  rewrite <- !app_assoc. unfold scan_number.
  assert ((match sign ++ i ++ f ++ e ++ x with c :: b1 => if Ascii.eqb c "-" then ([c], b1) else ([], sign ++ i ++ f ++ e ++ x) | [] => ([], []) end)
          = (sign, i ++ f ++ e ++ x)) as ->.
  { destruct Hsign as [->| ->]; [|done]. rewrite Hci. cbn [app]. destruct (Ascii.eqb_spec c "-") as [->|]; done. }
  rewrite Hi. cbn [mbind option_bind]. rewrite Hf. cbn [mbind option_bind]. by rewrite He.
Qed.

(** *** The parser on the compacted text *)

Definition compact_value (fuel : nat) : Prop := forall d b v r,
  value fuel d b = Some (v, r) -> closing (skip_ws r) ->
  exists v', value fuel d (compact false 0 b) = Some (v', compact false 0 r) /\ erase v' = erase v.
Definition compact_elements (fuel : nat) : Prop := forall d b vs r,
  elements fuel d b = Some (vs, r) ->
  exists vs', elements fuel d (compact false 0 b) = Some (vs', compact false 0 r) /\ List.map erase vs' = List.map erase vs.
Definition compact_members (fuel : nat) : Prop := forall d b ms r,
  members fuel d b = Some (ms, r) ->
  exists ms', members fuel d (compact false 0 b) = Some (ms', compact false 0 r) /\ List.map erase_member ms' = List.map erase_member ms.

Lemma compact_quote b s r : scan_string b = Some (s, r) ->
  compact false 0 (quote :: b) = quote :: escape_body 0 s ++ quote :: compact false 0 r.
Proof. intros (Hc & _)%scan_compact. cbn [compact]. change (is_space quote) with false. change (Ascii.eqb quote quote) with true. by rewrite Hc. Qed.

(** A list that is not empty before is not empty after. *)
Lemma strip_none_compact (c : ascii) b : plain c -> strip [c] b = None -> skip_ws b = b -> strip [c] (compact false 0 b) = None.
Proof.
  intros Hc Hb Hw. destruct b as [|x b]; [done|]. cbn [strip] in Hb. destruct (Ascii.eqb_spec c x) as [->|Hne]; [done|].
  cbn [skip_ws] in Hw. destruct (is_space x) eqn:Ex.
  { apply (f_equal length) in Hw. cbn in Hw. pose proof (skip_ws_length b). lia. }
  cbn [compact]. rewrite Ex. destruct (Ascii.eqb x quote); cbn [strip]; by rewrite (proj2 (Ascii.eqb_neq c x)).
Qed.

Lemma skip_ws_idem b : skip_ws (skip_ws b) = skip_ws b.
Proof. induction b as [|c b IH]; [done|]. cbn. destruct (is_space c) eqn:E; [done|]. cbn. by rewrite E. Qed.

(** A bracketed list. *)
Lemma value_list_compact fuel d b v r : compact_elements fuel -> compact_members fuel ->
  value (S fuel) d b = Some (v, r) ->
  (exists b', b = "["%char :: b') \/ (exists b', b = "{"%char :: b') ->
  exists v', value (S fuel) d (compact false 0 b) = Some (v', compact false 0 r) /\ erase v' = erase v.
Proof.
  intros IHe IHm Hv [[b' ->]|[b' ->]]; rewrite compact_plain by done; cbn [value] in *;
    (match type of Hv with context [Ascii.eqb ?c quote] => change (Ascii.eqb c quote) with false in * end);
    cbn [Ascii.eqb Bool.eqb] in *; destruct (maxNestingDepth <=? d)%Z; try done;
    rewrite skip_ws_compact, <- compact_skip_ws;
    destruct (strip _ (skip_ws b')) as [r1|] eqn:Es.
  - injection Hv as <- <-. rewrite (strip_compact ["]"%char] (skip_ws b') r1) by (done || by repeat constructor). by eexists.
  - rewrite strip_none_compact by (done || apply skip_ws_idem).
    destruct (elements fuel (d + 1) (skip_ws b')) as [[vs r1]|] eqn:E; [|done]. injection Hv as <- <-.
    destruct (IHe _ _ _ _ E) as (vs' & -> & Hvs). eexists. split; [done|]. cbn. by rewrite Hvs.
  - injection Hv as <- <-. rewrite (strip_compact ["}"%char] (skip_ws b') r1) by (done || by repeat constructor). by eexists.
  - rewrite strip_none_compact by (done || apply skip_ws_idem).
    destruct (members fuel (d + 1) (skip_ws b')) as [[ms r1]|] eqn:E; [|done]. injection Hv as <- <-.
    destruct (IHm _ _ _ _ E) as (ms' & -> & Hms). eexists. split; [done|]. cbn. f_equal. exact Hms.
Qed.

(** A literal name. *)
Lemma name_compact p b r : Forall plain (bytes_of p) -> strip (bytes_of p) b = Some r ->
  strip (bytes_of p) (compact false 0 b) = Some (compact false 0 r).
Proof. apply strip_compact. Qed.

Lemma value_compact_S fuel : compact_elements fuel -> compact_members fuel -> compact_value (S fuel).
Proof.
  intros IHe IHm d b v r Hv Hr. destruct b as [|c b]; [done|].
  destruct (Ascii.eqb_spec c quote) as [->|Hq].
  { cbn [value] in Hv. change (Ascii.eqb quote quote) with true in Hv.
    destruct (scan_string b) as [[s r1]|] eqn:E; [|done]. injection Hv as <- <-.
    rewrite (compact_quote b s r1 E). destruct (scan_compact b s r1 E) as (_ & Hs & Hu). cbn [value].
    change (Ascii.eqb quote quote) with true. rewrite Hs. cbn. eexists. split; [done|]. by rewrite Hu. }
  destruct (Ascii.eqb_spec c "[") as [->|Hl]; [eapply value_list_compact; eauto|].
  destruct (Ascii.eqb_spec c "{") as [->|Ho]; [eapply value_list_compact; eauto|].
  cbn [value] in Hv. rewrite (proj2 (Ascii.eqb_neq c quote)), (proj2 (Ascii.eqb_neq c "[")), (proj2 (Ascii.eqb_neq c "{")) in Hv by done.
  assert (Hgo : forall w, compact false 0 (c :: b) = c :: w ->
    value (S fuel) d (compact false 0 (c :: b)) =
      if Ascii.eqb c "n" then r ← strip (bytes_of "null") (c :: w); Some (JNull, r)
      else if Ascii.eqb c "t" then r ← strip (bytes_of "true") (c :: w); Some (JBool true, r)
      else if Ascii.eqb c "f" then r ← strip (bytes_of "false") (c :: w); Some (JBool false, r)
      else '(lit, r) ← scan_number (c :: w); Some (JNum lit, r)).
  { intros w ->. cbn [value]. by rewrite (proj2 (Ascii.eqb_neq c quote)), (proj2 (Ascii.eqb_neq c "[")), (proj2 (Ascii.eqb_neq c "{")) by done. }
  destruct (Ascii.eqb_spec c "n") as [->|Hn]; [|destruct (Ascii.eqb_spec c "t") as [->|Ht]; [|destruct (Ascii.eqb_spec c "f") as [->|Hf]]].
  1-3: destruct (strip _ _) as [r1|] eqn:E in Hv; [|done]; injection Hv as <- <-;
       rewrite (Hgo (compact false 0 b)) by (by rewrite compact_plain);
       apply name_compact in E; [|by repeat constructor]; rewrite compact_plain in E by done; rewrite E; by eexists.
  destruct (scan_number (c :: b)) as [[lit r1]|] eqn:En; [|done]. injection Hv as <- <-.
  destruct (scan_number_app _ _ _ En) as [Eb Hne].
  destruct (scan_number_stop _ _ _ (compact false 0 r1) En) as [Hs Hp]; [by apply closing_ending, compact_closing|].
  assert (Ec : compact false 0 (c :: b) = lit ++ compact false 0 r1) by (rewrite Eb; by apply compact_plains).
  destruct lit as [|c' lit]; [done|]. cbn [app] in Eb. injection Eb as <- _.
  rewrite (Hgo (lit ++ compact false 0 r1)) by done. cbn [app] in Hs. rewrite Hs. by eexists.
Qed.

Lemma elements_compact_S fuel : compact_value fuel -> compact_elements fuel -> compact_elements (S fuel).
Proof.
  intros IHv IHe d b vs r. cbn [elements]. destruct (value fuel d b) as [[v r1]|] eqn:Ev; [|done]. cbn [mbind option_bind].
  destruct (skip_ws r1) as [|c r2] eqn:Er; [done|]. intros H.
  assert (Hc : c = ","%char \/ c = "]"%char).
  { destruct (Ascii.eqb_spec c ","); [eauto|]. destruct (Ascii.eqb_spec c "]"); [eauto|done]. }
  destruct (IHv _ _ _ _ Ev) as (v' & -> & Hv'); [rewrite Er; destruct Hc; cbn; eauto|]. cbn [mbind option_bind].
  rewrite skip_ws_compact, <- compact_skip_ws, Er. destruct Hc as [->| ->]; rewrite compact_plain by done; cbn [Ascii.eqb Bool.eqb] in *.
  - destruct (elements fuel d (skip_ws r2)) as [[vs1 r3]|] eqn:E; [|done]. injection H as <- <-.
    destruct (IHe _ _ _ _ E) as (vs' & E' & Hvs). rewrite compact_skip_ws in E'. rewrite skip_ws_compact, E'.
    eexists. split; [done|]. cbn. by rewrite Hv', Hvs.
  - injection H as <- <-. eexists. split; [done|]. cbn. by rewrite Hv'.
Qed.

Lemma members_compact_S fuel : compact_value fuel -> compact_members fuel -> compact_members (S fuel).
Proof.
  intros IHv IHm d b ms r. destruct b as [|c b]; [done|]. cbn [members].
  destruct (Ascii.eqb_spec c quote) as [->|]; [|done].
  destruct (scan_string b) as [[k r1]|] eqn:Ek; [|done]. cbn [mbind option_bind].
  destruct (strip [":"%char] (skip_ws r1)) as [r2|] eqn:Es; [|done]. cbn [mbind option_bind].
  destruct (value fuel d (skip_ws r2)) as [[v r3]|] eqn:Ev; [|done]. cbn [mbind option_bind].
  destruct (skip_ws r3) as [|c r4] eqn:Er; [done|]. intros H.
  assert (Hc : c = ","%char \/ c = "}"%char).
  { destruct (Ascii.eqb_spec c ","); [eauto|]. destruct (Ascii.eqb_spec c "}"); [eauto|done]. }
  rewrite (compact_quote b k r1 Ek). destruct (scan_compact b k r1 Ek) as (_ & Hk & Hu). cbn [members].
  change (Ascii.eqb quote quote) with true. rewrite Hk. cbn [mbind option_bind]. rewrite skip_ws_compact.
  rewrite <- (compact_skip_ws r1), (strip_compact [":"%char] (skip_ws r1) r2) by (done || by repeat constructor). cbn [mbind option_bind].
  destruct (IHv _ _ _ _ Ev) as (v' & Ev' & Hv'); [rewrite Er; destruct Hc; cbn; eauto|].
  rewrite compact_skip_ws in Ev'. rewrite skip_ws_compact, Ev'. cbn [mbind option_bind].
  rewrite skip_ws_compact, <- (compact_skip_ws r3), Er. destruct Hc as [->| ->]; rewrite compact_plain by done; cbn [Ascii.eqb Bool.eqb] in *.
  - destruct (members fuel d (skip_ws r4)) as [[ms1 r5]|] eqn:E; [|done]. injection H as <- <-.
    destruct (IHm _ _ _ _ E) as (ms' & E' & Hms). rewrite compact_skip_ws in E'. rewrite skip_ws_compact, E'.
    eexists. split; [done|]. cbn [List.map]. unfold erase_member at 1 3. cbn [fst snd]. by rewrite Hu, Hv', Hms.
  - injection H as <- <-. eexists. split; [done|]. cbn [List.map]. unfold erase_member. cbn [fst snd]. by rewrite Hu, Hv'.
Qed.

Lemma compact_all fuel : compact_value fuel /\ compact_elements fuel /\ compact_members fuel.
Proof.
  induction fuel as [|f (IHv & IHe & IHm)]; [split_and!; intros d [|c b]; done|].
  split_and!; [by apply value_compact_S|by apply elements_compact_S|by apply members_compact_S].
Qed.

(** Compacting does not change what a text says. *)
Lemma parse_compact b v : parse b = Some v -> exists v', parse (compact false 0 b) = Some v' /\ erase v' = erase v.
Proof.
  set (F := 2 * length b + 1 + (2 * length (compact false 0 b) + 1)).
  rewrite <- (parse_enough F) by lia. rewrite <- (parse_enough F (compact false 0 b)) by lia. unfold parse_with.
  destruct (value F 0 (skip_ws b)) as [[v0 r]|] eqn:Ev; [|done]. cbn [mbind option_bind].
  destruct (skip_ws r) eqn:Er; [|done]. intros [= <-].
  destruct (proj1 (compact_all F) _ _ _ _ Ev) as (v' & E & Hv'); [by rewrite Er|].
  rewrite compact_skip_ws in E. rewrite skip_ws_compact, E. cbn [mbind option_bind].
  rewrite skip_ws_compact, <- compact_skip_ws, Er. by exists v'.
Qed.

(** ** What follows a value does not matter *)

Lemma skip_ws_app r c r' x : skip_ws r = c :: r' -> skip_ws (r ++ x) = c :: r' ++ x.
Proof.
  induction r as [|y r IH]; [done|]. cbn. destruct (is_space y); [apply IH|]. by intros [= -> ->].
Qed.

Lemma ending_app r c r' x : skip_ws r = c :: r' -> c = ","%char \/ c = "]"%char \/ c = "}"%char -> ending (r ++ x).
Proof.
  destruct r as [|y r]; [done|]. cbn. destruct (is_space y) eqn:E; [by left|]. intros [= -> ->]. by right.
Qed.

Lemma scan_string_more b s r x : scan_string b = Some (s, r) -> scan_string (b ++ x) = Some (s, r ++ x).
Proof. intros [Hs ->]%scan_string_body. rewrite <- app_assoc. cbn [app]. by apply body_scan. Qed.

Lemma strip_more p b r x : strip p b = Some r -> strip p (b ++ x) = Some (r ++ x).
Proof. intros ->%strip_app. rewrite <- app_assoc. apply strip_same. Qed.

Lemma strip_none_more (c : ascii) b x : strip [c] b = None -> b <> [] -> strip [c] (b ++ x) = None.
Proof. destruct b as [|y b]; [done|]. cbn. by destruct (Ascii.eqb c y). Qed.

Definition more_value (fuel : nat) : Prop := forall d b v r x,
  value fuel d b = Some (v, r) -> ending (r ++ x) -> value fuel d (b ++ x) = Some (v, r ++ x).
Definition more_elements (fuel : nat) : Prop := forall d b vs r x,
  elements fuel d b = Some (vs, r) -> elements fuel d (b ++ x) = Some (vs, r ++ x).
Definition more_members (fuel : nat) : Prop := forall d b ms r x,
  members fuel d b = Some (ms, r) -> members fuel d (b ++ x) = Some (ms, r ++ x).

Lemma elements_nonempty fuel d b : b = [] -> elements fuel d b = None.
Proof. intros ->. destruct fuel as [|[|f]]; done. Qed.

Lemma value_more_S fuel : more_elements fuel -> more_members fuel -> more_value (S fuel).
Proof.
  intros IHe IHm d b v r x Hv Hr. destruct b as [|c b]; [done|]. cbn [app value] in *.
  destruct (Ascii.eqb c quote).
  { destruct (scan_string b) as [[s r1]|] eqn:E; [|done]. injection Hv as <- <-. by rewrite (scan_string_more b s r1). }
  destruct (Ascii.eqb c "[").
  { destruct (maxNestingDepth <=? d)%Z; [done|]. destruct (skip_ws b) as [|c' b'] eqn:Eb.
    { cbn [strip] in Hv. by rewrite elements_nonempty in Hv. }
    rewrite (skip_ws_app b c' b' x Eb). rewrite app_comm_cons. destruct (strip _ (c' :: b')) as [r1|] eqn:Es.
    - injection Hv as <- <-. by rewrite (strip_more _ _ r1).
    - rewrite strip_none_more by done. destruct (elements fuel (d + 1) (c' :: b')) as [[vs r1]|] eqn:E; [|done].
      injection Hv as <- <-. by rewrite (IHe _ _ _ _ x E). }
  destruct (Ascii.eqb c "{").
  { destruct (maxNestingDepth <=? d)%Z; [done|]. destruct (skip_ws b) as [|c' b'] eqn:Eb.
    { cbn [strip] in Hv. by destruct fuel. }
    rewrite (skip_ws_app b c' b' x Eb). rewrite app_comm_cons. destruct (strip _ (c' :: b')) as [r1|] eqn:Es.
    - injection Hv as <- <-. by rewrite (strip_more _ _ r1).
    - rewrite strip_none_more by done. destruct (members fuel (d + 1) (c' :: b')) as [[vs r1]|] eqn:E; [|done].
      injection Hv as <- <-. by rewrite (IHm _ _ _ _ x E). }
  rewrite app_comm_cons. destruct (Ascii.eqb c "n"); [|destruct (Ascii.eqb c "t"); [|destruct (Ascii.eqb c "f")]].
  1-3: destruct (strip _ (c :: b)) as [r1|] eqn:E; [|done]; injection Hv as <- <-; by rewrite (strip_more _ _ r1).
  destruct (scan_number (c :: b)) as [[lit r1]|] eqn:En; [|done]. injection Hv as <- <-.
  destruct (scan_number_stop _ _ _ (r1 ++ x) En Hr) as [Hs _].
  destruct (scan_number_app _ _ _ En) as [-> _]. rewrite <- app_assoc. by rewrite Hs.
Qed.

Lemma elements_more_S fuel : more_value fuel -> more_elements fuel -> more_elements (S fuel).
Proof.
  intros IHv IHe d b vs r x. cbn [elements]. destruct (value fuel d b) as [[v r1]|] eqn:Ev; [|done]. cbn [mbind option_bind].
  destruct (skip_ws r1) as [|c r2] eqn:Er; [done|]. intros H.
  assert (Hc : c = ","%char \/ c = "]"%char).
  { destruct (Ascii.eqb_spec c ","); [eauto|]. destruct (Ascii.eqb_spec c "]"); [eauto|done]. }
  rewrite (IHv _ _ _ _ x Ev) by (eapply ending_app; [done|naive_solver]). cbn [mbind option_bind].
  rewrite (skip_ws_app r1 c r2 x Er). destruct Hc as [->| ->]; cbn [Ascii.eqb Bool.eqb] in *; [|by injection H as <- <-].
  destruct (skip_ws r2) as [|c' r2'] eqn:E2; [by rewrite elements_nonempty in H|].
  rewrite (skip_ws_app r2 c' r2' x E2), app_comm_cons. destruct (elements fuel d (c' :: r2')) as [[vs1 r3]|] eqn:E; [|done].
  injection H as <- <-. by rewrite (IHe _ _ _ _ x E).
Qed.

Lemma members_more_S fuel : more_value fuel -> more_members fuel -> more_members (S fuel).
Proof.
  intros IHv IHm d b ms r x. destruct b as [|c b]; [done|]. cbn [members app].
  destruct (Ascii.eqb c quote); [|done].
  destruct (scan_string b) as [[k r1]|] eqn:Ek; [|done]. cbn [mbind option_bind].
  destruct (strip [":"%char] (skip_ws r1)) as [r2|] eqn:Es; [|done]. cbn [mbind option_bind].
  destruct (value fuel d (skip_ws r2)) as [[v r3]|] eqn:Ev; [|done]. cbn [mbind option_bind].
  destruct (skip_ws r3) as [|c' r4] eqn:Er; [done|]. intros H.
  assert (Hc : c' = ","%char \/ c' = "}"%char).
  { destruct (Ascii.eqb_spec c' ","); [eauto|]. destruct (Ascii.eqb_spec c' "}"); [eauto|done]. }
  rewrite (scan_string_more b k r1 x Ek). cbn [mbind option_bind].
  destruct (skip_ws r1) as [|c1 r1'] eqn:E1; [done|]. rewrite (skip_ws_app r1 c1 r1' x E1), app_comm_cons, (strip_more _ _ r2) by done.
  cbn [mbind option_bind]. destruct (skip_ws r2) as [|c2 r2'] eqn:E2; [by destruct fuel|].
  rewrite (skip_ws_app r2 c2 r2' x E2), app_comm_cons, (IHv _ _ _ _ x Ev) by (eapply ending_app; [done|naive_solver]).
  cbn [mbind option_bind]. rewrite (skip_ws_app r3 c' r4 x Er).
  assert (Ht : take (length ((c2 :: r2') ++ x) - length (r3 ++ x)) ((c2 :: r2') ++ x)
               = take (length (c2 :: r2') - length r3) (c2 :: r2')).
  { rewrite !length_app, take_app_le by lia. f_equal. lia. }
  rewrite Ht. destruct Hc as [->| ->]; cbn [Ascii.eqb Bool.eqb] in *; [|by injection H as <- <-].
  destruct (skip_ws r4) as [|c5 r5] eqn:E5; [by destruct fuel|].
  rewrite (skip_ws_app r4 c5 r5 x E5), app_comm_cons. destruct (members fuel d (c5 :: r5)) as [[ms1 r6]|] eqn:E; [|done].
  injection H as <- <-. by rewrite (IHm _ _ _ _ x E).
Qed.

Lemma more_all fuel : more_value fuel /\ more_elements fuel /\ more_members fuel.
Proof.
  induction fuel as [|f (IHv & IHe & IHm)]; [split_and!; intros d [|c b]; done|].
  split_and!; [by apply value_more_S|by apply elements_more_S|by apply members_more_S].
Qed.

(** ** The text of a value stands by itself *)

Lemma skip_ws_split b : exists ws, b = ws ++ skip_ws b /\ Forall (fun c => is_space c = true) ws.
Proof.
  induction b as [|c b (ws & Hb & Hws)]; [by exists []|]. cbn. destruct (is_space c) eqn:E; [|by exists []].
  exists (c :: ws). split; [cbn; by f_equal|by constructor].
Qed.

Lemma skip_ws_blank ws b : Forall (fun c => is_space c = true) ws -> skip_ws (ws ++ b) = skip_ws b.
Proof. induction 1 as [|c ws Hc _ IH]; [done|]. cbn. by rewrite Hc. Qed.

Definition cut_value (fuel : nat) : Prop := forall d b v r,
  value fuel d b = Some (v, r) -> exists t, b = t ++ r /\ value fuel d t = Some (v, []).
Definition cut_elements (fuel : nat) : Prop := forall d b vs r,
  elements fuel d b = Some (vs, r) -> exists t, b = t ++ r /\ elements fuel d t = Some (vs, []).
Definition cut_members (fuel : nat) : Prop := forall d b ms r,
  members fuel d b = Some (ms, r) -> exists t, b = t ++ r /\ members fuel d t = Some (ms, []).

(** Parts of a list are put together again with the blanks between them. *)
Lemma value_cut_S fuel : cut_elements fuel -> cut_members fuel -> cut_value (S fuel).
Proof.
  intros IHe IHm d b v r Hv. destruct b as [|c b]; [done|]. cbn [value] in Hv.
  destruct (Ascii.eqb c quote) eqn:Eq.
  { destruct (scan_string b) as [[s r1]|] eqn:E; [|done]. injection Hv as <- <-.
    destruct (scan_string_body _ _ _ E) as [Hs ->]. exists (c :: s ++ [quote]). split; [cbn; by rewrite <- app_assoc|].
    cbn [value]. by rewrite Eq, body_scan. }
  destruct (Ascii.eqb c "[") eqn:El.
  { destruct (maxNestingDepth <=? d)%Z eqn:Ed; [done|]. destruct (skip_ws_split b) as (ws & Hb & Hws).
    destruct (strip _ (skip_ws b)) as [r1|] eqn:Es.
    - injection Hv as <- <-. apply strip_app in Es. rewrite Es in Hb. exists (c :: ws ++ ["]"%char]).
      split; [rewrite Hb; cbn; by rewrite <- app_assoc|]. cbn [value]. by rewrite Eq, El, Ed, skip_ws_blank.
    - destruct (elements fuel (d + 1) (skip_ws b)) as [[vs r1]|] eqn:E; [|done]. injection Hv as <- <-.
      destruct (IHe _ _ _ _ E) as (t & Ht & Et). exists (c :: ws ++ t). split; [rewrite Hb, Ht; cbn; by rewrite <- app_assoc|].
      cbn [value]. rewrite Eq, El, Ed, skip_ws_blank by done.
      assert (skip_ws t = t /\ strip ["]"%char] t = None) as [Hsk Hst].
      { destruct t as [|x t]; [by rewrite elements_nonempty in Et|]. rewrite Ht in Es. cbn [app strip] in *.
        pose proof (skip_ws_head b x (t ++ r1) Ht) as Hx. cbn [skip_ws]. rewrite Hx. by destruct (Ascii.eqb "]" x). }
      by rewrite Hsk, Hst, Et. }
  destruct (Ascii.eqb c "{") eqn:Eo.
  { destruct (maxNestingDepth <=? d)%Z eqn:Ed; [done|]. destruct (skip_ws_split b) as (ws & Hb & Hws).
    destruct (strip _ (skip_ws b)) as [r1|] eqn:Es.
    - injection Hv as <- <-. apply strip_app in Es. rewrite Es in Hb. exists (c :: ws ++ ["}"%char]).
      split; [rewrite Hb; cbn; by rewrite <- app_assoc|]. cbn [value]. by rewrite Eq, El, Eo, Ed, skip_ws_blank.
    - destruct (members fuel (d + 1) (skip_ws b)) as [[vs r1]|] eqn:E; [|done]. injection Hv as <- <-.
      destruct (IHm _ _ _ _ E) as (t & Ht & Et). exists (c :: ws ++ t). split; [rewrite Hb, Ht; cbn; by rewrite <- app_assoc|].
      cbn [value]. rewrite Eq, El, Eo, Ed, skip_ws_blank by done.
      assert (skip_ws t = t /\ strip ["}"%char] t = None) as [Hsk Hst].
      { destruct t as [|x t]; [by destruct fuel|]. rewrite Ht in Es. cbn [app strip] in *.
        pose proof (skip_ws_head b x (t ++ r1) Ht) as Hx. cbn [skip_ws]. rewrite Hx. by destruct (Ascii.eqb "}" x). }
      by rewrite Hsk, Hst, Et. }
  assert (Hname : forall p w, strip (bytes_of p) (c :: b) = Some r -> p <> "" ->
    (forall t, c :: b = t ++ r -> t <> [] -> strip (bytes_of p) t = Some [] -> value (S fuel) d t = Some (w, [])) ->
    exists t, c :: b = t ++ r /\ value (S fuel) d t = Some (w, [])).
  { intros p w Hs Hp Hval. apply strip_app in Hs as Hb. exists (bytes_of p). split; [done|].
    apply Hval; [done|by destruct p|]. rewrite <- (app_nil_r (bytes_of p)) at 2. apply strip_same. }
  destruct (Ascii.eqb c "n") eqn:En; [|destruct (Ascii.eqb c "t") eqn:Et; [|destruct (Ascii.eqb c "f") eqn:Ef]].
  1-3: destruct (strip _ (c :: b)) as [r1|] eqn:Es; [|done]; injection Hv as <- <-; eapply Hname; [exact Es|done|];
       intros [|x t] Hb Hne Hst; [done|]; injection Hb as <- ->; cbn [value]; rewrite ?Eq, ?El, ?Eo, ?En, ?Et, ?Ef, Hst; done.
  destruct (scan_number (c :: b)) as [[lit r1]|] eqn:Enum; [|done]. injection Hv as <- <-.
  destruct (scan_number_stop _ _ _ [] Enum I) as [Hs _]. rewrite app_nil_r in Hs.
  destruct (scan_number_app _ _ _ Enum) as [Hb Hne]. exists lit. split; [done|].
  destruct lit as [|x lit]; [done|]. injection Hb as <- ->. cbn [value]. by rewrite Eq, El, Eo, En, Et, Ef, Hs.
Qed.

Lemma ending_blank ws c y : Forall (fun c => is_space c = true) ws -> c = ","%char \/ c = "]"%char \/ c = "}"%char ->
  ending (ws ++ c :: y).
Proof. intros Hws Hc. destruct Hws; cbn; eauto. Qed.

Lemma skip_ws_blank_closing ws c y : Forall (fun c => is_space c = true) ws -> c = ","%char \/ c = "]"%char \/ c = "}"%char ->
  skip_ws (ws ++ c :: y) = c :: y.
Proof. intros Hws Hc. rewrite skip_ws_blank by done. cbn. by destruct Hc as [->|[->| ->]]. Qed.

(** A value cut out and set in front of something else. *)
Lemma value_reset fuel d t v ws c y : value fuel d t = Some (v, []) -> Forall (fun c => is_space c = true) ws ->
  c = ","%char \/ c = "]"%char \/ c = "}"%char -> value fuel d (t ++ ws ++ c :: y) = Some (v, ws ++ c :: y).
Proof. intros Hv Hws Hc. apply (proj1 (more_all fuel) d t v [] _ Hv). by apply ending_blank. Qed.

Lemma skip_ws_kept t r b : skip_ws b = t ++ r -> t <> [] -> skip_ws t = t.
Proof. destruct t as [|c t]; [done|]. intros Hb _. cbn. by rewrite (skip_ws_head b c (t ++ r) Hb). Qed.

Lemma take_front (t r : bytes) : take (length (t ++ r) - length r) (t ++ r) = t.
Proof. rewrite length_app. replace (length t + length r - length r) with (length t) by lia. apply take_app_length. Qed.

Lemma elements_cut_S fuel : cut_value fuel -> cut_elements fuel -> cut_elements (S fuel).
Proof.
  intros IHv IHe d b vs r. cbn [elements]. destruct (value fuel d b) as [[v r1]|] eqn:Ev; [|done]. cbn [mbind option_bind].
  destruct (IHv _ _ _ _ Ev) as (t1 & Hb & Et1). destruct (skip_ws_split r1) as (ws & Hr1 & Hws).
  destruct (skip_ws r1) as [|c r2]; [done|]. destruct (Ascii.eqb_spec c ",") as [->|Hc].
  - destruct (elements fuel d (skip_ws r2)) as [[vs1 r3]|] eqn:E; [|done]. intros [= <- <-].
    destruct (IHe _ _ _ _ E) as (t2 & Ht2 & Et2). destruct (skip_ws_split r2) as (ws2 & Hr2 & Hws2).
    assert (t2 <> []) as Hne by (intros ->; by rewrite elements_nonempty in Et2).
    exists (t1 ++ ws ++ ","%char :: ws2 ++ t2). split.
    { rewrite Hb, Hr1, Hr2, Ht2, <- !app_assoc. cbn. by rewrite <- app_assoc. }
    rewrite (value_reset _ _ _ _ _ _ _ Et1) by eauto. cbn [mbind option_bind].
    rewrite skip_ws_blank_closing by eauto. cbn [Ascii.eqb Bool.eqb]. rewrite skip_ws_blank by done.
    by rewrite (skip_ws_kept t2 r3 r2), Et2.
  - destruct (Ascii.eqb_spec c "]") as [->|]; [|done]. intros [= <- <-]. exists (t1 ++ ws ++ ["]"%char]). split.
    { by rewrite Hb, Hr1, <- !app_assoc. }
    rewrite (value_reset _ _ _ _ _ _ _ Et1) by eauto. cbn [mbind option_bind]. by rewrite skip_ws_blank_closing by eauto.
Qed.

Lemma members_cut_S fuel : cut_value fuel -> cut_members fuel -> cut_members (S fuel).
Proof.
  intros IHv IHm d b ms r. destruct b as [|q b]; [done|]. cbn [members]. destruct (Ascii.eqb q quote) eqn:Eq; [|done].
  destruct (scan_string b) as [[k r1]|] eqn:Ek; [|done]. cbn [mbind option_bind].
  destruct (scan_string_body _ _ _ Ek) as [Hk ->]. destruct (skip_ws_split r1) as (ws1 & Hr1 & Hws1).
  destruct (strip [":"%char] (skip_ws r1)) as [r2|] eqn:Es; [|done]. cbn [mbind option_bind].
  apply strip_app in Es. rewrite Es in Hr1. destruct (skip_ws_split r2) as (ws2 & Hr2 & Hws2).
  destruct (value fuel d (skip_ws r2)) as [[v r3]|] eqn:Ev; [|done]. cbn [mbind option_bind].
  destruct (IHv _ _ _ _ Ev) as (t1 & Ht1 & Et1). rewrite Ht1, take_front. destruct (skip_ws_split r3) as (ws3 & Hr3 & Hws3).
  assert (t1 <> []) as Hne1 by (intros ->; by destruct fuel).
  assert (Hhead : forall c y, c = ","%char \/ c = "]"%char \/ c = "}"%char ->
    members (S fuel) d (q :: k ++ quote :: ws1 ++ ":"%char :: ws2 ++ t1 ++ ws3 ++ c :: y) =
      if Ascii.eqb c "," then '(ms, r4) ← members fuel d (skip_ws y); Some ((unquote 0 k, (t1, v)) :: ms, r4)
      else if Ascii.eqb c "}" then Some ([(unquote 0 k, (t1, v))], y) else None).
  { intros c y Hc. cbn [members]. rewrite Eq, body_scan by done. cbn [mbind option_bind]. rewrite skip_ws_blank by done.
    change (skip_ws (":"%char :: ws2 ++ t1 ++ ws3 ++ c :: y)) with (":"%char :: ws2 ++ t1 ++ ws3 ++ c :: y).
    cbn [strip]. change (Ascii.eqb ":" ":") with true. cbn [mbind option_bind].
    rewrite skip_ws_blank by done.
    assert (skip_ws (t1 ++ ws3 ++ c :: y) = t1 ++ ws3 ++ c :: y) as ->.
    { destruct t1 as [|x t1]; [done|]. cbn. by rewrite (skip_ws_head r2 x (t1 ++ r3) Ht1). }
    rewrite (value_reset _ _ _ _ _ _ _ Et1) by eauto. cbn [mbind option_bind]. rewrite take_front.
    by rewrite skip_ws_blank_closing by eauto. }
  destruct (skip_ws r3) as [|c r4]; [done|]. destruct (Ascii.eqb_spec c ",") as [->|Hc].
  - destruct (members fuel d (skip_ws r4)) as [[ms1 r5]|] eqn:E; [|done]. intros [= <- <-].
    destruct (IHm _ _ _ _ E) as (t2 & Ht2 & Et2). destruct (skip_ws_split r4) as (ws4 & Hr4 & Hws4).
    assert (t2 <> []) as Hne by (intros ->; by destruct fuel).
    exists (q :: k ++ quote :: ws1 ++ ":"%char :: ws2 ++ t1 ++ ws3 ++ ","%char :: ws4 ++ t2). split.
    { rewrite Hr1, Hr2, Ht1, Hr3, Hr4, Ht2. cbn. repeat (rewrite <- app_assoc; cbn). done. }
    etrans; [apply (Hhead ","%char); by eauto|]. cbn [Ascii.eqb Bool.eqb]. rewrite skip_ws_blank by done.
    by rewrite (skip_ws_kept t2 r5 r4), Et2.
  - destruct (Ascii.eqb_spec c "}") as [->|]; [|done]. intros [= <- <-].
    exists (q :: k ++ quote :: ws1 ++ ":"%char :: ws2 ++ t1 ++ ws3 ++ ["}"%char]). split.
    { rewrite Hr1, Hr2, Ht1, Hr3. cbn. repeat (rewrite <- app_assoc; cbn). done. }
    etrans; [apply (Hhead "}"%char); by eauto|]. done.
Qed.

Lemma cut_all fuel : cut_value fuel /\ cut_elements fuel /\ cut_members fuel.
Proof.
  induction fuel as [|f (IHv & IHe & IHm)]; [split_and!; intros d [|c b]; done|].
  split_and!; [by apply value_cut_S|by apply elements_cut_S|by apply members_cut_S].
Qed.

(** More calls do no harm. *)
Lemma fuel_up f :
  (forall d b x, value f d b = Some x -> value (S f) d b = Some x) /\
  (forall d b x, elements f d b = Some x -> elements (S f) d b = Some x) /\
  (forall d b x, members f d b = Some x -> members (S f) d b = Some x).
Proof.
  induction f as [|f (IHv & IHe & IHm)]; [split_and!; intros d [|c b]; done|]. split_and!; intros d b x.
  - destruct b as [|c b]; [done|]. remember (S f) as g eqn:Eg. cbn [value]. rewrite Eg at 1. cbn [value].
    destruct (Ascii.eqb c quote); [done|]. destruct (maxNestingDepth <=? d)%Z; [done|].
    destruct (Ascii.eqb c "["); [|destruct (Ascii.eqb c "{"); [|done]]; destruct (strip _ _); try done.
    + destruct (elements f (d + 1) (skip_ws b)) as [[vs r]|] eqn:E; [|done]. by rewrite (IHe _ _ _ E).
    + destruct (members f (d + 1) (skip_ws b)) as [[vs r]|] eqn:E; [|done]. by rewrite (IHm _ _ _ E).
  - remember (S f) as g eqn:Eg. cbn [elements]. rewrite Eg at 1. cbn [elements].
    destruct (value f d b) as [[v r]|] eqn:E; [|done]. rewrite (IHv _ _ _ E). cbn [mbind option_bind].
    destruct (skip_ws r) as [|c r']; [done|]. destruct (Ascii.eqb c ","); [|done].
    destruct (elements f d (skip_ws r')) as [[vs r2]|] eqn:E2; [|done]. by rewrite (IHe _ _ _ E2).
  - destruct b as [|c b]; [done|]. remember (S f) as g eqn:Eg. cbn [members]. rewrite Eg at 1. cbn [members].
    destruct (Ascii.eqb c quote); [|done].
    destruct (scan_string b) as [[k r1]|]; [|done]. cbn [mbind option_bind].
    destruct (strip _ (skip_ws r1)) as [r2|]; [|done]. cbn [mbind option_bind].
    destruct (value f d (skip_ws r2)) as [[v r3]|] eqn:E; [|done]. rewrite (IHv _ _ _ E). cbn [mbind option_bind].
    destruct (skip_ws r3) as [|c2 r4]; [done|]. destruct (Ascii.eqb c2 ","); [|done].
    destruct (members f d (skip_ws r4)) as [[ms r5]|] eqn:E2; [|done]. by rewrite (IHm _ _ _ E2).
Qed.

Lemma value_fuel_up f g d b x : f <= g -> value f d b = Some x -> value g d b = Some x.
Proof. induction 1 as [|g _ IH]; [done|]. intros Hv. by apply (proj1 (fuel_up g)), IH. Qed.

(** The source text of a member reads as its value, at the same depth. *)
Lemma member_text fuel d b ms r : members fuel d b = Some (ms, r) ->
  Forall (fun m => value (2 * length m.2.1 + 1) d m.2.1 = Some (m.2.2, []) /\ skip_ws m.2.1 = m.2.1) ms.
Proof.
  revert b ms r; induction fuel as [|f IH]; intros b ms r; [done|]. destruct b as [|q b]; [done|]. cbn [members].
  destruct (Ascii.eqb q quote); [|done]. destruct (scan_string b) as [[k r1]|]; [|done]. cbn [mbind option_bind].
  destruct (strip _ (skip_ws r1)) as [r2|]; [|done]. cbn [mbind option_bind].
  destruct (value f d (skip_ws r2)) as [[v r3]|] eqn:Ev; [|done]. cbn [mbind option_bind].
  destruct (proj1 (cut_all f) _ _ _ _ Ev) as (t & Ht & Et). rewrite Ht, take_front.
  assert (Hthis : value (2 * length t + 1) d t = Some (v, []) /\ skip_ws t = t).
  { split; [|apply (skip_ws_kept t r3 r2); [done|]; intros ->; by destruct f].
    destruct (decide (2 * length t + 1 <= f)) as [Hle|Hgt]; [by rewrite <- (value_enough f) by done|].
    apply (value_fuel_up f); [lia|done]. }
  destruct (skip_ws r3) as [|c r4]; [done|]. destruct (Ascii.eqb c ",").
  - destruct (members f d (skip_ws r4)) as [[ms1 r5]|] eqn:E; [|done]. intros [= <- <-]. constructor; [done|]. by eapply IH.
  - destruct (Ascii.eqb c "}"); [|done]. intros [= <- <-]. by constructor.
Qed.

Lemma object_members fuel d b ms r : value fuel d b = Some (JObj ms, r) ->
  Forall (fun m => value (2 * length m.2.1 + 1) (d + 1) m.2.1 = Some (m.2.2, []) /\ skip_ws m.2.1 = m.2.1) ms.
Proof.
  destruct fuel as [|f]; [done|]. destruct b as [|c b]; [done|]. cbn [value].
  destruct (Ascii.eqb c quote); [by destruct (scan_string b) as [[s r1]|]|].
  destruct (Ascii.eqb c "[").
  { destruct (maxNestingDepth <=? d)%Z; [done|]. destruct (strip _ _); [done|]. by destruct (elements f _ _) as [[vs r1]|]. }
  destruct (Ascii.eqb c "{").
  { destruct (maxNestingDepth <=? d)%Z; [done|]. destruct (strip _ _); [by intros [= <- <-]|].
    destruct (members f _ _) as [[ms1 r1]|] eqn:E; [|done]. intros [= <- <-]. by eapply member_text. }
  destruct (Ascii.eqb c "n"); [by destruct (strip _ _)|]. destruct (Ascii.eqb c "t"); [by destruct (strip _ _)|].
  destruct (Ascii.eqb c "f"); [by destruct (strip _ _)|]. by destruct (scan_number (c :: b)) as [[lit r1]|].
Qed.

(** ** Compacted text is printable

    No control character is left, line breaks included: a text in a line of
    a file stays in that line. *)

Definition printable (c : ascii) : Prop := (32 <= byte_val c)%Z.

Lemma body_printable s : body s -> Forall printable s.
Proof.
  assert (Hhex : forall h, is_hex h = true -> printable h).
  { intros h. destruct h as [[] [] [] [] [] [] [] []]; vm_compute; done. }
  assert (Hsim : forall e x, simple_escape e = Some x -> printable e).
  { intros e x. destruct e as [[] [] [] [] [] [] [] []]; vm_compute; done. }
  induction 1; repeat (constructor; eauto); done.
Qed.

(** What compacting copies on the way from [b] to [r]. *)
Definition prints (b r : bytes) : Prop := exists q, compact false 0 b = q ++ compact false 0 r /\ Forall printable q.

Lemma prints_trans a b c : prints a b -> prints b c -> prints a c.
Proof.
  intros (q1 & E1 & H1) (q2 & E2 & H2). exists (q1 ++ q2). rewrite E1, E2, app_assoc. split; [done|by apply Forall_app].
Qed.

Lemma prints_ws b r : prints (skip_ws b) r <-> prints b r.
Proof. unfold prints. by rewrite compact_skip_ws. Qed.

Lemma prints_plains p r : Forall plain p -> prints (p ++ r) r.
Proof.
  intros Hp. exists p. split; [by apply compact_plains|]. eapply Forall_impl; [exact Hp|].
  intros c (_ & _ & Hc). by apply Z.leb_le.
Qed.

Lemma prints_strip p b r : Forall plain p -> strip p b = Some r -> prints b r.
Proof. intros Hp ->%strip_app. by apply prints_plains. Qed.

Lemma prints_string b s r : scan_string b = Some (s, r) -> prints (quote :: b) r.
Proof.
  intros Hs. exists (quote :: escape_body 0 s ++ [quote]). split.
  - rewrite (compact_quote b s r Hs). cbn [app]. by rewrite <- app_assoc.
  - apply scan_string_body in Hs as [Hs _]. constructor; [done|]. apply Forall_app.
    split; [by apply body_printable, escape_is_body|by repeat constructor].
Qed.

Lemma prints_next r c r' : skip_ws r = c :: r' -> plain c -> prints r r'.
Proof. intros E Hc. apply prints_ws. rewrite E. apply (prints_plains [c]). constructor; [exact Hc|constructor]. Qed.

Lemma prints_all fuel :
  (forall d b v r, value fuel d b = Some (v, r) -> prints b r) /\
  (forall d b vs r, elements fuel d b = Some (vs, r) -> prints b r) /\
  (forall d b ms r, members fuel d b = Some (ms, r) -> prints b r).
Proof.
  induction fuel as [|f (IHv & IHe & IHm)]; [done|]. split_and!; intros d b v r.
  - destruct b as [|c b]; [done|]. cbn [value]. destruct (Ascii.eqb_spec c quote) as [->|].
    { destruct (scan_string b) as [[s r1]|] eqn:E; [|done]. intros [= <- <-]. by eapply prints_string. }
    destruct (Ascii.eqb_spec c "[") as [->|]; [|destruct (Ascii.eqb_spec c "{") as [->|]].
    1-2: destruct (maxNestingDepth <=? d)%Z; [done|]; intros Hv;
      (apply (prints_trans _ b); [eapply prints_strip; [|apply (strip_same [_] b)]; by repeat constructor|]); apply prints_ws;
      destruct (strip _ (skip_ws b)) as [r1|] eqn:Es;
      [injection Hv as <- <-; eapply prints_strip; [|exact Es]; by repeat constructor|].
    + destruct (elements f _ _) as [[vs r1]|] eqn:E; [|done]. injection Hv as <- <-. by eapply IHe.
    + destruct (members f _ _) as [[vs r1]|] eqn:E; [|done]. injection Hv as <- <-. by eapply IHm.
    + destruct (Ascii.eqb c "n"); [|destruct (Ascii.eqb c "t"); [|destruct (Ascii.eqb c "f")]].
      1-3: destruct (strip _ (c :: b)) as [r1|] eqn:Es; [|done]; intros [= <- <-]; eapply prints_strip; [|exact Es]; by repeat constructor.
      destruct (scan_number (c :: b)) as [[lit r1]|] eqn:En; [|done]. intros [= <- <-].
      destruct (scan_number_app _ _ _ En) as [-> _]. apply prints_plains. by eapply (scan_number_stop _ _ _ [] En).
  - cbn [elements]. destruct (value f d b) as [[v1 r1]|] eqn:E; [|done]. apply IHv in E. cbn [mbind option_bind].
    destruct (skip_ws r1) as [|c r2] eqn:Er; [done|].
    destruct (Ascii.eqb_spec c ",") as [->|]; [|destruct (Ascii.eqb_spec c "]") as [->|]; [|done]].
    + destruct (elements f d (skip_ws r2)) as [[vs r3]|] eqn:E2; [|done]. intros [= <- <-]. apply IHe, (proj1 (prints_ws _ _)) in E2.
      eapply prints_trans; [exact E|]. by eapply prints_trans; [eapply prints_next|].
    + intros [= <- <-]. eapply prints_trans; [exact E|]. by eapply prints_next.
  - destruct b as [|c b]; [done|]. cbn [members]. destruct (Ascii.eqb_spec c quote) as [->|]; [|done].
    destruct (scan_string b) as [[k r1]|] eqn:Ek; [|done]. apply prints_string in Ek. cbn [mbind option_bind].
    destruct (strip _ (skip_ws r1)) as [r2|] eqn:Es; [|done]. apply prints_strip, (proj1 (prints_ws _ _)) in Es; [|by repeat constructor].
    cbn [mbind option_bind]. destruct (value f d (skip_ws r2)) as [[v1 r3]|] eqn:E; [|done]. apply IHv, (proj1 (prints_ws _ _)) in E. cbn [mbind option_bind].
    assert (Hpre : prints (quote :: b) r3) by (eapply prints_trans; [exact Ek|]; by eapply prints_trans).
    destruct (skip_ws r3) as [|c2 r4] eqn:Er; [done|].
    destruct (Ascii.eqb_spec c2 ",") as [->|]; [|destruct (Ascii.eqb_spec c2 "}") as [->|]; [|done]].
    + destruct (members f d (skip_ws r4)) as [[vs r5]|] eqn:E2; [|done]. intros [= <- <-]. apply IHm, (proj1 (prints_ws _ _)) in E2.
      eapply prints_trans; [exact Hpre|]. by eapply prints_trans; [eapply prints_next|].
    + intros [= <- <-]. eapply prints_trans; [exact Hpre|]. by eapply prints_next.
Qed.

Lemma raw_printable raw t : MarshalRaw raw = Ok t -> Forall printable t /\ t <> [].
Proof.
  destruct raw as [b|]; [|intros [= <-]; split; [by repeat constructor|done]]. cbn [MarshalRaw].
  destruct (Valid b) eqn:Ev; [|done]. intros [= <-]. unfold Valid in Ev.
  destruct (parse b) as [v|] eqn:Ep; [|done]. destruct (parse_compact b v Ep) as (v' & Ep' & _). split; [|intros E; by rewrite E in Ep'].
  unfold parse, parse_with in Ep. destruct (value _ 0 (skip_ws b)) as [[v0 r]|] eqn:E; [|done]. cbn in Ep.
  destruct (skip_ws r) eqn:Er; [|done]. apply (proj1 (prints_all _)), (proj1 (prints_ws _ _)) in E as (q & Eq & Hq).
  rewrite <- (compact_skip_ws r), Er in Eq. cbn in Eq. by rewrite Eq, app_nil_r.
Qed.
