(* ===== verification/JsonEnvelope.v ===== *)
(** * [encoding/json] of the structs the gateway sends

    [json.Marshal] of [message.Envelope] with the times, raw data and
    optional fields in it, and the theorem that what a sink sends is a JSON
    text that says what the message said. *)

From Stdlib Require Import ZArith Lia Ascii String.
From stdpp Require Import base tactics numbers strings gmap list.
From S2P Require Import Prelude GoStrings GoUtf8 GoFloat GoTime GoCrypto Message Json JsonEncode JsonCompact.

Module jsonmsg.
Import json jsonenc jsoncompact.

(** ** [time.Time.MarshalJSON] *)

Definition ns_per_day : Z := 86400 * 1000000000.

Definition local_ns (t : Time) : Z := t_ns t + t_offset t * 1000000000.

(** [Z07:00]: the offset in minutes, towards zero. *)
Definition zone_text (offset : Z) : string :=
  if (offset =? 0)%Z then "Z"
  else let zone := Z.quot offset 60 in
       (if (zone <? 0)%Z then "-" else "+") +:+ Sprintf_0d 2 (Z.abs zone / 60) +:+ ":" +:+ Sprintf_0d 2 (Z.abs zone mod 60).

(** [Format(RFC3339Nano)]. *)
Definition rfc3339nano (t : Time) : string :=
  let l := local_ns t in
  let day := (l / ns_per_day)%Z in
  let ns := (l mod ns_per_day)%Z in
  let s := (ns / 1000000000)%Z in
  time.format_date day +:+ "T" +:+ Sprintf_0d 2 (s / 3600) +:+ ":" +:+ Sprintf_0d 2 (s / 60 mod 60) +:+ ":" +:+
  Sprintf_0d 2 (s mod 60) +:+ fmtFrac ns 9 +:+ zone_text (t_offset t).

(** The year must have four digits and the zone be less than a day. *)
Definition time_ok (t : Time) : bool :=
  let '(y, _, _) := time.civil (local_ns t / ns_per_day) in
  ((0 <=? y) && (y <=? 9999) && (Z.abs (Z.quot (t_offset t) 60) / 60 <? 24))%Z.

Definition MarshalTime (t : Time) : result bytes :=
  if time_ok t then Ok (quote :: bytes_of (rfc3339nano t) ++ [quote])
  else Err (ErrorString "Time.MarshalJSON: year or timezone outside of range").

Example times :
  (rfc3339nano (MkTime 0 0), rfc3339nano (MkTime ((738944 * 86400 + 3661) * 1000000000 + 120000000) (-18000)))
  = ("0001-01-01T00:00:00Z", "2024-02-28T20:01:01.12-05:00").
Proof. vm_compute. reflexivity. Qed.

(** ** Structs *)

(** Fields, in the order of the struct, as name and encoded value. *)
Fixpoint fields_text (fs : list (string * bytes)) : bytes :=
  match fs with
  | [] => []
  | [(k, t)] => quote_string k ++ ":"%char :: t
  | (k, t) :: fs' => quote_string k ++ ":"%char :: t ++ ","%char :: fields_text fs'
  end.

Definition obj (fs : list (string * bytes)) : bytes := "{"%char :: fields_text fs ++ ["}"%char].

(** [omitempty]. *)
Definition unless_empty (k s : string) : list (string * bytes) :=
  if String.eqb s "" then [] else [(k, quote_string s)].

Definition meta_fields (m : message.GatewayMeta) (t : bytes) : list (string * bytes) :=
  [("request_id", quote_string (message.gm_RequestID m)); ("trace_id", quote_string (message.gm_TraceID m));
   ("received_at", t)] ++ unless_empty "env" (message.gm_Env m).

Definition MarshalEnvelope (e : message.Envelope) : result bytes :=
  match MarshalTime (message.gm_ReceivedAt (message.env_GatewayMeta e)) with
  | Ok t =>
      match MarshalRaw (message.env_Data e) with
      | Ok d => Ok (obj [("_gateway_meta", obj (meta_fields (message.env_GatewayMeta e) t));
                         ("project", quote_string (message.env_Project e));
                         ("router", quote_string (message.env_Router e)); ("data", d)])
      | Err err => Err err
      | Panic p => Panic p
      end
  | Err err => Err err
  | Panic p => Panic p
  end.
End jsonmsg.

Import json jsonenc jsoncompact jsonmsg.

(** ** Reading a struct back *)

(** With [n] calls, the text [t] in front of an ending reads as [v]. *)
Definition reads (n : nat) (d : Z) (t : bytes) (v : jval) : Prop :=
  (exists c t', t = c :: t' /\ is_space c = false) /\
  forall f rest, n <= f -> ending rest -> exists v', value f d (t ++ rest) = Some (v', rest) /\ erase v' = erase v.

Lemma reads_more n n' d t v : n <= n' -> reads n d t v -> reads n' d t v.
Proof. intros Hn [Ht Hr]. split; [done|]. intros f rest Hf. apply Hr. lia. Qed.

Lemma reads_skip n d t v x : reads n d t v -> skip_ws (t ++ x) = t ++ x.
Proof. intros [(c & t' & -> & Hc) _]. cbn. by rewrite Hc. Qed.

Lemma reads_string s d : reads 1 d (quote_string s) (JStr (utf8.to_valid (bytes_of s))).
Proof.
  split; [unfold quote_string; by eexists _, _|]. intros f rest Hf _. destruct f as [|f]; [lia|].
  destruct (string_roundtrip s rest) as (b & -> & Hs & Hu). cbn [value]. change (Ascii.eqb quote quote) with true.
  rewrite Hs. cbn. eexists. split; [done|]. by rewrite Hu.
Qed.

(** A field of a struct, its text and its value. *)
Definition field : Type := string * bytes * jval.
Definition field_text (f : field) : string * bytes := f.1.
Definition field_val (f : field) : bytes * (bytes * jval) := (utf8.to_valid (bytes_of f.1.1), ([], f.2)).

(** A member that was read from a field: the name, the text and the value. *)
Definition member_of (m : bytes * (bytes * jval)) (x : field) : Prop :=
  m.1 = utf8.to_valid (bytes_of x.1.1) /\ m.2.1 = x.1.2 /\ erase m.2.2 = erase x.2.

Lemma read_members n d fs f rest :
  fs <> [] -> Forall (fun x => reads n d x.1.2 x.2) fs -> n + length fs <= f ->
  exists ms, members f d (fields_text (field_text <$> fs) ++ "}"%char :: rest) = Some (ms, rest) /\
    Forall2 member_of ms fs.
Proof.
  intros Hne Hfs. revert f Hne. induction Hfs as [|[[k t] v] fs Ht Hfs IH]; intros f Hne Hf; [done|].
  destruct f as [|f]; [cbn in Hf; lia|]. cbn [fst snd length] in *.
  assert (Hhead : forall w, ending w -> exists v', erase v' = erase v /\
    members (S f) d (quote_string k ++ ":"%char :: t ++ w) =
      match skip_ws w with
      | c2 :: r3 =>
          if Ascii.eqb c2 "," then '(ms, r4) ← members f d (skip_ws r3); Some ((utf8.to_valid (bytes_of k), (t, v')) :: ms, r4)
          else if Ascii.eqb c2 "}" then Some ([(utf8.to_valid (bytes_of k), (t, v'))], r3) else None
      | [] => None
      end).
  { intros w Hw. destruct (proj2 Ht f w) as (v' & Ev & Hv'); [lia|done|]. exists v'. split; [done|].
    destruct (string_roundtrip k (":"%char :: t ++ w)) as (b & -> & Hs & Hu). cbn [members].
    change (Ascii.eqb quote quote) with true. rewrite Hs. cbn [mbind option_bind]. cbn [skip_ws strip].
    change (is_space ":") with false. cbn iota. cbn [strip]. change (Ascii.eqb ":" ":") with true. cbn [mbind option_bind].
    rewrite (reads_skip n d t v w Ht), Ev. cbn [mbind option_bind]. rewrite Hu, length_app, Nat.add_sub, take_app_length. reflexivity. }
  destruct fs as [|[[k2 t2] v2] fs].
  - destruct (Hhead ("}"%char :: rest)) as (v' & Hv' & E); [cbn; eauto|]. cbn [fmap list_fmap fields_text field_text fst].
    rewrite <- app_assoc. cbn [app]. rewrite E. cbn. eexists. split; [done|]. by repeat constructor.
  - set (w := ","%char :: fields_text (field_text <$> ((k2, t2, v2) :: fs)) ++ "}"%char :: rest).
    destruct (Hhead w) as (v' & Hv' & E); [cbn; eauto|].
    destruct (IH f) as (ms & Em & Hms); [done|cbn in *; lia|].
    assert (Ew : fields_text (field_text <$> ((k, t, v) :: (k2, t2, v2) :: fs)) ++ "}"%char :: rest = quote_string k ++ ":"%char :: t ++ w).
    { subst w. cbn [fmap list_fmap]. unfold field_text at 1 2. cbn [fst]. cbn [fields_text]. rewrite <- !app_assoc. cbn [app].
      f_equal. f_equal. rewrite <- app_assoc. reflexivity. }
    rewrite Ew, E. subst w. cbn [skip_ws]. change (is_space ",") with false. cbn iota. change (Ascii.eqb "," ",") with true. cbn iota.
    assert (Hsk : forall y, skip_ws (fields_text (field_text <$> ((k2, t2, v2) :: fs)) ++ y) = fields_text (field_text <$> ((k2, t2, v2) :: fs)) ++ y).
    { intros y. cbn [fmap list_fmap field_text fst fields_text]. by destruct (field_text <$> fs). }
    rewrite Hsk, Em. cbn [mbind option_bind]. eexists. split; [done|]. by repeat constructor.
Qed.

(** The text of a struct reads as an object whose members are the fields. *)
Lemma value_obj n d fs f rest : fs <> [] -> Forall (fun x => reads n (d + 1) x.1.2 x.2) fs -> (d < maxNestingDepth)%Z ->
  n + length fs <= f ->
  exists ms, value (S f) d (obj (field_text <$> fs) ++ rest) = Some (JObj ms, rest) /\ Forall2 member_of ms fs.
Proof.
  intros Hne Hfs Hd Hf. destruct (read_members n (d + 1) fs f rest Hne Hfs Hf) as (ms & Em & Hms).
  unfold obj. cbn [app]. rewrite <- app_assoc. cbn [app value]. change (Ascii.eqb "{" quote) with false.
  change (Ascii.eqb "{" "[") with false. change (Ascii.eqb "{" "{") with true. cbn iota.
  rewrite (proj2 (Z.leb_gt maxNestingDepth d)) by done.
  assert (Hh : exists w, fields_text (field_text <$> fs) ++ "}"%char :: rest = quote :: w).
  { destruct fs as [|[[k t] v] fs]; [done|]. cbn [fmap list_fmap field_text fst fields_text].
    destruct (field_text <$> fs); by eexists. }
  destruct Hh as [w Hw]. rewrite Hw in *. cbn [skip_ws]. change (is_space quote) with false. cbn iota.
  cbn [strip]. change (Ascii.eqb "}" quote) with false. cbn iota. rewrite Em. cbn [mbind option_bind]. by exists ms.
Qed.

Lemma member_of_erase ms fs : Forall2 member_of ms fs -> List.map erase_member ms = List.map erase_member (field_val <$> fs).
Proof.
  induction 1 as [|[k [t v]] [[k' t'] v'] ms fs (Hk & _ & Hv) _ IH]; [done|]. cbn [List.map fmap list_fmap]. rewrite IH.
  f_equal. unfold erase_member, field_val. cbn in *. by rewrite Hk, Hv.
Qed.

Lemma reads_obj n d fs : fs <> [] -> Forall (fun x => reads n (d + 1) x.1.2 x.2) fs -> (d < maxNestingDepth)%Z ->
  reads (S (n + length fs)) d (obj (field_text <$> fs)) (JObj (field_val <$> fs)).
Proof.
  intros Hne Hfs Hd. split; [unfold obj; by eexists _, _|]. intros f rest Hf Hrest. destruct f as [|f]; [lia|].
  destruct (value_obj n d fs f rest Hne Hfs Hd) as (ms & Em & Hms); [lia|]. exists (JObj ms). split; [done|].
  cbn [erase]. f_equal. by apply member_of_erase.
Qed.

Lemma parse_obj n fs : fs <> [] -> Forall (fun x => reads n 1 x.1.2 x.2) fs ->
  exists ms, parse (obj (field_text <$> fs)) = Some (JObj ms) /\ Forall2 member_of ms fs.
Proof.
  intros Hne Hfs. set (t := obj (field_text <$> fs)).
  destruct (value_obj n 0 fs (n + length fs + (2 * length t + 1)) [] Hne Hfs) as (ms & E & Hms); [done|lia|].
  exists ms. split; [|done]. rewrite <- (parse_enough (S (n + length fs + (2 * length t + 1)))) by lia.
  unfold parse_with. rewrite app_nil_r in E. change (skip_ws t) with t. fold t in E. by rewrite E.
Qed.

(** ** Times *)

(** Characters a string holds as they are. *)
Definition safe_char (c : ascii) : bool :=
  utf8.between 32 127 (byte_val c) && negb (Ascii.eqb c quote) && negb (Ascii.eqb c backslash).

Lemma safe_body s : Forall (fun c => safe_char c = true) s -> body s /\ unquote 0 s = s.
Proof.
  induction 1 as [|c s Hc _ [IHb IHu]]; [split; [constructor|done]|]. unfold safe_char in Hc.
  rewrite !andb_true_iff, !negb_true_iff, !Ascii.eqb_neq, utf8.between_iff in Hc. destruct Hc as [[Hr Hq] Hb].
  split; [constructor; try done; lia|]. rewrite unquote_raw by done.
  unfold utf8.DecodeRune. cbn [fmap list_fmap]. rewrite (proj2 (Z.ltb_lt (byte_val c) 0x80)) by lia. cbn [pred drop].
  rewrite drop_0, IHu, utf8.EncodeRune_valid by (apply utf8.ValidRune_range; lia).
  unfold utf8.encode_valid. rewrite (proj2 (Z.ltb_lt (byte_val c) 0x80)) by lia. by rewrite byte_of_val.
Qed.

Lemma reads_plain_text s d : Forall (fun c => safe_char c = true) (bytes_of s) ->
  reads 1 d (quote :: bytes_of s ++ [quote]) (JStr (bytes_of s)).
Proof.
  intros [Hb Hu]%safe_body. split; [by eexists _, _|]. intros f rest Hf _. destruct f as [|f]; [lia|].
  cbn [app value]. rewrite <- app_assoc. cbn [app]. change (Ascii.eqb quote quote) with true.
  rewrite body_scan by done. cbn. eexists. split; [done|]. by rewrite Hu.
Qed.

Definition safe_text (s : string) : Prop := Forall (fun c => safe_char c = true) (bytes_of s).

Lemma safe_text_app s t : safe_text s -> safe_text t -> safe_text (s +:+ t).
Proof. unfold safe_text, bytes_of. rewrite list_ascii_app. intros. by apply Forall_app. Qed.

Lemma digit_char_safe n : safe_char (digit_char (n mod 10)) = true.
Proof.
  assert (0 <= n mod 10 < 10)%Z as Hn by (apply Z.mod_pos_bound; lia). revert Hn. generalize (n mod 10)%Z. intros k Hk.
  assert (k = 0 \/ k = 1 \/ k = 2 \/ k = 3 \/ k = 4 \/ k = 5 \/ k = 6 \/ k = 7 \/ k = 8 \/ k = 9)%Z as H by lia.
  repeat destruct H as [->|H]; try reflexivity. by subst.
Qed.

Lemma fixed_digits_safe k n : safe_text (fixed_digits k n).
Proof. induction k as [|k IH]; [constructor|]. constructor; [apply digit_char_safe|exact IH]. Qed.

Lemma Sprintf_safe w n : safe_text (Sprintf_0d w n).
Proof. unfold Sprintf_0d. destruct (_ <? _)%Z; [constructor; [done|]|]; apply fixed_digits_safe. Qed.

Lemma fmtFrac_safe v k : safe_text (fmtFrac v k).
Proof. unfold fmtFrac. destruct (trim_zeros _ _) as [[|j] f]; [constructor|]. constructor; [done|apply fixed_digits_safe]. Qed.

Lemma rfc3339nano_safe t : safe_text (rfc3339nano t).
Proof.
  unfold rfc3339nano, time.format_date, zone_text. destruct (time.civil _) as [[y m] d]. cbn zeta.
  repeat apply safe_text_app; try apply Sprintf_safe; try apply fmtFrac_safe; try (by repeat constructor).
  destruct (_ =? _)%Z; [by repeat constructor|].
  repeat apply safe_text_app; try apply Sprintf_safe; try (by repeat constructor).
  destruct (_ <? _)%Z; by repeat constructor.
Qed.

(** ** Raw data *)

(** Nesting that is allowed deeper down is allowed higher up. *)
Lemma shallower fuel d d' : (d' <= d)%Z ->
  (forall b x, value fuel d b = Some x -> value fuel d' b = Some x) /\
  (forall b x, elements fuel d b = Some x -> elements fuel d' b = Some x) /\
  (forall b x, members fuel d b = Some x -> members fuel d' b = Some x).
Proof.
  revert d d'; induction fuel as [|f IH]; intros d d' Hd; [done|].
  destruct (IH (d + 1)%Z (d' + 1)%Z) as (_ & IHe1 & IHm1); [lia|]. destruct (IH d d' Hd) as (IHv & IHe & IHm).
  split_and!; intros b x.
  - destruct b as [|c b]; [done|]. cbn [value]. destruct (Ascii.eqb c quote); [done|].
    destruct (Z.leb_spec maxNestingDepth d).
    { destruct (Ascii.eqb c "["); [done|]. by destruct (Ascii.eqb c "{"). }
    rewrite (proj2 (Z.leb_gt maxNestingDepth d')) by lia.
    destruct (Ascii.eqb c "["); [|destruct (Ascii.eqb c "{"); [|done]]; destruct (strip _ _); try done.
    + destruct (elements f (d + 1) (skip_ws b)) as [[vs r]|] eqn:E; [|done]. by rewrite (IHe1 _ _ E).
    + destruct (members f (d + 1) (skip_ws b)) as [[vs r]|] eqn:E; [|done]. by rewrite (IHm1 _ _ E).
  - cbn [elements]. destruct (value f d b) as [[v r]|] eqn:E; [|done]. rewrite (IHv _ _ E). cbn [mbind option_bind].
    destruct (skip_ws r) as [|c r']; [done|]. destruct (Ascii.eqb c ","); [|done].
    destruct (elements f d (skip_ws r')) as [[vs r2]|] eqn:E2; [|done]. by rewrite (IHe _ _ E2).
  - destruct b as [|c b]; [done|]. cbn [members]. destruct (Ascii.eqb c quote); [|done].
    destruct (scan_string b) as [[k r1]|]; [|done]. cbn [mbind option_bind].
    destruct (strip _ (skip_ws r1)) as [r2|]; [|done]. cbn [mbind option_bind].
    destruct (value f d (skip_ws r2)) as [[v r3]|] eqn:E; [|done]. rewrite (IHv _ _ E). cbn [mbind option_bind].
    destruct (skip_ws r3) as [|c2 r4]; [done|]. destruct (Ascii.eqb c2 ","); [|done].
    destruct (members f d (skip_ws r4)) as [[ms r5]|] eqn:E2; [|done]. by rewrite (IHm _ _ E2).
Qed.

(** The value a raw message has as a member of an object. *)
Definition data_value (raw : RawMessage) (v : jval) : Prop :=
  match raw with
  | None => v = JNull
  | Some b => exists r, value (2 * length b + 1) 1 (skip_ws b) = Some (v, r) /\ skip_ws r = []
  end.

Lemma data_valid b v : data_value (Some b) v -> Valid b = true.
Proof.
  intros (r & E & Hr). apply (proj1 (shallower (2 * length b + 1) 1 0 ltac:(lia))) in E.
  unfold Valid, parse, parse_with. rewrite E. cbn. by rewrite Hr.
Qed.

Lemma data_reads raw v : data_value raw v ->
  exists t n, MarshalRaw raw = Ok t /\ reads n 1 t v.
Proof.
  destruct raw as [b|]; cycle 1.
  { intros ->. eexists _, 1. split; [done|]. split; [by eexists _, _|]. intros f rest Hf _. destruct f as [|f]; [lia|].
    exists JNull. done. }
  intros Hd. pose proof (data_valid b v Hd) as Hval. destruct Hd as (r & E & Hr). cbn [MarshalRaw]. rewrite Hval.
  exists (compact false 0 b), (2 * length b + 1). split; [done|].
  assert (Hread : forall f, 2 * length b + 1 <= f -> exists v', value f 1 (compact false 0 b) = Some (v', []) /\ erase v' = erase v).
  { intros f Hf. pose proof (skip_ws_length b).
    assert (Ef : value f 1 (skip_ws b) = Some (v, r)).
    { rewrite (value_enough f) by lia. rewrite (value_enough (2 * length b + 1)) in E by lia. done. }
    destruct (proj1 (compact_all f) _ _ _ _ Ef) as (v' & Ev & Hv'); [by rewrite Hr|].
    rewrite compact_skip_ws in Ev. rewrite <- (compact_skip_ws r), Hr in Ev. by exists v'. }
  split.
  - destruct (Hread (2 * length b + 1)) as (v' & Ev & _); [lia|]. pose proof (skip_ws_compact b) as Hw.
    destruct (compact false 0 b) as [|c w] eqn:Ec; [by destruct (2 * length b + 1)|]. exists c, w. split; [done|].
    by eapply (skip_ws_head (c :: w)).
  - intros f rest Hf Hrest. destruct (Hread f Hf) as (v' & Ev & Hv').
    exists v'. split; [|done]. by apply (proj1 (more_all f) _ _ _ _ rest Ev).
Qed.

(** ** The envelope *)

Definition str (s : string) : jval := JStr (utf8.to_valid (bytes_of s)).
Definition named (k : string) (v : jval) : bytes * (bytes * jval) := (bytes_of k, ([], v)).

(** What an envelope says. *)
Definition meta_value (m : message.GatewayMeta) : jval :=
  JObj ([named "request_id" (str (message.gm_RequestID m)); named "trace_id" (str (message.gm_TraceID m));
         named "received_at" (JStr (bytes_of (rfc3339nano (message.gm_ReceivedAt m))))] ++
        (if String.eqb (message.gm_Env m) "" then [] else [named "env" (str (message.gm_Env m))])).

Definition envelope_value (e : message.Envelope) (data : jval) : jval :=
  JObj [named "_gateway_meta" (meta_value (message.env_GatewayMeta e)); named "project" (str (message.env_Project e));
        named "router" (str (message.env_Router e)); named "data" data].

(** The whole text is one value. *)
Lemma reads_parse n t v : reads n 0 t v -> exists w, parse t = Some w /\ erase w = erase v.
Proof.
  intros Hr. destruct (proj2 Hr (n + (2 * length t + 1)) []) as (w & E & Hw); [lia|done|].
  rewrite <- (parse_enough (n + (2 * length t + 1))) by lia. unfold parse_with.
  pose proof (reads_skip n 0 t v [] Hr) as Hs. rewrite app_nil_r in *. rewrite Hs, E. by exists w.
Qed.

Lemma meta_reads m : time_ok (message.gm_ReceivedAt m) = true ->
  exists t n, MarshalTime (message.gm_ReceivedAt m) = Ok t /\ reads n 1 (obj (meta_fields m t)) (meta_value m).
Proof.
  intros Ht. unfold MarshalTime. rewrite Ht. eexists _, _. split; [done|].
  set (t := message.gm_ReceivedAt m).
  set (fs := ([("request_id", quote_string (message.gm_RequestID m), str (message.gm_RequestID m));
               ("trace_id", quote_string (message.gm_TraceID m), str (message.gm_TraceID m));
               ("received_at", quote :: bytes_of (rfc3339nano t) ++ [quote], JStr (bytes_of (rfc3339nano t)))] ++
              (if String.eqb (message.gm_Env m) "" then [] else [("env", quote_string (message.gm_Env m), str (message.gm_Env m))]) : list field)).
  assert (Hobj : meta_fields m (quote :: bytes_of (rfc3339nano t) ++ [quote]) = field_text <$> fs).
  { unfold meta_fields, unless_empty, fs. by destruct (String.eqb _ _). }
  assert (Hval : meta_value m = JObj (field_val <$> fs)).
  { unfold meta_value, fs. by destruct (String.eqb _ _). }
  rewrite Hobj, Hval. apply (reads_obj 1); [done| |done].
  apply Forall_app. split.
  - do 2 (apply Forall_cons; split; [apply reads_string|]). apply Forall_cons. split; [|constructor].
    apply reads_plain_text, rfc3339nano_safe.
  - destruct (String.eqb _ _); [constructor|]. apply Forall_cons. split; [apply reads_string|constructor].
Qed.

(** The text a sink sends for a message is a JSON text: whatever the
    identifiers, names and data hold, reading it back gives the envelope's
    fields, each string as it was up to invalid UTF-8, the time in RFC 3339,
    and the data with the value it had, although blanks were removed and
    characters escaped on the way.  [env] is left out exactly when empty. *)
Lemma envelope_reads_back e data :
  time_ok (message.gm_ReceivedAt (message.env_GatewayMeta e)) = true -> data_value (message.env_Data e) data ->
  exists text w, MarshalEnvelope e = Ok text /\ parse text = Some w /\ erase w = erase (envelope_value e data).
Proof.
  intros Ht Hd. destruct (meta_reads _ Ht) as (t & n1 & Et & Hm). destruct (data_reads _ _ Hd) as (d & n2 & Ed & Hdr).
  unfold MarshalEnvelope. rewrite Et, Ed. eexists.
  set (fs := [("_gateway_meta", obj (meta_fields (message.env_GatewayMeta e) t), meta_value (message.env_GatewayMeta e));
              ("project", quote_string (message.env_Project e), str (message.env_Project e));
              ("router", quote_string (message.env_Router e), str (message.env_Router e)); ("data", d, data)] : list field).
  destruct (reads_parse (S (n1 + n2 + 1 + 4)) (obj (field_text <$> fs)) (JObj (field_val <$> fs))) as (w & Ew & Hw).
  { apply (reads_obj (n1 + n2 + 1) 0 fs); [done| |done].
    apply Forall_cons. split; [eapply reads_more; [|exact Hm]; lia|].
    do 2 (apply Forall_cons; split; [eapply reads_more; [|apply reads_string]; lia|]).
    apply Forall_cons. split; [eapply reads_more; [|exact Hdr]; lia|constructor]. }
  exists w. split; [done|]. by split.
Qed.
