(* ===== verification/JsonNumber.v ===== *)
(** * [encoding/json]: numbers

    The text the encoder writes for a number is scanned as one token and
    decoded to the same [float64]. *)

From Stdlib Require Import ZArith Lia Ascii String SpecFloat.
From stdpp Require Import base tactics numbers strings gmap list.
From S2P Require Import Prelude GoStrings GoUtf8 GoFloat GoCrypto Message Json JsonDecode JsonEncode JsonCompact JsonEnvelope.

Import json jsondec.

(** ** Decimal digits *)

Local Open Scope Z_scope.

Lemma digit_char_val d : 0 <= d < 10 -> is_digit (digit_char d) = true /\ byte_val (digit_char d) - 48 = d.
Proof.
  intros H. assert (d = 0 \/ d = 1 \/ d = 2 \/ d = 3 \/ d = 4 \/ d = 5 \/ d = 6 \/ d = 7 \/ d = 8 \/ d = 9) as Hd by lia.
  by destruct_or! Hd; subst.
Qed.

Lemma fixed_digits_num k n acc : 0 <= n ->
  forallb is_digit (bytes_of (fixed_digits k n)) = true /\ length (bytes_of (fixed_digits k n)) = k /\
  digits_num acc (bytes_of (fixed_digits k n)) = acc * 10 ^ Z.of_nat k + n mod 10 ^ Z.of_nat k.
Proof.
  intros Hn. revert acc. induction k as [|k IH]; intros acc.
  - cbn. rewrite Z.mod_1_r. split_and!; lia.
  - cbn [fixed_digits list_ascii_of_string forallb length digits_num].
    destruct (digit_char_val (n / 10 ^ Z.of_nat k mod 10)) as [-> ->]; [apply Z.mod_pos_bound; lia|].
    destruct (IH (acc * 10 + n / 10 ^ Z.of_nat k mod 10)) as (-> & -> & ->). split_and!; [done..|].
    replace (Z.of_nat (S k)) with (Z.of_nat k + 1) by lia.
    rewrite Z.pow_add_r, Z.pow_1_r by lia. rewrite (Z.rem_mul_r n (10 ^ Z.of_nat k) 10) by lia. ring.
Qed.

Lemma take_digits_stops ds rest : forallb is_digit ds = true ->
  match rest with c :: _ => is_digit c = false | [] => True end -> take_digits (ds ++ rest) = (ds, rest).
Proof.
  intros Hd Hr. induction ds as [|c ds IH]; cbn [app].
  - destruct rest as [|c rest]; [done|]. cbn. by rewrite Hr.
  - cbn [forallb] in Hd. apply andb_true_iff in Hd as [Hc Hd]. cbn. rewrite Hc, IH by done. done.
Qed.

Lemma count_digits_least fuel k n : (1 <= k)%nat -> (10 ^ (Z.of_nat k - 1) <= n) ->
  (10 ^ (Z.of_nat (count_digits fuel k n) - 1) <= n).
Proof.
  revert k; induction fuel as [|fuel IH]; intros k Hk Hn; cbn [count_digits]; [done|].
  destruct (Z.ltb_spec n (10 ^ Z.of_nat k)); [done|]. apply IH; [lia|]. by replace (Z.of_nat (S k) - 1) with (Z.of_nat k) by lia.
Qed.

Lemma digit_char_zero d : (0 <= d < 10) -> digit_char d = "0"%char -> d = 0.
Proof. intros Hd E. pose proof (digit_val_char d Hd) as H. rewrite E in H. by injection H. Qed.


(** Digits without a superfluous zero in front. *)
Definition int_ok (i : bytes) : Prop :=
  forallb is_digit i = true /\ match i with [] => False | c :: r => c = "0"%char -> r = [] end.

Lemma pad_digits_num w z : 0 <= z ->
  forallb is_digit (bytes_of (pad_digits w z)) = true /\ digits_num 0 (bytes_of (pad_digits w z)) = z /\
  bytes_of (pad_digits w z) <> [].
Proof.
  intros Hz. unfold pad_digits. set (c := count_digits _ 1 z).
  destruct (count_digits_bound (Z.to_nat (Z.log2 z)) 1 z Hz) as [Hb H1].
  { destruct (decide (z = 0)) as [->|]; [done|]. destruct (Z.log2_spec z ltac:(lia)) as [_ Hl].
    pose proof (Z.log2_nonneg z). eapply Z.lt_le_trans; [exact Hl|].
    replace (Z.of_nat (Z.to_nat (Z.log2 z) + 1)) with (Z.succ (Z.log2 z)) by lia. apply Z.pow_le_mono_l. lia. }
  fold c in Hb, H1. destruct (fixed_digits_num (Nat.max w c) z 0 Hz) as (Hd & Hl & Hn). split; [done|].
  assert (Hlt : z < 10 ^ Z.of_nat (Nat.max w c)) by (eapply Z.lt_le_trans; [exact Hb|]; apply Z.pow_le_mono_r; lia).
  split; [by rewrite Hn, Z.mod_small by lia|]. intros E. rewrite E in Hl. cbn in Hl. lia.
Qed.

Lemma digits_of_ok z : 0 < z -> exists c r, bytes_of (digits_of z) = c :: r /\ c <> "0"%char /\
  forallb is_digit (c :: r) = true /\ digits_num 0 (c :: r) = z.
Proof.
  intros Hz. destruct (pad_digits_num 0 z ltac:(lia)) as (Hd & Hn & Hne). fold (digits_of z) in *.
  destruct (bytes_of (digits_of z)) as [|c r] eqn:E; [done|]. exists c, r. split; [done|]. split; [|done].
  intros ->. unfold digits_of, pad_digits in E. rewrite Nat.max_0_l in E.
  pose proof (count_digits_least (Z.to_nat (Z.log2 z)) 1 z ltac:(lia) ltac:(cbn; lia)) as Hl.
  destruct (count_digits_bound (Z.to_nat (Z.log2 z)) 1 z ltac:(lia)) as [Hb H1].
  { destruct (Z.log2_spec z ltac:(lia)) as [_ Hl2]. pose proof (Z.log2_nonneg z). eapply Z.lt_le_trans; [exact Hl2|].
    replace (Z.of_nat (Z.to_nat (Z.log2 z) + 1)) with (Z.succ (Z.log2 z)) by lia. apply Z.pow_le_mono_l. lia. }
  destruct (count_digits _ 1 z) as [|k]; [lia|]. cbn [fixed_digits list_ascii_of_string] in E. injection E as E _.
  apply digit_char_zero in E; [|apply Z.mod_pos_bound; lia].
  replace (Z.of_nat (S k) - 1) with (Z.of_nat k) in Hl by lia. replace (Z.of_nat (S k)) with (Z.of_nat k + 1) in Hb by lia.
  assert (0 < 10 ^ Z.of_nat k) by (apply Z.pow_pos_nonneg; lia). rewrite Z.pow_add_r in Hb by lia.
  assert (1 <= z / 10 ^ Z.of_nat k < 10) by (split; [apply Z.div_le_lower_bound; lia|apply Z.div_lt_upper_bound; lia]).
  rewrite Z.mod_small in E; lia.
Qed.

(** ** Number tokens *)

(** Sign, integer part, digits of the fraction and exponent. *)
Definition num_text (neg : bool) (i fd ex : bytes) : bytes :=
  (if neg then ["-"%char] else []) ++ i ++ (match fd with [] => [] | _ => "."%char :: fd end) ++ ex.

Definition exp_ok (ex : bytes) : Prop :=
  ex = [] \/ exists sg d, ex = "e"%char :: sg :: d /\ (sg = "-"%char \/ sg = "+"%char) /\ forallb is_digit d = true /\ d <> [].

Definition num_ok (i fd ex : bytes) : Prop := int_ok i /\ forallb is_digit fd = true /\ exp_ok ex.

Lemma exp_ok_head ex rest : exp_ok ex -> ending rest ->
  match ex ++ rest with c :: _ => is_digit c = false /\ c <> "."%char | [] => True end.
Proof.
  intros [->|(sg & d & -> & _)] Hr; [|by split]. destruct rest as [|c rest]; [done|].
  by destruct (ending_stops c rest Hr) as (? & ? & _).
Qed.

Lemma frac_head fd ex rest : exp_ok ex -> ending rest ->
  match (match fd with [] => [] | _ => "."%char :: fd end) ++ ex ++ rest with c :: _ => is_digit c = false | [] => True end.
Proof. intros He Hr. pose proof (exp_ok_head ex rest He Hr). destruct fd; [|done]. cbn [app]. destruct (ex ++ rest); naive_solver. Qed.

Lemma scan_int_ok i rest : int_ok i -> match rest with c :: _ => is_digit c = false | [] => True end ->
  scan_int (i ++ rest) = Some (i, rest).
Proof.
  intros [Hd Hz] Hr. pose proof (take_digits_stops i rest Hd Hr) as Ht. destruct i as [|c i]; [done|]. cbn [app] in *. unfold scan_int.
  destruct (Ascii.eqb_spec c "0") as [->|]; [by rewrite (Hz eq_refl)|]. by rewrite Ht.
Qed.

Lemma scan_frac_ok fd ex rest : forallb is_digit fd = true -> exp_ok ex -> ending rest ->
  scan_frac ((match fd with [] => [] | _ => "."%char :: fd end) ++ ex ++ rest) = Some (match fd with [] => [] | _ => "."%char :: fd end, ex ++ rest).
Proof.
  intros Hd He Hr. pose proof (exp_ok_head ex rest He Hr) as Hh. destruct fd as [|c fd]; cbn [app].
  - destruct (ex ++ rest) as [|c r]; [done|]. unfold scan_frac. destruct Hh as [_ Hc]. by rewrite (proj2 (Ascii.eqb_neq c ".")).
  - unfold scan_frac. change (Ascii.eqb "." ".") with true. cbn iota. change (c :: fd ++ ex ++ rest) with ((c :: fd) ++ ex ++ rest).
    rewrite take_digits_stops by (done || (destruct (ex ++ rest); naive_solver)). done.
Qed.

Lemma scan_exp_ok ex rest : exp_ok ex -> ending rest -> scan_exp (ex ++ rest) = Some (ex, rest).
Proof.
  intros [->|(sg & d & -> & Hsg & Hd & Hne)] Hr; cbn [app].
  - destruct rest as [|c rest]; [done|]. destruct (ending_stops c rest Hr) as (_ & _ & Hc). unfold scan_exp. by rewrite Hc.
  - unfold scan_exp. cbn [Ascii.eqb Bool.eqb orb].
    assert (Hs : (Ascii.eqb sg "+" || Ascii.eqb sg "-")%bool = true) by (by destruct Hsg as [->| ->]). rewrite Hs.
    assert (Hno : match rest with c :: _ => is_digit c = false | [] => True end)
      by (destruct rest as [|c rest]; [done|]; by destruct (ending_stops c rest Hr) as (? & _)).
    rewrite (take_digits_stops d rest Hd Hno). by destruct d.
Qed.

Lemma int_ok_head i : int_ok i -> exists c r, i = c :: r /\ is_digit c = true.
Proof. intros [Hd Hz]. destruct i as [|c r]; [done|]. exists c, r. split; [done|]. cbn in Hd. by apply andb_true_iff in Hd as [? _]. Qed.

Lemma digit_not_minus c : is_digit c = true -> Ascii.eqb c "-" = false.
Proof. intros Hc. apply Ascii.eqb_neq. by intros ->. Qed.

Lemma scan_num_text neg i fd ex rest : num_ok i fd ex -> ending rest ->
  scan_number (num_text neg i fd ex ++ rest) = Some (num_text neg i fd ex, rest).
Proof.
  intros (Hi & Hf & He) Hr. unfold scan_number, num_text.
  set (fr := match fd with [] => [] | _ => _ end). rewrite <- !app_assoc.
  destruct (int_ok_head i Hi) as (c & r & Ei & Hc).
  assert (Hs : match (if neg then ["-"%char] else []) ++ i ++ fr ++ ex ++ rest with
               | c :: b1 => if Ascii.eqb c "-" then ([c], b1) else ([], (if neg then ["-"%char] else []) ++ i ++ fr ++ ex ++ rest)
               | [] => ([], []) end = (if neg then ["-"%char] else [], i ++ fr ++ ex ++ rest)).
  { destruct neg; [done|]. rewrite Ei. cbn [app]. by rewrite digit_not_minus. }
  rewrite Hs, scan_int_ok by (done || by apply frac_head). cbn [mbind option_bind].
  unfold fr. rewrite scan_frac_ok by done. cbn [mbind option_bind]. by rewrite scan_exp_ok.
Qed.

Lemma number_value_text neg i fd ex : num_ok i fd ex ->
  number_value (num_text neg i fd ex) = f64_of_decimal neg (digits_num 0 (i ++ fd)) (exp_num ex - Z.of_nat (length fd)).
Proof.
  intros (Hi & Hf & He). unfold number_value, num_text. set (fr := match fd with [] => [] | _ => _ end).
  destruct (int_ok_head i Hi) as (c & r & Ei & Hc).
  assert (Hs : match (if neg then ["-"%char] else []) ++ i ++ fr ++ ex with
               | c :: b1 => if Ascii.eqb c "-" then (true, b1) else (false, (if neg then ["-"%char] else []) ++ i ++ fr ++ ex)
               | [] => (false, []) end = (neg, i ++ fr ++ ex)).
  { destruct neg; [done|]. rewrite Ei. cbn [app]. by rewrite digit_not_minus. }
  rewrite Hs. pose proof (frac_head fd ex [] He I) as Hh. rewrite app_nil_r in Hh. fold fr in Hh.
  rewrite (take_digits_stops i (fr ++ ex) (proj1 Hi) Hh).
  assert (Hfr : match fr ++ ex with c :: r => if Ascii.eqb c "." then take_digits r else ([], fr ++ ex) | [] => ([], []) end = (fd, ex)).
  { pose proof (exp_ok_head ex [] He I) as Hx. rewrite app_nil_r in Hx. destruct fd as [|d fd]; cbn [fr app].
    - destruct ex as [|x ex]; [done|]. destruct Hx as [_ Hx]. by rewrite (proj2 (Ascii.eqb_neq x ".")).
    - change (Ascii.eqb "." ".") with true. cbn iota. change (d :: fd ++ ex) with ((d :: fd) ++ ex).
      apply take_digits_stops; [done|]. destruct ex; naive_solver. }
  by rewrite Hfr.
Qed.

Lemma reads_number neg i fd ex d : num_ok i fd ex -> reads 1 d (num_text neg i fd ex) (JNum (num_text neg i fd ex)).
Proof.
  intros Hn. pose proof (scan_num_text neg i fd ex) as Hs. destruct (int_ok_head i (proj1 Hn)) as (c & r & Ei & Hc).
  assert (Hh : exists x t, num_text neg i fd ex = x :: t /\ (x = "-"%char \/ is_digit x = true)).
  { unfold num_text. rewrite Ei. destruct neg; eexists _, _; (split; [done|]); eauto. }
  destruct Hh as (x & t & Et & Hx). rewrite Et in *. split.
  - exists x, t. split; [done|]. destruct Hx as [->|Hx]; [done|]. by apply is_digit_plain.
  - intros f rest Hf Hr. destruct f as [|f]; [lia|]. specialize (Hs rest Hn Hr). cbn [app value] in *.
    assert (forall y, y <> "-"%char -> is_digit y = false -> Ascii.eqb x y = false) as Hy
      by (intros y Hy1 Hy2; apply Ascii.eqb_neq; intros ->; destruct Hx; congruence).
    rewrite !Hy by done. rewrite Hs. cbn. by eexists.
Qed.

(** ** What the encoder writes for a number *)

Lemma bytes_take n s : bytes_of (string_take n s) = take n (bytes_of s).
Proof. revert s; induction n as [|n IH]; intros [|c s]; cbn; try done. by rewrite IH. Qed.

Lemma bytes_drop n s : bytes_of (string_drop n s) = drop n (bytes_of s).
Proof. revert s; induction n as [|n IH]; intros [|c s]; cbn; done. Qed.

Lemma bytes_length s : String.length s = length (bytes_of s).
Proof. induction s as [|c s IH]; cbn; [done|]. by rewrite IH. Qed.

Lemma digits_num_app acc a b : digits_num acc (a ++ b) = digits_num (digits_num acc a) b.
Proof. revert acc; induction a as [|c a IH]; intros acc; cbn; [done|]. apply IH. Qed.

Lemma zeros_num k acc : digits_num acc (bytes_of (fixed_digits k 0)) = acc * 10 ^ Z.of_nat k.
Proof. destruct (fixed_digits_num k 0 acc ltac:(lia)) as (_ & _ & ->). rewrite Zmod_0_l. lia. Qed.

Lemma zeros_digits k : forallb is_digit (bytes_of (fixed_digits k 0)) = true /\ length (bytes_of (fixed_digits k 0)) = k.
Proof. by destruct (fixed_digits_num k 0 0 ltac:(lia)) as (? & ? & _). Qed.

Lemma decimal_scale neg z p : 0 < z -> 0 <= p -> f64_of_decimal neg (z * 10 ^ p) 0 = f64_of_decimal neg z p.
Proof.
  intros Hz Hp. pose proof (Z.pow_pos_nonneg 10 p ltac:(lia) Hp). unfold f64_of_decimal.
  rewrite (proj2 (Z.eqb_neq z 0)), (proj2 (Z.eqb_neq (z * 10 ^ p) 0)), (proj2 (Z.leb_le 0 p)) by lia. cbn [Z.leb Z.compare].
  change (10 ^ 0) with 1. by rewrite Z.mul_1_r.
Qed.

(** A text that is one number token, and what it reads as. *)
Definition spells (neg : bool) (t : string) (x : f64) : Prop :=
  exists i fd ex, num_ok i fd ex /\ bytes_of (with_sign neg t) = num_text neg i fd ex /\ number_value (bytes_of (with_sign neg t)) = x.

Lemma spells_parts neg t i fd ex x : num_ok i fd ex -> bytes_of t = i ++ (match fd with [] => [] | _ => "."%char :: fd end) ++ ex ->
  f64_of_decimal neg (digits_num 0 (i ++ fd)) (exp_num ex - Z.of_nat (length fd)) = x -> spells neg t x.
Proof.
  intros Hn Ht Hx. exists i, fd, ex.
  assert (E : bytes_of (with_sign neg t) = num_text neg i fd ex) by (unfold num_text; rewrite <- Ht; by destruct neg).
  split; [done|]. split; [done|]. by rewrite E, number_value_text.
Qed.

Lemma fmt_e_spells neg w z p : 0 < z -> spells neg (fmt_e w z p) (f64_of_decimal neg z p).
Proof.
  intros Hz. destruct (digits_of_ok z Hz) as (c & r & Ed & Hc & Hdig & Hn). unfold fmt_e. cbv zeta.
  rewrite bytes_length, Ed. cbn [length]. set (e := p + Z.of_nat (S (length r)) - 1).
  destruct (pad_digits_num w (Z.abs e) ltac:(lia)) as (Hpd & Hpn & Hpne).
  set (ex := "e"%char :: (if e <? 0 then "-"%char else "+"%char) :: bytes_of (pad_digits w (Z.abs e))).
  assert (Hcr : is_digit c = true /\ forallb is_digit r = true) by (by apply andb_true_iff).
  apply (spells_parts neg _ [c] r ex).
  - split; [split; [cbn; by rewrite (proj1 Hcr)|done]|]. split; [apply Hcr|]. right. eexists _, _. split; [done|].
    split; [|done]. destruct (e <? 0); auto.
  - rewrite !list_ascii_app, bytes_take, Ed. destruct r as [|c2 r]; [done|]. cbn [length Nat.eqb list_ascii_of_string].
    by rewrite bytes_drop, Ed.
  - cbn [app]. rewrite Hn. f_equal. unfold ex, exp_num.
    destruct (Z.ltb_spec e 0); [change (Ascii.eqb "-" "-") with true|change (Ascii.eqb "+" "-") with false; change (Ascii.eqb "+" "+") with true];
      cbn iota; rewrite Hpn; lia.
Qed.

Lemma fmt_f_spells neg z p : 0 < z -> spells neg (fmt_f z p) (f64_of_decimal neg z p).
Proof.
  intros Hz. destruct (digits_of_ok z Hz) as (c & r & Ed & Hc & Hdig & Hn). unfold fmt_f. cbv zeta.
  rewrite bytes_length, Ed. set (l := length (c :: r)). set (dp := p + Z.of_nat l).
  destruct (Z.leb_spec 0 p) as [Hp|Hp]; [|destruct (Z.ltb_spec 0 dp) as [Hdp|Hdp]].
  - destruct (zeros_digits (Z.to_nat p)) as [Hzd _].
    apply (spells_parts neg _ ((c :: r) ++ bytes_of (fixed_digits (Z.to_nat p) 0)) [] []).
    + split; [split; [by rewrite forallb_app, Hdig|cbn; by intros ->]|]. split; [done|by left].
    + rewrite list_ascii_app. by rewrite Ed, !app_nil_r.
    + rewrite app_nil_r, digits_num_app, Hn, zeros_num, Z2Nat.id by lia. by apply decimal_scale.
  - assert (Hlen : length (drop (Z.to_nat dp) (c :: r)) = Z.to_nat (- p)) by (rewrite length_drop; fold l; lia).
    apply (spells_parts neg _ (take (Z.to_nat dp) (c :: r)) (drop (Z.to_nat dp) (c :: r)) []).
    + rewrite <- (take_drop (Z.to_nat dp) (c :: r)), forallb_app in Hdig. apply andb_true_iff in Hdig as [H1 H2].
      split; [split; [done|]|split; [done|by left]]. destruct (Z.to_nat dp) eqn:E; [lia|]. cbn. by intros ->.
    + rewrite list_ascii_app. cbn [list_ascii_of_string]. rewrite bytes_take, bytes_drop, Ed, app_nil_r.
      destruct (drop (Z.to_nat dp) (c :: r)) eqn:E; [|done]. cbn in Hlen. lia.
    + rewrite take_drop, Hn, Hlen. f_equal. cbn [exp_num]. lia.
  - destruct (zeros_digits (Z.to_nat (- dp))) as [Hzd Hzl].
    apply (spells_parts neg _ ["0"%char] (bytes_of (fixed_digits (Z.to_nat (- dp)) 0) ++ c :: r) []).
    + split; [done|]. split; [by rewrite forallb_app, Hzd|by left].
    + cbn [list_ascii_of_string app]. rewrite list_ascii_app, Ed, app_nil_r.
      destruct (bytes_of (fixed_digits (Z.to_nat (- dp)) 0)); done.
    + rewrite !digits_num_app, zeros_num. change (digits_num 0 ["0"%char]) with 0. rewrite Z.mul_0_l, Hn.
      rewrite length_app, Hzl. f_equal. cbn [exp_num]. fold l. lia.
Qed.

(** The text of a float reads back as the float. *)
Lemma FormatJSON_spells x t : f64_ok x -> FormatJSON x = Some t ->
  exists neg i fd ex, num_ok i fd ex /\ bytes_of t = num_text neg i fd ex /\ number_value (bytes_of t) = x.
Proof.
  intros [Hv _]. destruct x as [neg|neg| |neg m e]; cbn [FormatJSON]; [|done..|].
  - intros [= <-]. assert (Hsp : spells neg "0" (S754_zero neg)); [|destruct Hsp as (i & fd & ex & Hsp); by exists neg, i, fd, ex].
    apply (spells_parts neg _ ["0"%char] [] []); [|done..]. split; [done|]. split; [done|by left].
  - pose proof (shortest_reads neg m e Hv) as Hs. destruct (shortest m e) as [z p]. destruct Hs as [Hz Hx].
    destruct (num_den m e) as [n d]. intros [= <-].
    assert (Hsp : spells neg (if (n * 1000000 <? d) || (10 ^ 21 * d <=? n) then fmt_e 1 z p else fmt_f z p) (S754_finite neg m e)).
    { rewrite <- Hx. destruct (_ || _); [by apply fmt_e_spells|by apply fmt_f_spells]. }
    destruct Hsp as (i & fd & ex & Hsp). by exists neg, i, fd, ex.
Qed.

Lemma FormatJSON_total x : f64_ok x -> is_inf x = false -> exists t, FormatJSON x = Some t.
Proof.
  intros [_ Hn] Hi. destruct x as [neg|neg| |neg m e]; cbn; [by eexists|done..|].
  destruct (shortest m e), (num_den m e). by eexists.
Qed.
