(* ===== verification/JsonAny.v ===== *)
(** * [encoding/json] of [map[string]interface{}]

    [json.Marshal] of the values a decoded object holds: keys in bytewise
    order, floats with the shortest digits, strings escaped.  With
    [UnmarshalMap] this is what the built-in processors of the pipeline do to
    a payload, and what they encode is decoded to the same object. *)

From Stdlib Require Import ZArith Lia Ascii String SpecFloat.
From stdpp Require Import base tactics numbers strings gmap list sorting.
From S2P Require Import Prelude GoStrings GoUtf8 GoFloat GoCrypto Message ConfigPkg Json JsonDecode JsonEncode JsonCompact JsonEnvelope JsonNumber.

Module jsonany.
Import json jsondec jsonenc jsonmsg.

Fixpoint elems_text (ts : list bytes) : bytes :=
  match ts with
  | [] => []
  | [t] => t
  | t :: ts' => t ++ ","%char :: elems_text ts'
  end.

Definition arr (ts : list bytes) : bytes := "["%char :: elems_text ts ++ ["]"%char].

(** The members of a map by their keys. *)
Definition sort_keys {A} (l : list (string * A)) : list (string * A) := foldr (fun kv acc => upsert kv.1 kv.2 acc) [] l.

(** [None] for a value JSON has no text for: NaN and the infinities. *)
Fixpoint any_text (v : any) : option bytes :=
  match v with
  | VNil => Some (bytes_of "null")
  | VBool b => Some (bytes_of (if b then "true" else "false"))
  | VInt z => Some (bytes_of (Itoa z))
  | VFloat f => bytes_of <$> FormatJSON f
  | VString s => Some (quote_string s)
  | VList l =>
      arr <$> (fix go l := match l with
                           | [] => Some []
                           | v :: l' => t ← any_text v; ts ← go l'; Some (t :: ts)
                           end) l
  | VMap ms =>
      (fun ts => obj (sort_keys ts)) <$>
        (fix go ms := match ms with
                      | [] => Some []
                      | (k, v) :: ms' => t ← any_text v; ts ← go ms'; Some ((k, t) :: ts)
                      end) ms
  end.

(** [json.Marshal(data)] for a map that may be nil. *)
Definition MarshalMap (m : option anymap) : result bytes :=
  match m with
  | None => Ok (bytes_of "null")
  | Some m =>
      match any_text (VMap (map_to_list m)) with
      | Some t => Ok t
      | None => Err (ErrorString "json: unsupported value")
      end
  end.
End jsonany.

Import json jsondec jsonenc jsonmsg jsonany.

(** ** The order of keys *)

Definition key_lt (a b : string) : Prop := String.compare a b = Lt.

Lemma ascii_compare_N a b : Ascii.compare a b = N.compare (N_of_ascii a) (N_of_ascii b).
Proof. done. Qed.

#[global] Instance key_lt_trans : Transitive key_lt.
Proof.
  unfold key_lt. intros a. induction a as [|x a IH]; intros [|y b] [|z c]; cbn; try done.
  rewrite !ascii_compare_N.
  destruct (N.compare_spec (N_of_ascii x) (N_of_ascii y)) as [Exy|Hxy|Hxy]; [..|done].
  - rewrite Exy. intros Hab. destruct (N.compare _ (N_of_ascii z)); [by apply IH|done..].
  - intros _. destruct (N.compare_spec (N_of_ascii y) (N_of_ascii z)) as [Eyz|Hyz|Hyz]; [..|done]; intros _.
    + rewrite <- Eyz. by rewrite (proj2 (N.compare_lt_iff _ _)).
    + by rewrite (proj2 (N.compare_lt_iff _ _)) by lia.
Qed.

Lemma key_lt_irrefl a : ~ key_lt a a.
Proof.
  unfold key_lt. intros H. pose proof (String.compare_antisym a a) as Ha. rewrite H in Ha. done.
Qed.

Lemma key_gt a b : String.compare a b = Gt -> key_lt b a.
Proof. unfold key_lt. intros H. rewrite String.compare_antisym, H. done. Qed.

Definition sorted_keys {A} (l : list (string * A)) : Prop := StronglySorted key_lt l.*1.

Lemma upsert_keys {A} k (v : A) l x : x ∈ (upsert k v l).*1 -> x = k \/ x ∈ l.*1.
Proof.
  induction l as [|[k' v'] l IH]; cbn [upsert].
  - cbn. set_solver.
  - destruct (String.compare k k') eqn:E; cbn; [apply String.compare_eq_iff in E as ->; set_solver..| |].
    + set_solver.
    + rewrite !elem_of_cons. intros [->|H]; [auto|]. destruct (IH H); auto.
Qed.

Lemma upsert_sorted {A} k (v : A) l : sorted_keys l -> sorted_keys (upsert k v l).
Proof.
  unfold sorted_keys. induction l as [|[k' v'] l IH]; intros Hs; cbn [upsert]; [by repeat constructor|].
  apply StronglySorted_inv in Hs as [Hs Hall]. destruct (String.compare k k') eqn:E; cbn.
  - apply String.compare_eq_iff in E as ->. by constructor.
  - constructor; [by constructor|]. constructor; [done|]. eapply Forall_impl; [exact Hall|]. intros x. by transitivity k'.
  - constructor; [by apply IH|]. apply Forall_forall. intros x [->|Hx]%upsert_keys; [by apply key_gt|].
    rewrite Forall_forall in Hall. by apply Hall.
Qed.

Lemma sort_keys_sorted {A} (l : list (string * A)) : sorted_keys (sort_keys l).
Proof. induction l as [|[k v] l IH]; cbn; [constructor|]. by apply upsert_sorted. Qed.

(** A key greater than all goes to the end; one smaller than all, to the front. *)
Lemma upsert_last {A} k (v : A) l : Forall (fun x => key_lt x k) l.*1 -> upsert k v l = l ++ [(k, v)].
Proof.
  induction l as [|[k' v'] l IH]; [done|]. intros [Hk Hl]%Forall_cons. cbn [upsert app]. cbn in Hk, Hl.
  assert (String.compare k k' = Gt) as -> by (rewrite String.compare_antisym; unfold key_lt in Hk; by rewrite Hk). by rewrite IH.
Qed.

Lemma upsert_first {A} k (v : A) l : Forall (fun x => key_lt k x) l.*1 -> upsert k v l = (k, v) :: l.
Proof. destruct l as [|[k' v'] l]; [done|]. intros [Hk _]%Forall_cons. cbn in *. by rewrite Hk. Qed.

Lemma sort_keys_id {A} (l : list (string * A)) : sorted_keys l -> sort_keys l = l.
Proof.
  induction l as [|[k v] l IH]; [done|]. intros [Hs Ha]%StronglySorted_inv. cbn. fold (sort_keys l). rewrite IH by done. by apply upsert_first.
Qed.

Lemma collect_sorted {A} (l : list (string * A)) : sorted_keys l -> foldl (fun acc kv => upsert kv.1 kv.2 acc) [] l = l.
Proof.
  intros Hs. assert (Hgen : forall acc, sorted_keys (acc ++ l) -> foldl (fun acc kv => upsert kv.1 kv.2 acc) acc l = acc ++ l); [|by apply Hgen].
  clear Hs. induction l as [|[k v] l IH]; intros acc Hs; cbn [foldl]; [by rewrite app_nil_r|]. cbn [fst snd].
  assert (Hk : Forall (fun x => key_lt x k) acc.*1).
  { unfold sorted_keys in Hs. rewrite fmap_app in Hs. apply StronglySorted_app in Hs as (Hx & _ & _).
    apply Forall_forall. intros x Hin. apply (Hx x k Hin). cbn. set_solver. }
  rewrite upsert_last by done. rewrite IH; [by rewrite <- app_assoc|]. by rewrite <- app_assoc.
Qed.

Lemma upsert_fmap {A B} (f : A -> B) k v l : upsert k (f v) (prod_map id f <$> l) = prod_map id f <$> upsert k v l.
Proof.
  induction l as [|[k' v'] l IH]; [done|]. cbn [fmap list_fmap upsert prod_map fst snd id].
  destruct (String.compare k k'); cbn; [done..|]. by rewrite <- IH.
Qed.

Lemma sort_keys_fmap {A B} (f : A -> B) l : sort_keys (prod_map id f <$> l) = prod_map id f <$> sort_keys l.
Proof. induction l as [|[k v] l IH]; [done|]. cbn. fold (sort_keys (prod_map id f <$> l)) (sort_keys l). by rewrite IH, upsert_fmap. Qed.

Lemma upsert_perm {A} k (v : A) l : k ∉ l.*1 -> upsert k v l ≡ₚ (k, v) :: l.
Proof.
  induction l as [|[k' v'] l IH]; [done|]. cbn. intros [Hk Hl]%not_elem_of_cons.
  destruct (String.compare k k') eqn:E; [apply String.compare_eq_iff in E as ->; done|done|]. rewrite IH by done. apply perm_swap.
Qed.

Lemma sort_keys_perm {A} (l : list (string * A)) : NoDup l.*1 -> sort_keys l ≡ₚ l.
Proof.
  induction l as [|[k v] l IH]; [done|]. cbn. intros [Hk Hl]%NoDup_cons. fold (sort_keys l).
  rewrite upsert_perm; [by rewrite IH|]. by rewrite (fmap_Permutation fst _ _ (IH Hl)).
Qed.

(** ** Decoded strings are valid UTF-8 *)

Definition is_utf8 (b : bytes) : Prop := exists rs, Forall (fun r => utf8.ValidRune r = true) rs /\ b = concat (utf8.encode_valid <$> rs).

Lemma is_utf8_fixed b : is_utf8 b -> utf8.to_valid b = b.
Proof. intros (rs & Hr & ->). by rewrite utf8.to_valid_runes, utf8.runes_encode. Qed.

Lemma fixed_is_utf8 b : utf8.to_valid b = b -> is_utf8 b.
Proof. intros <-. exists (utf8.runes 0 b). split; [apply utf8.runes_valid|apply utf8.to_valid_runes]. Qed.

Lemma is_utf8_rune r b : is_utf8 b -> is_utf8 (utf8.EncodeRune r ++ b).
Proof.
  intros (rs & Hr & ->). exists ((if utf8.ValidRune r then r else utf8.RuneError) :: rs).
  split; [constructor; [apply utf8.ValidRune_if|done]|done].
Qed.

Lemma ascii_is_utf8 b : Forall (fun c => (byte_val c < 128)%Z) b -> is_utf8 b.
Proof.
  induction 1 as [|c b Hc _ IH]; [by exists []|]. pose proof (byte_val_range c) as Hr.
  assert (E : c :: b = utf8.EncodeRune (byte_val c) ++ b); [|rewrite E; by apply is_utf8_rune].
  rewrite utf8.EncodeRune_valid by (apply utf8.ValidRune_range; lia). unfold utf8.encode_valid.
  rewrite (proj2 (Z.ltb_lt (byte_val c) 0x80)) by lia. cbn. by rewrite byte_of_val.
Qed.

Lemma safe_is_utf8 s : safe_text s -> is_utf8 (bytes_of s).
Proof.
  intros Hs. apply ascii_is_utf8. eapply Forall_impl; [exact Hs|]. intros c Hc. unfold safe_char in Hc.
  rewrite !andb_true_iff, utf8.between_iff in Hc. lia.
Qed.

Lemma Itoa_utf8 n : is_utf8 (bytes_of (Itoa n)).
Proof. apply safe_is_utf8, Sprintf_safe. Qed.

Lemma is_utf8_escape e x b : simple_escape e = Some x -> is_utf8 b -> is_utf8 (x :: b).
Proof.
  intros Hx Hb. assert (E : x :: b = utf8.EncodeRune (byte_val x) ++ b); [|rewrite E; by apply is_utf8_rune].
  assert (Hr : (0 <= byte_val x < 128)%Z).
  { unfold simple_escape in Hx. repeat (destruct (Ascii.eqb e _); [injection Hx as <-; by vm_compute|]). done. }
  rewrite utf8.EncodeRune_valid by (apply utf8.ValidRune_range; lia).
  unfold utf8.encode_valid. rewrite (proj2 (Z.ltb_lt (byte_val x) 0x80)) by lia. cbn. by rewrite byte_of_val.
Qed.

Lemma unquote_utf8 k s : is_utf8 (unquote k s).
Proof.
  assert (Hnil : is_utf8 []) by (by exists []).
  remember (length s) as n eqn:En. revert k s En. induction (lt_wf n) as [n _ IH]; intros k s ->.
  destruct s as [|c s]; [done|]. destruct k as [|k]; cbn [unquote]; [|by apply (IH (length s)); [cbn; lia|]].
  assert (Hrec : forall s' k', length s' <= length s -> is_utf8 (unquote k' s')) by (intros s' k' Hl; apply (IH (length s')); cbn; lia || done).
  destruct (Ascii.eqb c backslash).
  - destruct s as [|e s]; [done|]. destruct (simple_escape e) as [x|] eqn:Ee.
    { eapply is_utf8_escape; [exact Ee|]. apply Hrec. cbn. lia. }
    destruct s as [|h1 [|h2 [|h3 [|h4 s]]]]; try done. cbn [length] in Hrec.
    assert (Hr4 : forall r, is_utf8 (utf8.EncodeRune r ++ unquote 0 s)) by (intros r; apply is_utf8_rune, Hrec; lia).
    destruct (utf8.is_surrogate _); [|apply Hr4].
    destruct s as [|c2 [|e2 [|k1 [|k2 [|k3 [|k4 s3]]]]]]; try apply Hr4.
    destruct (if _ && _ then _ else _); [|apply Hr4]. apply is_utf8_rune, Hrec. cbn. lia.
  - destruct (utf8.DecodeRune (c :: s)) as [r m]. apply is_utf8_rune, Hrec. lia.
Qed.

(** ** The values decoding produces *)

(** At depth [d], in the sense of the scanner's limit. *)
Fixpoint fits (d : Z) (v : any) : Prop :=
  match v with
  | VNil | VBool _ => True
  | VInt _ => False
  | VFloat f => f64_ok f /\ is_inf f = false
  | VString s => is_utf8 (bytes_of s)
  | VList l =>
      (d < maxNestingDepth)%Z /\
      (fix go l := match l with [] => True | v :: l' => fits (d + 1) v /\ go l' end) l
  | VMap ms =>
      (d < maxNestingDepth)%Z /\ sorted_keys ms /\
      (fix go ms := match ms with [] => True | (k, v) :: ms' => (is_utf8 (bytes_of k) /\ fits (d + 1) v) /\ go ms' end) ms
  end.

Lemma fits_list d l : fits d (VList l) <-> (d < maxNestingDepth)%Z /\ Forall (fits (d + 1)) l.
Proof.
  cbn [fits]. apply and_iff_compat_l. induction l as [|v l IH]; [split; [constructor|done]|]. rewrite Forall_cons, IH. done.
Qed.

Lemma fits_map d ms : fits d (VMap ms) <->
  (d < maxNestingDepth)%Z /\ sorted_keys ms /\ Forall (fun kv => is_utf8 (bytes_of kv.1) /\ fits (d + 1) kv.2) ms.
Proof.
  cbn [fits]. apply and_iff_compat_l, and_iff_compat_l. induction ms as [|[k v] ms IH]; [split; [constructor|done]|]. rewrite Forall_cons, IH. done.
Qed.

(** Induction over nested values. *)
Section any_nested.
Context (P : any -> Prop) (Hnil : P VNil) (Hs : forall s, P (VString s)) (Hb : forall b, P (VBool b)) (Hi : forall z, P (VInt z))
  (Hf : forall f, P (VFloat f)) (Hl : forall l, Forall P l -> P (VList l)) (Hm : forall ms, Forall (fun kv => P kv.2) ms -> P (VMap ms)).

Fixpoint any_nested (v : any) : P v :=
  match v with
  | VNil => Hnil
  | VString s => Hs s
  | VBool b => Hb b
  | VInt z => Hi z
  | VFloat f => Hf f
  | VList l => Hl l ((fix go l : Forall P l := match l with [] => Forall_nil_2 P | v :: l' => Forall_cons_2 P v l' (any_nested v) (go l') end) l)
  | VMap ms =>
      Hm ms ((fix go ms : Forall (fun kv => P kv.2) ms :=
                match ms with [] => Forall_nil_2 _ | kv :: ms' => Forall_cons_2 (fun kv => P kv.2) kv ms' (any_nested kv.2) (go ms') end) ms)
  end.
End any_nested.

(** *** [to_any] as maps over lists *)

Definition member_any (m : bytes * (bytes * jval)) : option (string * any) := x ← to_any m.2.2; Some (string_of m.1, x).

Lemma to_any_arr vs : to_any (JArr vs) = VList <$> mapM to_any vs.
Proof. reflexivity. Qed.

Lemma to_any_obj ms : to_any (JObj ms) = (fun l => VMap (foldl (fun acc kv => upsert kv.1 kv.2 acc) [] l)) <$> mapM member_any ms.
Proof.
  cbn [to_any]. generalize (@nil (string * any)). induction ms as [|[k [t v]] ms IH]; intros acc; [done|].
  assert (Hm : mapM member_any ((k, (t, v)) :: ms) = (y ← member_any (k, (t, v)); l ← mapM member_any ms; Some (y :: l))) by done.
  rewrite Hm. change (member_any (k, (t, v))) with (x ← to_any v; Some (string_of k, x)). destruct (to_any v) as [x|]; [|done]. cbn [mbind option_bind]. rewrite IH.
  by destruct (mapM member_any ms).
Qed.

(** *** What is decoded fits *)

Lemma mapM_Forall {A B} (f : A -> option B) (Q : A -> Prop) (P : B -> Prop) l k :
  (forall x y, Q x -> f x = Some y -> P y) -> Forall Q l -> mapM f l = Some k -> Forall P k.
Proof.
  intros Hf HQ Hm. apply mapM_Some in Hm. induction Hm as [|x y l k Hxy _ IH]; [constructor|].
  apply Forall_cons in HQ as [Hx HQ]. constructor; [by eapply Hf|by apply IH].
Qed.

Lemma collect_Forall {A} (P : string * A -> Prop) l acc : Forall P l -> Forall P acc ->
  Forall P (foldl (fun acc kv => upsert kv.1 kv.2 acc) acc l).
Proof.
  intros Hl. revert acc. induction Hl as [|[k v] l Hk _ IH]; intros acc Ha; [done|]. cbn [foldl fst snd]. apply IH.
  clear IH. induction Ha as [|[k' v'] acc Hk' Ha IH]; cbn [upsert]; [by repeat constructor|].
  destruct (String.compare k k'); [by constructor|constructor; [done|by constructor]|by constructor].
Qed.

Lemma collect_is_sorted {A} (l acc : list (string * A)) : sorted_keys acc ->
  sorted_keys (foldl (fun acc kv => upsert kv.1 kv.2 acc) acc l).
Proof. revert acc; induction l as [|[k v] l IH]; intros acc Ha; [done|]. cbn. by apply IH, upsert_sorted. Qed.

Lemma bytes_string b : bytes_of (string_of b) = b.
Proof. apply list_ascii_of_string_of_list_ascii. Qed.

(** The value read, whatever decoding makes of it, is within the depth. *)
Definition good (d : Z) (w : jval) : Prop := forall v, to_any w = Some v -> fits d v.
Definition good_member (d : Z) (m : bytes * (bytes * jval)) : Prop := is_utf8 m.1 /\ good d m.2.2.

Lemma good_arr d vs : (d < maxNestingDepth)%Z -> Forall (good (d + 1)) vs -> good d (JArr vs).
Proof.
  intros Hd Hv v. rewrite to_any_arr. destruct (mapM to_any vs) as [l|] eqn:E; [|done]. intros [= <-]. apply fits_list.
  split; [done|]. eapply (mapM_Forall to_any (good (d + 1))); [|done..]. intros x y Hx. apply Hx.
Qed.

Lemma good_obj d ms : (d < maxNestingDepth)%Z -> Forall (good_member (d + 1)) ms -> good d (JObj ms).
Proof.
  intros Hd Hm v. rewrite to_any_obj. destruct (mapM member_any ms) as [l|] eqn:E; [|done]. intros [= <-]. apply fits_map.
  split; [done|]. split; [apply collect_is_sorted; constructor|]. apply collect_Forall; [|constructor].
  eapply (mapM_Forall member_any (good_member (d + 1))); [|done..]. intros [k [t w]] [k' y] [Hk Hw]. unfold member_any. cbn [fst snd] in *.
  destruct (to_any w) as [x|] eqn:Ew; [|done]. intros [= <- <-]. rewrite bytes_string. split; [done|by apply Hw].
Qed.

Lemma value_good fuel :
  (forall d b w r, value fuel d b = Some (w, r) -> good d w) /\
  (forall d b ws r, elements fuel d b = Some (ws, r) -> Forall (good d) ws) /\
  (forall d b ms r, members fuel d b = Some (ms, r) -> Forall (good_member d) ms).
Proof.
  induction fuel as [|f (IHv & IHe & IHm)]; [done|]. split_and!; intros d b w r.
  - destruct b as [|c b]; [done|]. cbn [value]. destruct (Ascii.eqb c quote).
    { destruct (scan_string b) as [[s r1]|]; [|done]. intros [= <- <-] v [= <-]. cbn [fits]. rewrite bytes_string. apply unquote_utf8. }
    destruct (Ascii.eqb c "["); [|destruct (Ascii.eqb c "{")].
    1-2: destruct (Z.leb_spec maxNestingDepth d) as [|Hd]; [done|];
         destruct (strip _ (skip_ws b)) as [r1|]; [intros [= <- <-]; (apply good_arr || apply good_obj); [done|constructor]|].
    + destruct (elements f _ _) as [[ws r1]|] eqn:E; [|done]. intros [= <- <-]. apply good_arr; [done|by eapply IHe].
    + destruct (members f _ _) as [[ms r1]|] eqn:E; [|done]. intros [= <- <-]. apply good_obj; [done|by eapply IHm].
    + destruct (Ascii.eqb c "n"); [|destruct (Ascii.eqb c "t"); [|destruct (Ascii.eqb c "f")]].
      1-3: destruct (strip _ (c :: b)) as [r1|]; [|done]; by intros [= <- <-] v [= <-].
      destruct (scan_number (c :: b)) as [[lit r1]|]; [|done]. intros [= <- <-] v. cbn [to_any].
      destruct (is_inf (number_value lit)) eqn:Ei; [done|]. intros [= <-]. cbn [fits]. split; [|done].
      unfold number_value. repeat case_match; apply f64_of_decimal_ok.
  - cbn [elements]. destruct (value f d b) as [[v1 r1]|] eqn:E; [|done]. apply IHv in E. cbn [mbind option_bind].
    destruct (skip_ws r1) as [|c r2]; [done|]. destruct (Ascii.eqb c ",").
    + destruct (elements f d (skip_ws r2)) as [[ws r3]|] eqn:E2; [|done]. intros [= <- <-]. constructor; [done|by eapply IHe].
    + destruct (Ascii.eqb c "]"); [|done]. intros [= <- <-]. by constructor.
  - destruct b as [|c b]; [done|]. cbn [members]. destruct (Ascii.eqb c quote); [|done].
    destruct (scan_string b) as [[k r1]|]; [|done]. cbn [mbind option_bind].
    destruct (strip _ (skip_ws r1)) as [r2|]; [|done]. cbn [mbind option_bind].
    destruct (value f d (skip_ws r2)) as [[v1 r3]|] eqn:E; [|done]. apply IHv in E. cbn [mbind option_bind].
    assert (Hthis : forall t, good_member d (unquote 0 k, (t, v1))) by (intros t; split; [apply unquote_utf8|done]).
    destruct (skip_ws r3) as [|c2 r4]; [done|]. destruct (Ascii.eqb c2 ",").
    + destruct (members f d (skip_ws r4)) as [[ms r5]|] eqn:E2; [|done]. intros [= <- <-]. constructor; [apply Hthis|by eapply IHm].
    + destruct (Ascii.eqb c2 "}"); [|done]. intros [= <- <-]. constructor; [apply Hthis|constructor].
Qed.

(** ** Decoding does not look at source texts *)

Section jval_nested.
Context (P : jval -> Prop) (Hn : P JNull) (Hb : forall b, P (JBool b)) (Hi : forall l, P (JNum l)) (Hs : forall s, P (JStr s))
  (Hl : forall vs, Forall P vs -> P (JArr vs)) (Hm : forall ms, Forall (fun m => P m.2.2) ms -> P (JObj ms)).

Fixpoint jval_nested (v : jval) : P v :=
  match v with
  | JNull => Hn
  | JBool b => Hb b
  | JNum l => Hi l
  | JStr s => Hs s
  | JArr vs => Hl vs ((fix go vs : Forall P vs := match vs with [] => Forall_nil_2 P | v :: vs' => Forall_cons_2 P v vs' (jval_nested v) (go vs') end) vs)
  | JObj ms =>
      Hm ms ((fix go ms : Forall (fun m => P m.2.2) ms :=
                match ms with [] => Forall_nil_2 _ | m :: ms' => Forall_cons_2 (fun m => P m.2.2) m ms' (jval_nested m.2.2) (go ms') end) ms)
  end.
End jval_nested.

Lemma mapM_map {A B} (f : A -> option B) g l : Forall (fun x => f (g x) = f x) l -> mapM f (List.map g l) = mapM f l.
Proof. induction 1 as [|x l Hx _ IH]; [done|]. cbn. by rewrite Hx, IH. Qed.

Lemma to_any_erase w : to_any (erase w) = to_any w.
Proof.
  induction w as [| | | |vs IH|ms IH] using jval_nested; [done..| |]; cbn [erase].
  - by rewrite !to_any_arr, mapM_map.
  - rewrite !to_any_obj, mapM_map; [done|]. eapply Forall_impl; [exact IH|]. intros [k [t w]] Hw. unfold member_any. cbn in *. by rewrite Hw.
Qed.

Lemma erase_to_any w w' : erase w = erase w' -> to_any w = to_any w'.
Proof. intros E. by rewrite <- to_any_erase, E, to_any_erase. Qed.

(** ** What is encoded is read back *)

Fixpoint any_val (v : any) : jval :=
  match v with
  | VNil => JNull
  | VBool b => JBool b
  | VInt z => JNum (bytes_of (Itoa z))
  | VFloat f => JNum (default [] (bytes_of <$> FormatJSON f))
  | VString s => JStr (bytes_of s)
  | VList l => JArr (List.map any_val l)
  | VMap ms => JObj (List.map (fun kv => (bytes_of kv.1, ([], any_val kv.2))) ms)
  end.

Lemma string_bytes s : string_of (bytes_of s) = s.
Proof. apply string_of_list_ascii_of_string. Qed.

Lemma mapM_id {A B} (f : A -> option B) (g : B -> A) l : Forall (fun x => f (g x) = Some x) l -> mapM f (List.map g l) = Some l.
Proof. induction 1 as [|x l Hx _ IH]; [done|]. cbn. by rewrite Hx, IH. Qed.

Lemma any_val_decoded d v : fits d v -> to_any (any_val v) = Some v.
Proof.
  revert d; induction v as [|s|b|z|f|l IH|ms IH] using any_nested; intros d; cbn [any_val].
  - done.
  - cbn. by rewrite string_bytes.
  - done.
  - done.
  - intros [Hok Hi]. destruct (FormatJSON_total f Hok Hi) as [t Et]. destruct (FormatJSON_spells f t Hok Et) as (_ & _ & _ & _ & _ & _ & Hv).
    rewrite Et. change (default [] (bytes_of <$> Some t)) with (bytes_of t). cbn [to_any]. by rewrite Hv, Hi.
  - intros [_ Hl]%fits_list. rewrite to_any_arr, mapM_id; [done|]. rewrite Forall_forall in *. intros v Hv. by eapply IH, Hl.
  - intros (_ & Hs & Hm)%fits_map. rewrite to_any_obj, mapM_id; [cbn; by rewrite collect_sorted|].
    rewrite Forall_forall in *. intros [k v] Hv. unfold member_any. cbn [fst snd].
    pose proof (IH _ Hv (d + 1)%Z (proj2 (Hm _ Hv))) as E. cbn [snd] in E. rewrite E. cbn. by rewrite string_bytes.
Qed.

Lemma read_elements n d (xs : list (bytes * jval)) f rest :
  xs <> [] -> Forall (fun x => reads n d x.1 x.2) xs -> n + length xs <= f ->
  exists vs, elements f d (elems_text xs.*1 ++ "]"%char :: rest) = Some (vs, rest) /\ List.map erase vs = List.map erase xs.*2.
Proof.
  intros Hne Hx. revert f Hne. induction Hx as [|[t v] xs Ht Hxs IH]; intros f Hne Hf; [done|].
  destruct f as [|f]; [cbn in Hf; lia|]. cbn [fst snd length] in *. cbn [elements].
  destruct xs as [|[t2 v2] xs].
  - destruct (proj2 Ht f ("]"%char :: rest)) as (v' & Ev & Hv'); [lia|cbn; eauto|]. cbn [fmap list_fmap fst elems_text].
    rewrite Ev. cbn. eexists. split; [done|]. cbn. by rewrite Hv'.
  - destruct (IH f) as (vs & Es & Hvs); [done|cbn in *; lia|].
    set (w := elems_text ((t2, v2) :: xs).*1 ++ "]"%char :: rest) in *.
    assert (Ew : elems_text ((t, v) :: (t2, v2) :: xs).*1 ++ "]"%char :: rest = t ++ ","%char :: w).
    { unfold w. cbn [fmap list_fmap fst]. cbn [elems_text]. rewrite <- !app_assoc. reflexivity. }
    destruct (proj2 Ht f (","%char :: w)) as (v' & Ev & Hv'); [lia|cbn; eauto|]. rewrite Ew, Ev. cbn [mbind option_bind skip_ws].
    change (is_space ",") with false. cbn iota. change (Ascii.eqb "," ",") with true. cbn iota.
    assert (Hsk : skip_ws w = w).
    { apply Forall_cons in Hxs as [[(c & t' & Et & Hc) _] _]. cbn [fst] in Et. subst t2. unfold w. cbn [fmap list_fmap fst elems_text].
      destruct (xs.*1); cbn [elems_text app skip_ws]; rewrite Hc; done. }
    rewrite Hsk, Es. cbn [mbind option_bind]. eexists. split; [done|]. cbn [List.map fmap list_fmap snd]. by rewrite Hv', Hvs.
Qed.

Lemma reads_not_close n d t v c t' : reads n d t v -> t = c :: t' -> Ascii.eqb "]" c = false.
Proof.
  intros [_ Hr] ->. destruct (Hr (S n) []) as (v' & Ev & _); [lia|done|]. apply Ascii.eqb_neq. intros <-.
  rewrite app_nil_r in Ev. done.
Qed.

Lemma reads_arr n d xs : Forall (fun x => reads n (d + 1) x.1 x.2) xs -> (d < maxNestingDepth)%Z ->
  reads (S (n + length xs)) d (arr xs.*1) (JArr xs.*2).
Proof.
  intros Hx Hd. split; [by eexists _, _|]. intros f rest Hf Hrest. destruct f as [|f]; [lia|].
  unfold arr. cbn [app]. rewrite <- app_assoc. cbn [app value]. change (Ascii.eqb "[" quote) with false.
  change (Ascii.eqb "[" "[") with true. cbn iota. rewrite (proj2 (Z.leb_gt maxNestingDepth d)) by done.
  destruct xs as [|[t v] xs]; [by eexists|].
  destruct (read_elements n (d + 1) ((t, v) :: xs) f rest) as (vs & Es & Hvs); [done|done|lia|].
  apply Forall_cons in Hx as [Ht _]. pose proof Ht as [(c & t' & Et & Hc) _]. pose proof (reads_not_close _ _ _ _ c t' Ht Et) as Hcl.
  cbn [fst] in Et. subst t.
  assert (Hh : exists w, elems_text ((c :: t', v) :: xs).*1 ++ "]"%char :: rest = c :: w).
  { cbn [fmap list_fmap fst elems_text]. destruct (xs.*1); by eexists. }
  destruct Hh as [w Hw]. rewrite Hw in *. cbn [skip_ws strip]. rewrite Hc. cbn [strip]. rewrite Hcl, Es. cbn [mbind option_bind].
  eexists. split; [done|]. cbn [erase]. by rewrite Hvs.
Qed.

Lemma reads_empty_obj d : (d < maxNestingDepth)%Z -> reads 1 d (obj []) (JObj []).
Proof.
  intros Hd. split; [by eexists _, _|]. intros f rest Hf Hrest. destruct f as [|f]; [lia|]. cbn [app value].
  unfold obj. cbn. rewrite (proj2 (Z.leb_gt maxNestingDepth d)) by done. by eexists.
Qed.

Lemma reads_name (s : string) v d : (forall f rest, value (S f) d (bytes_of s ++ rest) = Some (v, rest)) ->
  match bytes_of s with c :: _ => is_space c = false | [] => False end -> reads 1 d (bytes_of s) v.
Proof.
  intros Hv Hs. split; [destruct (bytes_of s) as [|c t]; [done|]; by exists c, t|].
  intros f rest Hf _. destruct f as [|f]; [lia|]. by exists v.
Qed.

(** *** Every value that fits *)

Definition member_text_of (kv : string * any) : option (string * bytes) := t ← any_text kv.2; Some (kv.1, t).

Lemma any_text_list l : any_text (VList l) = arr <$> mapM any_text l.
Proof. reflexivity. Qed.

Lemma any_text_map ms : any_text (VMap ms) = (fun ts => obj (sort_keys ts)) <$> mapM member_text_of ms.
Proof.
  cbn [any_text]. f_equal. induction ms as [|[k v] ms IH]; [done|].
  assert (Hm : mapM member_text_of ((k, v) :: ms) = (y ← member_text_of (k, v); l ← mapM member_text_of ms; Some (y :: l))) by done.
  rewrite Hm. change (member_text_of (k, v)) with (t ← any_text v; Some (k, t)). destruct (any_text v) as [t|]; [|done].
  cbn [mbind option_bind]. by rewrite IH.
Qed.

(** Texts of elements with one bound on the calls. *)
Lemma reads_elements d l :
  Forall (fun v => exists t n, any_text v = Some t /\ reads n d t (any_val v)) l ->
  exists ts n, mapM any_text l = Some ts /\ length ts = length l /\
    Forall (fun x => reads n d x.1 x.2) (zip ts (List.map any_val l)).
Proof.
  induction 1 as [|v l (t & n & Et & Hr) _ (ts & m & Ets & Hlen & Hrs)]; [by exists [], 0|].
  exists (t :: ts), (n + m). cbn. rewrite Et, Ets. split; [done|]. split; [by rewrite Hlen|]. constructor.
  - eapply reads_more; [|exact Hr]. lia.
  - eapply Forall_impl; [exact Hrs|]. intros x. apply reads_more. lia.
Qed.

Lemma reads_fields d ms :
  Forall (fun kv => is_utf8 (bytes_of kv.1) /\ exists t n, any_text kv.2 = Some t /\ reads n d t (any_val kv.2)) ms ->
  exists fs n, mapM member_text_of ms = Some (field_text <$> fs) /\ length fs = length ms /\
    Forall (fun x => reads n d x.1.2 x.2) fs /\
    field_val <$> fs = List.map (fun kv => (bytes_of kv.1, ([], any_val kv.2))) ms /\ (field_text <$> fs).*1 = ms.*1.
Proof.
  induction 1 as [|[k v] ms (Hu & t & n & Et & Hr) _ (fs & m & Efs & Hlen & Hrs & Hv & Hk)]; [by exists [], 0|].
  cbn [fst snd] in *. exists ((k, t, any_val v) :: fs), (n + m).
  assert (Hm : mapM member_text_of ((k, v) :: ms) = (y ← member_text_of (k, v); l ← mapM member_text_of ms; Some (y :: l))) by done.
  rewrite Hm, Efs. change (member_text_of (k, v)) with (t ← any_text v; Some (k, t)). rewrite Et. split; [done|].
  split; [cbn; by rewrite Hlen|]. split; [|split].
  - constructor; [eapply reads_more; [|exact Hr]; lia|]. eapply Forall_impl; [exact Hrs|]. intros x. apply reads_more. lia.
  - cbn [fmap list_fmap List.map fst snd]. rewrite <- Hv. unfold field_val at 1. cbn [fst snd]. by rewrite is_utf8_fixed.
  - cbn [fmap list_fmap field_text fst]. by rewrite <- Hk.
Qed.

Lemma any_reads d v : fits d v -> exists t n, any_text v = Some t /\ reads n d t (any_val v).
Proof.
  revert d; induction v as [|s|b|z|f|l IH|ms IH] using any_nested; intros d Hf.
  - eexists _, 1. split; [done|]. apply reads_name; done.
  - eexists _, 1. split; [done|]. cbn [any_val fits] in *. rewrite <- (is_utf8_fixed _ Hf). apply reads_string.
  - eexists _, 1. split; [done|]. apply reads_name; by destruct b.
  - done.
  - destruct Hf as [Hok Hi]. destruct (FormatJSON_total f Hok Hi) as [t Et]. exists (bytes_of t), 1. cbn [any_text any_val]. rewrite Et.
    split; [done|]. destruct (FormatJSON_spells f t Hok Et) as (neg & i & fd & ex & Hn & E & _).
    change (default [] (bytes_of <$> Some t)) with (bytes_of t). rewrite E. by apply reads_number.
  - apply fits_list in Hf as [Hd Hl]. destruct (reads_elements (d + 1) l) as (ts & n & Ets & Hlen & Hrs).
    { rewrite Forall_forall in *. intros v Hv. by apply IH, Hl. }
    rewrite any_text_list, Ets. eexists _, _. split; [done|]. cbn [any_val].
    pose proof (reads_arr n d _ Hrs Hd) as Hr. rewrite fst_zip, snd_zip in Hr by (rewrite length_map; lia). exact Hr.
  - apply fits_map in Hf as (Hd & Hs & Hm). destruct (reads_fields (d + 1) ms) as (fs & n & Efs & Hlen & Hrs & Hv & Hk).
    { rewrite Forall_forall in *. intros kv Hkv. split; [apply (Hm _ Hkv)|]. apply (IH _ Hkv), (Hm _ Hkv). }
    rewrite any_text_map, Efs. cbn [fmap option_fmap option_map any_val]. rewrite sort_keys_id by (unfold sorted_keys; by rewrite Hk).
    rewrite <- Hv. destruct fs as [|x fs]; [by exists (obj []), 1; split; [|apply reads_empty_obj]|].
    eexists _, _. split; [done|]. by apply (reads_obj n).
Qed.

(** ** Maps *)

(** The keys and values of an object the decoder made. *)
Definition any_obj (m : anymap) : Prop := forall k v, m !! k = Some v -> is_utf8 (bytes_of k) /\ fits 1 v.

Lemma UnmarshalMap_obj b m : UnmarshalMap b = Ok (Some m) -> any_obj m.
Proof.
  unfold UnmarshalMap. destruct (parse b) as [[| | | | |ms]|] eqn:Ep; try done.
  destruct (to_any (JObj ms)) as [[| | | | | |l]|] eqn:Et; try done. intros [= <-] k v Hk.
  unfold parse, parse_with in Ep. destruct (value _ 0 (skip_ws b)) as [[w r]|] eqn:E; [|done]. cbn in Ep.
  destruct (skip_ws r); [|done]. injection Ep as ->. apply (proj1 (value_good _)) in E. specialize (E _ Et).
  apply fits_map in E as (_ & _ & Hall). apply elem_of_list_to_map_2 in Hk. rewrite Forall_forall in Hall. exact (Hall _ Hk).
Qed.

Lemma MarshalMap_reads m : any_obj m -> exists b, MarshalMap (Some m) = Ok b /\ b <> [] /\ UnmarshalMap b = Ok (Some m).
Proof.
  intros Hm. set (l := sort_keys (map_to_list m)).
  assert (Hp : l ≡ₚ map_to_list m) by apply sort_keys_perm, NoDup_fst_map_to_list.
  assert (Hf : fits 0 (VMap l)).
  { apply fits_map. split; [done|]. split; [apply sort_keys_sorted|]. rewrite Hp. apply Forall_forall. intros [k v] Hkv.
    apply Hm. by apply elem_of_map_to_list. }
  destruct (any_reads 0 (VMap l) Hf) as (t & n & Et & Hr).
  assert (Etext : any_text (VMap (map_to_list m)) = Some t).
  { rewrite any_text_map in Et |- *. apply fits_map in Hf as (_ & Hs & _). fold l in Hs.
    assert (Hsort : forall ms : list (string * any), Forall (fun kv => is_Some (any_text kv.2)) ms ->
      exists ts, mapM member_text_of ms = Some ts /\ ts = prod_map id (fun v => default [] (any_text v)) <$> ms).
    { induction 1 as [|[k v] ms [x Hx] _ (ts & Ets & ->)]; [by eexists|]. eexists. split; [|done]. cbn in *. rewrite Hx.
      cbn. by rewrite Ets. }
    assert (Hall : Forall (fun kv => is_Some (any_text kv.2)) (map_to_list m)).
    { apply Forall_forall. intros [k v] Hkv%elem_of_map_to_list. destruct (any_reads 1 v (proj2 (Hm k v Hkv))) as (x & _ & Hx & _). by exists x. }
    destruct (Hsort (map_to_list m) Hall) as (ts & Ets & Hts). destruct (Hsort l) as (ts' & Ets' & Hts'); [by rewrite Hp|].
    rewrite Ets' in Et. rewrite Ets. cbn in Et |- *. rewrite <- Et. do 2 f_equal. rewrite Hts, Hts', !sort_keys_fmap.
    f_equal. symmetry. apply sort_keys_id. exact Hs. }
  exists t. unfold MarshalMap. rewrite Etext. split; [done|]. pose proof Hr as [(c & t' & -> & _) _]. split; [done|].
  destruct (reads_parse n _ _ Hr) as (w & Ew & Hw). apply erase_to_any in Hw. rewrite (any_val_decoded 0 _ Hf) in Hw.
  unfold UnmarshalMap. rewrite Ew. destruct w as [| |lit| |vs|ms]; try done.
  - cbn in Hw. by destruct (is_inf _).
  - rewrite to_any_arr in Hw. by destruct (mapM to_any vs).
  - rewrite Hw. do 2 f_equal. rewrite (list_to_map_proper l (map_to_list m)); [apply list_to_map_to_list| |done].
    rewrite Hp. apply NoDup_fst_map_to_list.
Qed.
