(* ===== verification/JsonTime.v ===== *)
(** * [time.Time.UnmarshalJSON]

    Reading a time back from its RFC 3339 text ([parseRFC3339] of package
    [time]), and the theorem that what [MarshalJSON] writes is read back. *)

From Stdlib Require Import ZArith Lia Ascii String.
From stdpp Require Import base tactics numbers strings gmap list.
From S2P Require Import Prelude GoStrings GoUtf8 GoFloat GoTime GoCrypto Message Json JsonDecode JsonEncode JsonCompact JsonEnvelope JsonNumber.

Module jsontime.
Import json jsondec jsonmsg.
Local Open Scope Z_scope.

(** ** Dates *)

Definition daysIn (month year : Z) : Z := nth (Z.to_nat (month - 1)) (time.month_lengths (time.is_leap year)) 0.

Definition sum (l : list Z) : Z := foldr Z.add 0 l.

(** The day number of a date. *)
Definition day_of (year month day : Z) : Z :=
  time.days_before_year year + sum (take (Z.to_nat (month - 1)) (time.month_lengths (time.is_leap year))) + day - 1.

(** ** [parseRFC3339] *)

(** Decimal digits only, in the range. *)
Definition parseUint (lo hi : Z) (s : bytes) : option Z :=
  if forallb is_digit s then
    let x := digits_num 0 s in
    if (lo <=? x) && (x <=? hi) then Some x else None
  else None.

(** A point and digits, of which nine count. *)
Definition parse_frac (s : bytes) : Z * bytes :=
  match s with
  | c :: s' =>
      if Ascii.eqb c "." then
        match take_digits s' with
        | ([], _) => (0, s)
        | (ds, r) => let ds := take 9 ds in (digits_num 0 ds * 10 ^ (9 - Z.of_nat (length ds)), r)
        end
      else (0, s)
  | [] => (0, [])
  end.

(** The offset in seconds. *)
Definition parse_zone (s : bytes) : option Z :=
  match s with
  | [z] => if Ascii.eqb z "Z" then Some 0 else None
  | [sg; h1; h2; c; m1; m2] =>
      hr ← parseUint 0 23 [h1; h2];
      mm ← parseUint 0 59 [m1; m2];
      if (Ascii.eqb sg "-" || Ascii.eqb sg "+") && Ascii.eqb c ":" then
        let off := (hr * 60 + mm) * 60 in Some (if Ascii.eqb sg "-" then - off else off)
      else None
  | _ => None
  end.

Definition parseRFC3339 (s : bytes) : option Time :=
  match s with
  | y1 :: y2 :: y3 :: y4 :: c1 :: m1 :: m2 :: c2 :: d1 :: d2 :: c3 :: h1 :: h2 :: c4 :: n1 :: n2 :: c5 :: s1 :: s2 :: rest =>
      year ← parseUint 0 9999 [y1; y2; y3; y4];
      month ← parseUint 1 12 [m1; m2];
      day ← parseUint 1 (daysIn month year) [d1; d2];
      hour ← parseUint 0 23 [h1; h2];
      min ← parseUint 0 59 [n1; n2];
      sec ← parseUint 0 59 [s1; s2];
      if Ascii.eqb c1 "-" && Ascii.eqb c2 "-" && Ascii.eqb c3 "T" && Ascii.eqb c4 ":" && Ascii.eqb c5 ":" then
        let '(nsec, rest) := parse_frac rest in
        off ← parse_zone rest;
        Some (MkTime ((day_of year month day * 86400 + hour * 3600 + min * 60 + sec - off) * 1000000000 + nsec) off)
      else None
  | _ => None
  end.

(** The text of a JSON value; null leaves the time. *)
Definition decode_time (v : jval) (old : Time) : Time * bool :=
  match v with
  | JNull => (old, true)
  | JStr s => match parseRFC3339 s with Some t => (t, true) | None => (old, false) end
  | _ => (old, false)
  end.

Example times_read :
  parseRFC3339 (bytes_of "0001-01-01T00:00:00Z") = Some (MkTime 0 0) /\
  parseRFC3339 (bytes_of "2024-02-28T20:01:01.12-05:00")
    = Some (MkTime ((738944 * 86400 + 3661) * 1000000000 + 120000000) (-18000)) /\
  parseRFC3339 (bytes_of "2023-02-29T00:00:00Z") = None.
Proof. vm_compute. repeat split. Qed.
End jsontime.

Import json jsondec jsonmsg jsontime.
Local Open Scope Z_scope.

(** ** Dates are read back *)

(** Days of the year stay in the year. *)
Lemma yday_bound d : let '(y, yday) := time.year_yday d in 0 <= yday < sum (time.month_lengths (time.is_leap y)).
Proof.
  unfold time.year_yday. cbn zeta. set (n400 := d / 146097). set (d1 := d mod 146097).
  assert (Hd : 0 <= d1 < 146097) by (unfold d1; Z.to_euclidean_division_equations; lia).
  set (n100 := Z.min (d1 / 36524) 3).
  assert (H100 : 0 <= n100 <= 3 /\ 0 <= d1 - 36524 * n100 <= 36524 /\ (n100 < 3 -> d1 - 36524 * n100 < 36524))
    by (unfold n100; Z.to_euclidean_division_equations; lia).
  set (d2 := d1 - 36524 * n100) in *. set (n4 := d2 / 1461). set (d3 := d2 mod 1461).
  assert (H4 : d2 = 1461 * n4 + d3 /\ 0 <= d3 < 1461 /\ 0 <= n4 <= 24)
    by (unfold n4, d3; Z.to_euclidean_division_equations; lia).
  set (n1 := Z.min (d3 / 365) 3).
  assert (H1 : 0 <= n1 <= 3 /\ 0 <= d3 - 365 * n1 <= 365 /\ (d3 - 365 * n1 = 365 -> n1 = 3 /\ d3 = 1460))
    by (unfold n1; Z.to_euclidean_division_equations; lia).
  set (y := 400 * n400 + 100 * n100 + 4 * n4 + n1 + 1).
  assert (Hlen : sum (time.month_lengths (time.is_leap y)) = if time.is_leap y then 366 else 365)
    by (by destruct (time.is_leap y)).
  rewrite Hlen. destruct (decide (d3 - 365 * n1 = 365)) as [E|]; [|destruct (time.is_leap y); lia].
  destruct H1 as (_ & _ & H1). destruct (H1 E) as [En Ed].
  assert (time.is_leap y = true) as ->; [|lia].
  assert (M4 : y mod 4 = 0) by (symmetry; apply (Z.mod_unique _ _ (100 * n400 + 25 * n100 + n4 + 1)); unfold y; lia).
  unfold time.is_leap. rewrite M4. cbn [Z.eqb andb]. destruct (decide (n4 = 24)) as [E4|Hn4].
  - assert (n100 = 3) by lia. assert (M400 : y mod 400 = 0) by (symmetry; apply (Z.mod_unique _ _ (n400 + 1)); unfold y; lia).
    rewrite M400. by rewrite orb_true_r.
  - assert (M100 : y mod 100 = 4 * n4 + 4) by (symmetry; apply (Z.mod_unique _ _ (4 * n400 + n100)); unfold y; lia).
    rewrite M100. destruct (Z.eqb_spec (4 * n4 + 4) 0); [lia|done].
Qed.

Lemma month_day_sum m lens yd : 0 <= yd < sum lens ->
  exists k, (k < length lens)%nat /\ time.month_day m lens yd = (m + Z.of_nat k, yd - sum (take k lens) + 1) /\
    0 <= yd - sum (take k lens) < nth k lens 0.
Proof.
  revert m yd; induction lens as [|l lens IH]; intros m yd; cbn [sum foldr time.month_day]; [lia|]. fold (sum lens).
  intros Hy. destruct (Z.ltb_spec yd l).
  - exists 0%nat. cbn. split; [lia|]. split; [f_equal; lia|lia].
  - destruct (IH (m + 1) (yd - l)) as (k & Hk & E & Hr); [lia|]. exists (S k). cbn [length take nth sum foldr].
    fold (sum (take k lens)). rewrite E. split; [lia|]. split; [f_equal; lia|lia].
Qed.

Lemma civil_day d : let '(y, m, day) := time.civil d in
  day_of y m day = d /\ 1 <= m <= 12 /\ 1 <= day <= daysIn m y.
Proof.
  unfold time.civil. pose proof (time.year_yday_days d) as Hd. pose proof (yday_bound d) as Hb.
  destruct (time.year_yday d) as [y yday]. destruct (month_day_sum 1 _ _ Hb) as (k & Hk & -> & Hr).
  unfold day_of, daysIn. replace (1 + Z.of_nat k - 1) with (Z.of_nat k) by lia. rewrite Nat2Z.id.
  assert (k < 12)%nat by (by destruct (time.is_leap y)). lia.
Qed.

(** ** Numbers are read back *)

(** A number of at most [k] digits. *)
Lemma fixed_digits_uint k n lo hi : 0 <= n < 10 ^ Z.of_nat k -> lo <= n <= hi ->
  parseUint lo hi (bytes_of (fixed_digits k n)) = Some n.
Proof.
  intros Hn Hr. unfold parseUint. destruct (fixed_digits_num k n 0) as (-> & _ & ->); [lia|].
  rewrite Z.mod_small, Z.mul_0_l, Z.add_0_l by lia.
  rewrite (proj2 (Z.leb_le lo n)), (proj2 (Z.leb_le n hi)) by lia. done.
Qed.

Lemma two_digits n : 0 <= n < 100 -> Sprintf_0d 2 n = fixed_digits 2 n.
Proof.
  intros Hn. assert (Hall : forallb (fun k => String.eqb (Sprintf_0d 2 k) (fixed_digits 2 k)) (seqZ 0 100) = true) by (vm_compute; reflexivity).
  rewrite forallb_forall in Hall. apply String.eqb_eq, Hall. apply list_elem_of_In, elem_of_seqZ. lia.
Qed.

Lemma four_digits n : 0 <= n < 10000 -> Sprintf_0d 4 n = fixed_digits 4 n.
Proof.
  intros Hn. assert (Hall : forallb (fun k => String.eqb (Sprintf_0d 4 k) (fixed_digits 4 k)) (seqZ 0 10000) = true) by (vm_compute; reflexivity).
  rewrite forallb_forall in Hall. apply String.eqb_eq, Hall. apply list_elem_of_In, elem_of_seqZ. lia.
Qed.

Lemma frac_read ns rest : 0 <= ns ->
  match rest with c :: _ => is_digit c = false /\ Ascii.eqb c "." = false | [] => False end ->
  parse_frac (bytes_of (fmtFrac ns 9) ++ rest) = (ns mod 1000000000, rest).
Proof.
  intros Hns Hrest. unfold fmtFrac. change (10 ^ Z.of_nat 9) with 1000000000.
  pose proof (Z.mod_pos_bound ns 1000000000 ltac:(lia)) as Hm. set (f := ns mod 1000000000) in *.
  destruct (trim_zeros 9 f) as [k g] eqn:Et. destruct (time.trim_zeros_spec 9 f k g Hm Et) as (Hk & Hf & Hg & Hpos).
  destruct k as [|k].
  - cbn [list_ascii_of_string app]. destruct rest as [|c rest]; [done|]. cbn [parse_frac]. destruct Hrest as [_ ->].
    f_equal. change (10 ^ Z.of_nat 0) with 1 in Hg. lia.
  - cbn [list_ascii_of_string app parse_frac]. change (Ascii.eqb "." ".") with true. cbn iota.
    destruct (fixed_digits_num (S k) g 0) as (Hd & Hl & Hn); [lia|].
    rewrite take_digits_stops by (done || (destruct rest; [done|apply Hrest])).
    destruct (bytes_of (fixed_digits (S k) g)) as [|c0 ds] eqn:Eds; [done|]. rewrite <- Eds in *. cbn zeta.
    rewrite take_ge by lia. rewrite Hl, Hn, Z.mod_small by lia. f_equal. rewrite Hf. f_equal. f_equal. lia.
Qed.

Lemma zone_read off : Z.abs (Z.quot off 60) / 60 < 24 -> parse_zone (bytes_of (zone_text off)) = Some (60 * Z.quot off 60).
Proof.
  intros Hz. unfold zone_text. destruct (Z.eqb_spec off 0) as [->|Hne]; [done|]. set (z := Z.quot off 60) in *.
  assert (Hh : 0 <= Z.abs z / 60 < 24) by (split; [apply Z.div_pos; lia|done]).
  assert (Hm : 0 <= Z.abs z mod 60 < 60) by (apply Z.mod_pos_bound; lia).
  rewrite !list_ascii_app, !two_digits by lia.
  pose proof (fixed_digits_uint 2 (Z.abs z / 60) 0 23 ltac:(cbn; lia) ltac:(lia)) as Eh.
  pose proof (fixed_digits_uint 2 (Z.abs z mod 60) 0 59 ltac:(cbn; lia) ltac:(lia)) as Em.
  cbn [fixed_digits list_ascii_of_string] in Eh, Em |- *.
  pose proof (Z.div_mod (Z.abs z) 60 ltac:(lia)).
  destruct (Z.ltb_spec z 0); cbn [list_ascii_of_string app parse_zone]; rewrite Eh; cbn [mbind option_bind]; rewrite Em;
    cbn [mbind option_bind]; change (Ascii.eqb ":" ":") with true; cbn; f_equal; lia.
Qed.

Lemma zone_head off : exists c r, bytes_of (zone_text off) = c :: r /\ is_digit c = false /\ Ascii.eqb c "." = false.
Proof.
  unfold zone_text. destruct (off =? 0); [by eexists _, _|]. cbn zeta. rewrite list_ascii_app.
  destruct (_ <? 0); by eexists _, _.
Qed.

(** What comes back: the same clock in a zone of whole minutes.  Where the
    offset has no seconds, that is the same instant in the same zone. *)
Definition canon_time (t : Time) : Time :=
  let off := 60 * Z.quot (t_offset t) 60 in MkTime (local_ns t - off * 1000000000) off.

Lemma canon_time_exact t : (60 | t_offset t) -> canon_time t = t.
Proof.
  intros [k Hk]. destruct t as [ns off]. cbn in Hk. subst off. unfold canon_time, local_ns. cbn [t_ns t_offset].
  rewrite Z.quot_mul by lia. f_equal; lia.
Qed.

Lemma clock_sum s : s / 3600 * 3600 + s / 60 mod 60 * 60 + s mod 60 = s.
Proof. Z.to_euclidean_division_equations; lia. Qed.

Theorem rfc3339_reads_back t : time_ok t = true -> parseRFC3339 (bytes_of (rfc3339nano t)) = Some (canon_time t).
Proof.
  unfold time_ok, rfc3339nano, time.format_date. cbn zeta. set (l := local_ns t).
  pose proof (civil_day (l / ns_per_day)) as Hc. destruct (time.civil (l / ns_per_day)) as [[y m] d].
  destruct Hc as (Hday & Hm & Hd). rewrite !andb_true_iff, !Z.leb_le, Z.ltb_lt. intros [[Hy0 Hy1] Hz].
  assert (Hn : 0 <= l mod ns_per_day < ns_per_day) by (by apply Z.mod_pos_bound).
  pose proof (Z.div_mod l ns_per_day ltac:(done)) as Hl.
  set (ns := l mod ns_per_day) in *. set (s := ns / 1000000000).
  assert (Hs : 0 <= s < 86400) by (unfold s, ns_per_day in *; Z.to_euclidean_division_equations; lia).
  assert (Hd31 : daysIn m y <= 31).
  { unfold daysIn. destruct (time.is_leap y);
    by destruct (Z.to_nat (m - 1)) as [|[|[|[|[|[|[|[|[|[|[|[|[|?]]]]]]]]]]]]]. }
  assert (H3 : 0 <= s / 3600 < 24 /\ 0 <= s / 60 mod 60 < 60 /\ 0 <= s mod 60 < 60)
    by (Z.to_euclidean_division_equations; lia).
  destruct H3 as (Hh & Hmi & Hse).
  rewrite !list_ascii_app, four_digits, !two_digits by lia.
  pose proof (fixed_digits_uint 4 y 0 9999 ltac:(cbn; lia) ltac:(lia)) as Ey.
  pose proof (fixed_digits_uint 2 m 1 12 ltac:(cbn; lia) ltac:(lia)) as Em.
  pose proof (fixed_digits_uint 2 d 1 (daysIn m y) ltac:(cbn; lia) ltac:(lia)) as Ed.
  pose proof (fixed_digits_uint 2 (s / 3600) 0 23 ltac:(cbn; lia) ltac:(lia)) as Eh.
  pose proof (fixed_digits_uint 2 (s / 60 mod 60) 0 59 ltac:(cbn; lia) ltac:(lia)) as Emi.
  pose proof (fixed_digits_uint 2 (s mod 60) 0 59 ltac:(cbn; lia) ltac:(lia)) as Ese.
  pose proof (frac_read ns (bytes_of (zone_text (t_offset t)))) as Ef. pose proof (zone_read _ Hz) as Ez.
  destruct (zone_head (t_offset t)) as (zc & zr & Ezt & Hzc). rewrite Ezt in Ef, Ez |- *.
  specialize (Ef ltac:(lia) Hzc). cbn [fixed_digits list_ascii_of_string app] in *. cbn [parseRFC3339].
  rewrite Ey; cbn [mbind option_bind]. rewrite Em; cbn [mbind option_bind]. rewrite Ed; cbn [mbind option_bind].
  rewrite Eh; cbn [mbind option_bind]. rewrite Emi; cbn [mbind option_bind]. rewrite Ese; cbn [mbind option_bind].
  cbn [Ascii.eqb Bool.eqb andb]. rewrite Ef, Ez. cbn [mbind option_bind]. f_equal. unfold canon_time. f_equal.
  rewrite Hday. fold l. pose proof (clock_sum s). unfold ns_per_day in Hl |- *.
  pose proof (Z.div_mod ns 1000000000 ltac:(done)) as Hns. fold s in Hns. lia.
Qed.
