(* ===== verification/Wal.v ===== *)
(** * Package [wal] (internal/wal/wal.go): the operations

    The disk-based write-ahead log.  A [Writer] appends one JSON line per
    entry to the active segment [wal-NNNNNN.log] through a 64 KiB buffer,
    starts a new segment when the active one is full, and replays and deletes
    the sealed ones.  The state of a call is the [Writer] with the directory
    it works on; every method that takes [w.mu] is one atomic call, and
    [replaySealedSegments], which takes it only to read the active name, is
    given by the parts between which other calls may run. *)

From Stdlib Require Import ZArith Lia Ascii String.
From stdpp Require Import base tactics numbers strings gmap list sorting.
From S2P Require Import Prelude GoStrings GoOs Message.

Module wal.
Local Open Scope go_scope.

(** ** Data *)

Definition hardReplayLineCap : Z := Z.shiftl 64 20.
Definition Millisecond : Z := 1000000.
Definition Second : Z := 1000 * Millisecond.

Record Config := MkConfig {
  Dir : string;
  MaxSegmentBytes : Z;
  MaxSegments : Z;
  SyncInterval : Z;
}.

Definition DefaultConfig : Config :=
  MkConfig "data/wal" (Z.shiftl 64 20) 10 (100 * Millisecond).

Record Entry := MkEntry {
  Sequence : Z;
  Project : string;
  Router : string;
  Data : RawMessage;
  RequestID : string;
  TraceID : string;
  Timestamp : Time;
  Env : string;
}.

(** What the log needs of [encoding/json]: [Marshal] of an entry gives a
    non-empty line without line breaks.  [Unmarshal] reads it back when the
    entry is [readable], up to the normalisation [canon] the encoder performs
    (compacted data, invalid UTF-8 replaced).  [json_codec] is the
    instance with the encoder and the decoder of the standard library. *)
Class EntryCodec := {
  marshal : Entry -> result bytes;
  unmarshal : bytes -> option Entry;
  canon : Entry -> Entry;
  readable : Entry -> Prop;
  marshal_no_panic e p : marshal e <> Panic p;
  marshal_line e b : marshal e = Ok b -> ("010"%char ∉ b) /\ b <> [] /\ last b <> Some "013"%char;
  marshal_unmarshal e b : readable e -> marshal e = Ok b -> unmarshal b = Some (canon e);
}.

(** The fields of [Writer]; [stopCh], [replayStop] and the ticker as the
    state the code can observe of them. *)
Record Writer := MkWriter {
  cfg : Config;
  seq : Z;                        (* uint64 *)
  activeSeg : option nat;         (* *os.File *)
  activeBuf : option BufWriter;
  activeSize : Z;                 (* int64 *)
  activeName : string;
  stopClosed : bool;              (* stopCh is closed *)
  syncTicker : option bool;       (* nil, or whether it is running *)
  closeOnce : bool;
  replayOnce : bool;
  replayStop : option bool;       (* nil, or whether it is closed *)
}.

Record WalSt := MkWalSt { wr : Writer; fs : FS }.

Definition set_active (f : option nat) (b : option BufWriter) (w : Writer) : Writer :=
  MkWriter (cfg w) (seq w) f b (activeSize w) (activeName w) (stopClosed w)
           (syncTicker w) (closeOnce w) (replayOnce w) (replayStop w).
Definition set_size (n : Z) (w : Writer) : Writer :=
  MkWriter (cfg w) (seq w) (activeSeg w) (activeBuf w) n (activeName w) (stopClosed w)
           (syncTicker w) (closeOnce w) (replayOnce w) (replayStop w).
Definition set_name (n : string) (w : Writer) : Writer :=
  MkWriter (cfg w) (seq w) (activeSeg w) (activeBuf w) (activeSize w) n (stopClosed w)
           (syncTicker w) (closeOnce w) (replayOnce w) (replayStop w).
Definition set_seq (n : Z) (w : Writer) : Writer :=
  MkWriter (cfg w) n (activeSeg w) (activeBuf w) (activeSize w) (activeName w) (stopClosed w)
           (syncTicker w) (closeOnce w) (replayOnce w) (replayStop w).
Definition set_stop (stopped : bool) (t : option bool) (once : bool) (r : option bool)
    (w : Writer) : Writer :=
  MkWriter (cfg w) (seq w) (activeSeg w) (activeBuf w) (activeSize w) (activeName w) stopped
           t once (replayOnce w) r.
Definition set_replay (w : Writer) : Writer :=
  MkWriter (cfg w) (seq w) (activeSeg w) (activeBuf w) (activeSize w) (activeName w) (stopClosed w)
           (syncTicker w) (closeOnce w) true (Some false).

(** Calls on the directory and on the active buffer. *)
Definition onFS {A} : St FS A -> St WalSt A := zoom fs (fun f s => MkWalSt (wr s) f).
Definition modW (f : Writer -> Writer) : St WalSt unit :=
  modify (fun s => MkWalSt (f (wr s)) (fs s)).
Definition getW : St WalSt Writer := fun s => (Ok (wr s), s).

Definition onBuf {A} (m : St (BufWriter * FS) A) : St WalSt A := fun s =>
  match activeBuf (wr s) with
  | None => (Panic "nil pointer dereference", s)
  | Some b =>
      let '(r, (b', fs')) := m (b, fs s) in
      (r, MkWalSt (set_active (activeSeg (wr s)) (Some b') (wr s)) fs')
  end.

(** A method of the active file; [os.File] methods on nil return an error. *)
Definition onSeg {A} (m : nat -> St FS A) : St WalSt A := fun s =>
  match activeSeg (wr s) with
  | None => (Err (SysError "invalid argument"), s)
  | Some f => onFS (m f) s
  end.

(** ** Segment files *)

(** [!e.IsDir() && HasPrefix(e.Name(), "wal-") && HasSuffix(e.Name(), ".log")]. *)
Definition is_segment (e : string * dirent) : bool :=
  negb (bool_decide (e.2 = DDir)) && HasPrefix e.1 "wal-" && HasSuffix e.1 ".log".

(** [Atoi] of the name without the prefix and the suffix. *)
Definition segment_num (name : string) : option Z :=
  Atoi (TrimSuffix (TrimPrefix name "wal-") ".log").

(** [fmt.Sprintf("wal-%06d.log", segNum)]. *)
Definition segment_name (n : Z) : string := "wal-" +:+ Sprintf_0d 6 n +:+ ".log".

Definition max_num (entries : list (string * dirent)) : Z :=
  foldl (fun maxNum e =>
    if is_segment e then
      match segment_num e.1 with
      | Some n => if (maxNum <? n)%Z then n else maxNum
      | None => maxNum
      end
    else maxNum) 0%Z entries.

Definition nextSegmentNum : St WalSt Z :=
  r <- attempt (onFS ReadDir) ;;
  match r with
  | Ok entries => ret (max_num entries +64 1%Z)
  | _ => ret 1%Z
  end.

(** The latest segment and its number, [("", 0)] when there is none. *)
Definition latest_segment (entries : list (string * dirent)) : string * Z :=
  foldl (fun '(latest, latestNum) e =>
    if is_segment e then
      match segment_num e.1 with
      | Some n => if (latestNum <? n)%Z then (e.1, n) else (latest, latestNum)
      | None => (latest, latestNum)
      end
    else (latest, latestNum)) (EmptyString, 0%Z) entries.

Definition openLatest : St WalSt unit :=
  entries <- onFS ReadDir ;;
  let latest := (latest_segment entries).1 in
  if String.eqb latest "" then ret tt else
  f <- wrapErr ("wal open segment " +:+ latest +:+ ": ") (onFS (OpenAppend false latest)) ;;
  info <- attempt (onFS (FileSize f)) ;;
  match info with
  | Ok size =>
      modW (set_active (Some f) (Some (MkBuf [] None f))) ;;;
      modW (set_size size) ;;;
      modW (set_name latest)
  | Err e => ignore (onFS (FileClose f)) ;;; fail e
  | Panic p => panic p
  end.

(** Only counts: when there are more than [MaxSegments] segments the surplus
    is logged and every segment is kept.  The result is that surplus. *)
Definition purgeOldSegments : St WalSt Z :=
  r <- attempt (onFS ReadDir) ;;
  w <- getW ;;
  match r with
  | Ok entries =>
      let n := Z.of_nat (length (filter is_segment entries)) in
      if (n <=? MaxSegments (cfg w))%Z then ret 0%Z else ret (n - MaxSegments (cfg w))%Z
  | _ => ret 0%Z
  end.

Definition rotate : St WalSt unit :=
  w <- getW ;;
  (if bool_decide (activeSeg w = None) then ret tt else
     onBuf BufFlush ;;; onSeg FileSync ;;; onSeg FileClose) ;;;
  segNum <- nextSegmentNum ;;
  let name := segment_name segNum in
  f <- wrapErr ("wal create segment " +:+ name +:+ ": ") (onFS (OpenAppend true name)) ;;
  modW (set_active (Some f) (Some (MkBuf [] None f))) ;;;
  modW (set_size 0) ;;;
  modW (set_name name) ;;;
  purgeOldSegments ;;;
  ret tt.

(** ** The writer *)

Definition newline : ascii := "010".

Section codec.
Context `{EntryCodec}.

Definition Write (entry : Entry) : St WalSt unit :=
  data <- wrapErr "wal marshal: " (fun s => (marshal entry, s)) ;;
  let data := data ++ [newline] in
  w <- getW ;;
  (if negb (bool_decide (activeSeg w = None)) &&
      (MaxSegmentBytes (cfg w) <? (activeSize w +64 Z.of_nat (length data)))%Z
   then wrapErr "wal rotate: " rotate else ret tt) ;;;
  w <- getW ;;
  (if bool_decide (activeSeg w = None)
   then wrapErr "wal initial rotate: " rotate else ret tt) ;;;
  n <- wrapErr "wal write: " (onBuf (BufWrite data)) ;;
  modW (fun w => set_size (activeSize w +64 n) w) ;;;
  modW (fun w => set_seq (wrapu64 (seq w + 1)) w) ;;;
  w <- getW ;;
  if (SyncInterval (cfg w) =? 0)%Z then
    wrapErr "wal flush: " (onBuf BufFlush) ;;;
    wrapErr "wal sync: " (onSeg FileSync)
  else ret tt.

Definition entry_of_message (msg : message.Message) : Entry :=
  MkEntry 0 (message.Project msg) (message.Router msg) (message.Data msg)
          (message.RequestID msg) (message.TraceID msg) (message.Timestamp msg)
          (message.Env msg).

Definition WriteMessage (msg : message.Message) : St WalSt unit :=
  Write (entry_of_message msg).
End codec.

(** One turn of [syncLoop] on a tick: errors are only logged. *)
Definition syncTick : St WalSt unit :=
  w <- getW ;;
  if bool_decide (activeBuf w = None) then ret tt else
  ignore (onBuf BufFlush) ;;;
  if bool_decide (activeSeg w = None) then ret tt else ignore (onSeg FileSync).

(** [close(ch)]: closing a closed channel panics. *)
Definition close_chan (closed : bool) : St WalSt unit :=
  if closed then panic "close of closed channel" else ret tt.

Definition Close : St WalSt unit :=
  w <- getW ;;
  if closeOnce w then ret tt else
  close_chan (stopClosed w) ;;;
  (match replayStop w with Some closed => close_chan closed | None => ret tt end) ;;;
  modW (fun w => set_stop true ((fun _ => false) <$> syncTicker w) true
                   ((fun _ => true) <$> replayStop w) w) ;;;
  if bool_decide (activeSeg w = None) then ret tt else
  ignore (onBuf BufFlush) ;;;
  ignore (onSeg FileSync) ;;;
  ignore (onSeg FileClose) ;;;
  modW (set_active None None).

Definition ActiveSegmentName : St WalSt string := w <- getW ;; ret (activeName w).
Definition ActiveSegmentSize : St WalSt Z := w <- getW ;; ret (activeSize w).

Definition SegmentCount : St WalSt Z :=
  r <- attempt (onFS ReadDir) ;;
  match r with
  | Ok entries => ret (Z.of_nat (length (filter is_segment entries)))
  | _ => ret 0%Z
  end.

(** The defaults [NewWriter] fills in. *)
Definition norm_config (c : Config) : Config :=
  MkConfig (if String.eqb (Dir c) "" then "data/wal" else Dir c)
           (if (MaxSegmentBytes c <=? 0)%Z then Z.shiftl 64 20 else MaxSegmentBytes c)
           (if (MaxSegments c <=? 0)%Z then 10%Z else MaxSegments c)
           (SyncInterval c).

Definition emptyWriter (c : Config) : Writer :=
  MkWriter c 0 None None 0 "" false None false false None.

(** Run a method of the writer being built. *)
Definition withWriter (w : Writer) (m : St WalSt unit) : St FS Writer := fun f =>
  match m (MkWalSt w f) with
  | (Ok _, s) => (Ok (wr s), fs s)
  | (Err e, s) => (Err e, fs s)
  | (Panic p, s) => (Panic p, fs s)
  end.

Definition NewWriter (c : Config) : St FS Writer :=
  let c := norm_config c in
  wrapErr ("wal mkdir " +:+ Dir c +:+ ": ") MkdirAll ;;;
  w <- wrapErr "wal open: " (withWriter (emptyWriter c) openLatest) ;;
  w <- (if negb (bool_decide (activeSeg w = None)) && (0 <? activeSize w)%Z
        then wrapErr "wal seal previous active segment: " (withWriter w rotate) else ret w) ;;
  ret (if (0 <? SyncInterval c)%Z
       then set_stop (stopClosed w) (Some true) (closeOnce w) (replayStop w) w else w).

(** ** Replay *)

(** [bufio.Scanner] with [ScanLines] and an initial buffer of 64 KiB: the
    lines without their ends, and whether the scan stopped on a line that
    does not fit.  A line of [n] bytes fits when [n] is less than the larger
    of the limit and the initial buffer. *)
Definition scan_limit (maxTokenSize : Z) : Z := Z.max (Z.shiftl 64 10) maxTokenSize.

Definition dropCR (line : bytes) : bytes :=
  if bool_decide (last line = Some "013"%char) then take (length line - 1) line else line.

Fixpoint scan_lines (limit : Z) (cur : bytes) (data : bytes) : list bytes * bool :=
  match data with
  | [] =>
      if bool_decide (cur = []) then ([], false)
      else if (limit <=? Z.of_nat (length cur))%Z then ([], true) else ([dropCR cur], false)
  | c :: data' =>
      if Ascii.eqb c newline then
        if (limit <=? Z.of_nat (length cur))%Z then ([], true)
        else let '(ls, long) := scan_lines limit [] data' in (dropCR cur :: ls, long)
      else scan_lines limit (cur ++ [c]) data'
  end.

(** The tokens of a file and [scanner.Err()]. *)
Definition scan_file (limit : Z) (rd : bytes * option error) : list bytes * option error :=
  let '(ls, long) := scan_lines limit [] rd.1 in
  (ls, if long then Some ErrTooLong else rd.2).

Definition maxReplayLineBytes (maxSegmentBytes : Z) : Z :=
  if (0 <? maxSegmentBytes)%Z && (maxSegmentBytes <? hardReplayLineCap)%Z
  then maxSegmentBytes else hardReplayLineCap.

Definition invokeReplayCallback {C} (fn : Entry -> St C unit) (entry : Entry) : St C unit :=
  recovering (fun r => ErrorString ("panic: " +:+ r)) (fn entry).

Record segFile := MkSegFile { path : string; num : Z }.

Definition num_le (a b : segFile) : Prop := (num a <= num b)%Z.
#[global] Instance num_le_dec : RelDecision num_le.
Proof. intros a b. unfold num_le. apply _. Defined.

(** The segments of a listing that [keep] allows, by ascending number.
    [sort.Slice] leaves the order of equal numbers open; names of equal
    number ("wal-1.log" and "wal-000001.log") keep the listing's order. *)
Definition segments_of (keep : string -> bool) (entries : list (string * dirent)) : list segFile :=
  merge_sort num_le
    (omap (fun e => if is_segment e && keep e.1
                    then MkSegFile e.1 <$> segment_num e.1 else None) entries).

(** The candidates of a replay: every segment but the active one. *)
Definition sealed_segments (active : string) (entries : list (string * dirent)) : list segFile :=
  segments_of (fun name => negb (String.eqb (ToLower name) (ToLower active))) entries.

Definition removeSegmentFile (name : string) : St WalSt unit :=
  foldr (fun _ again =>
    r <- attempt (onFS (Remove name)) ;;
    match r with Ok _ => ret tt | _ => again end)
  (ret tt) [0; 100 * Millisecond; 500 * Millisecond]%Z.

Section replay.
Context `{EntryCodec} {C : Type} (fn : Entry -> St C unit).

Definition onWal {A} : St WalSt A -> St (WalSt * C) A := zoom fst (fun w s => (w, s.2)).
Definition onCB {A} : St C A -> St (WalSt * C) A := zoom snd (fun c s => (s.1, c)).

(** The loop over the scanned lines: the number of entries accepted and the
    error that stopped it. *)
Fixpoint replay_lines (lines : list bytes) (count : Z) : St C (Z * option error) :=
  match lines with
  | [] => ret (count, None)
  | line :: lines' =>
      if bool_decide (line = []) then replay_lines lines' count else
      match unmarshal line with
      | None => replay_lines lines' count
      | Some entry =>
          r <- attempt (invokeReplayCallback fn entry) ;;
          match r with
          | Err e => ret (count, Some (WrapError "replay entry failed: " e))
          | _ => replay_lines lines' (count +64 1%Z)
          end
      end
  end.

Definition replaySegment (name : string) : St (WalSt * C) (Z * option error) :=
  w <- onWal getW ;;
  r <- attempt (onWal (onFS (ReadFile name))) ;;
  match r with
  | Err e => ret (0%Z, Some e)
  | Panic p => panic p
  | Ok rd =>
      let '(lines, scanErr) :=
        scan_file (scan_limit (maxReplayLineBytes (MaxSegmentBytes (cfg w)))) rd in
      res <- onCB (replay_lines lines 0) ;;
      match res with
      | (count, Some e) => ret (count, Some e)
      | (count, None) => ret (count, (WrapError "wal scan: ") <$> scanErr)
      end
  end.

(** Segment by segment; the first failure ends the cycle. *)
Fixpoint replay_segments (segs : list segFile) : St (WalSt * C) unit :=
  match segs with
  | [] => ret tt
  | seg :: segs' =>
      res <- replaySegment (path seg) ;;
      match res.2 with
      | Some _ => ret tt
      | None => onWal (removeSegmentFile (path seg)) ;;; replay_segments segs'
      end
  end.

(** The part of [replaySealedSegments] after the lock was released: it works
    with the active name read before. *)
Definition replay_from (active : string) : St (WalSt * C) unit :=
  r <- attempt (onWal (onFS ReadDir)) ;;
  match r with
  | Ok entries => replay_segments (sealed_segments active entries)
  | _ => ret tt
  end.

Definition replaySealedSegments : St (WalSt * C) unit :=
  active <- onWal ActiveSegmentName ;; replay_from active.

(** [replayLoop]: a pass at once and one per tick until it is stopped. *)
Fixpoint replayLoop (ticks : nat) : St (WalSt * C) unit :=
  replaySealedSegments ;;;
  match ticks with
  | O => ret tt
  | S ticks' => replayLoop ticks'
  end.

(** [StartReplay] starts the loop at most once; the interval it runs with. *)
Definition StartReplay (interval : Z) : St WalSt (option Z) :=
  w <- getW ;;
  if replayOnce w then ret None else
  modW set_replay ;;;
  ret (Some (if (interval <=? 0)%Z then 5 * Second else interval)%Z).
End replay.

(** ** Reading everything *)

Section reader.
Context `{EntryCodec}.

Definition decode_lines (lines : list bytes) : list Entry :=
  omap (fun line => if bool_decide (line = []) then None else unmarshal line) lines.

(** The entries sent to the channel, and the error returned. *)
Definition readSegment (name : string) : St FS (list Entry * option error) :=
  r <- attempt (ReadFile name) ;;
  match r with
  | Err e => ret ([], Some e)
  | Panic p => panic p
  | Ok rd =>
      let '(lines, scanErr) := scan_file (scan_limit hardReplayLineCap) rd in
      ret (decode_lines lines, (WrapError "wal scan: ") <$> scanErr)
  end.

Fixpoint read_segments (segs : list segFile) : St FS (list Entry * option error) :=
  match segs with
  | [] => ret ([], None)
  | seg :: segs' =>
      res <- readSegment (path seg) ;;
      match res with
      | (es, Some e) => ret (es, Some (WrapError ("wal read segment " +:+ path seg +:+ ": ") e))
      | (es, None) =>
          rest <- read_segments segs' ;;
          ret (es ++ rest.1, rest.2)
      end
  end.

(** Everything the two channels deliver. *)
Definition ReadAll : St FS (list Entry * option error) :=
  r <- attempt ReadDir ;;
  match r with
  | Err e => if errors_Is e ErrNotExist then ret ([], None)
             else ret ([], Some (WrapError "wal read dir: " e))
  | Panic p => panic p
  | Ok entries => read_segments (segments_of (fun _ => true) entries)
  end.
End reader.
End wal.
