(* ===== verification/WalSegments.v ===== *)
(** * The segment files of the write-ahead log

    Facts about names, numbers and the order of segments that the writer's
    and the replayer's theorems share: a name built by [rotate] is recognised
    and its number read back, numbers handed out are new, and the segments of
    a directory come in ascending order. *)

From Stdlib Require Import ZArith Lia Ascii String.
From stdpp Require Import base tactics numbers strings gmap list sorting.
From S2P Require Import Prelude GoStrings GoOs Message Wal.

Import wal.
Local Open Scope go_scope.

(** ** Names *)

Lemma segment_num_name n : in_int64 n -> segment_num (segment_name n) = Some n.
Proof.
  intros Hn. unfold segment_num, segment_name.
  rewrite TrimPrefix_app, TrimSuffix_app. by apply Atoi_Sprintf.
Qed.

Lemma segment_name_inj n m :
  in_int64 n -> in_int64 m -> segment_name n = segment_name m -> n = m.
Proof.
  intros Hn Hm E. apply (f_equal segment_num) in E.
  rewrite !segment_num_name in E by done. congruence.
Qed.

Lemma is_segment_name n i : is_segment (segment_name n, DFile i) = true.
Proof.
  unfold is_segment, segment_name. simpl fst. simpl snd.
  rewrite HasPrefix_app, <- string_app_assoc, HasSuffix_app. done.
Qed.

Lemma is_segment_file name d : is_segment (name, d) = true -> exists i, d = DFile i.
Proof. unfold is_segment. destruct d; simpl; [eauto|done]. Qed.

(** A file the replayer would consider has a name lower-casing leaves alone,
    so the case-insensitive comparison with the active name is equality. *)
Lemma segment_plain name d n :
  is_segment (name, d) = true -> segment_num name = Some n -> ToLower name = name.
Proof.
  unfold is_segment, segment_num. simpl. intros [[_ Hp]%andb_true_iff Hs]%andb_true_iff Hn.
  apply HasPrefix_split in Hp. set (r := TrimPrefix name "wal-") in *.
  assert (Hr : HasSuffix r ".log" = true \/ TrimSuffix r ".log" = r).
  { unfold TrimSuffix. destruct (HasSuffix r ".log"); auto. }
  apply ToLower_plain. rewrite Hp, all_plain_app.
  destruct Hr as [Hr|Hr].
  - apply HasSuffix_split in Hr. rewrite Hr, all_plain_app.
    by rewrite (Atoi_plain _ _ Hn).
  - rewrite Hr in Hn. by rewrite (Atoi_plain _ _ Hn).
Qed.

Lemma segment_name_plain n : in_int64 n -> ToLower (segment_name n) = segment_name n.
Proof. intros Hn. eapply (segment_plain _ (DFile 0)); [apply is_segment_name|by apply segment_num_name]. Qed.

Lemma segment_name_nonempty n : segment_name n <> "".
Proof. done. Qed.

(** ** Directories *)

(** The listing [ReadDir] returns. *)
Definition listing (f : FS) : list (string * dirent) :=
  merge_sort name_le (map_to_list (default ∅ (fs_dir f))).

Lemma elem_of_listing f name d : (name, d) ∈ listing f <-> entry f name = Some d.
Proof.
  unfold listing, entry. rewrite merge_sort_Permutation. apply elem_of_map_to_list.
Qed.

Lemma ReadDir_Ok f l f' : ReadDir f = (Ok l, f') -> l = listing f /\ f' = tick f /\ is_Some (fs_dir f).
Proof.
  unfold ReadDir, syscall, listing. destruct (fault_now f) as [[]|]; [done|]. simpl.
  destruct (fs_dir f) eqn:E; simpl; [|done]. intros [= <- <-]. eauto.
Qed.

Lemma ReadDir_no_fault f : no_faults f -> is_Some (fs_dir f) -> ReadDir f = (Ok (listing f), tick f).
Proof.
  intros Hn [d Hd]. unfold ReadDir, syscall, fault_now, listing. rewrite Hn. simpl. by rewrite Hd.
Qed.

Lemma ReadDir_state f : (ReadDir f).2 = tick f.
Proof. unfold ReadDir, syscall. destruct (fault_now f) as [[]|]; [done|]. simpl. by destruct (fs_dir f). Qed.

(** [name] is a segment of number [n] in the directory. *)
Definition has_segment (f : FS) (name : string) (n : Z) : Prop :=
  exists d, entry f name = Some d /\ is_segment (name, d) = true /\ segment_num name = Some n.

(** ** The largest number *)

Lemma foldl_max_num_ge l a : (a <= foldl (fun maxNum e =>
    if is_segment e then
      match segment_num e.1 with
      | Some n => if (maxNum <? n)%Z then n else maxNum
      | None => maxNum
      end
    else maxNum) a l)%Z.
Proof.
  revert a; induction l as [|e l IH]; intros a; simpl; [lia|].
  etrans; [|apply IH]. repeat case_match; try lia.
Qed.

Lemma max_num_nonneg l : (0 <= max_num l)%Z.
Proof. apply foldl_max_num_ge. Qed.

Lemma max_num_upper l name d n :
  (name, d) ∈ l -> is_segment (name, d) = true -> segment_num name = Some n -> (n <= max_num l)%Z.
Proof.
  intros Hin Hs Hn. unfold max_num. generalize 0%Z.
  induction l as [|e l IH]; intros a; [by apply not_elem_of_nil in Hin|].
  apply elem_of_cons in Hin as [<-|Hin]; [|by apply IH].
  cbn [foldl fst]. rewrite Hs, Hn. etrans; [|apply foldl_max_num_ge].
  case_match eqn:E; [lia|]. apply Z.ltb_ge in E. lia.
Qed.

Lemma max_num_attained l :
  max_num l = 0%Z \/ exists name d, (name, d) ∈ l /\ is_segment (name, d) = true /\
                                    segment_num name = Some (max_num l).
Proof.
  unfold max_num.
  assert (Hg : forall a, let m := foldl (fun maxNum e =>
      if is_segment e then
        match segment_num e.1 with
        | Some n => if (maxNum <? n)%Z then n else maxNum
        | None => maxNum
        end
      else maxNum) a l in
    m = a \/ exists name d, (name, d) ∈ l /\ is_segment (name, d) = true /\ segment_num name = Some m);
    [|apply Hg].
  induction l as [|[name d] l IH]; intros a; [by left|]. cbn [foldl fst].
  destruct (is_segment (name, d)) eqn:Es; [|destruct (IH a) as [->|(x & y & ? & ?)]; [by left|];
    right; exists x, y; split; [by right|done]].
  destruct (segment_num name) as [n|] eqn:En; [|destruct (IH a) as [->|(x & y & ? & ?)]; [by left|];
    right; exists x, y; split; [by right|done]].
  case_match.
  - destruct (IH n) as [->|(x & y & ? & ?)]; [right; exists name, d; split; [by left|done]|].
    right; exists x, y; split; [by right|done].
  - destruct (IH a) as [->|(x & y & ? & ?)]; [by left|].
    right; exists x, y; split; [by right|done].
Qed.

Lemma max_num_range l : in_int64 (max_num l).
Proof.
  destruct (max_num_attained l) as [->|(x & y & _ & _ & H)]; [unfold in_int64, two63; lia|].
  by eapply Atoi_range.
Qed.

(** The latest segment is one of the largest number, when that is positive. *)
Lemma latest_segment_spec l :
  (latest_segment l).2 = max_num l /\
  ((latest_segment l).1 = "" /\ max_num l = 0%Z \/
   exists d, ((latest_segment l).1, d) ∈ l /\ is_segment ((latest_segment l).1, d) = true /\
             segment_num (latest_segment l).1 = Some (max_num l) /\ (0 < max_num l)%Z).
Proof.
  unfold latest_segment, max_num.
  set (f := fun '(latest, latestNum) e => _). set (g := fun maxNum e => _).
  assert (Hg : forall nm a, (0 <= a)%Z ->
    (foldl f (nm, a) l).2 = foldl g a l /\
    (foldl f (nm, a) l = (nm, a) \/
     exists d, ((foldl f (nm, a) l).1, d) ∈ l /\ is_segment ((foldl f (nm, a) l).1, d) = true /\
       segment_num (foldl f (nm, a) l).1 = Some (foldl g a l) /\ (0 < foldl g a l)%Z)).
  { induction l as [|[name d] l IH]; intros nm a Ha; [split; [done|by left]|].
    assert (Hstep : (f (nm, a) (name, d) = (nm, a) /\ g a (name, d) = a) \/
      exists n, f (nm, a) (name, d) = (name, n) /\ g a (name, d) = n /\
                is_segment (name, d) = true /\ segment_num name = Some n /\ (a < n)%Z).
    { unfold f, g. cbn [fst]. destruct (is_segment (name, d)); [|by left].
      destruct (segment_num name) as [n|]; [|by left].
      destruct (Z.ltb_spec a n); [right; eauto 6|by left]. }
    cbn [foldl]. destruct Hstep as [[-> ->]|(n & -> & -> & Hs & Hn & Hlt)].
    - destruct (IH nm a Ha) as [H1 [H2|(d' & H2 & H3)]]; (split; [done|]); [by left|].
      right. exists d'. split; [by right|done].
    - destruct (IH name n ltac:(lia)) as [H1 [H2|(d' & H2 & H3)]]; (split; [done|]); right.
      + exists d. rewrite H2 in *. cbn [fst snd] in *. rewrite <- H1. split; [by left|].
        split; [done|]. split; [done|lia].
      + exists d'. split; [by right|done]. }
  destruct (Hg "" 0%Z ltac:(lia)) as [H1 [H2|H2]]; split; [done| |done|by right].
  left. rewrite H2 in *. split; [done|]. by rewrite <- H1.
Qed.

(** ** The list of segments *)

Lemma elem_of_segments keep l name n :
  MkSegFile name n ∈ segments_of keep l <->
  exists d, (name, d) ∈ l /\ is_segment (name, d) = true /\ keep name = true /\
            segment_num name = Some n.
Proof.
  unfold segments_of. rewrite merge_sort_Permutation, list_elem_of_omap. split.
  - intros ([x d] & Hin & Heq). simpl in Heq.
    destruct (is_segment (x, d)) eqn:Es, (keep x) eqn:Ek; try done. simpl in Heq.
    destruct (segment_num x) eqn:En; [|done]. simplify_eq/=. eauto 6.
  - intros (d & Hin & Hs & Hk & Hn). exists (name, d). split; [done|]. simpl.
    by rewrite Hs, Hk, Hn.
Qed.

#[global] Instance num_le_trans : Transitive num_le.
Proof. unfold num_le. intros ???. lia. Qed.
#[global] Instance num_le_total : Total num_le.
Proof. unfold num_le. intros x y. lia. Qed.

Lemma segments_sorted keep l : StronglySorted num_le (segments_of keep l).
Proof. apply StronglySorted_merge_sort; apply _. Qed.

(** A directory whose segment files were all named by [rotate], numbered
    from 1 to at most [k]: what a writer leaves and finds. *)
Definition clean (k : Z) (f : FS) : Prop :=
  forall name d, entry f name = Some d -> is_segment (name, d) = true ->
    exists n, (1 <= n <= k)%Z /\ name = segment_name n.

Lemma clean_has_segment k f name n :
  clean k f -> (k < two63)%Z -> has_segment f name n -> name = segment_name n /\ (1 <= n <= k)%Z.
Proof.
  intros Hc Hk (d & He & Hs & Hn). destruct (Hc _ _ He Hs) as (m & Hm & ->).
  rewrite segment_num_name in Hn by (unfold in_int64, two63 in *; lia). by simplify_eq.
Qed.

(** The segments of a directory in order. *)
Definition seg_list (f : FS) : list segFile := segments_of (fun _ => true) (listing f).

Lemma elem_of_seg_list f name n : MkSegFile name n ∈ seg_list f <-> has_segment f name n.
Proof.
  unfold seg_list, has_segment. rewrite elem_of_segments.
  setoid_rewrite elem_of_listing. naive_solver.
Qed.

(** ** Uniqueness of the order in a clean directory *)

Lemma segments_paths_sublist keep l :
  path <$> omap (fun e => if is_segment e && keep e.1
                          then MkSegFile e.1 <$> segment_num e.1 else None) l `sublist_of` l.*1.
Proof.
  induction l as [|[x d] l IH]; [constructor|]. cbn [omap list_omap fmap list_fmap].
  destruct (is_segment _ && _); cbn; [|by constructor].
  destruct (segment_num x); cbn; by constructor.
Qed.

Lemma segments_paths_nodup keep f : NoDup (path <$> segments_of keep (listing f)).
Proof.
  unfold segments_of. rewrite (merge_sort_Permutation num_le).
  eapply sublist_NoDup; [|apply segments_paths_sublist].
  unfold listing. rewrite (merge_sort_Permutation name_le). apply NoDup_fst_map_to_list.
Qed.

Lemma segments_nodup keep f : NoDup (segments_of keep (listing f)).
Proof. eapply NoDup_fmap_1, segments_paths_nodup. Qed.

(** Sorted, duplicate-free and with the right members: there is only one. *)
Lemma segments_unique k f keep l :
  clean k f -> (k < two63)%Z -> StronglySorted num_le l -> NoDup l ->
  (forall name n, MkSegFile name n ∈ l <-> has_segment f name n /\ keep name = true) ->
  segments_of keep (listing f) = l.
Proof.
  intros Hc Hk Hs Hnd Hel.
  assert (Hel' : forall x, x ∈ segments_of keep (listing f) <-> x ∈ l).
  { intros [name n]. rewrite Hel, elem_of_segments. unfold has_segment.
    setoid_rewrite elem_of_listing. naive_solver. }
  apply (StronglySorted_unique_strong num_le); [|apply segments_sorted|done|].
  - intros [n1 k1] [n2 k2] H1%Hel' H2 Hle Hge. apply Hel in H1 as [H1 _], H2 as [H2 _].
    apply (clean_has_segment k) in H1 as [-> _], H2 as [-> _]; [|done..].
    unfold num_le in *. simpl in *. f_equal; [f_equal|]; lia.
  - apply NoDup_Permutation; [apply segments_nodup|done|done].
Qed.

Lemma StronglySorted_filter {A} (R : relation A) (P : A -> Prop) `{forall x, Decision (P x)} l :
  StronglySorted R l -> StronglySorted R (filter P l).
Proof.
  induction 1 as [|x l Hs IH Hf]; [constructor|]. rewrite filter_cons.
  case_decide; [|done]. constructor; [done|].
  rewrite Forall_forall in *. intros y Hy. apply list_elem_of_filter in Hy as [_ Hy]. auto.
Qed.

Definition path_is_not (name : string) (seg : segFile) : Prop := path seg <> name.
#[global] Instance path_is_not_dec name seg : Decision (path_is_not name seg).
Proof. unfold path_is_not. apply _. Defined.

(** A new file with a number above all others comes last. *)
Lemma seg_list_create k f f' d m i :
  clean k f -> (k < m < two63)%Z -> (1 <= m)%Z -> fs_dir f = Some d ->
  fs_dir f' = Some (<[segment_name m := DFile i]> d) ->
  seg_list f' = seg_list f ++ [MkSegFile (segment_name m) m] /\ clean m f'.
Proof.
  intros Hc Hm Hm1 Hd Hd'.
  assert (Hent : forall x, entry f' x = if decide (segment_name m = x) then Some (DFile i) else entry f x).
  { intros x. unfold entry. rewrite Hd, Hd'. simpl. by rewrite lookup_insert. }
  assert (Hm64 : in_int64 m) by (unfold in_int64, two63 in *; lia).
  assert (Hc' : clean m f').
  { intros name dd. rewrite Hent. case_decide as E.
    - intros _ _. exists m. split; [lia|done].
    - intros He Hs. destruct (Hc _ _ He Hs) as (n & Hn & ->). exists n. split; [lia|done]. }
  assert (Hnew : ~ has_segment f (segment_name m) m).
  { intros Hin. apply (clean_has_segment k) in Hin; [lia|done|lia]. }
  split; [|done]. unfold seg_list at 1.
  apply (segments_unique m); [done|lia|..].
  - apply StronglySorted_app. split; [|split; [apply segments_sorted|constructor; constructor]].
    intros [x n] y Hx Hy%list_elem_of_singleton. subst y. apply elem_of_seg_list in Hx.
    apply (clean_has_segment k) in Hx as [_ Hx]; [|done|lia]. unfold num_le. simpl. lia.
  - apply NoDup_app. split; [apply segments_nodup|]. split; [|apply NoDup_singleton].
    intros x Hx Hy%list_elem_of_singleton. subst x. by apply elem_of_seg_list in Hx.
  - intros name n. rewrite elem_of_app, elem_of_seg_list, list_elem_of_singleton.
    unfold has_segment. setoid_rewrite Hent. split.
    + intros [(dd & He & Hs & Hn)|Heq]; (split; [|done]).
      * destruct (decide (segment_name m = name)) as [<-|]; [|by eauto].
        exists (DFile i). split; [done|]. split; [apply is_segment_name|done].
      * simplify_eq. exists (DFile i). rewrite decide_True by done.
        split; [done|]. split; [apply is_segment_name|by apply segment_num_name].
    + intros [(dd & He & Hs & Hn) _]. case_decide as E.
      * right. subst name. rewrite segment_num_name in Hn by done. by simplify_eq.
      * left. eauto.
Qed.

(** Removing a file removes it from the list and nothing else. *)
Lemma seg_list_remove k f f' d name :
  clean k f -> (k < two63)%Z -> fs_dir f = Some d -> fs_dir f' = Some (delete name d) ->
  seg_list f' = filter (path_is_not name) (seg_list f) /\ clean k f'.
Proof.
  intros Hc Hk Hd Hd'.
  assert (Hent : forall x, entry f' x = if decide (name = x) then None else entry f x).
  { intros x. unfold entry. rewrite Hd, Hd'. simpl. by rewrite lookup_delete. }
  assert (Hc' : clean k f').
  { intros x dd. rewrite Hent. case_decide; [done|]. apply Hc. }
  split; [|done]. unfold seg_list at 1. apply (segments_unique k); [done|done|..].
  - apply StronglySorted_filter, segments_sorted.
  - apply NoDup_filter, segments_nodup.
  - intros x n. rewrite list_elem_of_filter, elem_of_seg_list. unfold path_is_not, has_segment.
    setoid_rewrite Hent. simpl. case_decide; naive_solver.
Qed.

(** The candidates of a replay are the segments other than the active one. *)
Lemma sealed_segments_filter k f active :
  clean k f -> (k < two63)%Z -> ToLower active = active ->
  sealed_segments active (listing f) = filter (path_is_not active) (seg_list f).
Proof.
  intros Hc Hk Ha. unfold sealed_segments. apply (segments_unique k); [done|done|..].
  - apply StronglySorted_filter, segments_sorted.
  - apply NoDup_filter, segments_nodup.
  - intros x n. rewrite list_elem_of_filter, elem_of_seg_list, Ha, (and_comm (path_is_not _ _)).
    unfold path_is_not. simpl.
    rewrite negb_true_iff, String.eqb_neq.
    assert (Hx : has_segment f x n -> ToLower x = x).
    { intros (dd & _ & Hs & Hn). by eapply segment_plain. }
    split; intros [H1 H2]; (split; [done|]); rewrite Hx in * by done; done.
Qed.
