(* ===== verification/WalRefine.v ===== *)
(** * The writer refines an append-only byte log

    On a disk whose calls succeed and a directory only writers have written
    to, the segments in order followed by the active buffer are one log of
    bytes, and [Write] appends exactly one line to it. *)

From Stdlib Require Import ZArith Lia Ascii String.
From stdpp Require Import base tactics numbers strings gmap list sorting.
From S2P Require Import Prelude GoStrings GoOs Message Wal WalSegments WalWriter.

Import wal.
Local Open Scope go_scope.

(** ** The abstraction *)

(** Everything on disk, in the order of the segments. *)
Definition disk_bytes (f : FS) : bytes :=
  concat ((fun seg => file_bytes f (path seg)) <$> seg_list f).

Definition buffered (w : Writer) : bytes :=
  match activeBuf w with Some b => b_buf b | None => [] end.

(** The log: what is on disk, then what waits in the buffer. *)
Definition wal_bytes (s : WalSt) : bytes := disk_bytes (fs s) ++ buffered (wr s).

(** No line is cut by the end of [b]. *)
Definition ends_nl (b : bytes) : Prop := b = [] \/ exists a, b = a ++ [newline].

Lemma ends_nl_app a b : ends_nl a -> ends_nl b -> ends_nl (a ++ b).
Proof.
  intros Ha [->|(c & ->)]; [by rewrite app_nil_r|]. right. exists (a ++ c). by rewrite app_assoc.
Qed.

(** What a segment holds, the unwritten part of the active one included. *)
Definition seg_content (s : WalSt) (name : string) : bytes :=
  file_bytes (fs s) name ++
  (if decide (activeSeg (wr s) <> None /\ name = activeName (wr s)) then buffered (wr s) else []).

Definition bound : Z := 2 ^ 61.

Record healthy (k : Z) (s : WalSt) : Prop := {
  hl_wf : wf s;
  hl_faults : no_faults (fs s);
  hl_dir : is_Some (fs_dir (fs s));
  hl_clean : clean k (fs s);
  hl_nodir : forall n, entry (fs s) (segment_name n) <> Some DDir;
  hl_max : (MaxSegmentBytes (cfg (wr s)) <= bound)%Z;
  hl_active : forall f, activeSeg (wr s) = Some f ->
    exists i b n, fd_ino f (fs s) = Some i /\ activeBuf (wr s) = Some b /\ b_err b = None /\
      activeName (wr s) = segment_name n /\ (1 <= n <= k)%Z /\
      (forall name m, has_segment (fs s) name m -> (m <= n)%Z) /\
      activeSize (wr s) = Z.of_nat (length (ino_data i (fs s) ++ b_buf b)) /\
      (activeSize (wr s) <= bound)%Z;
  hl_aligned : forall name n, has_segment (fs s) name n -> ends_nl (seg_content s name);
}.

(** ** The active segment is the last one *)

Lemma last_segment k f name n :
  clean k f -> (k < two63)%Z -> has_segment f name n ->
  (forall name' m, has_segment f name' m -> (m <= n)%Z) ->
  exists front, seg_list f = front ++ [MkSegFile name n] /\
    (forall seg, seg ∈ front -> path seg <> name).
Proof.
  intros Hc Hk Hs Hmax. pose proof (proj2 (elem_of_seg_list _ _ _) Hs) as Hin.
  apply list_elem_of_split in Hin as (l1 & l2 & El).
  assert (Hnd : NoDup (path <$> seg_list f)) by apply segments_paths_nodup.
  pose proof (segments_sorted (fun _ => true) (listing f)) as Hsort. fold (seg_list f) in Hsort.
  destruct l2 as [|[name' m] l2].
  - exists l1. split; [done|]. intros [x y] Hx Hp. simpl in Hp. subst x.
    rewrite El, fmap_app in Hnd. apply NoDup_app in Hnd as (_ & Hnd & _).
    apply (Hnd name); [apply list_elem_of_fmap; by exists (MkSegFile name y)|by left].
  - exfalso. assert (Hs' : has_segment f name' m).
    { apply elem_of_seg_list. rewrite El. set_solver. }
    rewrite El in Hsort. apply StronglySorted_app in Hsort as (_ & _ & Hsort).
    apply StronglySorted_cons in Hsort as [Hf _]. inversion Hf as [|?? Hle _]; subst.
    unfold num_le in Hle. simpl in Hle. specialize (Hmax _ _ Hs'). assert (m = n) by lia. subst m.
    destruct (clean_has_segment k f name n) as [-> _]; [done..|].
    destruct (clean_has_segment k f name' n) as [-> _]; [done..|].
    rewrite El, fmap_app in Hnd. apply NoDup_app in Hnd as (_ & _ & Hnd).
    apply NoDup_cons in Hnd as [Hnd _]. apply Hnd. by left.
Qed.

(** Changing only the bytes of the last segment changes only the end of the
    log. *)
Lemma disk_split k f name n i :
  fs_ok f -> clean k f -> (k < two63)%Z -> entry f name = Some (DFile i) -> name = segment_name n ->
  (1 <= n <= k)%Z -> (forall name' m, has_segment f name' m -> (m <= n)%Z) ->
  exists X, forall f', fs_dir f' = fs_dir f ->
    (forall j, j <> i -> fs_inodes f' !! j = fs_inodes f !! j) ->
    disk_bytes f' = X ++ ino_data i f'.
Proof.
  intros Hok Hc Hk He -> Hn Hmax.
  assert (Hs : has_segment f (segment_name n) n).
  { exists (DFile i). split; [done|]. split; [apply is_segment_name|].
    apply segment_num_name. unfold in_int64, two63 in *. lia. }
  destruct (last_segment _ _ _ _ Hc Hk Hs Hmax) as (front & El & Hfr).
  exists (concat ((fun seg => file_bytes f (path seg)) <$> front)). intros f' Hd Hj.
  assert (Hent : forall x, entry f' x = entry f x) by (intros; unfold entry; by rewrite Hd).
  unfold disk_bytes.
  replace (seg_list f') with (seg_list f) by (unfold seg_list, listing; by rewrite Hd).
  rewrite El, fmap_app, concat_app. f_equal.
  - f_equal. apply list_fmap_ext. intros idx seg Hseg%list_elem_of_lookup_2. unfold file_bytes.
    rewrite Hent. destruct (entry f (path seg)) as [[j|]|] eqn:Ej; try done.
    unfold ino_data. rewrite Hj; [done|]. intros ->. apply (Hfr seg Hseg).
    by eapply ok_inj.
  - simpl. rewrite app_nil_r. unfold file_bytes. by rewrite Hent, He.
Qed.

(** A new, empty last segment does not change the log. *)
Lemma disk_create k f f' d m i :
  fs_ok f -> clean k f -> (k < m < two63)%Z -> (1 <= m)%Z -> fs_dir f = Some d ->
  fs_dir f' = Some (<[segment_name m := DFile i]> d) -> fs_inodes f' !! i = Some (Inode [] 0) ->
  fs_next f <= i -> (forall j, j < fs_next f -> fs_inodes f' !! j = fs_inodes f !! j) ->
  disk_bytes f' = disk_bytes f.
Proof.
  intros Hok Hc Hm Hm1 Hd Hd' Hi Hge Hj.
  destruct (seg_list_create k f f' d m i) as [El _]; try done.
  unfold disk_bytes. rewrite El, fmap_app, concat_app. simpl.
  assert (Hent : forall x, entry f' x = if decide (segment_name m = x) then Some (DFile i) else entry f x).
  { intros x. unfold entry. rewrite Hd, Hd'. simpl. by rewrite lookup_insert. }
  replace (file_bytes f' (segment_name m)) with (@nil ascii);
    [|unfold file_bytes; rewrite Hent, decide_True by done; unfold ino_data; by rewrite Hi].
  rewrite !app_nil_r. f_equal. apply list_fmap_ext. intros idx [x y] Hseg%list_elem_of_lookup_2.
  apply elem_of_seg_list in Hseg. destruct (clean_has_segment k f x y) as [-> Hy]; [done|lia|done|].
  unfold file_bytes. simpl. rewrite Hent. case_decide as E.
  - exfalso. apply segment_name_inj in E; [lia|unfold in_int64, two63 in *; lia..].
  - destruct (entry f (segment_name y)) as [[j|]|] eqn:Ej; try done.
    unfold ino_data. rewrite Hj; [done|]. by eapply ok_dir.
Qed.

(** ** Rotation on a healthy disk *)

Lemma clean_max k f : clean k f -> (k < two63)%Z -> clean (max_num (listing f)) f /\ (max_num (listing f) <= Z.max 0 k)%Z.
Proof.
  intros Hc Hk. split.
  - intros name d He Hs. destruct (Hc _ _ He Hs) as (n & Hn & ->). exists n. split; [|done].
    split; [lia|]. eapply max_num_upper; [by apply elem_of_listing|done|].
    apply segment_num_name. unfold in_int64, two63 in *. lia.
  - destruct (max_num_attained (listing f)) as [->|(x & d & Hin & Hs & Hn)]; [lia|].
    apply elem_of_listing in Hin.
    destruct (clean_has_segment k f x (max_num (listing f))) as [_ ?]; [done..|by exists d|lia].
Qed.

Lemma FileSync_no_fault h f i : no_faults f -> fd_ino h f = Some i -> exists f', FileSync h f = (Ok tt, f').
Proof. intros Hn Hi. unfold FileSync, syscall, fault_now. rewrite Hi, Hn. by eexists. Qed.

Lemma FileClose_no_fault h f i : no_faults f -> fd_ino h f = Some i -> exists f', FileClose h f = (Ok tt, f').
Proof. intros Hn Hi. unfold FileClose, fault_now. rewrite Hi, Hn. by eexists. Qed.

Lemma seal_active_healthy k s :
  healthy k s -> exists s', seal_active s = (Ok tt, s').
Proof.
  intros Hh. unfold seal_active. case_bool_decide as Ha; [by eexists|].
  destruct (activeSeg (wr s)) as [f|] eqn:Hs; [|done]. clear Ha.
  destruct (hl_active k s Hh f Hs) as (i & b & n & Hi & Hb & He & _).
  pose proof (hl_faults k s Hh) as Hnf.
  destruct (onBuf BufFlush s) as [r1 s1] eqn:E1.
  destruct (flush_spec s r1 s1 f (hl_wf k s Hh) Hs E1)
    as (Hw1 & _ & b0 & b' & w & Hb0 & Hfd & _ & Hwr1 & Happ & _ & _).
  assert (r1 = Ok tt) as ->.
  { unfold onBuf in E1. rewrite Hb in E1. rewrite Hb in Hb0. injection Hb0 as <-.
    pose proof (BufFlush_no_fault b (fs s) i Hnf ltac:(by rewrite Hfd) He) as Hr.
    destruct (BufFlush (b, fs s)) as [? [? ?]]. simpl in Hr. by simplify_eq. }
  rewrite (bind_run_Ok _ _ _ _ _ E1).
  assert (Hs1 : activeSeg (wr s1) = Some f) by (by rewrite Hwr1).
  assert (Hi1 : fd_ino f (fs s1) = Some i) by (by rewrite (appended_fd_ino _ f _ _ _ Happ)).
  assert (Hn1 : no_faults (fs s1)).
  { intros x. rewrite (appended_fault _ _ _ _ Happ). apply Hnf. }
  destruct (onSeg FileSync s1) as [r2 s2] eqn:E2.
  destruct (sync_spec s1 r2 s2 f Hw1 Hs1 E2) as (_ & _ & Hwr2 & _ & Hf2 & Hfd2 & _).
  assert (r2 = Ok tt) as ->.
  { unfold onSeg, onFS, zoom in E2. rewrite Hs1 in E2.
    destruct (FileSync_no_fault f (fs s1) i Hn1 Hi1) as (f' & Ef). rewrite Ef in E2. by simplify_eq. }
  rewrite (bind_run_Ok _ _ _ _ _ E2).
  unfold onSeg, onFS, zoom. rewrite Hwr2, Hs1.
  destruct (FileClose_no_fault f (fs s2) i) as (f' & Ef).
  { intros x. rewrite Hf2. apply Hn1. } { by rewrite Hfd2. }
  rewrite Ef. by eexists.
Qed.

(** Sealing leaves in every file what its segment held. *)
Lemma seal_content k s s1 name q :
  healthy k s -> seal_active s = (Ok tt, s1) -> has_segment (fs s) name q ->
  file_bytes (fs s1) name = seg_content s name.
Proof.
  intros Hh E1 (dd & He & Hs & _).
  destruct (seal_active_spec _ _ _ (hl_wf k s Hh) E1) as (_ & _ & Hd1 & _ & _ & Hok1).
  assert (Hent1 : forall x, entry (fs s1) x = entry (fs s) x) by (intros; unfold entry; by rewrite Hd1).
  unfold seg_content, file_bytes. rewrite Hent1, He. destruct (is_segment_file _ _ Hs) as (j & ->).
  destruct (activeSeg (wr s)) as [f0|] eqn:Hs0.
  - destruct (Hok1 eq_refl f0 eq_refl) as (_ & i0 & b0 & Hi0 & Hb0 & Hj0 & Hda0 & _).
    pose proof (wf_dir s (hl_wf k s Hh) f0 i0 Hs0 Hi0) as Hact.
    destruct (decide (name = activeName (wr s))) as [->|Hna].
    + rewrite decide_True by done. unfold buffered. rewrite Hb0.
      rewrite Hact in He. by injection He as <-.
    + rewrite decide_False, app_nil_r by naive_solver.
      unfold ino_data. rewrite Hj0; [done|]. intros ->. apply Hna.
      eapply ok_inj; [apply (wf_fs s (hl_wf k s Hh))|done..].
  - unfold seal_active in E1. rewrite Hs0 in E1. rewrite bool_decide_eq_true_2 in E1 by done.
    injection E1 as <-. by rewrite decide_False, app_nil_r by naive_solver.
Qed.

Lemma rotate_healthy k s :
  healthy k s -> (0 <= k < bound)%Z ->
  exists s' f i n, rotate s = (Ok tt, s') /\ healthy (k + 1) s' /\ cfg (wr s') = cfg (wr s) /\
    wal_bytes s' = wal_bytes s /\ activeSeg (wr s') = Some f /\
    fd_ino f (fs s') = Some i /\ ino_data i (fs s') = [] /\ buffered (wr s') = [] /\
    activeName (wr s') = segment_name n /\
    (activeSeg (wr s) = None \/ disk_bytes (fs s') = wal_bytes s).
Proof.
  intros Hh Hk. destruct (seal_active_healthy k s Hh) as (s1 & E1).
  assert (Hk' : (k < two63)%Z) by (unfold bound, two63 in *; lia).
  destruct (seal_active_spec _ _ _ (hl_wf k s Hh) E1)
    as (Hw1 & _ & Hd1 & Hf1 & (b' & Hwr1) & Hok1). specialize (Hok1 eq_refl).
  assert (Hcl : forall f, activeSeg (wr s1) = Some f -> fd_ino f (fs s1) = None).
  { intros f Hf. rewrite Hwr1 in Hf. by apply Hok1. }
  assert (Hnf1 : no_faults (fs s1)) by (intros x; rewrite Hf1; apply (hl_faults k s Hh)).
  assert (Hent1 : forall x, entry (fs s1) x = entry (fs s) x) by (intros; unfold entry; by rewrite Hd1).
  assert (Hc1 : clean k (fs s1)) by (intros x d; rewrite Hent1; apply (hl_clean k s Hh)).
  assert (Hdisk1 : disk_bytes (fs s1) = wal_bytes s).
  { unfold wal_bytes, buffered. destruct (activeSeg (wr s)) as [f|] eqn:Hs.
    - destruct (hl_active k s Hh f Hs) as (i & b & n & Hi & Hb & _ & Hn & Hnk & Hmax & _).
      destruct (Hok1 f eq_refl) as (_ & i' & b0 & Hi' & Hb' & Hj & Hda & _).
      rewrite Hi in Hi'. injection Hi' as <-. rewrite Hb in Hb'. injection Hb' as <-.
      destruct (disk_split k (fs s) (activeName (wr s)) n i) as (X & HX); try done.
      { apply (wf_fs s (hl_wf k s Hh)). } { apply (hl_clean k s Hh). }
      { by eapply (wf_dir s (hl_wf k s Hh)). }
      rewrite (HX (fs s)), (HX (fs s1)), Hb, Hda by done. by rewrite app_assoc.
    - unfold seal_active in E1. rewrite Hs in E1. rewrite bool_decide_eq_true_2 in E1 by done.
      injection E1 as <-. pose proof (wf_pair s (hl_wf k s Hh)) as Hp. rewrite Hs in Hp.
      destruct (activeBuf (wr s)); [done|]. by rewrite app_nil_r. }
  destruct (open_next s1) as [r s'] eqn:E2.
  destruct (open_next_spec _ _ _ Hw1 Hcl E2) as (Hw2 & Hp2 & Hf2 & Hj2 & _ & Hok2).
  set (m := (max_num (listing (fs s1)) + 1)%Z).
  destruct (clean_max k (fs s1) Hc1 Hk') as [Hcm Hmle]. pose proof (max_num_nonneg (listing (fs s1))).
  assert (Hm64 : wrap64 m = m) by (apply wrap64_id; unfold in_int64, m, bound, two63 in *; lia).
  assert (Hr : r = Ok tt).
  { unfold open_next in E2. destruct (nextSegmentNum_spec s1) as (n & En & [[-> _]|[_ (e & He)]]).
    2:{ rewrite (ReadDir_no_fault _ Hnf1) in He; [done|]. rewrite Hd1. apply (hl_dir k s Hh). }
    rewrite (bind_run_Ok _ _ _ _ _ En) in E2. fold m in E2. rewrite Hm64 in E2.
    assert (Eo : exists h fo, OpenAppend true (segment_name m) (tick (fs s1)) = (Ok h, fo)).
    { unfold OpenAppend, syscall, fault_now. cbn [fs_fault tick]. rewrite Hnf1. cbn [fs_dir tick].
      rewrite Hd1. destruct (hl_dir k s Hh) as (d & Hd). rewrite Hd.
      destruct (d !! segment_name m) as [[j|]|] eqn:Ej; [by eexists _, _| |by eexists _, _].
      exfalso. apply (hl_nodir k s Hh m). unfold entry. by rewrite Hd. }
    destruct Eo as (h & fo & Eo).
    erewrite bind_run_Ok in E2; [|apply wrapErr_run_Ok; apply zoom_run; exact Eo].
    rewrite !modW_bind in E2. cbn [wr fs] in E2.
    match type of E2 with bind purgeOldSegments _ ?st = _ =>
      destruct (purgeOldSegments_spec st) as (z & Hz) end.
    rewrite (bind_run_Ok _ _ _ _ _ Hz) in E2. by injection E2 as <- _. }
  subst r. destruct (Hok2 eq_refl) as (f & i & n & d & Hwr2 & Hi & Hd & Hnum & Hcase).
  destruct Hnum as [Hn|[_ (e & He)]].
  2:{ rewrite (ReadDir_no_fault _ Hnf1) in He; [done|]. by eexists. }
  fold m in Hn. rewrite Hm64 in Hn. subst n.
  assert (Hnone : entry (fs s1) (segment_name m) = None).
  { destruct (entry (fs s1) (segment_name m)) as [[j|]|] eqn:Ej; [| |done].
    - destruct (Hcm _ _ Ej (is_segment_name m j)) as (q & Hq & Eq).
      apply segment_name_inj in Eq; unfold in_int64, m, bound, two63 in *; lia.
    - rewrite Hent1 in Ej. by destruct (hl_nodir k s Hh m). }
  assert (Hl : d !! segment_name m = None) by (unfold entry in Hnone; by rewrite Hd in Hnone).
  destruct Hcase as [[Hl' _]|(_ & Hd2 & Hino & Hge)]; [congruence|].
  destruct (seg_list_create (max_num (listing (fs s1))) (fs s1) (fs s') d m i) as [_ Hc2]; try done;
    [unfold m, bound, two63 in *; lia|unfold m; lia|].
  assert (Hdisk2 : disk_bytes (fs s') = disk_bytes (fs s1)).
  { apply (disk_create (max_num (listing (fs s1))) (fs s1) (fs s') d m i); try done; [apply (wf_fs s1 Hw1)|
      unfold m, bound, two63 in *; lia|unfold m; lia]. }
  assert (Hidat : ino_data i (fs s') = []) by (unfold ino_data; by rewrite Hino).
  assert (Hent2 : forall x, entry (fs s') x = if decide (segment_name m = x) then Some (DFile i) else entry (fs s1) x).
  { intros x. unfold entry. rewrite Hd, Hd2. simpl. by rewrite lookup_insert. }
  assert (Hmk : (1 <= m <= k + 1)%Z) by (unfold m; lia).
  exists s', f, i, m. rewrite rotate_halves, (bind_run_Ok _ _ _ _ _ E1).
  split; [done|]. rewrite Hwr2, Hwr1 in *. cbn [cfg set_name set_size set_active].
  split; [split|].
  - done.
  - intros x. rewrite Hf2. apply Hnf1.
  - rewrite Hd2. by eexists.
  - intros x dd He Hs. destruct (Hc2 _ _ He Hs) as (q & Hq & ->). exists q. split; [lia|done].
  - intros q. rewrite Hent2. case_decide; [done|]. rewrite Hent1. apply (hl_nodir k s Hh).
  - rewrite Hwr2. apply (hl_max k s Hh).
  - rewrite Hwr2. intros f0 [= <-]. exists i, (MkBuf [] None f), m. simpl. rewrite Hidat. simpl.
    split_and!; try done; [lia..|].
    intros name q Hq. destruct (clean_has_segment m (fs s') name q) as [_ ?];
      [done|unfold m, bound, two63 in *; lia|done|lia].
  - intros name q (dd & He & Hs & Hq). unfold seg_content. rewrite Hwr2.
    unfold buffered. simpl. destruct (decide (name = segment_name m)) as [->|Hne].
    + unfold file_bytes. rewrite Hent2, decide_True by done. rewrite Hidat.
      left. by case_decide.
    + rewrite decide_False by naive_solver. rewrite app_nil_r.
      rewrite Hent2, decide_False in He by done.
      assert (Hseg : has_segment (fs s) name q) by (exists dd; by rewrite <- Hent1).
      assert (Hfb : file_bytes (fs s') name = file_bytes (fs s1) name).
      { unfold file_bytes. rewrite Hent2, decide_False by done. rewrite He.
        destruct (is_segment_file _ _ Hs) as (j & ->). unfold ino_data. rewrite Hj2; [done|].
        eapply ok_dir; [apply (wf_fs s1 Hw1)|done]. }
      rewrite Hfb, (seal_content k s s1 name q) by done. by eapply (hl_aligned k s Hh).
  - split_and!; try done; [|by right; rewrite Hdisk2].
    unfold wal_bytes at 1. unfold buffered. rewrite Hwr2. simpl. by rewrite app_nil_r, Hdisk2.
Qed.

Lemma healthy_mono k k' s : healthy k s -> (k <= k')%Z -> healthy k' s.
Proof.
  intros [H1 H2 H3 H4 H5 H6 H7 H8] Hle. split; try done.
  - intros x d He Hs. destruct (H4 _ _ He Hs) as (n & Hn & ->). exists n. split; [lia|done].
  - intros f Hf. destruct (H7 f Hf) as (i & b & n & ? & ? & ? & ? & ? & ? & ?).
    exists i, b, n. split_and!; try done; lia.
Qed.

(** A step that only moves bytes into the active file or buffer. *)
Lemma healthy_step k s f i b n w b' p wr' fs' :
  healthy k s -> (k < two63)%Z -> activeSeg (wr s) = Some f -> fd_ino f (fs s) = Some i ->
  activeBuf (wr s) = Some b -> activeName (wr s) = segment_name n ->
  wf (MkWalSt wr' fs') -> fs_frame i (fs s) fs' -> ino_data i fs' = ino_data i (fs s) ++ w ->
  activeSeg wr' = Some f -> activeBuf wr' = Some b' -> b_err b' = None ->
  activeName wr' = activeName (wr s) -> cfg wr' = cfg (wr s) ->
  w ++ b_buf b' = b_buf b ++ p -> ends_nl p ->
  activeSize wr' = (activeSize (wr s) + Z.of_nat (length p))%Z -> (activeSize wr' <= bound)%Z ->
  healthy k (MkWalSt wr' fs') /\ wal_bytes (MkWalSt wr' fs') = wal_bytes s ++ p.
Proof.
  intros Hh Hk Hs Hi Hb Hname Hwf Hfr Hda Hs' Hb' He' Hn' Hc' Hw Hnl Hsz Hbd.
  destruct (hl_active k s Hh f Hs) as (i' & b0 & n' & Hi' & Hb0 & He & Hnm & Hnk & Hmax & Hsize & _).
  assert (Hn64 : forall q, (1 <= q <= k)%Z -> in_int64 q) by (intros; unfold in_int64, two63 in *; lia).
  rewrite Hi in Hi'. injection Hi' as <-. rewrite Hb in Hb0. injection Hb0 as <-.
  assert (Hent : forall x, entry fs' x = entry (fs s) x)
    by (intros; unfold entry; destruct Hfr as (-> & _); done).
  split; [split; cbn [wr fs]|].
  - done.
  - by eapply fs_frame_no_faults, (hl_faults k s Hh).
  - destruct Hfr as (-> & _). apply (hl_dir k s Hh).
  - intros x d. rewrite Hent. apply (hl_clean k s Hh).
  - intros q. rewrite Hent. apply (hl_nodir k s Hh).
  - rewrite Hc'. apply (hl_max k s Hh).
  - intros f0 Hf0. rewrite Hs' in Hf0. injection Hf0 as <-. exists i, b', n'. split_and!; try done; try lia.
    + by rewrite (fs_frame_fd_ino _ _ _ _ Hfr).
    + by rewrite Hn'.
    + intros x q (d & Hx & Hy). apply (Hmax x). exists d. by rewrite <- Hent.
    + rewrite Hsz, Hsize, Hda, <- app_assoc, Hw, !length_app. lia.
  - intros name q (dd & Hx & Hxs & Hxn). rewrite Hent in Hx.
    pose proof (hl_aligned k s Hh name q ltac:(by exists dd)) as Hal.
    pose proof (wf_dir s (hl_wf k s Hh) f i Hs Hi) as Hact.
    unfold seg_content, buffered, file_bytes in *. cbn [wr fs] in *.
    rewrite Hs, Hb, Hx in Hal. rewrite Hs', Hb', Hn', Hent, Hx.
    destruct (is_segment_file _ _ Hxs) as (j & ->).
    destruct (decide (name = activeName (wr s))) as [->|Hne].
    + rewrite decide_True in * by done. rewrite Hact in Hx. injection Hx as <-.
      rewrite Hda, <- app_assoc, Hw, app_assoc. by apply ends_nl_app.
    + rewrite decide_False in * by naive_solver. rewrite app_nil_r in *.
      rewrite (fs_frame_ino_data _ _ _ _ Hfr); [done|]. intros ->. apply Hne.
      eapply ok_inj; [apply (wf_fs s (hl_wf k s Hh))|done..].
  - destruct (disk_split k (fs s) (activeName (wr s)) n' i) as (X & HX); try done.
    { apply (wf_fs s (hl_wf k s Hh)). } { apply (hl_clean k s Hh). }
    { by eapply (wf_dir s (hl_wf k s Hh)). }
    unfold wal_bytes, buffered. cbn [wr fs]. rewrite Hb, Hb'.
    destruct Hfr as (Hd & _ & _ & _ & Hj).
    rewrite (HX (fs s)), (HX fs'), Hda by done. rewrite <- !app_assoc. by rewrite Hw.
Qed.

Lemma make_room_healthy k s n :
  healthy k s -> (0 <= k < bound)%Z -> (0 <= n <= bound)%Z ->
  exists s' f, make_room n s = (Ok tt, s') /\ healthy (k + 1) s' /\ cfg (wr s') = cfg (wr s) /\
    wal_bytes s' = wal_bytes s /\ activeSeg (wr s') = Some f /\
    (0 <= activeSize (wr s'))%Z /\ (activeSize (wr s') + n <= bound)%Z /\
    (activeSize (wr s') + n <= MaxSegmentBytes (cfg (wr s)) \/ activeSize (wr s') = 0)%Z.
Proof.
  intros Hh Hk Hn. unfold make_room. rewrite getW_bind.
  assert (Hrot : exists s' f, rotate s = (Ok tt, s') /\ healthy (k + 1) s' /\
    cfg (wr s') = cfg (wr s) /\ wal_bytes s' = wal_bytes s /\ activeSeg (wr s') = Some f /\
    activeSize (wr s') = 0%Z).
  { destruct (rotate_healthy k s Hh Hk) as (s' & f & i & m & Hr & Hh' & Hc & Hw & Hs & Hi & Hda & Hbu & _).
    exists s', f. split_and!; try done.
    destruct (hl_active _ _ Hh' f Hs) as (i' & b & q & Hi' & Hb & _ & _ & _ & _ & Hsz & _).
    unfold buffered in Hbu. rewrite Hb in Hbu. rewrite Hi in Hi'. simplify_eq. by rewrite Hsz, Hda, Hbu. }
  destruct (activeSeg (wr s)) as [f|] eqn:Hs.
  - rewrite (bool_decide_eq_false_2 (Some f = None)) by done. cbn [negb andb].
    destruct (hl_active k s Hh f Hs) as (i & b & q & _ & _ & _ & _ & _ & _ & Hsz & Hle).
    assert (Hwr : wrap64 (activeSize (wr s) + n) = (activeSize (wr s) + n)%Z)
      by (apply wrap64_id; unfold in_int64, bound, two63 in *; lia).
    rewrite Hwr. destruct (Z.ltb_spec (MaxSegmentBytes (cfg (wr s))) (activeSize (wr s) + n)) as [Hlt|Hge].
    + destruct Hrot as (s' & f' & Hr & Hh' & Hc & Hw & Hs' & Hz).
      erewrite bind_run_Ok by (by apply wrapErr_run_Ok). rewrite getW_bind, Hs'.
      rewrite bool_decide_eq_false_2 by done. exists s', f'. rewrite Hz. split_and!; try done; try lia.
    + unfold bind at 1. cbn [ret]. rewrite getW_bind, Hs, bool_decide_eq_false_2 by done.
      exists s, f. pose proof (hl_max k s Hh). split_and!; try done; try lia.
      apply (healthy_mono k); [done|lia].
  - cbn [bool_decide]. rewrite bool_decide_eq_true_2 by done. cbn [negb andb].
    unfold bind at 1. cbn [ret]. rewrite getW_bind, Hs, bool_decide_eq_true_2 by done.
    destruct Hrot as (s' & f' & Hr & Hh' & Hc & Hw & Hs' & Hz).
    rewrite (wrapErr_run_Ok _ _ _ _ _ Hr). exists s', f'. rewrite Hz. split_and!; try done; lia.
Qed.

Lemma append_line_healthy k s f data :
  healthy k s -> (k < bound)%Z -> activeSeg (wr s) = Some f -> (0 <= activeSize (wr s))%Z ->
  (activeSize (wr s) + Z.of_nat (length data) <= bound)%Z -> ends_nl data ->
  exists s', append_line data s = (Ok tt, s') /\ healthy k s' /\ cfg (wr s') = cfg (wr s) /\
    wal_bytes s' = wal_bytes s ++ data /\ activeSeg (wr s') = Some f /\
    activeSize (wr s') = (activeSize (wr s) + Z.of_nat (length data))%Z /\
    (SyncInterval (cfg (wr s)) = 0%Z -> buffered (wr s') = []).
Proof.
  intros Hh Hk Hs Hpos Hle Hnl. assert (Hk' : (k < two63)%Z) by (unfold bound, two63 in *; lia).
  destruct (hl_active k s Hh f Hs) as (i & b & n & Hi & Hb & He & Hnm & Hnk & Hmax & Hsz & _).
  unfold append_line.
  destruct (onBuf (BufWrite data) s) as [r1 s1] eqn:E1.
  destruct (bufwrite_spec _ _ _ _ _ (hl_wf k s Hh) Hs E1)
    as (Hw1 & _ & b0 & b' & w & rest & Hb0 & Hfd & Hfd' & Hwr1 & Happ & Hww & Hok1).
  rewrite Hb in Hb0. injection Hb0 as <-.
  assert (r1 = Ok (Z.of_nat (length data))) as ->.
  { unfold onBuf in E1. rewrite Hb in E1.
    pose proof (BufWrite_no_fault data b (fs s) i (hl_faults k s Hh) ltac:(by rewrite Hfd) He) as Hr.
    destruct (BufWrite data (b, fs s)) as [? [? ?]]. simpl in Hr. by simplify_eq. }
  destruct (Hok1 _ eq_refl) as (_ & -> & _ & He'). rewrite app_nil_r in Hww.
  erewrite bind_run_Ok by (by apply wrapErr_run_Ok). rewrite !modW_bind, getW_bind. cbn [wr fs].
  set (s2 := MkWalSt _ (fs s1)).
  assert (Hwrap : wrap64 (activeSize (wr s1) + Z.of_nat (length data))
                  = (activeSize (wr s) + Z.of_nat (length data))%Z).
  { rewrite Hwr1. simpl. apply wrap64_id. unfold in_int64, bound, two63 in *. lia. }
  unfold appended in Happ. rewrite Hi in Happ. destruct Happ as (Hfr & Hda & _).
  destruct (healthy_step k s f i b n w b' data (wr s2) (fs s2)) as [Hh2 Hwb]; try done.
  { destruct Hw1. by split. } { simpl. by rewrite Hwr1. } { simpl. by rewrite Hwr1. }
  { simpl. by rewrite Hwr1. } { simpl. by rewrite Hwr1. } { simpl. lia. }
  assert (Hc2 : cfg (wr s2) = cfg (wr s)) by (simpl; by rewrite Hwr1).
  assert (Hs2 : activeSeg (wr s2) = Some f) by (simpl; by rewrite Hwr1).
  assert (Hz2 : activeSize (wr s2) = (activeSize (wr s) + Z.of_nat (length data))%Z) by (simpl; lia).
  assert (Hb2 : activeBuf (wr s2) = Some b') by (simpl; by rewrite Hwr1).
  assert (Hn2 : activeName (wr s2) = segment_name n) by (simpl; by rewrite Hwr1).
  assert (Hi2 : fd_ino f (fs s2) = Some i) by (simpl; by rewrite (fs_frame_fd_ino _ _ _ _ Hfr)).
  change (cfg (set_seq _ _)) with (cfg (wr s2)). rewrite Hc2.
  change (MkWalSt (wr s2) (fs s2)) with s2 in *.
  destruct (Z.eqb_spec (SyncInterval (cfg (wr s))) 0) as [Hsync|Hsync].
  2:{ exists s2. by split_and!. }
  clearbody s2. clear E1 Hw1 Hwr1 Hda Hfr Hww Hok1 Hwrap.
  destruct (onBuf BufFlush s2) as [r3 s3] eqn:E3.
  destruct (flush_spec _ _ _ _ (hl_wf k s2 Hh2) Hs2 E3)
    as (Hw3 & _ & b3 & b3' & w3 & Hb3 & Hfd3 & _ & Hwr3 & Happ3 & Hww3 & Hok3 & _).
  rewrite Hb2 in Hb3. injection Hb3 as <-.
  assert (r3 = Ok tt) as ->.
  { unfold onBuf in E3. rewrite Hb2 in E3.
    pose proof (BufFlush_no_fault b' (fs s2) i (hl_faults k s2 Hh2) ltac:(by rewrite Hfd3) He') as Hr.
    destruct (BufFlush (b', fs s2)) as [? [? ?]]. simpl in Hr. by simplify_eq. }
  destruct (Hok3 eq_refl) as (Hbe & _ & He3).
  erewrite bind_run_Ok by (by apply wrapErr_run_Ok).
  unfold appended in Happ3. rewrite Hi2 in Happ3. destruct Happ3 as (Hfr3 & Hda3 & _).
  destruct (healthy_step k s2 f i b' n w3 b3' [] (wr s3) (fs s3)) as [Hh3 Hwb3]; try done.
  { by destruct s3. } { by rewrite Hwr3. } { by rewrite Hwr3. } { by rewrite Hwr3. } { by rewrite Hwr3. }
  { by rewrite app_nil_r. } { by left. } { rewrite Hwr3. simpl. lia. } { rewrite Hwr3. simpl. lia. }
  destruct s3 as [wr3 fs3]. cbn [wr fs] in *. rewrite app_nil_r in Hwb3.
  assert (Hs3 : activeSeg wr3 = Some f) by (by rewrite Hwr3).
  assert (Hi3 : fd_ino f fs3 = Some i) by (by rewrite (fs_frame_fd_ino _ _ _ _ Hfr3)).
  destruct (onSeg FileSync (MkWalSt wr3 fs3)) as [r4 s4] eqn:E4.
  destruct (sync_spec _ _ _ f (hl_wf k _ Hh3) Hs3 E4) as (Hw4 & _ & Hwr4 & _ & _ & _ & Hok4).
  assert (r4 = Ok tt) as ->.
  { unfold onSeg, onFS, zoom in E4. cbn [wr fs] in E4. rewrite Hs3 in E4.
    destruct (FileSync_no_fault f fs3 i (hl_faults k _ Hh3) Hi3) as (f' & Ef). rewrite Ef in E4. by simplify_eq. }
  destruct (Hok4 eq_refl) as (i4 & Hi4 & Hfr4 & Hda4 & _). cbn [wr fs] in *.
  rewrite Hi3 in Hi4. injection Hi4 as <-. destruct s4 as [wr4 fs4]. cbn [wr fs] in *. subst wr4.
  destruct (healthy_step k (MkWalSt wr3 fs3) f i b3' n [] b3' [] wr3 fs4) as [Hh4 Hwb4]; try done.
  { by rewrite Hwr3. } { by rewrite Hwr3. } { by rewrite app_nil_r. } { by rewrite Hwr3. }
  { by rewrite app_nil_r. } { by left. } { simpl. lia. } { rewrite Hwr3. simpl. lia. }
  rewrite (wrapErr_run_Ok _ _ _ _ _ E4). exists (MkWalSt wr3 fs4). cbn [wr fs].
  rewrite app_nil_r in Hwb4. unfold buffered. split_and!; try done; try (by rewrite Hwr3).
  by rewrite Hwb4, Hwb3, Hwb.
Qed.

(** ** Whole calls on a healthy disk *)

Section codec.
Context `{EntryCodec}.

Lemma Write_healthy k s e line :
  healthy k s -> (0 <= k)%Z -> (k + 1 < bound)%Z -> line_of e line ->
  (Z.of_nat (length line) <= bound)%Z ->
  exists s', Write e s = (Ok tt, s') /\ healthy (k + 1) s' /\ cfg (wr s') = cfg (wr s) /\
    wal_bytes s' = wal_bytes s ++ line /\
    (activeSize (wr s') <= MaxSegmentBytes (cfg (wr s)) \/
     activeSize (wr s') = Z.of_nat (length line))%Z /\
    (SyncInterval (cfg (wr s)) = 0%Z -> buffered (wr s') = []).
Proof.
  intros Hh Hk Hk1 (d & Hm & ->) Hlen. rewrite Write_parts, Hm.
  destruct (make_room_healthy k s (Z.of_nat (length (d ++ [newline]))))
    as (s1 & f & E1 & Hh1 & Hc1 & Hw1 & Hs1 & Hpos & Hle & Hsz); [done|lia|lia|].
  destruct (append_line_healthy (k + 1) s1 f (d ++ [newline]))
    as (s2 & E2 & Hh2 & Hc2 & Hw2 & Hs2 & Hz2 & Hb2); [done|lia|done|done|done|right; by exists d|].
  rewrite (bind_run_Ok _ _ _ _ _ E1). exists s2. rewrite Hc1 in *.
  split_and!; try done; [by rewrite Hw2, Hw1|]. rewrite Hz2. lia.
Qed.

(** Writing a list of entries one after the other. *)
Fixpoint write_all (es : list Entry) : St WalSt unit :=
  match es with
  | [] => ret tt
  | e :: es' => Write e ;;; write_all es'
  end.

Definition lines_of (es : list Entry) (ls : list bytes) : Prop := Forall2 line_of es ls.

Lemma lines_bound (ls : list bytes) b :
  (Z.of_nat (length (concat ls)) <= b)%Z -> Forall (fun l => Z.of_nat (length l) <= b)%Z ls.
Proof.
  induction ls as [|l ls IH]; intros Hb; [done|]. cbn [concat] in Hb. rewrite length_app in Hb.
  constructor; [lia|]. apply IH. lia.
Qed.

Lemma write_all_healthy es ls k s :
  healthy k s -> (0 <= k)%Z -> (k + Z.of_nat (length es) < bound)%Z -> lines_of es ls ->
  Forall (fun l => Z.of_nat (length l) <= bound)%Z ls ->
  exists s', write_all es s = (Ok tt, s') /\ healthy (k + Z.of_nat (length es)) s' /\
    cfg (wr s') = cfg (wr s) /\ wal_bytes s' = wal_bytes s ++ concat ls /\
    (SyncInterval (cfg (wr s)) = 0%Z -> buffered (wr s) = [] -> buffered (wr s') = []).
Proof.
  intros Hh Hk Hlen Hl Hb. revert k s Hh Hk Hlen Hb.
  induction Hl as [|e l es ls Hel Hl IH]; intros k s Hh Hk Hlen Hb.
  - exists s. simpl. rewrite Z.add_0_r, app_nil_r. by split_and!.
  - inversion Hb as [|?? Hb1 Hb2]; subst. cbn [length] in Hlen.
    destruct (Write_healthy k s e l) as (s1 & E1 & Hh1 & Hc1 & Hw1 & _ & Hbu1); try done; [lia|].
    destruct (IH (k + 1)%Z s1) as (s2 & E2 & Hh2 & Hc2 & Hw2 & Hbu2); try done; [lia|lia|].
    exists s2. cbn [write_all]. rewrite (bind_run_Ok _ _ _ _ _ E1). split; [done|].
    split; [by replace (k + Z.of_nat (length (e :: es)))%Z with (k + 1 + Z.of_nat (length es))%Z
      by (simpl; lia)|].
    split; [congruence|]. split; [|rewrite Hc1 in *; auto].
    simpl. by rewrite Hw2, Hw1, <- app_assoc.
Qed.
End codec.

(** A directory as writers leave it. *)
Record good_dir (k : Z) (f : FS) : Prop := {
  gd_ok : fs_ok f;
  gd_faults : no_faults f;
  gd_dir : is_Some (fs_dir f);
  gd_clean : clean k f;
  gd_nodir : forall n, entry f (segment_name n) <> Some DDir;
  gd_aligned : forall name n, has_segment f name n -> ends_nl (file_bytes f name);
}.

Lemma healthy_good k s : healthy k s -> activeSeg (wr s) = None -> good_dir k (fs s).
Proof.
  intros [[] ? ? ? ? ? ? Hal] Hs. split; try done. intros name n Hn.
  specialize (Hal name n Hn). unfold seg_content in Hal.
  rewrite decide_False, app_nil_r in Hal by naive_solver. done.
Qed.

(** [Close] moves the buffer to the disk. *)
Lemma Close_healthy k s :
  healthy k s -> (0 <= k < bound)%Z -> closeOnce (wr s) = false ->
  exists s', Close s = (Ok tt, s') /\ good_dir k (fs s') /\ disk_bytes (fs s') = wal_bytes s /\
    activeSeg (wr s') = None.
Proof.
  intros Hh Hk Ho. destruct (Close s) as [r s'] eqn:E.
  destruct (Close_spec _ _ _ (hl_wf k s Hh) E) as (Hw & -> & _ & Hs'). exists s'. specialize (Hs' Ho).
  pose proof (hl_wf k s Hh) as Hwf. pose proof (wf_stop s Hwf) as Hst. rewrite Ho in Hst.
  assert (Hre : replayStop (wr s) <> Some true) by (intros E1; by rewrite (wf_replay s Hwf E1) in Ho).
  unfold Close in E. rewrite getW_bind, Ho, Hst in E. unfold close_chan in E.
  unfold bind at 1 in E. cbn [ret] in E.
  match type of E with bind ?m _ s = _ =>
    assert (Em : m s = (Ok tt, s)) by (by destruct (replayStop (wr s)) as [[]|]) end.
  rewrite (bind_run_Ok _ _ _ _ _ Em), modW_bind in E. clear Em.
  set (s1 := MkWalSt _ _) in E.
  assert (Hh1 : healthy k s1).
  { destruct Hh. split; try done. destruct Hwf. by split. }
  assert (Hwb : wal_bytes s1 = wal_bytes s) by done.
  destruct (activeSeg (wr s)) as [f|] eqn:Hs.
  2:{ rewrite bool_decide_eq_true_2 in E by done. injection E as <-.
      split; [done|]. split; [by apply healthy_good|]. split; [|done].
      unfold wal_bytes, buffered. pose proof (wf_pair s Hwf) as Hp. rewrite Hs in Hp.
      destruct (activeBuf (wr s)); [done|]. by rewrite app_nil_r. }
  rewrite bool_decide_eq_false_2 in E by done.
  destruct (rotate_healthy k s1 Hh1 Hk) as (sr & fr & ir & m & Er & _ & _ & _ & _).
  destruct (seal_active_healthy k s1 Hh1) as (s2 & E2).
  destruct (seal_active_spec _ _ _ (hl_wf k s1 Hh1) E2) as (Hw2 & _ & Hd2 & Hf2 & _ & Hok2).
  assert (Hfs : fs s' = fs s2).
  { unfold seal_active in E2. change (activeSeg (wr s1)) with (activeSeg (wr s)) in E2.
    rewrite Hs in E2. rewrite bool_decide_eq_false_2 in E2 by done.
    apply bind_Ok in E2 as ([] & t1 & Ef & E2). apply bind_Ok in E2 as ([] & t2 & Es & E2).
    unfold ignore, attempt in E. rewrite !bind_bind in E. unfold bind at 1 in E. rewrite Ef in E.
    unfold bind at 1 in E. cbn [ret] in E. rewrite !bind_bind in E. unfold bind at 1 in E.
    rewrite Es in E. unfold bind at 1 in E. cbn [ret] in E. rewrite !bind_bind in E.
    unfold bind at 1 in E. rewrite E2 in E. unfold bind at 1 in E. cbn [ret] in E.
    unfold modW, modify in E. by injection E as <-. }
  assert (Hent : forall x, entry (fs s2) x = entry (fs s) x) by (intros; unfold entry; by rewrite Hd2).
  split; [done|]. rewrite Hfs. split.
  { split.
    - by destruct Hw2.
    - intros x. rewrite Hf2. apply (hl_faults k s1 Hh1).
    - rewrite Hd2. apply (hl_dir k s1 Hh1).
    - intros x d. rewrite Hent. apply (hl_clean k s Hh).
    - intros x. rewrite Hent. apply (hl_nodir k s Hh).
    - intros name n (d & Hx & Hy). rewrite Hent in Hx.
      assert (Hseg : has_segment (fs s1) name n) by (by exists d).
      rewrite (seal_content k s1 s2 name n) by done. by eapply (hl_aligned k s1 Hh1). }
  split; [|done]. specialize (Hok2 eq_refl f Hs) as (_ & i & b & Hi & Hb & Hj & Hda & _).
  destruct (hl_active k s Hh f Hs) as (i' & b0 & n & Hi' & Hb' & _ & Hn & Hnk & Hmax & _).
  change (fs s1) with (fs s) in *. rewrite Hi in Hi'. injection Hi' as <-.
  destruct (disk_split k (fs s) (activeName (wr s)) n i) as (X & HX); try done.
  { apply (wf_fs s Hwf). } { apply (hl_clean k s Hh). } { unfold bound, two63 in *; lia. }
  { by eapply (wf_dir s Hwf). }
  unfold wal_bytes, buffered. change (activeBuf (wr s1)) with (activeBuf (wr s)) in Hb.
  rewrite (HX (fs s)), (HX (fs s2)), Hb, Hda by done. by rewrite app_assoc.
Qed.

(** ** Opening a log again *)

Lemma FileSize_no_fault h f i :
  no_faults f -> fd_ino h f = Some i -> exists z f', FileSize h f = (Ok z, f').
Proof. intros Hn Hi. unfold FileSize, syscall, fault_now. rewrite Hi, Hn. by eexists _, _. Qed.

(** [openLatest] succeeds on a good directory. *)
Lemma openLatest_Ok k c f :
  good_dir k f -> exists s', openLatest (MkWalSt (emptyWriter c) f) = (Ok tt, s').
Proof.
  intros [Hok Hn Hd Hc Hnd _]. unfold openLatest.
  assert (E0 : onFS ReadDir (MkWalSt (emptyWriter c) f)
               = (Ok (listing f), MkWalSt (emptyWriter c) (tick f))).
  { unfold onFS, zoom. cbn [fs wr]. by rewrite ReadDir_no_fault. }
  rewrite (bind_run_Ok _ _ _ _ _ E0). clear E0.
  destruct (latest_segment_spec (listing f)) as [_ [[El _]|(d & Hin & Hs & _)]].
  { rewrite El. by eexists. }
  destruct (String.eqb_spec (latest_segment (listing f)).1 ""); [by eexists|].
  set (latest := (latest_segment (listing f)).1) in *.
  apply elem_of_listing in Hin. destruct (is_segment_file _ _ Hs) as (i & ->).
  destruct Hd as (m & Hm). unfold entry in Hin. rewrite Hm in Hin. simpl in Hin.
  destruct (OpenAppend_no_fault false latest (tick f) m i) as (h & f1 & E1); [done..|].
  assert (Hokt : fs_ok (tick f)) by (by apply (fs_ok_ext f)).
  destruct (OpenAppend_spec _ _ _ _ _ Hokt E1) as (_ & Hft & _ & _ & (j & d & _ & _ & Hj & _)).
  erewrite bind_run_Ok; [|apply wrapErr_run_Ok, zoom_run; exact E1]. cbn [wr fs].
  destruct (FileSize_no_fault h f1 j) as (z & f2 & E2); [intros x; rewrite Hft; apply Hn|done|].
  assert (E3 : attempt (onFS (FileSize h)) (MkWalSt (emptyWriter c) f1)
               = (Ok (Ok z), MkWalSt (emptyWriter c) f2)).
  { unfold attempt, onFS, zoom. cbn [fs wr]. by rewrite E2. }
  rewrite (bind_run_Ok _ _ _ _ _ E3), !modW_bind. by eexists.
Qed.

Lemma disk_bytes_ext k f f' :
  fs_ok f -> clean k f -> fs_dir f' = fs_dir f ->
  (forall j, j < fs_next f -> fs_inodes f' !! j = fs_inodes f !! j) ->
  disk_bytes f' = disk_bytes f.
Proof.
  intros Hok Hc Hd Hj. unfold disk_bytes.
  replace (seg_list f') with (seg_list f) by (unfold seg_list, listing; by rewrite Hd).
  f_equal. apply list_fmap_ext. intros idx seg _. unfold file_bytes.
  assert (Hent : entry f' (path seg) = entry f (path seg)) by (unfold entry; by rewrite Hd).
  rewrite Hent. destruct (entry f (path seg)) as [[j|]|] eqn:Ej; try done.
  unfold ino_data. rewrite Hj; [done|]. by eapply ok_dir.
Qed.

Lemma disk_bytes_part f name n :
  has_segment f name n -> length (file_bytes f name) <= length (disk_bytes f).
Proof.
  intros Hs%elem_of_seg_list. unfold disk_bytes.
  induction (seg_list f) as [|g l IH]; [by apply not_elem_of_nil in Hs|].
  rewrite fmap_cons. cbn [concat]. rewrite length_app.
  apply elem_of_cons in Hs as [<-|Hs]; cbn [path]; [lia|]. specialize (IH Hs). lia.
Qed.

(** Nothing but [Close] closes a writer, and nothing opens it again. *)
Definition closed_is (b : bool) (s : WalSt) : Prop := closeOnce (wr s) = b.

Section closed.
Context (b : bool).

Lemma closed_is_onFS {A} (m : St FS A) : keeps (closed_is b) (onFS m).
Proof. by apply keeps_zoom. Qed.
Lemma closed_is_onSeg {A} (m : nat -> St FS A) : keeps (closed_is b) (onSeg m).
Proof. intros s Hs. unfold onSeg. destruct (activeSeg (wr s)); [by apply closed_is_onFS|done]. Qed.
Lemma closed_is_onBuf {A} (m : St (BufWriter * FS) A) : keeps (closed_is b) (onBuf m).
Proof.
  intros s Hs. unfold onBuf. destruct (activeBuf (wr s)) as [bf|]; [|done].
  by destruct (m (bf, fs s)) as [r [b' f']].
Qed.
Lemma closed_is_modW g : (forall w, closeOnce (g w) = closeOnce w) -> keeps (closed_is b) (modW g).
Proof. intros Hg s Hs. unfold closed_is. cbn. by rewrite Hg. Qed.
Lemma closed_is_getW : keeps (closed_is b) getW.
Proof. by intros s Hs. Qed.
#[local] Hint Resolve closed_is_onFS closed_is_onSeg closed_is_onBuf closed_is_modW closed_is_getW : keeps.

Lemma closed_is_rotate : keeps (closed_is b) rotate.
Proof. unfold rotate, nextSegmentNum, purgeOldSegments. keeps_auto. Qed.
#[local] Hint Resolve closed_is_rotate : keeps.

Lemma closed_is_Write `{EntryCodec} e : keeps (closed_is b) (Write e).
Proof. apply keeps_bind; [apply keeps_wrapErr; by intros s Hs|]. intros data; cbv zeta. keeps_auto. Qed.

Lemma closed_is_write_all `{EntryCodec} es : keeps (closed_is b) (write_all es).
Proof. induction es as [|e es IH]; [apply keeps_ret|]. apply keeps_bind; [apply closed_is_Write|by intros]. Qed.

Lemma closed_is_openLatest : keeps (closed_is b) openLatest.
Proof. unfold openLatest. keeps_auto. Qed.

Lemma withWriter_closed_is w m f w' f' : keeps (closed_is b) m -> closeOnce w = b ->
  withWriter w m f = (Ok w', f') -> closeOnce w' = b.
Proof.
  intros Hm Hw. unfold withWriter. pose proof (Hm (MkWalSt w f) Hw) as Hs.
  destruct (m (MkWalSt w f)) as [[u|e|p] s]; [|done..]. by intros [= <- <-].
Qed.
End closed.

Lemma NewWriter_not_closed c f w f' : NewWriter c f = (Ok w, f') -> closeOnce w = false.
Proof.
  unfold NewWriter, bind, wrapErr. destruct (MkdirAll f) as [[u|e|p] f1]; [|done..].
  destruct (withWriter (emptyWriter (norm_config c)) openLatest f1) as [[w1|e|p] f2] eqn:E1; [|done..].
  assert (Hw1 : closeOnce w1 = false) by (by eapply withWriter_closed_is; [apply closed_is_openLatest| |exact E1]).
  destruct (_ && _).
  - destruct (withWriter w1 rotate f2) as [[w2|e|p] f3] eqn:E2; [|done..].
    assert (Hw2 : closeOnce w2 = false) by (by eapply withWriter_closed_is; [apply closed_is_rotate| |exact E2]).
    intros [= <- <-]. by destruct (0 <? _)%Z.
  - intros [= <- <-]. by destruct (0 <? _)%Z.
Qed.

Lemma openLatest_healthy k c f s' :
  good_dir k f -> (0 <= k < bound)%Z -> (MaxSegmentBytes c <= bound)%Z ->
  (Z.of_nat (length (disk_bytes f)) <= bound)%Z ->
  openLatest (MkWalSt (emptyWriter c) f) = (Ok tt, s') ->
  healthy k s' /\ cfg (wr s') = c /\ wal_bytes s' = disk_bytes f /\ buffered (wr s') = [] /\
  closeOnce (wr s') = false /\ replayStop (wr s') = None /\
  (activeSeg (wr s') = None -> activeName (wr s') = "").
Proof.
  intros [Hok Hn Hd Hc Hnd Hal] Hk Hmax Hsz E.
  assert (Hk' : (k < two63)%Z) by (unfold bound, two63 in *; lia).
  destruct (openLatest_spec _ _ _ (emptyWriter_wf c f Hok) eq_refl E)
    as (Hwf & _ & Hcfg & Hft & Hdir & Hj & Hres). specialize (Hres eq_refl). cbn [wr fs] in *.
  assert (Hent : forall x, entry (fs s') x = entry f x) by (intros; unfold entry; by rewrite Hdir).
  assert (Hdisk : disk_bytes (fs s') = disk_bytes f) by (by apply (disk_bytes_ext k)).
  assert (Hfb : forall x, file_bytes (fs s') x = file_bytes f x).
  { intros x. unfold file_bytes. rewrite Hent. destruct (entry f x) as [[j|]|] eqn:Ej; try done.
    unfold ino_data. rewrite Hj; [done|]. by eapply ok_dir. }
  destruct Hres as [[Hwr _]|(h & i & Hl & Hi & He & Hwr)].
  - assert (Hh : healthy k s').
    { split; rewrite ?Hwr, ?Hdir; try done; [intros x; rewrite Hft; apply Hn|
        intros x d; rewrite Hent; apply Hc|intros x; rewrite Hent; apply Hnd|].
      intros name n (d & Hx & Hy). rewrite Hent in Hx. unfold seg_content, buffered. rewrite Hwr.
      rewrite decide_False, app_nil_r by naive_solver. rewrite Hfb. apply (Hal name n). by exists d. }
    split; [done|]. unfold wal_bytes, buffered. rewrite Hwr. simpl. by rewrite app_nil_r, Hdisk.
  - destruct (latest_segment_spec (listing f)) as [_ [[El _]|(d & Hin & Hs & Hnum & Hpos)]]; [done|].
    set (latest := (latest_segment (listing f)).1) in *.
    assert (Hseg : has_segment f latest (max_num (listing f))).
    { exists d. apply elem_of_listing in Hin. done. }
    destruct (clean_has_segment k f latest (max_num (listing f))) as [Hname Hnk]; [done..|].
    assert (Hdat : ino_data i (fs s') = file_bytes f latest).
    { unfold file_bytes. rewrite He. unfold ino_data. rewrite Hj; [done|]. by eapply ok_dir. }
    split.
    { split; rewrite ?Hwr, ?Hdir; try done; [intros x; rewrite Hft; apply Hn|
        intros x d'; rewrite Hent; apply Hc|intros x; rewrite Hent; apply Hnd| |].
      2:{ intros name n (d' & Hx & Hy). rewrite Hent in Hx. unfold seg_content, buffered. rewrite Hwr.
          simpl. case_decide; rewrite app_nil_r, Hfb; apply (Hal name n); by exists d'. }
      intros h0 [= <-]. exists i, (MkBuf [] None h), (max_num (listing f)). simpl.
      rewrite app_nil_r. split_and!; try done; [lia..| |].
      - intros x m (dd & Hx & Hxs & Hxn). rewrite Hent in Hx.
        eapply max_num_upper; [by apply elem_of_listing|done..].
      - rewrite Hdat. pose proof (disk_bytes_part f latest _ Hseg). lia. }
    unfold wal_bytes, buffered. rewrite Hwr. simpl. by rewrite app_nil_r, Hdisk.
Qed.

(** After [NewWriter] everything that was on disk is in sealed segments. *)
Lemma NewWriter_healthy k c f :
  good_dir k f -> (0 <= k < bound)%Z -> (MaxSegmentBytes (norm_config c) <= bound)%Z ->
  (Z.of_nat (length (disk_bytes f)) <= bound)%Z ->
  exists w f', NewWriter c f = (Ok w, f') /\ healthy (k + 1) (MkWalSt w f') /\
    cfg w = norm_config c /\ disk_bytes f' = disk_bytes f /\ buffered w = [] /\
    closeOnce w = false /\
    (activeSeg w = None /\ activeName w = "" \/
     activeSeg w <> None /\ file_bytes f' (activeName w) = []).
Proof.
  intros Hg Hk Hmax Hsz. unfold NewWriter.
  set (f1 := set_dir (Some (default ∅ (fs_dir f))) (tick f)).
  assert (Em : MkdirAll f = (Ok tt, f1)).
  { unfold MkdirAll, syscall, fault_now. by rewrite (gd_faults k f Hg). }
  erewrite bind_run_Ok by (by apply wrapErr_run_Ok).
  assert (Hd1 : fs_dir f1 = fs_dir f) by (destruct (gd_dir k f Hg) as (d & Hd); simpl; by rewrite Hd).
  assert (Hg1 : good_dir k f1).
  { destruct Hg as [A1 A2 A3 A4 A5 A6].
    assert (Hent : forall x, entry f1 x = entry f x) by (intros; unfold entry; by rewrite Hd1).
    split; [by apply (fs_ok_ext f)|done|by rewrite Hd1|..].
    - intros x d. rewrite Hent. apply A4.
    - intros x. rewrite Hent. apply A5.
    - intros name n (d & Hx & Hy). rewrite Hent in Hx. unfold file_bytes. rewrite Hent.
      apply (A6 name n). by exists d. }
  assert (Hfb : forall x, file_bytes f1 x = file_bytes f x)
    by (intros; unfold file_bytes, entry; by rewrite Hd1).
  assert (Hdk : disk_bytes f1 = disk_bytes f).
  { unfold disk_bytes, seg_list, listing. rewrite Hd1. done. }
  destruct (openLatest_Ok k (norm_config c) f1 Hg1) as (s & Es).
  destruct (openLatest_healthy k (norm_config c) f1 s) as (Hh & Hcfg & Hwb & Hbu & Hco & Hrs & Hnm); try done.
  assert (Ew : withWriter (emptyWriter (norm_config c)) openLatest f1 = (Ok (wr s), fs s)).
  { unfold withWriter. by rewrite Es. }
  erewrite bind_run_Ok by (by apply wrapErr_run_Ok).
  assert (Hfin : forall s', healthy (k + 1) s' -> cfg (wr s') = norm_config c -> forall w,
    w = (if (0 <? SyncInterval (norm_config c))%Z
         then set_stop (stopClosed (wr s')) (Some true) (closeOnce (wr s')) (replayStop (wr s')) (wr s')
         else wr s') ->
    healthy (k + 1) (MkWalSt w (fs s')) /\ cfg w = norm_config c /\ buffered w = buffered (wr s') /\
    activeName w = activeName (wr s') /\ activeSeg w = activeSeg (wr s') /\ closeOnce w = closeOnce (wr s')).
  { intros s' Hh' Hc' w ->. destruct (0 <? SyncInterval (norm_config c))%Z; [|by destruct s'].
    split; [|done]. destruct Hh' as [[] ? ? ? ? ? ? ?]. split; try done. }
  assert (Hempty : forall s', healthy (k + 1) s' -> buffered (wr s') = [] ->
    activeSize (wr s') = 0%Z -> file_bytes (fs s') (activeName (wr s')) = [] \/ activeSeg (wr s') = None).
  { intros s' Hh' Hb' Hz. destruct (activeSeg (wr s')) as [h|] eqn:Hs; [left|by right].
    destruct (hl_active _ _ Hh' h Hs) as (i & b & n & Hi & Hb & _ & Hn & _ & _ & Hs' & _).
    unfold file_bytes. rewrite (wf_dir _ (hl_wf _ _ Hh') h i) by done.
    rewrite Hs' in Hz. destruct (ino_data i (fs s')); [done|]. rewrite length_app in Hz. simpl in Hz. lia. }
  destruct (activeSeg (wr s)) as [h|] eqn:Hs.
  - destruct (Z.ltb_spec 0 (activeSize (wr s))) as [Hlt|Hge].
    + destruct (rotate_healthy k s Hh Hk) as (s' & h' & i & n & Er & Hh' & Hc' & Hw' & Hs' & Hi' & Hda & Hbu' & Hn' & _).
      rewrite bool_decide_eq_false_2 by done. cbn [negb andb].
      assert (Ew' : withWriter (wr s) rotate (fs s) = (Ok (wr s'), fs s')).
      { unfold withWriter. destruct s as [w0 g0]. cbn [wr fs]. by rewrite Er. }
      erewrite bind_run_Ok by (by apply wrapErr_run_Ok). rewrite Hcfg in Hc'.
      destruct (Hfin s' Hh' Hc' _ eq_refl) as (A & B & C & D & E1 & E2).
      eexists _, _. split; [done|]. split; [exact A|]. split; [exact B|]. split.
      { unfold wal_bytes in Hw'. rewrite Hbu', app_nil_r in Hw'. by rewrite Hw', <- Hdk, <- Hwb. }
      split; [by rewrite C|]. split; [rewrite E2; exact (keeps_run _ _ _ _ _ (closed_is_rotate false) Er Hco)|].
      right. rewrite D, E1, Hs'. split; [done|]. unfold file_bytes.
      by rewrite (wf_dir _ (hl_wf _ _ Hh') h' i).
    + rewrite bool_decide_eq_false_2 by done. cbn [negb andb]. unfold bind, ret at 1.
      assert (Hh1 : healthy (k + 1) s) by (apply (healthy_mono k); [done|lia]).
      destruct (Hfin s Hh1 Hcfg _ eq_refl) as (A & B & C & D & E1 & E2).
      eexists _, _. split; [done|]. split; [exact A|]. split; [exact B|].
      unfold wal_bytes in Hwb. rewrite Hbu, app_nil_r in Hwb.
      split; [congruence|]. split; [by rewrite C|]. split; [by rewrite E2|].
      right. rewrite D, E1. split; [by rewrite Hs|].
      destruct (hl_active k s Hh h Hs) as (i & b & n & _ & _ & _ & _ & _ & _ & Hz & _).
      destruct (Hempty s Hh1 Hbu) as [?|?]; [lia|done|congruence].
  - rewrite bool_decide_eq_true_2 by done. cbn [negb andb]. unfold bind, ret at 1.
    assert (Hh1 : healthy (k + 1) s) by (apply (healthy_mono k); [done|lia]).
    destruct (Hfin s Hh1 Hcfg _ eq_refl) as (A & B & C & D & E1 & E2).
    eexists _, _. split; [done|]. split; [exact A|]. split; [exact B|].
    unfold wal_bytes in Hwb. rewrite Hbu, app_nil_r in Hwb.
    split; [congruence|]. split; [by rewrite C|]. split; [by rewrite E2|].
    left. rewrite D, E1. auto.
Qed.
