(* ===== verification/WalReplay.v ===== *)
(** * Replaying the write-ahead log: theorems

    - a segment is deleted only after the callback accepted every entry in
      it, whatever fails, and the active segment is never touched (for a pass
      that no rotation interrupts);
    - on a healthy disk an accepting callback receives every sealed entry, in
      the order of writing, and the sealed segments are gone;
    - what is written, closed and opened again is replayed entry by entry;
    - an entry longer than the replayer's line limit stops every replay. *)

From Stdlib Require Import ZArith Lia Ascii String.
From stdpp Require Import base tactics numbers strings gmap list sorting.
From S2P Require Import Prelude GoStrings GoOs Message Wal WalSegments WalWriter WalRefine.

Import wal.
Local Open Scope go_scope.

(** ** Scanning *)

Lemma scan_lines_line limit cur d rest :
  newline ∉ d ->
  scan_lines limit cur (d ++ newline :: rest) =
    if (limit <=? Z.of_nat (length (cur ++ d)))%Z then ([], true)
    else (dropCR (cur ++ d) :: (scan_lines limit [] rest).1, (scan_lines limit [] rest).2).
Proof.
  revert cur; induction d as [|c d IH]; intros cur Hd; cbn [app scan_lines].
  - rewrite Ascii.eqb_refl, app_nil_r. by destruct (scan_lines limit [] rest).
  - apply not_elem_of_cons in Hd as [Hc Hd].
    destruct (Ascii.eqb_spec c newline) as [->|_]; [done|]. rewrite IH by done.
    by rewrite <- app_assoc.
Qed.

(** Complete lines scan independently of what follows them. *)
Lemma scan_lines_app limit cur a b :
  ends_nl a -> a <> [] ->
  scan_lines limit cur (a ++ b) =
    if (scan_lines limit cur a).2 then ((scan_lines limit cur a).1, true)
    else ((scan_lines limit cur a).1 ++ (scan_lines limit [] b).1, (scan_lines limit [] b).2).
Proof.
  intros Hnl. revert cur; induction a as [|c a IH]; intros cur Hne; [done|]. cbn [app scan_lines].
  assert (Hnl' : a = [] \/ (ends_nl a /\ a <> [])).
  { destruct Hnl as [|(x & Hx)]; [done|]. destruct x as [|c' x]; simplify_eq/=; [by left|].
    right. split; [right; by exists x|by destruct x]. }
  destruct (Ascii.eqb_spec c newline) as [->|Hc].
  - destruct (limit <=? Z.of_nat (length cur))%Z; [done|].
    destruct Hnl' as [->|[Hnl' Hne']].
    + simpl. by destruct (scan_lines limit [] b).
    + rewrite IH by done. destruct (scan_lines limit [] a) as [la ga]. simpl.
      destruct ga; [done|]. done.
  - destruct Hnl' as [->|[Hnl' Hne']]; [|by apply IH].
    exfalso. destruct Hnl as [|(x & Hx)]; [done|]. destruct x as [|? [|]]; simplify_eq/=.
Qed.

Lemma scan_concat limit (bs : list bytes) :
  Forall ends_nl bs ->
  Forall (fun f => (scan_lines limit [] f).2 = false) bs ->
  scan_lines limit [] (concat bs) = (concat ((fun f => (scan_lines limit [] f).1) <$> bs), false).
Proof.
  induction bs as [|b bs IH]; intros Hnl Hok; [done|].
  apply Forall_cons in Hnl as [Hb Hnl]. apply Forall_cons in Hok as [H1 H2].
  specialize (IH Hnl H2). destruct b as [|c b].
  - exact IH.
  - change (concat ((c :: b) :: bs)) with ((c :: b) ++ concat bs).
    rewrite scan_lines_app by done. rewrite H1, IH. done.
Qed.

(** The entries of a file as the replayer sees them. *)
Definition line_limit (w : Writer) : Z := scan_limit (maxReplayLineBytes (MaxSegmentBytes (cfg w))).

Section codec.
Context `{EntryCodec}.

Definition entries_in (limit : Z) (b : bytes) : list Entry := decode_lines (scan_lines limit [] b).1.

Lemma decode_lines_app l1 l2 : decode_lines (l1 ++ l2) = decode_lines l1 ++ decode_lines l2.
Proof. apply omap_app. Qed.

Lemma decode_lines_concat ls : decode_lines (concat ls) = concat (decode_lines <$> ls).
Proof. induction ls as [|l ls IH]; [done|]. cbn [concat fmap list_fmap]. by rewrite decode_lines_app, IH. Qed.

Lemma dropCR_id d : last d <> Some "013"%char -> dropCR d = d.
Proof. intros Hd. unfold dropCR. by rewrite bool_decide_eq_false_2. Qed.

(** Lines written by [Write] scan and decode to the entries written. *)
Lemma entries_written limit es ls :
  lines_of es ls -> Forall readable es -> Forall (fun l => Z.of_nat (length l) <= limit)%Z ls ->
  scan_lines limit [] (concat ls) = ((fun l => take (length l - 1) l) <$> ls, false) /\
  entries_in limit (concat ls) = canon <$> es.
Proof.
  intros Hl Hr Hb. unfold entries_in.
  assert (Hs : scan_lines limit [] (concat ls) = ((fun l => take (length l - 1) l) <$> ls, false) /\
    decode_lines ((fun l => take (length l - 1) l) <$> ls) = canon <$> es).
  { induction Hl as [|e l es ls (d & Hm & ->) Hl IH]; [done|].
    apply Forall_cons in Hr as [Hr1 Hr]. inversion Hb as [|?? H1 H2]; subst. destruct (IH Hr H2) as [IH1 IH2].
    destruct (marshal_line e d Hm) as (Hd & Hne & Hcr).
    assert (Hlen : length (d ++ [newline]) = S (length d)) by (rewrite length_app; simpl; lia).
    cbn [concat fmap list_fmap]. rewrite Hlen, Nat.sub_1_r. simpl Nat.pred. rewrite take_app_length.
    rewrite <- app_assoc. simpl. rewrite scan_lines_line by done. simpl app.
    rewrite (proj2 (Z.leb_gt _ _)) by lia. rewrite IH1, dropCR_id by done. split; [done|].
    unfold decode_lines in *. simpl. rewrite bool_decide_eq_false_2 by done.
    rewrite (marshal_unmarshal e d Hr1 Hm). by rewrite IH2. }
  destruct Hs as [-> H2]. split; [done|]. exact H2.
Qed.

(** ** The callback's log *)

Context {C : Type} (fn : Entry -> St C unit).

(** The callback, recording what it accepted. *)
Definition logged (e : Entry) : St (C * list Entry) unit := fun '(c, log) =>
  match fn e c with
  | (Ok u, c') => (Ok u, (c', log ++ [e]))
  | (Err err, c') => (Err err, (c', log))
  | (Panic p, c') => (Panic p, (c', log))
  end.

Lemma replay_lines_logged ls n c log :
  exists n' oe c' new, replay_lines logged ls n (c, log) = (Ok (n', oe), (c', log ++ new)) /\
    new `prefix_of` decode_lines ls /\ (oe = None -> new = decode_lines ls) /\
    ((forall e c, exists c', fn e c = (Ok tt, c')) -> oe = None).
Proof.
  revert n c log; induction ls as [|l ls IH]; intros n c log.
  - exists n, None, c, []. rewrite app_nil_r. by split_and!.
  - unfold decode_lines. cbn [replay_lines omap list_omap]. fold (decode_lines ls).
    case_bool_decide as Hl; [apply IH|]. destruct (unmarshal l) as [e|] eqn:Eu; [|apply IH].
    unfold bind, attempt, invokeReplayCallback, recovering, logged at 1.
    destruct (fn e c) as [[[]|err|p] c1] eqn:Ef.
    + destruct (IH (n +64 1%Z) c1 (log ++ [e])) as (n' & oe & c' & new & -> & Hp & Hall & Hacc).
      exists n', oe, c', (e :: new). rewrite <- app_assoc. split; [done|].
      change (omap (fun line => if bool_decide (line = []) then None else unmarshal line) ls)
        with (decode_lines ls).
      split; [by apply prefix_cons|]. split; [|done]. intros Hn. by rewrite (Hall Hn).
    + exists n, (Some (WrapError "replay entry failed: " err)), c1, []. rewrite app_nil_r.
      split; [done|]. split; [apply prefix_nil|]. split; [done|]. intros Ha.
      destruct (Ha e c) as (c' & Hc). congruence.
    + exists n, (Some (WrapError "replay entry failed: " (ErrorString ("panic: " +:+ p)))), c1, [].
      rewrite app_nil_r. split; [done|]. split; [apply prefix_nil|]. split; [done|]. intros Ha.
      destruct (Ha e c) as (c' & Hc). congruence.
Qed.

(** The file system after reading: only the clock moved. *)
Definition same_fs (f f' : FS) : Prop :=
  fs_dir f' = fs_dir f /\ fs_inodes f' = fs_inodes f /\ fs_handles f' = fs_handles f /\
  fs_next f' = fs_next f /\ fs_fault f' = fs_fault f.

Lemma same_fs_refl f : same_fs f f.
Proof. by split_and!. Qed.
Lemma same_fs_trans f g h : same_fs f g -> same_fs g h -> same_fs f h.
Proof. intros (? & ? & ? & ? & ?) (? & ? & ? & ? & ?). split_and!; congruence. Qed.
Lemma same_fs_tick f : same_fs f (tick f).
Proof. by split_and!. Qed.

Lemma ReadFile_spec name f r f' :
  ReadFile name f = (r, f') ->
  same_fs f f' /\ (forall p, r <> Panic p) /\
  (forall b, r = Ok (b, None) -> exists i, entry f name = Some (DFile i) /\ b = ino_data i f) /\
  (no_faults f -> forall i, entry f name = Some (DFile i) -> r = Ok (ino_data i f, None)).
Proof.
  unfold ReadFile, syscall, entry, no_faults.
  destruct (fault_now f) as [[n e]|] eqn:E1.
  { intros [= <- <-]. split; [apply same_fs_tick|]. split_and!; try done.
    intros Hn. unfold fault_now in E1. by rewrite Hn in E1. }
  cbn [fs_dir tick]. destruct (fs_dir f) as [d|] eqn:Ed.
  2:{ intros [= <- <-]. split; [apply same_fs_tick|]. by split_and!. }
  cbn [default from_option]. unfold id, fault_now. cbn [fs_fault fs_clock tick].
  destruct (d !! name) as [[i|]|] eqn:El.
  - destruct (fs_fault f (S (fs_clock f))) as [[n e]|] eqn:E2; intros HH; injection HH as Hr Hf; subst r f'.
    + split; [by split_and!|]. split_and!; try done.
      intros Hn. by rewrite Hn in E2.
    + split; [by split_and!|]. split; [done|]. split.
      * intros b [= <-]. by exists i.
      * intros _ j [= <-]. done.
  - intros HH; injection HH as <- <-. split; [by split_and!|]. by split_and!.
  - intros HH; injection HH as <- <-. split; [by split_and!|]. by split_and!.
Qed.

Lemma replaySegment_logged name s c log :
  exists n oe s' c' new,
    replaySegment logged name (s, (c, log)) = (Ok (n, oe), (s', (c', log ++ new))) /\
    wr s' = wr s /\ same_fs (fs s) (fs s') /\
    (oe = None -> exists i, entry (fs s) name = Some (DFile i) /\
       (scan_lines (line_limit (wr s)) [] (ino_data i (fs s))).2 = false /\
       new = entries_in (line_limit (wr s)) (ino_data i (fs s))) /\
    (forall i, no_faults (fs s) -> entry (fs s) name = Some (DFile i) ->
       (forall e c, exists c', fn e c = (Ok tt, c')) ->
       oe = if (scan_lines (line_limit (wr s)) [] (ino_data i (fs s))).2
            then Some (WrapError "wal scan: " ErrTooLong) else None).
Proof.
  unfold replaySegment. unfold bind at 1, onWal at 1, zoom at 1, getW. cbn [fst snd].
  destruct (ReadFile name (fs s)) as [r f'] eqn:Er.
  destruct (ReadFile_spec _ _ _ _ Er) as (Hsame & Hp & Hok & Hnf).
  assert (Ea : attempt (onWal (onFS (ReadFile name))) (s, (c, log))
               = (Ok r, (MkWalSt (wr s) f', (c, log)))).
  { unfold attempt, onWal, onFS, zoom. cbn [fst snd]. rewrite Er. destruct r; try done. by destruct (Hp why). }
  rewrite (bind_run_Ok _ _ _ _ _ Ea). clear Ea.
  destruct r as [rd|e|p]; [| |by destruct (Hp p)].
  2:{ exists 0%Z, (Some e), (MkWalSt (wr s) f'), c, []. rewrite app_nil_r. split_and!; try done.
      intros i Hn Hi. by specialize (Hnf Hn i Hi). }
  destruct rd as [b oerr]. unfold scan_file. cbn [fst snd].
  fold (line_limit (wr s)). destruct (scan_lines (line_limit (wr s)) [] b) as [ls long] eqn:Es.
  destruct (replay_lines_logged ls 0 c log) as (n' & oe & c' & new & El & Hpre & Hall & Hacc).
  assert (Ec : onCB (replay_lines logged ls 0) (MkWalSt (wr s) f', (c, log))
               = (Ok (n', oe), (MkWalSt (wr s) f', (c', log ++ new)))).
  { unfold onCB, zoom. cbn [fst snd]. by rewrite El. }
  rewrite (bind_run_Ok _ _ _ _ _ Ec). clear Ec.
  destruct oe as [e|]; eexists n', _, (MkWalSt (wr s) f'), c', new; (split; [done|]).
  - split_and!; try done. intros i Hn Hi Ha. by specialize (Hacc Ha).
  - split_and!; try done.
    + destruct long; [done|]. destruct oerr; [done|]. intros _.
      destruct (Hok b eq_refl) as (i & Hi & ->). exists i. unfold entries_in. rewrite Es. simpl.
      split_and!; try done. by apply Hall.
    + intros i Hn Hi Ha. specialize (Hnf Hn i Hi). simplify_eq. rewrite Es. by destruct long.
Qed.

(** ** Removing files *)

(** Only the names [ns] are gone. *)
Definition drops (ns : list string) (f f' : FS) : Prop :=
  (forall x, entry f' x = if decide (x ∈ ns) then None else entry f x) /\
  (is_Some (fs_dir f) -> is_Some (fs_dir f')) /\
  fs_inodes f' = fs_inodes f /\ fs_handles f' = fs_handles f /\
  fs_next f' = fs_next f /\ fs_fault f' = fs_fault f.

Lemma same_fs_drops f f' : same_fs f f' -> drops [] f f'.
Proof.
  intros (Hd & ? & ? & ? & ?). unfold drops, entry. rewrite Hd. split_and!; try done.
Qed.

Lemma drops_trans ns1 ns2 f g h : drops ns1 f g -> drops ns2 g h -> drops (ns1 ++ ns2) f h.
Proof.
  intros (He1 & ? & ? & ? & ? & ?) (He2 & ? & ? & ? & ? & ?).
  split_and!; try congruence; [|auto].
  intros x. rewrite He2, He1. destruct (decide (x ∈ ns1)), (decide (x ∈ ns2)); symmetry;
    solve [apply decide_True; set_solver | apply decide_False; set_solver].
Qed.

Lemma drops_entry ns f f' name i :
  drops ns f f' -> entry f' name = Some (DFile i) -> entry f name = Some (DFile i) /\ ino_data i f' = ino_data i f.
Proof.
  intros (He & _ & Hi & _) H1. rewrite He in H1. case_decide; [done|].
  unfold ino_data. by rewrite Hi.
Qed.

Lemma Remove_spec name f r f' :
  Remove name f = (r, f') ->
  (forall p, r <> Panic p) /\
  ((r = Ok tt /\ drops [name] f f' /\ exists i, entry f name = Some (DFile i)) \/
   (same_fs f f' /\ exists e, r = Err e)) /\
  (no_faults f -> forall i, entry f name = Some (DFile i) -> r = Ok tt).
Proof.
  unfold Remove, syscall, no_faults, entry.
  destruct (fault_now f) as [[n e]|] eqn:E1.
  { intros HH; injection HH as <- <-. split_and!; [done|right; split; [apply same_fs_tick|eauto]|].
    intros Hn. unfold fault_now in E1. by rewrite Hn in E1. }
  cbn [fs_dir tick]. destruct (fs_dir f) as [d|] eqn:Ed.
  2:{ intros HH; injection HH as <- <-. split_and!; [done|right; split; [apply same_fs_tick|eauto]|done]. }
  cbn [default from_option]. unfold id. destruct (d !! name) as [[i|]|] eqn:El;
    intros HH; injection HH as <- <-; split_and!; try done.
  - left. split; [done|]. split; [|eauto]. unfold drops, entry. rewrite Ed. cbn. split_and!; try done.
    intros x. destruct (decide (x = name)) as [->|Hne].
    + rewrite lookup_delete_eq. rewrite decide_True; [done|set_solver].
    + rewrite lookup_delete_ne by done. rewrite decide_False; [done|set_solver].
  - right. split; [apply same_fs_tick|eauto].
  - right. split; [apply same_fs_tick|eauto].
Qed.

Lemma removeSegmentFile_spec name s :
  exists s' ns, removeSegmentFile name s = (Ok tt, s') /\ wr s' = wr s /\ drops ns (fs s) (fs s') /\
    (ns = [] \/ ns = [name]) /\
    (no_faults (fs s) -> forall i, entry (fs s) name = Some (DFile i) -> ns = [name]).
Proof.
  unfold removeSegmentFile. 
  assert (HH : forall ds s, ds <> [] -> exists s' ns,
    (foldr (fun (_ : Z) again => r <- attempt (onFS (Remove name)) ;;
             match r with Ok _ => ret tt | _ => again end) (ret tt) ds : St WalSt unit) s = (Ok tt, s') /\
    wr s' = wr s /\ drops ns (fs s) (fs s') /\ (ns = [] \/ ns = [name]) /\
    (no_faults (fs s) -> forall i, entry (fs s) name = Some (DFile i) -> ns = [name])).
  { clear s. induction ds as [|d ds IH]; intros s Hne; [done|]. cbn [foldr].
    destruct (Remove name (fs s)) as [r f'] eqn:Er.
    destruct (Remove_spec _ _ _ _ Er) as (Hp & Hcase & Hnf).
    assert (Ea : attempt (onFS (Remove name)) s = (Ok r, MkWalSt (wr s) f')).
    { unfold attempt, onFS, zoom. rewrite Er. destruct r; try done. by destruct (Hp why). }
    rewrite (bind_run_Ok _ _ _ _ _ Ea). clear Ea.
    destruct Hcase as [(-> & Hd & Hi)|(Hs & e & ->)].
    - exists (MkWalSt (wr s) f'), [name]. split_and!; auto.
    - destruct (decide (ds = [])) as [->|Hds].
      + exists (MkWalSt (wr s) f'), []. split_and!; auto using same_fs_drops.
        intros Hn i Hi. by specialize (Hnf Hn i Hi).
      + destruct (IH (MkWalSt (wr s) f') Hds) as (s' & ns & -> & Hw & Hd & Hns & Hnf').
        exists s', ns. split_and!; try done.
        * by apply (drops_trans [] ns _ f'); [apply same_fs_drops|].
        * intros Hn i Hi. by specialize (Hnf Hn i Hi). }
  by apply HH.
Qed.

(** ** The loop over the segments *)

Definition accepts : Prop := forall e c, exists c', fn e c = (Ok tt, c').

(** The entries of a segment file of [f], as the writer [w] replays them. *)
Definition seg_entries (w : Writer) (f : FS) (seg : segFile) : list Entry :=
  entries_in (line_limit w) (file_bytes f (path seg)).

Definition fits (w : Writer) (f : FS) (seg : segFile) : Prop :=
  (scan_lines (line_limit w) [] (file_bytes f (path seg))).2 = false.

Definition is_file (f : FS) (seg : segFile) : Prop := exists i, entry f (path seg) = Some (DFile i).

Lemma file_bytes_drops ns f f' seg :
  drops ns f f' -> is_file f' seg -> file_bytes f' (path seg) = file_bytes f (path seg).
Proof.
  intros Hd (i & Hi). destruct (drops_entry _ _ _ _ _ Hd Hi) as [Hi' Hb].
  unfold file_bytes. by rewrite Hi, Hi'.
Qed.

(** What a pass over [segs] does, whatever fails: it completes a prefix
    [fin] of them, whose entries the callback accepted in order, and removes
    files of [fin] only. *)
Definition replayed (segs fin : list segFile) (ns : list string) (new : list Entry) (s s' : WalSt) : Prop :=
  wr s' = wr s /\ drops ns (fs s) (fs s') /\ fin `prefix_of` segs /\
  Forall (fits (wr s) (fs s)) fin /\ Forall (is_file (fs s)) fin /\
  ns ⊆ path <$> fin /\
  exists rest, new = concat (seg_entries (wr s) (fs s) <$> fin) ++ rest.

Lemma replay_segments_step seg segs s c log :
  exists s1 c1 new ns oe, replaySegment logged (path seg) (s, (c, log)) = (Ok oe, (s1, (c1, log ++ new))) /\
    match oe.2 with
    | Some _ => replay_segments logged (seg :: segs) (s, (c, log)) = (Ok tt, (s1, (c1, log ++ new))) /\
                replayed (seg :: segs) [] [] new s s1
    | None => exists s2, replayed [seg] [seg] ns new s s2 /\ new = seg_entries (wr s) (fs s) seg /\
        (no_faults (fs s) -> ns = [path seg]) /\
        replay_segments logged (seg :: segs) (s, (c, log))
          = replay_segments logged segs (s2, (c1, log ++ new))
    end.
Proof.
  destruct (replaySegment_logged (path seg) s c log) as (n & oe & s1 & c1 & new & Hr & Hw & Hs & Hok & _).
  destruct (removeSegmentFile_spec (path seg) s1) as (s2 & ns & Hrm & Hw2 & Hd2 & Hns & Hnf).
  exists s1, c1, new, ns, (n, oe). split; [done|]. cbn [snd].
  assert (Hcons : replay_segments logged (seg :: segs) (s, (c, log)) =
    match oe with Some _ => (Ok tt, (s1, (c1, log ++ new)))
    | None => replay_segments logged segs (s2, (c1, log ++ new)) end).
  { cbn [replay_segments]. rewrite (bind_run_Ok _ _ _ _ _ Hr). cbn [snd]. destruct oe; [done|].
    rewrite (bind_run_Ok _ _ _ tt (s2, (c1, log ++ new))); [done|].
    unfold onWal, zoom. cbn [fst]. by rewrite Hrm. }
  rewrite Hcons. destruct oe as [e|].
  - split; [done|]. unfold replayed. split; [done|]. split; [by apply same_fs_drops|].
    split; [apply prefix_nil|]. split_and!; [done|done|set_solver|by exists new].
  - destruct (Hok eq_refl) as (i & Hi & Hfit & Hnew).
    assert (Hb : file_bytes (fs s) (path seg) = ino_data i (fs s)) by (unfold file_bytes; by rewrite Hi).
    exists s2. unfold replayed, seg_entries, fits, is_file. rewrite <- Hb in Hfit, Hnew.
    split_and!; try done; [congruence| |by apply Forall_singleton| | | |].
    + by apply (drops_trans [] ns _ (fs s1)); [apply same_fs_drops|].
    + apply Forall_singleton. eauto.
    + destruct Hns as [-> | ->]; set_solver.
    + exists []. cbn. by rewrite !app_nil_r.
    + destruct Hs as (Hdir & _ & _ & _ & Hf). intros Hn.
      apply (Hnf ltac:(by unfold no_faults; rewrite Hf) i). unfold entry. by rewrite Hdir.
Qed.

Lemma replayed_trans seg segs fin ns ns' new new' s s2 s' :
  replayed [seg] [seg] ns new s s2 -> new = seg_entries (wr s) (fs s) seg ->
  replayed segs fin ns' new' s2 s' ->
  replayed (seg :: segs) (seg :: fin) (ns ++ ns') (new ++ new') s s'.
Proof.
  intros (Hw & Hd & _ & Hf & Hi & Hn & _) -> (Hw' & Hd' & Hp & Hf' & Hi' & Hn' & rest & ->).
  unfold replayed.
  assert (Hsame : Forall (fun g => file_bytes (fs s2) (path g) = file_bytes (fs s) (path g)) fin).
  { eapply Forall_impl; [exact Hi'|]. intros g. by apply (file_bytes_drops ns). }
  split; [congruence|]. split; [by eapply drops_trans|]. split; [by apply prefix_cons|].
  rewrite Forall_singleton in Hf, Hi. split_and!.
  - constructor; [done|]. rewrite Forall_forall in *. intros g Hg. specialize (Hf' g Hg).
    unfold fits in *. by rewrite (Hsame g Hg), Hw in Hf'.
  - constructor; [done|]. eapply Forall_impl; [exact Hi'|]. intros g (i & Hg). exists i.
    by destruct (drops_entry _ _ _ _ _ Hd Hg).
  - set_solver.
  - exists rest. cbn [fmap list_fmap concat]. rewrite <- app_assoc. do 2 f_equal.
    f_equal. apply list_fmap_ext. intros j g Hg. unfold seg_entries. rewrite Hw.
    rewrite Forall_lookup in Hsame. by rewrite (Hsame j g Hg).
Qed.

Lemma replay_segments_replayed segs s c log :
  exists fin ns new s' c', replay_segments logged segs (s, (c, log)) = (Ok tt, (s', (c', log ++ new))) /\
    replayed segs fin ns new s s'.
Proof.
  revert s c log; induction segs as [|seg segs IH]; intros s c log.
  - exists [], [], [], s, c. rewrite app_nil_r. split; [done|]. unfold replayed.
    split; [done|]. split; [apply same_fs_drops, same_fs_refl|]. split_and!; try done. by exists [].
  - destruct (replay_segments_step seg segs s c log) as (s1 & c1 & new & ns & [n oe] & _ & Hstep).
    cbn [snd] in Hstep. destruct oe as [e|].
    + destruct Hstep as [-> Hr]. by exists [], [], new, s1, c1.
    + destruct Hstep as (s2 & Hr & Hn & _ & ->).
      destruct (IH s2 c1 (log ++ new)) as (fin & ns' & new' & s' & c' & -> & Hr').
      exists (seg :: fin), (ns ++ ns'), (new ++ new'), s', c'. rewrite app_assoc.
      split; [done|]. by eapply replayed_trans.
Qed.

(** With a healthy disk and a callback that accepts, every segment whose
    lines fit is replayed and removed. *)
Lemma replay_segments_all segs s c log :
  accepts -> no_faults (fs s) -> NoDup (path <$> segs) ->
  Forall (is_file (fs s)) segs -> Forall (fits (wr s) (fs s)) segs ->
  exists s' c', replay_segments logged segs (s, (c, log)) =
      (Ok tt, (s', (c', log ++ concat (seg_entries (wr s) (fs s) <$> segs)))) /\
    wr s' = wr s /\ drops (path <$> segs) (fs s) (fs s').
Proof.
  intros Ha. revert s c log; induction segs as [|seg segs IH]; intros s c log Hn Hnd Hi Hf.
  - exists s, c. cbn. rewrite app_nil_r. by split_and!.
  - apply Forall_cons in Hi as [(i & Hi) His], Hf as [Hf Hfs]. cbn in Hnd. apply NoDup_cons in Hnd as [Hnin Hnd].
    destruct (replay_segments_step seg segs s c log) as (s1 & c1 & new & ns & [n oe] & Hr & Hstep).
    destruct (replaySegment_logged (path seg) s c log) as (n' & oe' & s1' & c1' & new' & Hr' & _ & _ & _ & Hcomp).
    rewrite Hr in Hr'. injection Hr' as <- <- <- <- Hnew. apply app_inv_head in Hnew as <-.
    unfold fits, file_bytes in Hf. rewrite Hi in Hf. specialize (Hcomp i Hn Hi Ha). rewrite Hf in Hcomp.
    subst oe. cbn [snd] in Hstep. destruct Hstep as (s2 & (Hw2 & Hd2 & _) & Hnew & Hns & ->).
    specialize (Hns Hn) as ->. pose proof Hd2 as (He2 & _ & Hino & _ & _ & Hflt).
    assert (Hent : Forall (fun g => entry (fs s2) (path g) = entry (fs s) (path g)) segs).
    { apply Forall_forall. intros g Hg. rewrite He2. apply decide_False.
      rewrite list_elem_of_singleton. intros Heq. apply Hnin. rewrite <- Heq. by apply list_elem_of_fmap_2. }
    assert (Hfb : Forall (fun g => file_bytes (fs s2) (path g) = file_bytes (fs s) (path g)) segs).
    { eapply Forall_impl; [exact Hent|]. intros g Hg. unfold file_bytes, ino_data. by rewrite Hg, Hino. }
    destruct (IH s2 c1 (log ++ new)) as (s' & c' & Hrun & Hw & Hd).
    + unfold no_faults. by rewrite Hflt.
    + done.
    + rewrite Forall_forall in *. intros g Hg. destruct (His g Hg) as (j & Hj). exists j. by rewrite Hent.
    + rewrite Forall_forall in *. intros g Hg. unfold fits. rewrite (Hfb g Hg), Hw2. by apply Hfs.
    + exists s', c'. split; [|split; [congruence|by apply (drops_trans [path seg] _ _ (fs s2))]].
      rewrite Hrun. do 3 f_equal. cbn [fmap list_fmap concat]. rewrite <- app_assoc. rewrite Hnew. do 2 f_equal.
      f_equal. apply list_fmap_ext. intros j g Hg. unfold seg_entries. rewrite Hw2.
      rewrite Forall_lookup in Hfb. by rewrite (Hfb j g Hg).
Qed.

(** [replaySealedSegments] is the loop over the listing taken at its start. *)
Lemma replaySealed_run s c log :
  exists f1, same_fs (fs s) f1 /\
    (replaySealedSegments logged (s, (c, log)) = (Ok tt, (MkWalSt (wr s) f1, (c, log))) \/
     replaySealedSegments logged (s, (c, log)) =
       replay_segments logged (sealed_segments (activeName (wr s)) (listing (fs s)))
         (MkWalSt (wr s) f1, (c, log))) /\
    (no_faults (fs s) -> is_Some (fs_dir (fs s)) ->
     replaySealedSegments logged (s, (c, log)) =
       replay_segments logged (sealed_segments (activeName (wr s)) (listing (fs s)))
         (MkWalSt (wr s) f1, (c, log))).
Proof.
  exists (tick (fs s)). split; [apply same_fs_tick|].
  unfold replaySealedSegments, replay_from, ActiveSegmentName, bind, attempt, onWal, onFS, zoom, getW, ret.
  cbn [fst snd wr fs].
  destruct (ReadDir (fs s)) as [[l|e|p] f'] eqn:Er.
  - destruct (ReadDir_Ok _ _ _ Er) as (-> & -> & _). split; [by right|done].
  - pose proof (ReadDir_state (fs s)) as Hst. rewrite Er in Hst. cbn in Hst. subst f'.
    split; [by left|]. intros Hn Hd. by rewrite ReadDir_no_fault in Er.
  - exfalso. unfold ReadDir, syscall in Er. destruct (fault_now (fs s)) as [[]|]; [done|].
    by destruct (fs_dir (tick (fs s))).
Qed.

Lemma replayed_tick segs fin ns new w f f1 s' :
  same_fs f f1 -> replayed segs fin ns new (MkWalSt w f1) s' -> replayed segs fin ns new (MkWalSt w f) s'.
Proof.
  intros Hs. pose proof Hs as (Hd & Hi & _). unfold replayed. cbn [wr fs].
  intros (Hw & Hdr & Hp & Hf & Hfi & Hn & rest & ->).
  assert (Hfb : forall x, file_bytes f1 x = file_bytes f x).
  { intros x. unfold file_bytes, entry, ino_data. by rewrite Hd, Hi. }
  split_and!; try done.
  - by apply (drops_trans [] ns _ f1); [apply same_fs_drops|].
  - eapply Forall_impl; [exact Hf|]. intros g. unfold fits. by rewrite Hfb.
  - eapply Forall_impl; [exact Hfi|]. intros g. unfold is_file, entry. by rewrite Hd.
  - exists rest. do 2 f_equal. apply list_fmap_ext. intros j g _. unfold seg_entries. by rewrite Hfb.
Qed.

Lemma replaySealed_replayed s c log :
  exists fin ns new s' c',
    replaySealedSegments logged (s, (c, log)) = (Ok tt, (s', (c', log ++ new))) /\
    replayed (sealed_segments (activeName (wr s)) (listing (fs s))) fin ns new s s'.
Proof.
  destruct s as [w f].
  destruct (replaySealed_run (MkWalSt w f) c log) as (f1 & Hs & [-> | ->] & _); cbn [wr fs] in *.
  - exists [], [], [], (MkWalSt w f1), c. rewrite app_nil_r. split; [done|].
    unfold replayed. split; [done|]. split; [by apply same_fs_drops|].
    split; [apply prefix_nil|]. split_and!; try done. by exists [].
  - destruct (replay_segments_replayed (sealed_segments (activeName w) (listing f)) (MkWalSt w f1) c log)
      as (fin & ns & new & s' & c' & -> & Hr).
    exists fin, ns, new, s', c'. split; [done|]. by eapply replayed_tick.
Qed.

(** ** A healthy log *)

Definition sealed (s : WalSt) : list segFile := filter (path_is_not (activeName (wr s))) (seg_list (fs s)).

Definition not_among (ns : list string) (seg : segFile) : Prop := path seg ∉ ns.
#[global] Instance not_among_dec ns seg : Decision (not_among ns seg).
Proof. unfold not_among. apply _. Defined.

Lemma seg_list_drops k f f' ns :
  clean k f -> (k < two63)%Z -> drops ns f f' ->
  seg_list f' = filter (not_among ns) (seg_list f) /\ clean k f'.
Proof.
  intros Hc Hk (He & _).
  assert (Hc' : clean k f') by (intros x d; rewrite He; case_decide; [done|apply Hc]).
  split; [|done]. unfold seg_list at 1. apply (segments_unique k); [done|done|..].
  - apply StronglySorted_filter, segments_sorted.
  - apply NoDup_filter, segments_nodup.
  - intros x n. rewrite list_elem_of_filter, elem_of_seg_list. unfold not_among, has_segment.
    setoid_rewrite He. simpl. case_decide; naive_solver.
Qed.

Lemma seg_entries_concat w f segs :
  Forall (fun seg => ends_nl (file_bytes f (path seg))) segs -> Forall (fits w f) segs ->
  concat (seg_entries w f <$> segs) =
  entries_in (line_limit w) (concat ((fun seg => file_bytes f (path seg)) <$> segs)).
Proof.
  intros Hnl Hf. unfold entries_in. rewrite scan_concat by (by rewrite Forall_fmap).
  cbn [fst]. rewrite decode_lines_concat. by rewrite <- !list_fmap_compose.
Qed.

Lemma seg_list_files f : Forall (is_file f) (seg_list f).
Proof.
  apply Forall_forall. intros [x n] Hx. apply elem_of_seg_list in Hx as (d & He & Hs & _).
  destruct (is_segment_file _ _ Hs) as (i & ->). by exists i.
Qed.

Lemma replaySealed_all k s c log :
  healthy k s -> (k < two63)%Z -> accepts -> ToLower (activeName (wr s)) = activeName (wr s) ->
  Forall (fits (wr s) (fs s)) (sealed s) ->
  exists s' c', replaySealedSegments logged (s, (c, log)) =
      (Ok tt, (s', (c', log ++ concat (seg_entries (wr s) (fs s) <$> sealed s)))) /\
    wr s' = wr s /\ drops (path <$> sealed s) (fs s) (fs s').
Proof.
  intros Hh Hk Ha Hact Hf. destruct s as [w f]. cbn [wr fs] in *.
  destruct (replaySealed_run (MkWalSt w f) c log) as (f1 & Hs & _ & Hrun); cbn [wr fs] in *.
  rewrite Hrun by (apply (hl_faults _ _ Hh) || apply (hl_dir _ _ Hh)).
  rewrite (sealed_segments_filter k) by (done || apply (hl_clean _ _ Hh)).
  change (filter (path_is_not (activeName w)) (seg_list f)) with (sealed (MkWalSt w f)).
  pose proof Hs as (Hd & Hi & _ & _ & Hflt).
  assert (Hfb : forall x, file_bytes f1 x = file_bytes f x).
  { intros x. unfold file_bytes, entry, ino_data. by rewrite Hd, Hi. }
  destruct (replay_segments_all (sealed (MkWalSt w f)) (MkWalSt w f1) c log) as (s' & c' & -> & Hw & Hdr);
    cbn [wr fs] in *; try done.
  - unfold no_faults. rewrite Hflt. apply (hl_faults _ _ Hh).
  - unfold sealed. cbn [wr fs]. rewrite <- (sealed_segments_filter k) by (done || apply (hl_clean _ _ Hh)).
    apply segments_paths_nodup.
  - apply Forall_forall. intros g Hg. apply list_elem_of_filter in Hg as [_ Hg].
    pose proof (seg_list_files f) as Hall. rewrite Forall_forall in Hall.
    destruct (Hall g Hg) as (i & Hgi). exists i. unfold entry. by rewrite Hd.
  - eapply Forall_impl; [exact Hf|]. intros g. unfold fits. by rewrite Hfb.
  - exists s', c'. split_and!; try done.
    + do 5 f_equal. apply list_fmap_ext. intros j g _. unfold seg_entries. cbn. by rewrite Hfb.
    + by apply (drops_trans [] _ _ f1); [apply same_fs_drops|].
Qed.

(** The sealed segments of a freshly opened log hold all its bytes. *)
Lemma sealed_bytes k s :
  healthy k s -> (k < two63)%Z -> buffered (wr s) = [] ->
  activeName (wr s) = "" \/ file_bytes (fs s) (activeName (wr s)) = [] ->
  concat ((fun seg => file_bytes (fs s) (path seg)) <$> sealed s) = disk_bytes (fs s) /\
  Forall (fun seg => ends_nl (file_bytes (fs s) (path seg))) (sealed s).
Proof.
  intros Hh Hk Hb Hact. unfold sealed, disk_bytes. split.
  - assert (Hact' : Forall (fun g => path g = activeName (wr s) -> file_bytes (fs s) (path g) = []) (seg_list (fs s))).
    { apply Forall_forall. intros [x n] Hx%elem_of_seg_list Heq. cbn [path] in *.
      destruct Hact as [He|He]; [|by rewrite Heq].
      destruct (clean_has_segment k (fs s) x n (hl_clean _ _ Hh) Hk Hx) as [-> _].
      rewrite He in Heq. by apply segment_name_nonempty in Heq. }
    induction Hact' as [|g l Hg _ IH]; [done|]. rewrite filter_cons. unfold path_is_not at 1.
    destruct (decide (path g = activeName (wr s))) as [E|E].
    + rewrite decide_False by (intros HH; by apply HH). rewrite IH, fmap_cons. cbn [concat]. by rewrite (Hg E).
    + rewrite decide_True by done. rewrite !fmap_cons. cbn [concat]. by rewrite IH.
  - apply Forall_forall. intros [x n] Hx. apply list_elem_of_filter in Hx as [Hne Hx].
    apply elem_of_seg_list in Hx. pose proof (hl_aligned _ _ Hh _ _ Hx) as Hal.
    unfold seg_content in Hal. rewrite Hb in Hal. cbn [path]. revert Hal. case_decide; by rewrite app_nil_r.
Qed.

Lemma fits_parts limit (bs : list bytes) :
  Forall ends_nl bs -> (scan_lines limit [] (concat bs)).2 = false ->
  Forall (fun b => (scan_lines limit [] b).2 = false) bs.
Proof.
  induction bs as [|b bs IH]; intros Hnl Hs; [done|]. apply Forall_cons in Hnl as [Hb Hnl].
  destruct b as [|c b]; [constructor; [done|by apply IH]|].
  change (concat ((c :: b) :: bs)) with ((c :: b) ++ concat bs) in Hs. rewrite scan_lines_app in Hs by done.
  destruct (scan_lines limit [] (c :: b)) as [l [|]] eqn:E; cbn [fst snd] in Hs; [done|].
  constructor; [by rewrite E|by apply IH].
Qed.

(** Opening a directory and replaying it: every entry, in order, and the
    directory has no byte of the log left. *)
Lemma open_and_replay k c f es ls st :
  good_dir k f -> (0 <= k)%Z -> (k + 1 < bound)%Z -> (MaxSegmentBytes (norm_config c) <= bound)%Z ->
  (Z.of_nat (length (disk_bytes f)) <= bound)%Z ->
  disk_bytes f = concat ls -> lines_of es ls -> Forall readable es ->
  Forall (fun l => Z.of_nat (length l) <= scan_limit (maxReplayLineBytes (MaxSegmentBytes (norm_config c))))%Z ls ->
  accepts ->
  exists w f1 s2 st', NewWriter c f = (Ok w, f1) /\
    replaySealedSegments logged (MkWalSt w f1, (st, [])) = (Ok tt, (s2, (st', canon <$> es))) /\
    wr s2 = w /\ disk_bytes (fs s2) = [].
Proof.
  intros Hg Hk Hk1 Hmax Hsz Hdisk Hls Hr Hfit Ha.
  destruct (NewWriter_healthy k c f) as (w & f1 & Hnew & Hh & Hcfg & Hd1 & Hbuf & _ & Hact); [done|lia|done|done|].
  set (s1 := MkWalSt w f1). assert (Hk2 : (k + 1 < two63)%Z) by (unfold bound, two63 in *; lia).
  destruct (sealed_bytes (k + 1) s1) as [Hsb Hal]; [done|done|done|naive_solver|].
  assert (Hlim : Forall (fun l => Z.of_nat (length l) <= line_limit w)%Z ls) by (unfold line_limit; by rewrite Hcfg).
  destruct (entries_written _ _ _ Hls Hr Hlim) as [Hscan Hent].
  assert (Hf : Forall (fits w f1) (sealed s1)).
  { pose proof (fits_parts (line_limit w) ((fun seg => file_bytes f1 (path seg)) <$> sealed s1)) as Hp.
    rewrite !Forall_fmap in Hp. apply Hp; [done|]. change (fs s1) with f1 in Hsb. rewrite Hsb, Hd1, Hdisk. by rewrite Hscan. }
  assert (Hlow : ToLower (activeName w) = activeName w).
  { destruct (activeSeg w) as [h|] eqn:Hs; [|destruct Hact as [[_ ->]|[? _]]; done].
    destruct (hl_active _ _ Hh h Hs) as (i & b & n & _ & _ & _ & Hn & Hnk & _). cbn [wr] in Hn.
    rewrite Hn. apply segment_name_plain. unfold in_int64, two63 in *. lia. }
  destruct (replaySealed_all (k + 1) s1 st []) as (s2 & st' & Hrun & Hw2 & Hdr); try done.
  exists w, f1, s2, st'. split; [done|]. split; [|split; [done|]].
  - change (MkWalSt w f1) with s1. rewrite Hrun. cbn [app]. rewrite (seg_entries_concat w f1) by done. change (fs s1) with f1 in Hsb.
    rewrite Hsb, Hd1, Hdisk, Hent. done.
  - unfold disk_bytes. destruct (seg_list_drops (k + 1) f1 (fs s2) (path <$> sealed s1)) as [-> _]; [apply (hl_clean _ _ Hh)|done..|].
    assert (Hz : Forall (fun seg => file_bytes (fs s2) (path seg) = []) (filter (not_among (path <$> sealed s1)) (seg_list f1))).
    { apply Forall_forall. intros g Hg'. apply list_elem_of_filter in Hg' as [Hna Hg'].
      assert (Hpath : path g = activeName w).
      { destruct (decide (path g = activeName w)) as [|Hne]; [done|]. exfalso. apply Hna.
        apply list_elem_of_fmap_2. by apply list_elem_of_filter. }
      pose proof (seg_list_files f1) as Hfs. rewrite Forall_forall in Hfs. destruct (Hfs g Hg') as (i & Hi).
      destruct g as [x n]. cbn [path] in *. subst x. destruct Hact as [[_ He]|[_ He]].
      - exfalso. rewrite He in *. apply elem_of_seg_list in Hg'.
        destruct (clean_has_segment (k + 1) f1 "" n (hl_clean _ _ Hh) Hk2 Hg') as [Hn _]. by apply (segment_name_nonempty n).
      - pose proof Hdr as (Hen & _ & Hino & _). unfold file_bytes in *. rewrite Hen. case_decide; [done|].
        cbn [fs s1]. rewrite Hi in *. unfold ino_data in *. by rewrite Hino. }
    induction Hz as [|g l Hg' _ IH]; [done|]. rewrite fmap_cons. cbn [concat]. by rewrite Hg', IH.
Qed.

(** ** A line that does not fit *)

(** A sealed segment as the next pass will see it. *)
Definition is_sealed (s : WalSt) (seg : segFile) : Prop :=
  seg ∈ sealed_segments (activeName (wr s)) (listing (fs s)).

Lemma prefix_before {A} (R : relation A) (pre l : list A) x y :
  StronglySorted R l -> pre `prefix_of` l -> x ∉ pre -> x ∈ l -> y ∈ pre -> R y x.
Proof.
  intros Hs (post & ->) Hx Hxl Hy. apply StronglySorted_app in Hs as (Hlt & _ & _).
  apply elem_of_app in Hxl as [|Hxl]; [done|]. by apply Hlt.
Qed.

Lemma oversize_step s c log seg g :
  is_sealed s seg -> ~ fits (wr s) (fs s) seg -> is_sealed s g -> (num seg < num g)%Z \/ g = seg ->
  exists s' c' log', replaySealedSegments logged (s, (c, log)) = (Ok tt, (s', (c', log'))) /\
    wr s' = wr s /\ entry (fs s') (path g) = entry (fs s) (path g) /\
    file_bytes (fs s') (path g) = file_bytes (fs s) (path g) /\ is_sealed s' g.
Proof.
  intros Hseg Hbig Hg Hlt.
  destruct (replaySealed_replayed s c log) as (fin & ns & new & s' & c' & Hrun & Hw & Hd & Hpre & Hfit & _ & Hns & _).
  exists s', c', (log ++ new). split; [done|]. split; [done|].
  assert (Hnot : seg ∉ fin) by (intros Hin; rewrite Forall_forall in Hfit; by apply Hbig, Hfit).
  assert (Hgn : path g ∉ ns).
  { intros Hin. apply Hns, list_elem_of_fmap in Hin as (h & Hph & Hh).
    assert (Hle : num_le h seg) by (eapply prefix_before; [apply segments_sorted|exact Hpre|done..]).
    assert (Heq : h = g).
    { assert (Hhs : h ∈ sealed_segments (activeName (wr s)) (listing (fs s))) by (by eapply elem_of_prefix).
      destruct h as [hp hn], g as [gp gn]. unfold is_sealed, sealed_segments in *. cbn [path] in Hph. subst hp.
      apply elem_of_segments in Hhs as (? & _ & _ & _ & H1), Hg as (? & _ & _ & _ & H2). congruence. }
    subst h. unfold num_le in Hle. destruct Hlt as [| ->]; [lia|done]. }
  pose proof Hd as (He & _ & Hi & _). assert (Hent : entry (fs s') (path g) = entry (fs s) (path g)).
  { rewrite He. by rewrite decide_False. }
  split; [done|]. split; [unfold file_bytes, ino_data; by rewrite Hent, Hi|].
  unfold is_sealed, sealed_segments in *. destruct g as [gp gn]. rewrite elem_of_segments in *. rewrite Hw.
  destruct Hg as (d & Hin & Hrest). exists d. split; [|done].
  apply elem_of_listing in Hin. apply elem_of_listing. cbn [path] in Hent. by rewrite Hent.
Qed.

End codec.
