(* ===== verification/WalDurable.v ===== *)
(** * The log is append-only, and synced writes survive a crash

    Whatever calls fail, no operation of the writer shortens, rewrites,
    renames or removes a segment file, and what was synced stays synced.  An
    entry that [Write] acknowledged with [SyncInterval = 0] is therefore still
    in its file after any further operations and a power failure.  The file
    also holds the behaviour of a writer whose rotation failed half-way. *)

From Stdlib Require Import ZArith Lia Ascii String.
From stdpp Require Import base tactics numbers strings gmap list sorting.
From S2P Require Import Prelude GoStrings GoOs Message Wal WalSegments WalWriter WalRefine WalReplay.

Import wal.
Local Open Scope go_scope.

(** ** Growing directories *)

(** Every file of [f0] is still there, extended at most, with what was
    durable still durable. *)
Definition grows (f0 f : FS) : Prop := forall x i, entry f0 x = Some (DFile i) ->
  entry f x = Some (DFile i) /\ ino_data i f0 `prefix_of` ino_data i f /\
  ino_durable i f0 <= ino_durable i f.

Definition durable_ok (f : FS) : Prop := forall x i, entry f x = Some (DFile i) ->
  ino_durable i f <= length (ino_data i f).

Record growing (f0 f : FS) : Prop := {
  gr_ok : fs_ok f;
  gr_durable : durable_ok f;
  gr_grows : grows f0 f;
}.

Lemma grows_refl f : grows f f.
Proof. by intros x i H. Qed.

Lemma growing_refl f : fs_ok f -> durable_ok f -> growing f f.
Proof. split; [done..|apply grows_refl]. Qed.

Lemma grows_trans f g h : grows f g -> grows g h -> grows f h.
Proof.
  intros H1 H2 x i Hx. destruct (H1 x i Hx) as (E1 & P1 & D1). destruct (H2 x i E1) as (E2 & P2 & D2).
  split_and!; [done|by etrans|lia].
Qed.

(** One step: entries kept, inodes that the directory knows extended. *)
Lemma growing_step f0 f f' :
  growing f0 f -> fs_ok f' -> grows f f' -> durable_ok f' -> growing f0 f'.
Proof. intros [H1 H2 H3] Hok Hg Hd. split; [done..|]. by eapply grows_trans. Qed.

Lemma growing_same f0 f f' :
  growing f0 f -> fs_ok f' -> fs_dir f' = fs_dir f -> fs_inodes f' = fs_inodes f -> growing f0 f'.
Proof.
  intros H Hok Hd Hi. apply (growing_step f0 f); [done..| |].
  - intros x i Hx. unfold entry, ino_data, ino_durable in *. by rewrite Hd, Hi.
  - intros x i. pose proof (gr_durable _ _ H x i) as HH.
    unfold entry, ino_data, ino_durable in *. by rewrite Hd, Hi.
Qed.

Lemma growing_tick f0 f : growing f0 f -> growing f0 (tick f).
Proof. intros H. apply (growing_same f0 f); try done. apply (fs_ok_ext f); try done. apply (gr_ok _ _ H). Qed.

Lemma fs_frame_durable i j f f' : fs_frame i f f' -> j <> i -> ino_durable j f' = ino_durable j f.
Proof. intros (_ & _ & _ & _ & H) Hj. unfold ino_durable. by rewrite H. Qed.

(** A step inside one inode. *)
Lemma growing_frame f0 f f' i :
  growing f0 f -> fs_frame i f f' -> ino_data i f `prefix_of` ino_data i f' ->
  (ino_durable i f <= length (ino_data i f) ->
   ino_durable i f <= ino_durable i f' <= length (ino_data i f')) -> growing f0 f'.
Proof.
  intros H Hf Hp Hd. pose proof Hf as (Hdir & _).
  assert (He : forall x, entry f' x = entry f x) by (intros x; unfold entry; by rewrite Hdir).
  apply (growing_step f0 f); [done|eapply fs_ok_frame; [done|apply (gr_ok _ _ H)]| |].
  - intros x j Hx. rewrite He. split; [done|]. destruct (decide (j = i)) as [->|Hne].
    + split; [done|]. by apply Hd, (gr_durable _ _ H x).
    + by rewrite (fs_frame_ino_data i j f f'), (fs_frame_durable i j f f').
  - intros x j Hx. rewrite He in Hx. destruct (decide (j = i)) as [->|Hne].
    + by apply Hd, (gr_durable _ _ H x).
    + rewrite (fs_frame_ino_data i j f f'), (fs_frame_durable i j f f') by done. by apply (gr_durable _ _ H x).
Qed.

Lemma growing_appended f0 f f' h w : growing f0 f -> appended h w f f' -> growing f0 f'.
Proof.
  intros H Ha. unfold appended in Ha. destruct (fd_ino h f) as [i|]; [|by destruct Ha as [-> _]].
  destruct Ha as (Hf & Hd & Hu). apply (growing_frame f0 f f' i); [done|done|by rewrite Hd; exists w|].
  rewrite Hd, Hu, length_app. lia.
Qed.

(** ** The calls on the directory *)

Section fs_calls.
Context (f0 : FS).

Lemma keeps_ReadDir : keeps (growing f0) ReadDir.
Proof. intros f Hf. rewrite ReadDir_state. by apply growing_tick. Qed.

Lemma keeps_OpenAppend c name : keeps (growing f0) (OpenAppend c name).
Proof.
  intros f Hf. destruct (OpenAppend c name f) as [r f'] eqn:E. cbn [snd].
  destruct (OpenAppend_spec _ _ _ _ _ (gr_ok _ _ Hf) E) as (Hok & _ & _ & Hino & Hr).
  assert (Hold : forall j, j < fs_next f -> ino_data j f' = ino_data j f /\ ino_durable j f' = ino_durable j f).
  { intros j Hj. unfold ino_data, ino_durable. by rewrite Hino. }
  destruct r as [h|e|p]; [|subst f'; by apply growing_tick|done].
  pose proof (ok_dir f (gr_ok _ _ Hf)) as Hlt. pose proof (gr_durable _ _ Hf) as Hdur.
  destruct Hr as (i & d & Hd & _ & _ & Hcase).
  assert (Hent : forall x j, entry f' x = Some (DFile j) -> entry f x = Some (DFile j) \/
                             entry f x = None /\ x = name /\ fs_inodes f' !! j = Some (Inode [] 0)).
  { intros x j. unfold entry. rewrite Hd. destruct Hcase as [[_ ->]|(_ & Hn & -> & Hi & _)]; cbn; [by left|].
    destruct (decide (x = name)) as [->|Hne].
    - rewrite lookup_insert_eq. intros [= <-]. by right.
    - rewrite lookup_insert_ne by done. by left. }
  assert (Hkeep : forall x e, entry f x = Some e -> entry f' x = Some e).
  { intros x e. unfold entry. rewrite Hd. destruct Hcase as [[_ ->]|(_ & Hn & -> & _)]; cbn; [done|].
    intros Hx. rewrite lookup_insert_ne; [done|]. intros <-. by rewrite Hn in Hx. }
  apply (growing_step f0 f); [done|done| |].
  - intros x j Hx. destruct (Hold j) as [-> ->]; eauto.
  - intros x j [Hx|(_ & _ & Hi)]%Hent.
    + destruct (Hold j) as [-> ->]; eauto.
    + unfold ino_durable, ino_data. by rewrite Hi.
Qed.

Lemma keeps_FileSync h : keeps (growing f0) (FileSync h).
Proof.
  intros f Hf. destruct (FileSync h f) as [r f'] eqn:E. cbn [snd]. apply FileSync_spec in E.
  destruct r as [[]|e|p]; [|destruct E as [-> | ->]; [done|by apply growing_tick]|done].
  destruct E as (i & _ & Hfr & Hd & Hu).
  apply (growing_frame f0 f f' i); [done|done|by rewrite Hd|]. rewrite Hd, Hu. lia.
Qed.

Lemma keeps_FileClose h : keeps (growing f0) (FileClose h).
Proof.
  intros f Hf. destruct (FileClose h f) as [r f'] eqn:E. cbn [snd].
  destruct (FileClose_spec _ _ _ _ E) as (Hd & Hi & _ & _ & _ & _ & _ & Hok).
  apply (growing_same f0 f); auto. by apply Hok, (gr_ok _ _ Hf).
Qed.

Lemma keeps_FileSize h : keeps (growing f0) (FileSize h).
Proof.
  intros f Hf. unfold FileSize, syscall. destruct (fd_ino h f); [|done].
  destruct (fault_now f) as [[]|]; by apply growing_tick.
Qed.

(** ** The operations of the writer *)

Definition growingW (s : WalSt) : Prop := growing f0 (fs s).

Lemma keeps_onFS {A} (m : St FS A) : keeps (growing f0) m -> keeps growingW (onFS m).
Proof. intros Hm. apply keeps_zoom. intros s Hs. by apply Hm. Qed.

Lemma keeps_modW g : keeps growingW (modW g).
Proof. by apply keeps_modify. Qed.

Lemma keeps_getW : keeps growingW getW.
Proof. by intros s Hs. Qed.

Lemma keeps_onSeg {A} (m : nat -> St FS A) : (forall f, keeps (growing f0) (m f)) -> keeps growingW (onSeg m).
Proof.
  intros Hm s Hs. unfold onSeg. destruct (activeSeg (wr s)) as [f|]; [|done].
  by apply keeps_onFS.
Qed.

Lemma keeps_flush : keeps growingW (onBuf BufFlush).
Proof.
  intros [w f] Hs. unfold onBuf. cbn [wr fs]. destruct (activeBuf w) as [b|]; [|done].
  destruct (BufFlush (b, f)) as [r [b' f']] eqn:E. cbn.
  destruct (BufFlush_spec _ _ _ _ _ E) as (_ & (x & Ha & _) & _). by eapply growing_appended.
Qed.

Lemma keeps_bufwrite p : keeps growingW (onBuf (BufWrite p)).
Proof.
  intros [w f] Hs. unfold onBuf. cbn [wr fs]. destruct (activeBuf w) as [b|]; [|done].
  destruct (BufWrite p (b, f)) as [r [b' f']] eqn:E. cbn.
  destruct (BufWrite_spec _ _ _ _ _ _ E) as (_ & (x & rest & Ha & _) & _). by eapply growing_appended.
Qed.

#[local] Hint Resolve keeps_ReadDir keeps_OpenAppend keeps_FileSync keeps_FileClose keeps_FileSize
  keeps_onFS keeps_modW keeps_getW keeps_onSeg keeps_flush keeps_bufwrite : keeps.

Lemma keeps_rotate : keeps growingW rotate.
Proof. unfold rotate, nextSegmentNum, purgeOldSegments. keeps_auto. Qed.
#[local] Hint Resolve keeps_rotate : keeps.

Lemma keeps_Write `{EntryCodec} e : keeps growingW (Write e).
Proof.
  unfold Write. apply keeps_bind; [apply keeps_wrapErr; by intros s Hs|]. intros data. keeps_auto.
Qed.

Lemma keeps_syncTick : keeps growingW syncTick.
Proof. unfold syncTick. keeps_auto. Qed.

Lemma keeps_Close : keeps growingW Close.
Proof. unfold Close, close_chan. keeps_auto. Qed.

Lemma keeps_openLatest : keeps growingW openLatest.
Proof. unfold openLatest. keeps_auto. Qed.

Lemma keeps_do_ops `{EntryCodec} os : keeps growingW (do_ops os).
Proof.
  induction os as [|o os IH]; [apply keeps_ret|]. cbn [do_ops]. apply keeps_bind; [|by intros].
  apply keeps_ignore. destruct o; cbn [do_op].
  - apply keeps_Write.
  - apply keeps_syncTick.
  - apply keeps_Close.
  - unfold StartReplay. keeps_auto.
Qed.
End fs_calls.

(** ** Sealed segments are durable *)

Definition is_durable (f : FS) (i : nat) : Prop := length (ino_data i f) <= ino_durable i f.
Definition all_durable (f : FS) : Prop := forall x i, entry f x = Some (DFile i) -> is_durable f i.

(** Every segment but the active one is on disk to its last byte. *)
Record sealed_durable (s : WalSt) : Prop := {
  sd_wf : wf s;
  sd_all : forall x i, entry (fs s) x = Some (DFile i) ->
    is_durable (fs s) i \/ activeSeg (wr s) <> None /\ x = activeName (wr s);
}.

Lemma is_durable_ext f f' i : fs_inodes f' !! i = fs_inodes f !! i -> is_durable f i -> is_durable f' i.
Proof. unfold is_durable, ino_data, ino_durable. by intros ->. Qed.

(** A step that leaves the directory and, but for the active file, the
    inodes alone. *)
Lemma sealed_durable_step s s' f :
  sealed_durable s -> wf s' -> activeSeg (wr s) = Some f -> activeSeg (wr s') = Some f ->
  activeName (wr s') = activeName (wr s) -> fs_dir (fs s') = fs_dir (fs s) ->
  (forall j, fd_ino f (fs s) <> Some j -> fs_inodes (fs s') !! j = fs_inodes (fs s) !! j) ->
  sealed_durable s'.
Proof.
  intros [Hwf Hall] Hwf' Hs Hs' Hn Hd Hino. split; [done|]. intros x i Hx. unfold entry in Hx.
  rewrite Hd in Hx. change (entry (fs s) x = Some (DFile i)) in Hx. rewrite Hs', Hn.
  destruct (decide (fd_ino f (fs s) = Some i)) as [Hi|Hi].
  - right. split; [done|]. apply (ok_inj _ (wf_fs s Hwf) _ _ i Hx). by apply (wf_dir s Hwf f).
  - destruct (Hall x i Hx) as [Hdur|[_ ->]]; [left|by right]. eapply is_durable_ext; [|done]. by apply Hino.
Qed.

Lemma appended_inodes h w f f' j :
  appended h w f f' -> fd_ino h f <> Some j -> fs_inodes f' !! j = fs_inodes f !! j.
Proof.
  unfold appended. destruct (fd_ino h f) as [i|]; [|by intros [-> _]].
  intros ((_ & _ & _ & _ & H) & _) Hj. apply H. congruence.
Qed.

Lemma sd_flush : keeps sealed_durable (onBuf BufFlush).
Proof.
  intros s Hs. destruct (onBuf BufFlush s) as [r s'] eqn:E. cbn [snd].
  destruct (activeSeg (wr s)) as [f|] eqn:Hf.
  - destruct (flush_spec _ _ _ _ (sd_wf s Hs) Hf E) as (Hw & _ & b & b' & w & _ & _ & _ & Hwr & Ha & _).
    apply (sealed_durable_step s s' f); try done; try (by rewrite Hwr); [by eapply appended_dir|].
    intros j. by eapply appended_inodes.
  - pose proof (wf_pair s (sd_wf s Hs)) as Hp. rewrite Hf in Hp. unfold onBuf in E.
    destruct (activeBuf (wr s)); [done|]. by injection E as <- <-.
Qed.

Lemma sd_bufwrite p : keeps sealed_durable (onBuf (BufWrite p)).
Proof.
  intros s Hs. destruct (onBuf (BufWrite p) s) as [r s'] eqn:E. cbn [snd].
  destruct (activeSeg (wr s)) as [f|] eqn:Hf.
  - destruct (bufwrite_spec _ _ _ _ _ (sd_wf s Hs) Hf E) as (Hw & _ & b & b' & w & rest & _ & _ & _ & Hwr & Ha & _).
    apply (sealed_durable_step s s' f); try done; try (by rewrite Hwr); [by eapply appended_dir|].
    intros j. by eapply appended_inodes.
  - pose proof (wf_pair s (sd_wf s Hs)) as Hp. rewrite Hf in Hp. unfold onBuf in E.
    destruct (activeBuf (wr s)); [done|]. by injection E as <- <-.
Qed.

Lemma sd_sync : keeps sealed_durable (onSeg FileSync).
Proof.
  intros s Hs. destruct (onSeg FileSync s) as [r s'] eqn:E. cbn [snd].
  destruct (activeSeg (wr s)) as [f|] eqn:Hf.
  - destruct (sync_spec _ _ _ _ (sd_wf s Hs) Hf E) as (Hw & _ & Hwr & Hd & _).
    apply (sealed_durable_step s s' f); try done; try (by rewrite Hwr).
    intros j Hj. unfold onSeg in E. rewrite Hf in E. unfold onFS, zoom in E.
    destruct (FileSync f (fs s)) as [r1 f1] eqn:E1. injection E as <- <-. cbn [fs].
    apply FileSync_spec in E1. destruct r1 as [[]|e|q]; [|by destruct E1 as [-> | ->]|done].
    destruct E1 as (i & Hi & (_ & _ & _ & _ & Hfr) & _). apply Hfr. congruence.
  - unfold onSeg in E. rewrite Hf in E. by injection E as <- <-.
Qed.

Lemma sd_close : keeps sealed_durable (onSeg FileClose).
Proof.
  intros s Hs. destruct (onSeg FileClose s) as [r s'] eqn:E. cbn [snd].
  destruct (activeSeg (wr s)) as [f|] eqn:Hf.
  - destruct (close_spec _ _ _ _ (sd_wf s Hs) Hf E) as (Hw & _ & Hwr & Hd & _ & Hi & _).
    apply (sealed_durable_step s s' f); try done; try (by rewrite Hwr). intros j _. by rewrite Hi.
  - unfold onSeg in E. rewrite Hf in E. by injection E as <- <-.
Qed.

#[local] Hint Resolve sd_flush sd_bufwrite sd_sync sd_close : keeps.

Lemma sd_modW g :
  (forall w, activeSeg (g w) = activeSeg w /\ activeBuf (g w) = activeBuf w /\ activeName (g w) = activeName w /\
             stopClosed (g w) = stopClosed w /\ closeOnce (g w) = closeOnce w /\ replayStop (g w) = replayStop w) ->
  keeps sealed_durable (modW g).
Proof.
  intros Hg s [[H1 H2 H3 H4 H5] Hall]. destruct (Hg (wr s)) as (E1 & E2 & E3 & E4 & E5 & E6).
  unfold modW, modify. split; [split|]; cbn [snd wr fs] in *;
    rewrite ?E1, ?E2, ?E3, ?E4, ?E5, ?E6; auto.
Qed.

Lemma sd_seal : keeps sealed_durable seal_active.
Proof.
  intros s. unfold seal_active. destruct (bool_decide (activeSeg (wr s) = None)); [by intros|].
  revert s. change (keeps sealed_durable (onBuf BufFlush ;;; onSeg FileSync ;;; onSeg FileClose)). keeps_auto.
Qed.

(** After the active segment is sealed, everything is durable. *)
Lemma seal_durable s s' : sealed_durable s -> seal_active s = (Ok tt, s') -> all_durable (fs s').
Proof.
  intros Hs E. destruct (seal_active_spec _ _ _ (sd_wf s Hs) E) as (Hw & _ & Hd & _ & (b' & Hwr) & Hok).
  intros x i Hx. unfold entry in Hx. rewrite Hd in Hx. change (entry (fs s) x = Some (DFile i)) in Hx.
  destruct (activeSeg (wr s)) as [f|] eqn:Hf.
  - destruct (Hok eq_refl f eq_refl) as (_ & k & b & Hk & _ & Hino & _ & Hdur).
    destruct (decide (i = k)) as [->|Hne]; [unfold is_durable; lia|].
    apply (is_durable_ext (fs s)); [by apply Hino|].
    destruct (sd_all s Hs x i Hx) as [|[_ ->]]; [done|].
    pose proof (wf_dir s (sd_wf s Hs) f k Hf Hk) as Hk'. congruence.
  - unfold seal_active in E. rewrite bool_decide_eq_true_2 in E by done. injection E as <-.
    destruct (sd_all s Hs x i Hx) as [|[? _]]; [done|]. by rewrite Hf in *.
Qed.

Lemma sd_open_next s r s' :
  wf s -> all_durable (fs s) -> (forall f, activeSeg (wr s) = Some f -> fd_ino f (fs s) = None) ->
  open_next s = (r, s') -> sealed_durable s'.
Proof.
  intros Hwf Hall Hcl E. destruct (open_next_spec _ _ _ Hwf Hcl E) as (Hw & Hp & _ & Hino & Hbad & Hok).
  pose proof (ok_dir _ (wf_fs s Hwf)) as Hlt.
  split; [done|]. intros x i Hx. destruct r as [[]|e|p]; [| |by destruct (Hp p)].
  - destruct (Hok eq_refl) as (f & k & n & d & Hwr & _ & Hd & _ & Hcase). rewrite Hwr. cbn.
    unfold entry in *. rewrite Hd in Hlt. destruct Hcase as [[_ Hd']|(Hn & Hd' & _)]; rewrite Hd' in Hx; cbn in *.
    + left. apply (is_durable_ext (fs s)); [by eapply Hino, Hlt|]. apply (Hall x). unfold entry. by rewrite Hd.
    + destruct (decide (x = segment_name n)) as [->|Hne]; [by right|left].
      rewrite lookup_insert_ne in Hx by done.
      apply (is_durable_ext (fs s)); [by eapply Hino, Hlt|]. apply (Hall x). unfold entry. by rewrite Hd.
  - destruct Hbad as [_ Hd]; [done|]. left. unfold entry in Hx. rewrite Hd in Hx.
    change (entry (fs s) x = Some (DFile i)) in Hx.
    apply (is_durable_ext (fs s)); [by eapply Hino, Hlt|by apply (Hall x)].
Qed.

Lemma sd_rotate : keeps sealed_durable rotate.
Proof.
  intros s Hs. rewrite rotate_halves. unfold bind.
  destruct (seal_active s) as [[[]|e|p] s1] eqn:E; cbn [snd].
  - destruct (open_next s1) as [r s2] eqn:E2. cbn [snd].
    pose proof (seal_durable _ _ Hs E) as Hall.
    destruct (seal_active_spec _ _ _ (sd_wf s Hs) E) as (Hw & _ & _ & _ & (b' & Hwr) & Hok).
    apply (sd_open_next s1 r); try done. intros f Hf. rewrite Hwr in Hf. by apply Hok.
  - eapply keeps_run; [apply sd_seal|exact E|done].
  - eapply keeps_run; [apply sd_seal|exact E|done].
Qed.
#[local] Hint Resolve sd_rotate : keeps.

Lemma sd_Write `{EntryCodec} e : keeps sealed_durable (Write e).
Proof.
  unfold Write. apply keeps_bind; [apply keeps_wrapErr; by intros s Hs|]. intros data.
  assert (Hget : keeps sealed_durable getW) by (by intros s Hs).
  keeps_auto; by apply sd_modW.
Qed.

Lemma sd_syncTick : keeps sealed_durable syncTick.
Proof. assert (Hget : keeps sealed_durable getW) by (by intros s Hs). unfold syncTick. keeps_auto. Qed.

(** After an acknowledged synchronous write everything is durable. *)
Lemma Write_all_durable `{EntryCodec} e s s' :
  sealed_durable s -> SyncInterval (cfg (wr s)) = 0%Z -> Write e s = (Ok tt, s') -> all_durable (fs s').
Proof.
  intros Hs Hsync E. pose proof (keeps_run _ _ _ _ _ (sd_Write e) E Hs) as [Hw Hall].
  destruct (Write_spec _ _ _ _ (sd_wf s Hs) E) as (_ & _ & _ & Hok).
  destruct (Hok eq_refl Hsync) as (line & f & i & pre & _ & Hact & Hi & He & _ & Hdur).
  intros x j Hx. destruct (Hall x j Hx) as [|[_ ->]]; [done|]. rewrite He in Hx. injection Hx as <-.
  unfold is_durable. lia.
Qed.

(** ** Power failures *)

Lemma crash_entry f x : entry (crash f) x = entry f x.
Proof. done. Qed.

Lemma crash_data f i : ino_data i (crash f) = take (ino_durable i f) (ino_data i f).
Proof.
  unfold ino_data, ino_durable, crash. cbn [fs_inodes]. rewrite lookup_fmap.
  by destruct (fs_inodes f !! i).
Qed.

Lemma crash_file_bytes f x : all_durable f -> file_bytes (crash f) x = file_bytes f x.
Proof.
  intros Hd. unfold file_bytes. rewrite crash_entry. destruct (entry f x) as [[i|]|] eqn:E; try done.
  rewrite crash_data. by apply take_ge, (Hd x).
Qed.

Lemma crash_disk f : all_durable f -> disk_bytes (crash f) = disk_bytes f.
Proof.
  intros Hd. unfold disk_bytes. change (seg_list (crash f)) with (seg_list f). f_equal.
  apply list_fmap_ext. intros j g _. by apply crash_file_bytes.
Qed.

Lemma crash_good k s :
  healthy k s -> buffered (wr s) = [] -> all_durable (fs s) -> good_dir k (crash (fs s)).
Proof.
  intros Hh Hb Hd. pose proof (wf_fs s (hl_wf _ _ Hh)) as [H1 H2 H3]. split.
  - split; [exact H1|exact H2|]. intros h hd. cbn [fs_handles crash]. by rewrite lookup_empty.
  - done.
  - apply (hl_dir _ _ Hh).
  - apply (hl_clean _ _ Hh).
  - apply (hl_nodir _ _ Hh).
  - intros name n Hn. rewrite crash_file_bytes by done.
    pose proof (hl_aligned _ _ Hh name n Hn) as Hal. unfold seg_content in Hal. rewrite Hb in Hal.
    revert Hal. case_decide; by rewrite app_nil_r.
Qed.

Lemma sealed_durable_all s : wf s -> all_durable (fs s) -> sealed_durable s.
Proof. intros Hw Ha. split; [done|]. intros x i Hx. left. by apply (Ha x). Qed.

Lemma NewWriter_durable c f w f' :
  fs_ok f -> all_durable f -> NewWriter c f = (Ok w, f') -> sealed_durable (MkWalSt w f').
Proof.
  intros Hok Hd Hnew. pose proof (NewWriter_spec _ _ _ _ Hok Hnew) as [_ Hwf]. destruct (Hwf w eq_refl) as [Hw _].
  revert Hnew. unfold NewWriter. intros Hr.
  apply bind_Ok in Hr as ([] & f1 & Hm%wrapErr_Ok & Hr).
  destruct (MkdirAll_spec _ _ _ Hok Hm) as (Hok1 & _ & _ & Hi1 & Hn1 & He1 & _).
  apply bind_Ok in Hr as (w2 & f2 & Ho%wrapErr_Ok & Hr).
  apply withWriter_inv in Ho as (r0 & [w2' f2'] & Ho & Hf2 & Hw2 & _). destruct (Hw2 w2 eq_refl) as [-> ->].
  cbn [wr fs] in Hf2. subst f2'. cbn [wr].
  destruct (openLatest_spec _ _ _ (emptyWriter_wf (norm_config c) f1 Hok1) eq_refl Ho)
    as (Hwf2 & _ & _ & _ & Hd2 & Hi2 & _). cbn [fs] in *.
  assert (Hall2 : all_durable f2).
  { intros x i Hx. unfold entry in Hx. rewrite Hd2 in Hx. change (entry f1 x = Some (DFile i)) in Hx.
    apply (is_durable_ext f1); [apply Hi2; by apply (ok_dir f1 Hok1 x)|].
    apply (is_durable_ext f); [by rewrite Hi1|]. apply (Hd x). by rewrite <- He1. }
  pose proof (sealed_durable_all _ Hwf2 Hall2) as Hsd.
  apply bind_Ok in Hr as (w3 & f3 & Hrot & Hr). injection Hr as Hw3 <-.
  assert (Hsd3 : sealed_durable (MkWalSt w3 f3)).
  { revert Hrot. destruct (_ && _); [|by intros [= <- <-]].
    intros (r4 & s4 & Hrot & -> & H4 & _)%wrapErr_Ok%withWriter_inv. destruct (H4 w3 eq_refl) as [-> ->].
    pose proof (keeps_run _ _ _ _ _ sd_rotate Hrot Hsd) as Hs4. by destruct s4. }
  split; [done|]. intros x i Hx. destruct (sd_all _ Hsd3 x i Hx) as [|[Ha Hn]]; [by left|right].
  cbn [wr] in *. rewrite <- Hw3. by destruct (0 <? SyncInterval c)%Z.
Qed.

(** A log that was just opened is durable: its active segment is empty. *)
Lemma opened_durable s :
  sealed_durable s -> activeSeg (wr s) = None \/ file_bytes (fs s) (activeName (wr s)) = [] ->
  all_durable (fs s).
Proof.
  intros [_ Hall] Hact x i Hx. destruct (Hall x i Hx) as [|[Hs ->]]; [done|].
  destruct Hact as [|Hact]; [done|]. unfold file_bytes in Hact. rewrite Hx in Hact.
  unfold is_durable. rewrite Hact. cbn. lia.
Qed.

Lemma write_all_durable `{EntryCodec} es s s' :
  sealed_durable s -> all_durable (fs s) -> SyncInterval (cfg (wr s)) = 0%Z ->
  write_all es s = (Ok tt, s') -> sealed_durable s' /\ all_durable (fs s').
Proof.
  revert s; induction es as [|e es IH]; intros s Hs Ha Hi E; [by injection E as <-|].
  apply bind_Ok in E as ([] & s1 & Hw & E).
  apply (IH s1); [by eapply keeps_run; [apply (sd_Write e)|exact Hw|]|by eapply Write_all_durable| |done].
  destruct (Write_spec _ _ _ _ (sd_wf s Hs) Hw) as (_ & _ & -> & _). done.
Qed.

(** The tail of an acknowledged synchronous write is there after any further
    operations and a power failure. *)
Lemma crash_keeps `{EntryCodec} os s x i a :
  fs_ok (fs s) -> durable_ok (fs s) -> entry (fs s) x = Some (DFile i) -> is_durable (fs s) i ->
  ino_data i (fs s) = a ->
  exists post, entry (crash (fs (do_ops os s).2)) x = Some (DFile i) /\
    ino_data i (crash (fs (do_ops os s).2)) = a ++ post.
Proof.
  intros Hok Hd Hx Hi <-.
  pose proof (keeps_do_ops (fs s) os s (growing_refl _ Hok Hd)) as [_ Hd' Hg].
  destruct (Hg x i Hx) as (Hx' & (post & Hp) & Hdur). rewrite crash_entry, crash_data.
  unfold is_durable in Hi. rewrite Hp, take_app.
  eexists. split; [done|]. f_equal. apply take_ge. lia.
Qed.

(** ** A rotation that failed half-way

    [rotate] closes the active file before it opens the next one.  When the
    opening fails the writer keeps the closed file: it is wedged. *)

Definition wedged (s : WalSt) : Prop := exists f, activeSeg (wr s) = Some f /\ fd_ino f (fs s) = None.

Lemma wedged_flush s : wf s -> wedged s ->
  exists r s', onBuf BufFlush s = (r, s') /\ wf s' /\ wedged s' /\ fs s' = fs s /\ cfg (wr s') = cfg (wr s) /\
    closeOnce (wr s') = closeOnce (wr s) /\ (forall p, r <> Panic p) /\
    (buffered (wr s) <> [] -> exists e, r = Err e).
Proof.
  intros Hwf (f & Hf & Hi). destruct (onBuf BufFlush s) as [r s'] eqn:E. exists r, s'.
  destruct (flush_spec _ _ _ _ Hwf Hf E) as (Hw & Hp & b & b' & w & Hb & Hfd & _ & Hwr & Ha & Hww & Hok & _).
  unfold appended in Ha. rewrite Hi in Ha. destruct Ha as [Hfs ->].
  split; [done|]. split; [done|]. split; [exists f; by rewrite Hwr, Hfs|].
  rewrite Hwr. split_and!; try done. unfold buffered. rewrite Hb. intros Hne.
  destruct r as [[]|e|p]; [|by eexists|by destruct (Hp p)].
  destruct (Hok eq_refl) as [He _]. cbn [app] in Hww. congruence.
Qed.

Lemma wedged_sync s : wedged s -> onSeg FileSync s = (Err ErrClosed, s).
Proof.
  intros (f & Hf & Hi). unfold onSeg, onFS, zoom. rewrite Hf. unfold FileSync. rewrite Hi. by destruct s.
Qed.

Lemma wedged_rotate s : wf s -> wedged s ->
  exists e s', rotate s = (Err e, s') /\ wf s' /\ wedged s' /\ fs s' = fs s /\ cfg (wr s') = cfg (wr s) /\
    closeOnce (wr s') = closeOnce (wr s).
Proof.
  intros Hwf Hw. pose proof Hw as (f & Hf & _).
  destruct (wedged_flush s Hwf Hw) as (r & s1 & E & Hwf1 & Hw1 & Hfs & Hc & Hcl & Hp & _).
  rewrite rotate_halves. unfold bind at 1, seal_active. rewrite bool_decide_eq_false_2 by congruence.
  unfold bind at 1. rewrite E. destruct r as [[]|e|p]; [| |by destruct (Hp p)].
  - unfold bind. rewrite (wedged_sync s1 Hw1). by exists ErrClosed, s1.
  - by exists e, s1.
Qed.

Lemma wedged_bufwrite s p : wf s -> wedged s ->
  exists r s', onBuf (BufWrite p) s = (r, s') /\ wf s' /\ wedged s' /\ fs s' = fs s /\ cfg (wr s') = cfg (wr s) /\
    closeOnce (wr s') = closeOnce (wr s) /\ (forall q, r <> Panic q) /\
    (p <> [] -> forall n, r = Ok n -> buffered (wr s') <> []).
Proof.
  intros Hwf (f & Hf & Hi). destruct (onBuf (BufWrite p) s) as [r s'] eqn:E. exists r, s'.
  destruct (bufwrite_spec _ _ _ _ _ Hwf Hf E) as (Hw & Hp & b & b' & w & rest & Hb & Hfd & _ & Hwr & Ha & Hww & Hok).
  unfold appended in Ha. rewrite Hi in Ha. destruct Ha as [Hfs ->].
  split; [done|]. split; [done|]. split; [exists f; by rewrite Hwr, Hfs|].
  rewrite Hwr. split_and!; try done. intros Hne n ->. destruct (Hok n eq_refl) as (_ & -> & _).
  unfold buffered. cbn. rewrite app_nil_r in Hww. cbn in Hww. rewrite Hww. by destruct (b_buf b), p.
Qed.

(** A wedged writer stays wedged and writes nothing more to the disk; with
    synchronous writes every entry is refused. *)
Lemma wedged_Write `{EntryCodec} e s : wf s -> wedged s ->
  exists r s', Write e s = (r, s') /\ wf s' /\ wedged s' /\ fs s' = fs s /\ cfg (wr s') = cfg (wr s) /\
    closeOnce (wr s') = closeOnce (wr s) /\ (SyncInterval (cfg (wr s)) = 0%Z -> exists err, r = Err err).
Proof.
  intros Hwf Hw. rewrite Write_parts. destruct (marshal e) as [d|err|p] eqn:Em.
  2:{ exists (Err (WrapError "wal marshal: " err)), s. split_and!; eauto. }
  2:{ by destruct (marshal_no_panic e p). }
  set (data := d ++ [newline]). pose proof Hw as (f & Hf & Hi).
  unfold make_room. rewrite !bind_bind, getW_bind.
  destruct (_ && _).
  { destruct (wedged_rotate s Hwf Hw) as (err & s1 & E & Hr). rewrite bind_bind.
    erewrite bind_run_Err; [|by apply wrapErr_run_Err]. eexists _, s1. split; [done|].
    destruct Hr as (? & ? & ? & ? & ?). split_and!; eauto. }
  rewrite bind_bind. erewrite bind_run_Ok by done. rewrite bind_bind, getW_bind.
  rewrite bool_decide_eq_false_2 by congruence. erewrite bind_run_Ok by done. unfold append_line.
  destruct (wedged_bufwrite s data Hwf Hw) as (r & s1 & E & Hwf1 & Hw1 & Hfs1 & Hc1 & Hcl1 & Hp1 & Hb1).
  destruct r as [n|err|p]; [| |by destruct (Hp1 p)].
  2:{ erewrite bind_run_Err; [|by apply wrapErr_run_Err]. eexists _, s1. split; [done|]. split_and!; eauto. }
  erewrite bind_run_Ok; [|by apply wrapErr_run_Ok]. rewrite !modW_bind, getW_bind. cbn [wr fs cfg set_size set_seq].
  set (s2 := MkWalSt _ _).
  assert (Hwf2 : wf s2) by (destruct Hwf1 as [A1 A2 A3 A4 A5]; by split).
  assert (Hw2 : wedged s2) by (destruct Hw1 as (g & ? & ?); by exists g).
  rewrite Hc1. destruct (Z.eqb_spec (SyncInterval (cfg (wr s))) 0) as [Hz|Hz].
  - destruct (wedged_flush s2 Hwf2 Hw2) as (r & s3 & E3 & Hwf3 & Hw3 & Hfs3 & Hc3 & Hcl3 & Hp3 & Hb3).
    destruct Hb3 as (err & ->); [by eapply (Hb1 ltac:(by destruct d))|].
    erewrite bind_run_Err; [|by apply wrapErr_run_Err]. eexists _, s3. split; [done|].
    split_and!; eauto; rewrite ?Hfs3, ?Hc3, ?Hcl3; done.
  - eexists _, s2. split; [done|]. split_and!; done.
Qed.
