(* ===== verification/JsonEntry.v ===== *)
(** * [encoding/json] of the log's entries

    [json.Marshal] and [json.Unmarshal] of [wal.Entry] (internal/wal/wal.go),
    and the proof that they are what the log's theorems ask of them: one line
    per entry, read back as the entry up to what the encoder normalises.  So
    [json_codec] is the [EntryCodec] the gateway runs with. *)

From Stdlib Require Import ZArith Lia Ascii String.
From stdpp Require Import base tactics numbers strings gmap list.
From S2P Require Import Prelude GoStrings GoUtf8 GoFloat GoTime GoCrypto Message Wal Json JsonDecode JsonEncode JsonCompact JsonEnvelope JsonNumber JsonTime.

Module jsonentry.
Import json jsondec jsonenc jsoncompact jsonmsg jsontime.

(** ** Encoding *)

Definition entry_fields (e : wal.Entry) (d t : bytes) : list (string * bytes) :=
  [("seq", bytes_of (Itoa (wrapu64 (wal.Sequence e)))); ("project", quote_string (wal.Project e));
   ("router", quote_string (wal.Router e)); ("data", d); ("request_id", quote_string (wal.RequestID e));
   ("trace_id", quote_string (wal.TraceID e)); ("timestamp", t)] ++ unless_empty "env" (wal.Env e).

Definition Marshal (e : wal.Entry) : result bytes :=
  match MarshalRaw (wal.Data e) with
  | Ok d =>
      match MarshalTime (wal.Timestamp e) with
      | Ok t => Ok (obj (entry_fields e d t))
      | Err err => Err err
      | Panic p => Panic p
      end
  | Err err => Err err
  | Panic p => Panic p
  end.

(** ** Decoding *)

Definition decode_uint64 (v : jval) (old : Z) : Z * bool :=
  match v with
  | JNum lit =>
      if forallb is_digit lit then
        let x := digits_num 0 lit in if (x <? two64)%Z then (x, true) else (old, false)
      else (old, false)
  | JNull => (old, true)
  | _ => (old, false)
  end.

Definition names : list string := ["seq"; "project"; "router"; "data"; "request_id"; "trace_id"; "timestamp"; "env"].

Definition entry_set (n : string) (text : bytes) (v : jval) (e : wal.Entry) : wal.Entry * bool :=
  let '(wal.MkEntry seq p r d rid tid ts env) := e in
  if String.eqb n "seq" then let '(x, ok) := decode_uint64 v seq in (wal.MkEntry x p r d rid tid ts env, ok)
  else if String.eqb n "project" then let '(x, ok) := decode_string v p in (wal.MkEntry seq x r d rid tid ts env, ok)
  else if String.eqb n "router" then let '(x, ok) := decode_string v r in (wal.MkEntry seq p x d rid tid ts env, ok)
  else if String.eqb n "data" then (wal.MkEntry seq p r (Some text) rid tid ts env, true)
  else if String.eqb n "request_id" then let '(x, ok) := decode_string v rid in (wal.MkEntry seq p r d x tid ts env, ok)
  else if String.eqb n "trace_id" then let '(x, ok) := decode_string v tid in (wal.MkEntry seq p r d rid x ts env, ok)
  else if String.eqb n "timestamp" then let '(x, ok) := decode_time v ts in (wal.MkEntry seq p r d rid tid x env, ok)
  else let '(x, ok) := decode_string v env in (wal.MkEntry seq p r d rid tid ts x, ok).

Definition zero : wal.Entry := wal.MkEntry 0 "" "" None "" "" zeroTime "".

Definition UnmarshalEntry (b : bytes) : option wal.Entry :=
  match Unmarshal names entry_set zero b with Ok e => Some e | _ => None end.

(** ** What comes back *)

Definition valid_text (s : string) : string := string_of (utf8.to_valid (bytes_of s)).

Definition canon_data (d : RawMessage) : RawMessage :=
  match d with None => Some (bytes_of "null") | Some b => Some (compact false 0 b) end.

Definition canon (e : wal.Entry) : wal.Entry :=
  wal.MkEntry (wrapu64 (wal.Sequence e)) (valid_text (wal.Project e)) (valid_text (wal.Router e)) (canon_data (wal.Data e))
    (valid_text (wal.RequestID e)) (valid_text (wal.TraceID e)) (canon_time (wal.Timestamp e)) (valid_text (wal.Env e)).

(** Data that is not nested to the very limit of the scanner. *)
Definition readable (e : wal.Entry) : Prop := exists v, data_value (wal.Data e) v.
End jsonentry.

Import json jsondec jsonenc jsoncompact jsonmsg jsontime jsonentry.

(** ** Unsigned numbers *)

Lemma Itoa_digits n : (0 <= n < two64)%Z -> exists k, Itoa n = fixed_digits (S k) n /\ (n < 10 ^ Z.of_nat (S k))%Z /\
  (k <> 0%nat -> (10 ^ Z.of_nat k <= n)%Z).
Proof.
  intros Hn. destruct (decide (n = 0)%Z) as [->|Hne]; [by exists 0%nat|].
  unfold Itoa, Sprintf_0d. rewrite (proj2 (Z.ltb_ge n 0)) by lia. rewrite Nat.max_0_l. unfold ndigits.
  destruct (count_digits_bound 19 1 n) as [Hb H1]; [lia|unfold two64 in Hn; cbn; lia|].
  pose proof (count_digits_least 19 1 n ltac:(lia) ltac:(cbn; lia)) as Hl.
  destruct (count_digits 19 1 n) as [|k]; [lia|]. exists k. split; [done|].
  split; [done|]. intros Hk. by replace (Z.of_nat (S k) - 1)%Z with (Z.of_nat k) in Hl by lia.
Qed.

Lemma Itoa_int n : (0 <= n < two64)%Z -> int_ok (bytes_of (Itoa n)).
Proof.
  intros Hn. destruct (Itoa_digits n Hn) as (k & -> & Hlt & Hge). destruct (fixed_digits_num (S k) n 0) as (Hd & _ & _); [lia|].
  split; [done|]. cbn [fixed_digits list_ascii_of_string]. intros E.
  apply digit_char_zero in E; [|apply Z.mod_pos_bound; lia]. destruct k as [|k]; [done|].
  exfalso. specialize (Hge ltac:(done)). replace (Z.of_nat (S (S k))) with (Z.of_nat (S k) + 1)%Z in Hlt by lia.
  rewrite Z.pow_add_r in Hlt by lia. assert (0 < 10 ^ Z.of_nat (S k))%Z by (apply Z.pow_pos_nonneg; lia).
  assert (1 <= n / 10 ^ Z.of_nat (S k) < 10)%Z by (split; [apply Z.div_le_lower_bound; lia|apply Z.div_lt_upper_bound; lia]).
  rewrite Z.mod_small in E; lia.
Qed.

Lemma reads_uint n d : (0 <= n < two64)%Z -> reads 1 d (bytes_of (Itoa n)) (JNum (bytes_of (Itoa n))).
Proof.
  intros Hn. pose proof (reads_number false (bytes_of (Itoa n)) [] [] d) as Hr. unfold num_text in Hr. cbn [app] in Hr.
  rewrite !app_nil_r in Hr. apply Hr. split; [by apply Itoa_int|]. split; [done|by left].
Qed.

Lemma uint_decoded n old : (0 <= n < two64)%Z -> decode_uint64 (JNum (bytes_of (Itoa n))) old = (n, true).
Proof.
  intros Hn. unfold decode_uint64. destruct (Itoa_digits n Hn) as (k & -> & Hlt & _).
  destruct (fixed_digits_num (S k) n 0) as (-> & _ & ->); [lia|]. rewrite Z.mod_small, Z.mul_0_l, Z.add_0_l by lia.
  by rewrite (proj2 (Z.ltb_lt n two64)) by lia.
Qed.

(** ** Lines *)

Lemma quote_string_printable s : Forall printable (quote_string s).
Proof.
  destruct (string_roundtrip s []) as (b & E & Hs & _). rewrite app_nil_r in E. rewrite E.
  apply scan_string_body in Hs as [Hb _]. constructor; [done|]. apply Forall_app. split; [by apply body_printable|by repeat constructor].
Qed.

Lemma safe_text_printable s : safe_text s -> Forall printable (bytes_of s).
Proof.
  intros Hs. eapply Forall_impl; [exact Hs|]. intros c Hc. unfold safe_char in Hc.
  rewrite !andb_true_iff, utf8.between_iff in Hc. unfold printable. lia.
Qed.

Lemma fields_printable fs : Forall (fun f => Forall printable f.2) fs -> Forall printable (fields_text fs).
Proof.
  induction 1 as [|[k t] fs Ht _ IH]; [done|]. cbn [fields_text snd] in *.
  destruct fs; apply Forall_app; (split; [apply quote_string_printable|]); (constructor; [done|]); [done|].
  apply Forall_app. split; [done|]. constructor; [done|exact IH].
Qed.

Lemma obj_line fs : Forall (fun f => Forall printable f.2) fs ->
  ("010"%char ∉ obj fs) /\ obj fs <> [] /\ last (obj fs) <> Some "013"%char.
Proof.
  intros Hf%fields_printable. assert (Hp : Forall printable (obj fs)).
  { constructor; [done|]. apply Forall_app. split; [done|by repeat constructor]. }
  rewrite Forall_forall in Hp. split_and!; [|done|].
  - intros Hin%Hp. vm_compute in Hin. by apply Hin.
  - intros Hl%last_Some_elem_of%Hp. vm_compute in Hl. by apply Hl.
Qed.

Lemma digits_printable n : Forall printable (bytes_of (Itoa n)).
Proof. apply safe_text_printable, Sprintf_safe. Qed.

Lemma entry_line e b : Marshal e = Ok b -> ("010"%char ∉ b) /\ b <> [] /\ last b <> Some "013"%char.
Proof.
  unfold Marshal. destruct (MarshalRaw (wal.Data e)) as [d| |] eqn:Ed; [|done..].
  unfold MarshalTime. destruct (time_ok _); [|done]. intros [= <-]. apply obj_line. apply raw_printable in Ed as [Hd _].
  assert (Ht : Forall printable (quote :: bytes_of (rfc3339nano (wal.Timestamp e)) ++ [quote])).
  { constructor; [done|]. apply Forall_app. split; [apply safe_text_printable, rfc3339nano_safe|by repeat constructor]. }
  pose proof quote_string_printable. pose proof (digits_printable (wrapu64 (wal.Sequence e))).
  unfold entry_fields, unless_empty. apply Forall_app. split; [by repeat (constructor; [cbn [snd]; done|])|].
  destruct (String.eqb _ _); [constructor|]. constructor; [cbn [snd]; done|constructor].
Qed.

(** ** The entry comes back *)

Definition entry_fields_val (e : wal.Entry) (d : bytes) (v : jval) : list field :=
  [("seq", bytes_of (Itoa (wrapu64 (wal.Sequence e))), JNum (bytes_of (Itoa (wrapu64 (wal.Sequence e)))));
   ("project", quote_string (wal.Project e), str (wal.Project e)); ("router", quote_string (wal.Router e), str (wal.Router e));
   ("data", d, v); ("request_id", quote_string (wal.RequestID e), str (wal.RequestID e));
   ("trace_id", quote_string (wal.TraceID e), str (wal.TraceID e));
   ("timestamp", quote :: bytes_of (rfc3339nano (wal.Timestamp e)) ++ [quote], JStr (bytes_of (rfc3339nano (wal.Timestamp e))))] ++
  (if String.eqb (wal.Env e) "" then [] else [("env", quote_string (wal.Env e), str (wal.Env e))]).

Lemma erase_num v l : erase v = JNum l -> v = JNum l.
Proof. by destruct v. Qed.

Lemma erase_str v s : erase v = JStr s -> v = JStr s.
Proof. by destruct v. Qed.

Lemma canon_data_text d t : MarshalRaw d = Ok t -> canon_data d = Some t.
Proof. destruct d as [b|]; cbn; [destruct (Valid b); [|done]|]; by intros [= <-]. Qed.

Ltac field_step :=
  rewrite decode_field by (vm_compute; reflexivity);
  cbn [entry_set zero String.eqb Ascii.eqb Bool.eqb decode_string].

(** The members of the line of an entry are decoded to the entry. *)
Lemma entry_decoded e d v ms : time_ok (wal.Timestamp e) = true -> MarshalRaw (wal.Data e) = Ok d ->
  Forall2 member_of ms (entry_fields_val e d v) -> foldl (decode_member names entry_set) (zero, true) ms = (canon e, true).
Proof.
  intros Ht Hd%canon_data_text Hms. pose proof (rfc3339_reads_back _ Ht) as Etime.
  assert (Hseq : (0 <= wrapu64 (wal.Sequence e) < two64)%Z) by (by apply Z.mod_pos_bound).
  pose proof (uint_decoded (wrapu64 (wal.Sequence e)) 0 Hseq) as Eseq.
  unfold entry_fields_val, canon in *. rewrite Hd. cbn [app] in Hms.
  apply Forall2_cons_inv_r in Hms as ([k1 [t1 v1]] & m1 & (E1 & _ & V1%erase_num) & Hms & ->).
  apply Forall2_cons_inv_r in Hms as ([k2 [t2 v2]] & m2 & (E2 & _ & V2%erase_str) & Hms & ->).
  apply Forall2_cons_inv_r in Hms as ([k3 [t3 v3]] & m3 & (E3 & _ & V3%erase_str) & Hms & ->).
  apply Forall2_cons_inv_r in Hms as ([k4 [t4 v4]] & m4 & (E4 & T4 & _) & Hms & ->).
  apply Forall2_cons_inv_r in Hms as ([k5 [t5 v5]] & m5 & (E5 & _ & V5%erase_str) & Hms & ->).
  apply Forall2_cons_inv_r in Hms as ([k6 [t6 v6]] & m6 & (E6 & _ & V6%erase_str) & Hms & ->).
  apply Forall2_cons_inv_r in Hms as ([k7 [t7 v7]] & m7 & (E7 & _ & V7%erase_str) & Hms & ->).
  cbn [fst snd] in *. subst.
  cbn [foldl]. field_step. rewrite Eseq. do 6 field_step. unfold decode_time. rewrite Etime. cbn [andb].
  destruct (String.eqb_spec (wal.Env e) "") as [Ee|_].
  - apply Forall2_nil_inv_r in Hms as ->. by rewrite Ee.
  - apply Forall2_cons_inv_r in Hms as ([k8 [t8 v8]] & m8 & (E8 & _ & V8%erase_str) & ->%Forall2_nil_inv_r & ->). cbn [fst snd] in *.
    subst. cbn [foldl]. field_step. done.
Qed.

Lemma entry_reads_back e b : readable e -> Marshal e = Ok b -> UnmarshalEntry b = Some (canon e).
Proof.
  intros [v Hv]. unfold Marshal. destruct (MarshalRaw (wal.Data e)) as [d| |] eqn:Ed; [|done..].
  unfold MarshalTime. destruct (time_ok _) eqn:Ht; [|done]. intros [= <-].
  destruct (data_reads _ _ Hv) as (d' & n & Ed' & Hd). rewrite Ed in Ed'. injection Ed' as <-.
  assert (Hseq : (0 <= wrapu64 (wal.Sequence e) < two64)%Z) by (by apply Z.mod_pos_bound).
  assert (Hf : entry_fields e d (quote :: bytes_of (rfc3339nano (wal.Timestamp e)) ++ [quote]) = field_text <$> entry_fields_val e d v).
  { unfold entry_fields, entry_fields_val, unless_empty. by destruct (String.eqb _ _). }
  destruct (parse_obj (n + 1) (entry_fields_val e d v)) as (ms & Ep & Hms); [done| |].
  { assert (Hstr : forall s, reads (n + 1) 1 (quote_string s) (str s)) by (intros s; eapply reads_more; [|apply reads_string]; lia).
    apply Forall_app. split; [|destruct (String.eqb _ _); [constructor|constructor; [apply Hstr|constructor]]].
    constructor; [eapply reads_more; [|by apply reads_uint]; lia|].
    do 2 (constructor; [apply Hstr|]). constructor; [eapply reads_more; [|exact Hd]; lia|].
    do 2 (constructor; [apply Hstr|]). constructor; [|constructor].
    eapply reads_more; [|apply reads_plain_text, rfc3339nano_safe]. lia. }
  unfold UnmarshalEntry, Unmarshal. by rewrite Hf, Ep, (entry_decoded e d v ms).
Qed.

#[global, refine] Instance json_codec : wal.EntryCodec := {|
  wal.marshal := Marshal; wal.unmarshal := UnmarshalEntry; wal.canon := canon; wal.readable := readable;
|}.
Proof.
  - intros e p. unfold Marshal, MarshalTime. destruct (wal.Data e) as [b|]; cbn; [destruct (Valid b); [|done]|]; by destruct (time_ok _).
  - exact entry_line.
  - exact entry_reads_back.
Defined.

(** ** Decoded data is never empty *)

Lemma entry_set_data n text v e : text <> [] -> wal.Data e <> Some [] -> wal.Data (entry_set n text v e).1 <> Some [].
Proof.
  intros Ht He. destruct e. unfold entry_set, decode_uint64, decode_string, decode_time. cbn in He.
  repeat case_match; cbn; try done; congruence.
Qed.

Lemma decoded_data l e : UnmarshalEntry l = Some e -> wal.Data e <> Some [].
Proof.
  unfold UnmarshalEntry, Unmarshal. destruct (parse l) as [[| | | | |ms]|] eqn:Ep; try done; [by intros [= <-]|].
  assert (Hms : Forall (fun m => m.2.1 <> []) ms).
  { unfold parse, parse_with in Ep. destruct (value _ 0 (skip_ws l)) as [[v0 r]|] eqn:E; [|done]. cbn in Ep.
    destruct (skip_ws r); [|done]. injection Ep as ->. eapply Forall_impl; [exact (object_members _ _ _ _ _ E)|].
    intros m [Hm _] En. by rewrite En in Hm. }
  assert (Hgen : forall ae, wal.Data ae.1 <> Some [] -> wal.Data (foldl (decode_member names entry_set) ae ms).1 <> Some []).
  { clear Ep. induction Hms as [|[k [t v]] ms Ht _ IH]; intros [a ok] Ha; [done|]. cbn [foldl]. apply IH.
    unfold decode_member. destruct (find_field names k) as [n|]; [|done].
    pose proof (entry_set_data n t v a Ht Ha). by destruct (entry_set n t v a). }
  specialize (Hgen (zero, true) ltac:(done)). destruct (foldl _ _ ms) as [a [|]]; [|done]. by intros [= <-].
Qed.
