(* ===== verification/WalTheorems.v ===== *)
(** * The guarantees of the write-ahead log

    The theorems a user of package [wal] relies on, from the lemmas of
    [WalWriter] (the invariant), [WalRefine] (the log as one byte string),
    [WalReplay] and [WalDurable], each with a concrete instance. *)

From Stdlib Require Import ZArith Lia Ascii String.
From stdpp Require Import base tactics numbers strings gmap list sorting.
From S2P Require Import Prelude GoStrings GoOs Message Wal WalSegments WalWriter WalRefine WalReplay WalDurable Json JsonEnvelope JsonEntry.

Import wal.
Local Open Scope go_scope.

(** ** Examples *)

(** An empty directory and a small log. *)
Definition empty_dir : FS := MkFS (Some ∅) ∅ ∅ 0 0 (fun _ => None).

Definition an_entry (p : string) : Entry := MkEntry 0 p "r" (Some (bytes_of "1")) "" "" zeroTime "".

Definition small_log (max : Z) : Config := MkConfig "d" max 3 0.

Definition line (e : Entry) : bytes := match marshal e with Ok b => b | _ => [] end ++ [newline].

Lemma empty_dir_good : good_dir 0 empty_dir.
Proof.
  split; try done.
  by left.
Qed.

Lemma empty_dir_durable : all_durable empty_dir.
Proof. intros x i. unfold entry. cbn. by rewrite lookup_empty. Qed.

(** ** Nothing written is lost *)

Section guarantees.

(** C1.  Round trip.  Open a directory that holds the lines [ls0], write the
    entries [es], close, open again and replay with a callback that accepts:
    the callback gets every entry, old and new, exactly once and in the order
    of writing, as JSON reads them back, and no byte of the log is left. *)
Theorem write_close_open_replay {C} (fn : Entry -> St C unit) k c f0 es0 ls0 es ls st :
  good_dir k f0 -> (0 <= k)%Z -> (k + Z.of_nat (length es) + 2 < bound)%Z ->
  (MaxSegmentBytes (norm_config c) <= bound)%Z ->
  disk_bytes f0 = concat ls0 -> lines_of es0 ls0 -> lines_of es ls -> Forall readable (es0 ++ es) ->
  (Z.of_nat (length (concat (ls0 ++ ls))) <= bound)%Z ->
  Forall (fun l => Z.of_nat (length l) <= scan_limit (maxReplayLineBytes (MaxSegmentBytes (norm_config c))))%Z (ls0 ++ ls) ->
  accepts fn ->
  exists w f1 s2 s3 w4 f4 s5 st',
    NewWriter c f0 = (Ok w, f1) /\
    write_all es (MkWalSt w f1) = (Ok tt, s2) /\
    Close s2 = (Ok tt, s3) /\
    NewWriter c (fs s3) = (Ok w4, f4) /\
    replaySealedSegments (logged fn) (MkWalSt w4 f4, (st, [])) = (Ok tt, (s5, (st', canon <$> (es0 ++ es)))) /\
    disk_bytes (fs s5) = [].
Proof.
  intros Hg Hk Hk1 Hmax Hd0 Hl0 Hl Hr Hlen Hfit Ha.
  rewrite concat_app, length_app in Hlen.
  destruct (NewWriter_healthy k c f0) as (w & f1 & Hn1 & Hh1 & Hc1 & Hd1 & Hb1 & Ho1 & _); [done|lia|done|rewrite Hd0; lia|].
  destruct (write_all_healthy es ls (k + 1) (MkWalSt w f1)) as (s2 & Hw & Hh2 & Hc2 & Hwb & _); [done|lia|lia|done| |].
  { apply lines_bound. lia. }
  assert (Ho2 : closeOnce (wr s2) = false) by exact (keeps_run _ _ _ _ _ (closed_is_write_all false es) Hw Ho1).
  destruct (Close_healthy _ s2 Hh2) as (s3 & Hcl & Hg3 & Hd3 & _); [lia|done|].
  assert (Hd3' : disk_bytes (fs s3) = concat (ls0 ++ ls)).
  { rewrite Hd3, Hwb. unfold wal_bytes. cbn [wr fs]. by rewrite Hd1, Hb1, Hd0, app_nil_r, concat_app. }
  destruct (open_and_replay fn (k + 1 + Z.of_nat (length es)) c (fs s3) (es0 ++ es) (ls0 ++ ls) st)
    as (w4 & f4 & s5 & st' & Hn4 & Hrep & _ & Hd5); try done; try lia.
  - rewrite Hd3', concat_app, length_app. lia.
  - by apply Forall2_app.
  - by exists w, f1, s2, s3, w4, f4, s5, st'.
Qed.


(** A replay pass under any fault and with any callback. *)
Lemma replay_pass_safe {C} (fn : Entry -> St C unit) s c log :
  exists new s' c', replaySealedSegments (logged fn) (s, (c, log)) = (Ok tt, (s', (c', log ++ new))) /\
    wr s' = wr s /\
    forall name d, entry (fs s) name = Some d ->
      entry (fs s') name = Some d /\ file_bytes (fs s') name = file_bytes (fs s) name \/
      entry (fs s') name = None /\ is_segment (name, d) = true /\
      ToLower name <> ToLower (activeName (wr s)) /\
      exists before after,
        new = before ++ entries_in (line_limit (wr s)) (file_bytes (fs s) name) ++ after.
Proof.
  destruct (replaySealed_replayed fn s c log) as (fin & ns & new & s' & c' & Hrun & Hw & Hd & Hpre & _ & _ & Hns & rest & Hnew).
  exists new, s', c'. split; [done|]. split; [done|]. intros name d Hent. pose proof Hd as (He & _ & Hi & _).
  destruct (decide (name ∈ ns)) as [Hin|Hnin].
  - right. rewrite He, decide_True by done. split; [done|].
    apply Hns, list_elem_of_fmap in Hin as ([p n] & Hpn & Hfin). cbn [path] in Hpn. subst p.
    assert (Hs : MkSegFile name n ∈ sealed_segments (activeName (wr s)) (listing (fs s))) by (by eapply elem_of_prefix).
    apply elem_of_segments in Hs as (d' & Hl & Hseg & Hkeep & _). apply elem_of_listing in Hl.
    rewrite Hent in Hl. injection Hl as <-. split; [done|]. split.
    { by apply negb_true_iff, String.eqb_neq in Hkeep. }
    apply list_elem_of_split in Hfin as (l1 & l2 & ->). subst new.
    rewrite fmap_app, fmap_cons, concat_app. cbn [concat].
    exists (concat (seg_entries (wr s) (fs s) <$> l1)), (concat (seg_entries (wr s) (fs s) <$> l2) ++ rest).
    rewrite <- (app_assoc (concat _)). f_equal. by rewrite <- app_assoc.
  - left. assert (Hx : entry (fs s') name = entry (fs s) name) by (by rewrite He, decide_False).
    split; [by rewrite Hx|]. unfold file_bytes, ino_data. by rewrite Hx, Hi.
Qed.

(** C3.  Replay safety, whatever calls fail and whatever the callback does
    (errors and panics included): the pass returns, leaves the writer alone
    and every file it does not remove untouched, and it removes a file only
    if that file is a segment other than the active one and the callback
    accepted every entry that can be decoded from it, in order. *)
Theorem replay_removes_only_accepted {C} (fn : Entry -> St C unit) s c log :
  exists new s' c', replaySealedSegments (logged fn) (s, (c, log)) = (Ok tt, (s', (c', log ++ new))) /\
    wr s' = wr s /\
    forall name d, entry (fs s) name = Some d ->
      entry (fs s') name = Some d /\ file_bytes (fs s') name = file_bytes (fs s) name \/
      entry (fs s') name = None /\ is_segment (name, d) = true /\
      ToLower name <> ToLower (activeName (wr s)) /\
      exists before after,
        new = before ++ entries_in (line_limit (wr s)) (file_bytes (fs s) name) ++ after.
Proof. apply replay_pass_safe. Qed.

(** C16.  Refinement: on a healthy disk [Write] implements appending a line to
    one byte string, across buffering and rotation; a segment exceeds
    [MaxSegmentBytes] only when a single line does, and with
    [SyncInterval = 0] nothing stays in the buffer. *)
Theorem write_appends_line k s e line :
  healthy k s -> (0 <= k)%Z -> (k + 1 < bound)%Z -> line_of e line ->
  (Z.of_nat (length line) <= bound)%Z ->
  exists s', Write e s = (Ok tt, s') /\ healthy (k + 1) s' /\ wal_bytes s' = wal_bytes s ++ line /\
    (activeSize (wr s') <= Z.max (MaxSegmentBytes (cfg (wr s))) (Z.of_nat (length line)))%Z /\
    (SyncInterval (cfg (wr s)) = 0%Z -> disk_bytes (fs s') = wal_bytes s ++ line).
Proof.
  intros Hh Hk Hk1 Hl Hb. destruct (Write_healthy k s e line) as (s' & Hw & Hh' & _ & Hwb & Hsz & Hsync); try done.
  exists s'. split_and!; try done; [lia|]. intros Hz. rewrite <- Hwb. unfold wal_bytes.
  by rewrite (Hsync Hz), app_nil_r.
Qed.

(** C17.  Append-only, whatever calls fail: no sequence of writes, sync ticks,
    closes and replay starts removes, renames, shortens or rewrites a file,
    however many segments there are, and durable bytes stay durable. *)
Theorem writer_append_only os s :
  fs_ok (fs s) -> durable_ok (fs s) -> grows (fs s) (fs (do_ops os s).2).
Proof. intros Hok Hd. apply (keeps_do_ops (fs s) os s (growing_refl _ Hok Hd)). Qed.


(** C31.  Safety, whatever calls fail: a writer that [NewWriter] returned keeps
    its invariant (file and buffer go together, the active name is the open
    file's, channels are closed once) under any sequence of operations, and
    none of them panics. *)
Theorem writer_never_panics c f w f' os :
  fs_ok f -> NewWriter c f = (Ok w, f') ->
  wf (do_ops os (MkWalSt w f')).2 /\ (do_ops os (MkWalSt w f')).1 = Ok tt.
Proof. intros Hok Hn. apply do_ops_wf. by apply (NewWriter_spec c f (Ok w) f'). Qed.

(** A rotation that closed the old segment and could not create the new
    one leaves the writer on the closed file: with [SyncInterval = 0] every
    later write fails and the directory never changes again. *)
Theorem failed_rotation_wedges s e s1 es :
  wf s -> SyncInterval (cfg (wr s)) = 0%Z -> rotate s = (Err e, s1) -> wedged s1 ->
  let s2 := (do_ops (OpWrite <$> es) s1).2 in
  fs s2 = fs s1 /\ forall e', exists err, (Write e' s2).1 = Err err.
Proof.
  intros Hwf Hz Hrot Hw. destruct (rotate_spec _ _ _ Hwf Hrot) as (Hwf1 & _ & Hc & _).
  rewrite <- Hc in Hz. clear Hwf Hrot Hc s. revert s1 Hwf1 Hz Hw.
  induction es as [|e1 es IH]; intros s Hwf Hz Hw s2.
  - split; [done|]. intros e'. destruct (wedged_Write e' s Hwf Hw) as (r & s' & E & _ & _ & _ & _ & _ & Herr).
    destruct (Herr Hz) as (err & ->). exists err. subst s2. cbn. by rewrite E.
  - destruct (wedged_Write e1 s Hwf Hw) as (r & s' & E & Hwf' & Hw' & Hfs & Hc & _ & Herr).
    destruct (Herr Hz) as (err & ->).
    assert (Hs2 : s2 = (do_ops (OpWrite <$> es) s').2).
    { subst s2. cbn [fmap list_fmap do_ops do_op]. unfold bind at 1, ignore, bind at 1, attempt. by rewrite E. }
    rewrite Hs2, <- Hfs. rewrite <- Hc in Hz. by apply IH.
Qed.

(** C38.  Head-of-line blocking: while a sealed segment holds a line longer
    than the replayer's limit, no number of replay passes removes that
    segment or any later one, whatever the callback does. *)
Theorem oversize_line_blocks_replay {C} (fn : Entry -> St C unit) ticks s c log seg g :
  is_sealed s seg -> (scan_lines (line_limit (wr s)) [] (file_bytes (fs s) (path seg))).2 = true ->
  is_sealed s g -> (num seg < num g)%Z ->
  exists s' c' log', replayLoop (logged fn) ticks (s, (c, log)) = (Ok tt, (s', (c', log'))) /\
    file_bytes (fs s') (path seg) = file_bytes (fs s) (path seg) /\
    entry (fs s') (path g) = entry (fs s) (path g) /\ file_bytes (fs s') (path g) = file_bytes (fs s) (path g).
Proof.
  revert s c log; induction ticks as [|ticks IH]; intros s c log Hseg Hbig Hg Hlt.
  all: assert (Hnf : ~ fits (wr s) (fs s) seg) by (unfold fits; congruence).
  all: destruct (oversize_step fn s c log seg seg Hseg Hnf Hseg ltac:(by right)) as (s1 & c1 & log1 & Hr & Hw & _ & Hb & Hs1).
  all: destruct (oversize_step fn s c log seg g Hseg Hnf Hg ltac:(by left)) as (s1' & c1' & log1' & Hr' & _ & He & Hbg & Hg1).
  all: rewrite Hr in Hr'; injection Hr' as <- <- <-; cbn [replayLoop]; rewrite (bind_run_Ok _ _ _ _ _ Hr).
  - by exists s1, c1, log1.
  - destruct (IH s1 c1 log1) as (s2 & c2 & log2 & -> & Hb2 & He2 & Hbg2); try done; [by rewrite Hw, Hb|].
    exists s2, c2, log2. split_and!; try done; congruence.
Qed.

(** On a readable directory [nextSegmentNum] is above the number of
    every segment, so the name [rotate] opens is not one of a segment file:
    the writer never appends to a sealed segment. *)
Theorem next_segment_is_fresh s n s' :
  nextSegmentNum s = (Ok n, s') -> (ReadDir (fs s)).1 = Ok (listing (fs s)) ->
  (max_num (listing (fs s)) < two63 - 1)%Z ->
  (forall name m, has_segment (fs s) name m -> (m < n)%Z) /\
  forall i, entry (fs s) (segment_name n) <> Some (DFile i).
Proof.
  intros Hn Hr Hmax. destruct (nextSegmentNum_spec s) as (n' & E & Hcase). rewrite E in Hn. injection Hn as <- _.
  destruct Hcase as [[-> _]|[_ (e & He)]]; [|congruence].
  pose proof (max_num_nonneg (listing (fs s))) as Hnn.
  rewrite wrap64_id by (unfold in_int64, two63 in *; lia).
  assert (Hup : forall name m, has_segment (fs s) name m -> (m <= max_num (listing (fs s)))%Z).
  { intros name m (d & He & Hs & Hm). eapply max_num_upper; [by apply elem_of_listing|done..]. }
  split; [intros name m Hm%Hup; lia|]. intros i Hi.
  assert (Hseg : has_segment (fs s) (segment_name (max_num (listing (fs s)) + 1)) (max_num (listing (fs s)) + 1)).
  { exists (DFile i). split; [done|]. split; [apply is_segment_name|].
    apply segment_num_name. unfold in_int64, two63 in *. lia. }
  apply Hup in Hseg. lia.
Qed.
End guarantees.

(** A log whose next write rotates. *)
Definition race_log : WalSt :=
  match NewWriter (small_log 300) empty_dir with
  | (Ok w, f) => (write_all [an_entry "a"; an_entry "b"] (MkWalSt w f)).2
  | (_, f) => MkWalSt (emptyWriter (small_log 300)) f
  end.


(** ** Instances *)

Definition two_entries : list Entry := [an_entry "a"; an_entry "b"].

Lemma an_entry_readable p : readable (an_entry p).
Proof. eexists _, _. split; vm_compute; reflexivity. Qed.

Lemma two_readable : Forall readable two_entries.
Proof. repeat (constructor; [apply an_entry_readable|]). constructor. Qed.

Lemma two_lines : lines_of two_entries (line <$> two_entries).
Proof. repeat constructor; eexists; (split; [vm_compute; reflexivity|done]). Qed.

Lemma accept_all : accepts (fun _ : Entry => ret (S := unit) tt).
Proof. intros e c. by exists c. Qed.

Lemma write_close_open_replay_witness :
  exists w f1 s2 s3 w4 f4 s5 st',
    NewWriter (small_log 300) empty_dir = (Ok w, f1) /\
    write_all two_entries (MkWalSt w f1) = (Ok tt, s2) /\
    Close s2 = (Ok tt, s3) /\
    NewWriter (small_log 300) (fs s3) = (Ok w4, f4) /\
    replaySealedSegments (logged (fun _ => ret tt)) (MkWalSt w4 f4, (tt, [])) =
      (Ok tt, (s5, (st', canon <$> ([] ++ two_entries)))) /\
    disk_bytes (fs s5) = [].
Proof.
  apply (write_close_open_replay (fun _ => ret tt) 0 (small_log 300) empty_dir [] [] two_entries (line <$> two_entries) tt).
  - exact empty_dir_good.
  - done.
  - unfold bound. cbn. lia.
  - unfold bound. cbn. lia.
  - reflexivity.
  - constructor.
  - exact two_lines.
  - exact two_readable.
  - vm_compute. discriminate.
  - repeat constructor; vm_compute; discriminate.
  - exact accept_all.
Defined.


(** A writer just opened on the empty directory. *)
Definition fresh : WalSt := MkWalSt (emptyWriter (small_log 300)) empty_dir.

Lemma fresh_wf : wf fresh.
Proof. apply emptyWriter_wf, (gd_ok 0), empty_dir_good. Qed.

Lemma fresh_healthy : healthy 0 fresh.
Proof.
  destruct empty_dir_good as [? ? ? ? ? ?]. pose proof fresh_wf. by split.
Qed.

Lemma fresh_durable_ok : durable_ok (fs fresh).
Proof. intros x i. unfold entry. cbn. by rewrite lookup_empty. Qed.

Lemma write_appends_line_witness :
  exists s', Write (an_entry "a") fresh = (Ok tt, s') /\ healthy 1 s' /\
    wal_bytes s' = wal_bytes fresh ++ line (an_entry "a") /\
    (activeSize (wr s') <= Z.max 300 (Z.of_nat (length (line (an_entry "a")))))%Z /\
    (SyncInterval (cfg (wr fresh)) = 0%Z -> disk_bytes (fs s') = wal_bytes fresh ++ line (an_entry "a")).
Proof.
  apply (write_appends_line 0 fresh (an_entry "a") (line (an_entry "a"))).
  - exact fresh_healthy.
  - done.
  - done.
  - eexists. split; [reflexivity|done].
  - vm_compute. discriminate.
Defined.

Lemma writer_append_only_witness :
  grows (fs fresh) (fs (do_ops [OpWrite (an_entry "a"); OpClose] fresh).2).
Proof. apply (writer_append_only _ fresh); [apply (wf_fs fresh fresh_wf)|exact fresh_durable_ok]. Defined.


Lemma writer_never_panics_witness :
  wf (do_ops [OpWrite (an_entry "a"); OpClose; OpClose] fresh).2 /\
  (do_ops [OpWrite (an_entry "a"); OpClose; OpClose] fresh).1 = Ok tt.
Proof.
  pose proof (writer_never_panics (small_log 300) empty_dir (emptyWriter (small_log 300))
    (MkFS (Some ∅) ∅ ∅ 0 2 (fun _ => None)) [OpWrite (an_entry "a"); OpClose; OpClose]) as Hp.
  destruct Hp as [_ Hp]; [apply (gd_ok 0), empty_dir_good|vm_compute; reflexivity|].
  split; [|vm_compute; reflexivity].
  exact (proj1 (do_ops_wf [OpWrite (an_entry "a"); OpClose; OpClose] fresh fresh_wf)).
Defined.

(** A log whose directory refuses to create a file at its 10th call: the
    rotation of the second write. *)
Definition full_disk : WalSt :=
  let f := MkFS (Some ∅) ∅ ∅ 0 0 (fun n => if bool_decide (n = 8) then Some (0, SysError "no space left") else None) in
  (Write (an_entry "a") (MkWalSt (emptyWriter (small_log 200)) f)).2.

Lemma failed_rotation_wedges_witness :
  exists e s1, rotate full_disk = (Err e, s1) /\
  forall e', exists err, (Write e' (do_ops (OpWrite <$> [an_entry "b"]) s1).2).1 = Err err.
Proof.
  eexists _, _. split; [vm_compute; reflexivity|].
  eapply (failed_rotation_wedges full_disk).
  - set (s0 := MkWalSt (emptyWriter (small_log 200)) (MkFS (Some ∅) ∅ ∅ 0 0
      (fun n => if bool_decide (n = 8) then Some (0, SysError "no space left") else None))).
    assert (H0 : wf s0).
    { apply emptyWriter_wf. split; intros *; unfold entry; cbn; rewrite ?lookup_empty; done. }
    destruct (Write (an_entry "a") s0) as [r s1] eqn:E. change full_disk with (Write (an_entry "a") s0).2.
    rewrite E. by apply (Write_spec (an_entry "a") s0 r s1).
  - vm_compute. reflexivity.
  - vm_compute. reflexivity.
  - vm_compute. eexists. split; reflexivity.
Defined.

(** A directory with a 64 KiB line in its first segment. *)
Definition long_line : bytes := replicate (Z.to_nat 65536) "x"%char.
Definition blocked : WalSt :=
  MkWalSt (emptyWriter (small_log 300))
    (MkFS (Some (<["wal-000001.log" := DFile 0]> (<["wal-000002.log" := DFile 1]> ∅)))
          (<[0 := Inode (long_line ++ [newline]) 0]> (<[1 := Inode [newline] 0]> ∅)) ∅ 2 0 (fun _ => None)).

Lemma long_line_length : Z.of_nat (length long_line) = 65536%Z.
Proof. unfold long_line. rewrite length_replicate. lia. Qed.

Lemma long_line_plain : newline ∉ long_line.
Proof. unfold long_line. intros Hin. apply elem_of_replicate in Hin as [Heq _]. discriminate. Qed.

Lemma blocked_bytes : file_bytes (fs blocked) "wal-000001.log" = long_line ++ [newline].
Proof.
  unfold blocked. generalize (long_line ++ [newline]). intros l. vm_compute. reflexivity.
Qed.

Lemma long_scan limit d :
  newline ∉ d -> (limit <= Z.of_nat (length d))%Z -> (scan_lines limit [] (d ++ [newline])).2 = true.
Proof. intros Hd Hl. rewrite scan_lines_line by done. cbn [app]. by rewrite (proj2 (Z.leb_le _ _)). Qed.

Lemma oversize_line_blocks_replay_witness :
  exists s' c' log', replayLoop (logged (fun _ => ret tt)) 3 (blocked, (tt, [])) = (Ok tt, (s', (c', log'))) /\
    file_bytes (fs s') "wal-000001.log" = file_bytes (fs blocked) "wal-000001.log" /\
    entry (fs s') "wal-000002.log" = entry (fs blocked) "wal-000002.log" /\
    file_bytes (fs s') "wal-000002.log" = file_bytes (fs blocked) "wal-000002.log".
Proof.
  apply (oversize_line_blocks_replay (fun _ => ret tt) 3 blocked tt []
    (MkSegFile "wal-000001.log" 1) (MkSegFile "wal-000002.log" 2)).
  - unfold is_sealed, sealed_segments. apply elem_of_segments. exists (DFile 0).
    split; [apply elem_of_listing; vm_compute; reflexivity|]. split_and!; vm_compute; reflexivity.
  - cbn [path]. rewrite blocked_bytes. apply long_scan; [apply long_line_plain|].
    rewrite long_line_length. vm_compute. discriminate.
  - unfold is_sealed, sealed_segments. apply elem_of_segments. exists (DFile 1).
    split; [apply elem_of_listing; vm_compute; reflexivity|]. split_and!; vm_compute; reflexivity.
  - reflexivity.
Defined.

Definition two_segments : WalSt :=
  MkWalSt (emptyWriter (small_log 300))
    (MkFS (Some (<["wal-000001.log" := DFile 0]> (<["wal-000002.log" := DFile 1]> ∅))) ∅ ∅ 2 0 (fun _ => None)).

Lemma next_segment_is_fresh_witness :
  (forall name m, has_segment (fs two_segments) name m -> (m < 3)%Z) /\
  forall i, entry (fs two_segments) (segment_name 3) <> Some (DFile i).
Proof.
  eapply (next_segment_is_fresh two_segments); vm_compute; reflexivity.
Defined.
