(* ===== verification/Threads.v ===== *)
(** * Goroutines

    A goroutine is a finite tree of atomic actions on a shared state: what a
    mutex or a channel makes indivisible in the code is one action, and
    between two of them any other goroutine may run.  Loops of the program
    that run forever (the workers, the recovery probe) are unfolded one turn
    at a time by the machine that schedules the goroutines. *)

From Stdlib Require Import ZArith Lia Ascii String.
From stdpp Require Import base tactics numbers strings gmap list.
From S2P Require Import Prelude.

Section threads.
Context {S : Type}.

(** [Atomic ready upd k]: blocked until [ready], then one indivisible update,
    then [k] of the state the action saw.  [Choose]: a [select] whose outcome
    timing decides. *)
Inductive Thr (A : Type) : Type :=
| Done (r : result A)
| Atomic (ready : S -> bool) (upd : S -> S) (k : S -> Thr A)
| Choose (t1 t2 : Thr A).
Arguments Done {A} r.
Arguments Atomic {A} ready upd k.
Arguments Choose {A} t1 t2.

(** A call made in one action, and its outcome. *)
Definition atomic {X A} (m : St S X) (k : result X -> Thr A) : Thr A :=
  Atomic (fun _ => true) (fun s => (m s).2) (fun s => k (m s).1).

(** The same once [ready] holds: a [select] case. *)
Definition await {X A} (ready : S -> bool) (m : St S X) (k : result X -> Thr A) : Thr A :=
  Atomic ready (fun s => (m s).2) (fun s => k (m s).1).

(** [t], then [k] of its value; an error or a panic ends the caller too. *)
Fixpoint bindT {A B} (t : Thr A) (k : A -> Thr B) : Thr B :=
  match t with
  | Done (Ok a) => k a
  | Done (Err e) => Done (Err e)
  | Done (Panic p) => Done (Panic p)
  | Atomic g u k0 => Atomic g u (fun s => bindT (k0 s) k)
  | Choose t1 t2 => Choose (bindT t1 k) (bindT t2 k)
  end.

(** [defer func() { if r := recover(); r != nil { h r } }()]. *)
Fixpoint recoverT {A} (h : string -> Thr A) (t : Thr A) : Thr A :=
  match t with
  | Done (Panic p) => h p
  | Done r => Done r
  | Atomic g u k => Atomic g u (fun s => recoverT h (k s))
  | Choose t1 t2 => Choose (recoverT h t1) (recoverT h t2)
  end.

(** [err := t], the error being inspected by the caller. *)
Fixpoint attemptT {A B} (t : Thr A) (k : result A -> Thr B) : Thr B :=
  match t with
  | Done (Panic p) => Done (Panic p)
  | Done r => k r
  | Atomic g u k0 => Atomic g u (fun s => attemptT (k0 s) k)
  | Choose t1 t2 => Choose (attemptT t1 k) (attemptT t2 k)
  end.

(** A choice among [None] and [Some i], [i < n]. *)
Fixpoint chooseT {A} (n : nat) (k : option nat -> Thr A) : Thr A :=
  match n with
  | O => k None
  | Datatypes.S n' => Choose (k (Some n')) (chooseT n' k)
  end.

(** One step of a goroutine. *)
Inductive tstep {A} : Thr A -> S -> Thr A -> S -> Prop :=
| tstep_atomic g u k s : g s = true -> tstep (Atomic g u k) s (k s) (u s)
| tstep_left t1 t2 s t' s' : tstep t1 s t' s' -> tstep (Choose t1 t2) s t' s'
| tstep_right t1 t2 s t' s' : tstep t2 s t' s' -> tstep (Choose t1 t2) s t' s'.

(** Running alone: [runs t s r s'] when [t] can end with [r] in [s'] and
    nothing else moves meanwhile. *)
Inductive runs {A} : Thr A -> S -> result A -> S -> Prop :=
| runs_done r s : runs (Done r) s r s
| runs_atomic g u k s r s' : g s = true -> runs (k s) (u s) r s' -> runs (Atomic g u k) s r s'
| runs_left t1 t2 s r s' : runs t1 s r s' -> runs (Choose t1 t2) s r s'
| runs_right t1 t2 s r s' : runs t2 s r s' -> runs (Choose t1 t2) s r s'.

(** The same as a function, the choices given. *)
Fixpoint exec {A} (t : Thr A) (choices : list bool) (s : S) : option (result A * S) :=
  match t with
  | Done r => Some (r, s)
  | Atomic g u k => if g s then exec (k s) choices (u s) else None
  | Choose t1 t2 =>
      match choices with
      | [] => exec t1 [] s
      | b :: choices' => exec (if b then t1 else t2) choices' s
      end
  end.

Lemma exec_runs {A} (t : Thr A) choices s r s' : exec t choices s = Some (r, s') -> runs t s r s'.
Proof.
  revert choices s; induction t as [r0|g u k IH|t1 IH1 t2 IH2]; intros choices s H; cbn in H.
  - injection H as <- <-. constructor.
  - destruct (g s) eqn:E; [|done]. constructor; eauto.
  - destruct choices as [|[] choices]; [apply runs_left|apply runs_left|apply runs_right]; eauto.
Qed.

(** ** Total correctness of a goroutine that runs alone

    [wp t Q s]: from [s] the goroutine [t] does not block, whatever timing
    decides, and ends with [Q]. *)

(** Whether a goroutine can move. *)
Fixpoint may {A} (t : Thr A) (s : S) : Prop :=
  match t with
  | Done _ => True
  | Atomic g _ _ => g s = true
  | Choose t1 t2 => may t1 s \/ may t2 s
  end.

Fixpoint wp {A} (t : Thr A) (Q : result A -> S -> Prop) (s : S) : Prop :=
  match t with
  | Done r => Q r s
  | Atomic g u k => g s = true /\ wp (k s) Q (u s)
  | Choose t1 t2 => (may t1 s -> wp t1 Q s) /\ (may t2 s -> wp t2 Q s) /\ (may t1 s \/ may t2 s)
  end.

Lemma runs_may {A} (t : Thr A) s r s' : runs t s r s' -> may t s.
Proof. induction 1; cbn; auto. Qed.

Lemma wp_mono {A} (t : Thr A) (Q Q' : result A -> S -> Prop) s :
  (forall r s, Q r s -> Q' r s) -> wp t Q s -> wp t Q' s.
Proof.
  intros HQ. revert s; induction t as [r|g u k IH|t1 IH1 t2 IH2]; intros s; cbn; [apply HQ|naive_solver|].
  intros (H1 & H2 & H3). split_and!; auto.
Qed.

Lemma wp_conj {A} (t : Thr A) (Q Q' : result A -> S -> Prop) s :
  wp t Q s -> wp t Q' s -> wp t (fun r s => Q r s /\ Q' r s) s.
Proof.
  revert s; induction t as [r|g u k IH|t1 IH1 t2 IH2]; intros s; cbn; [done|naive_solver|].
  intros (H1 & H2 & H3) (H1' & H2' & _). split_and!; auto.
Qed.

Lemma may_bindT {A B} (t : Thr A) (k : A -> Thr B) s : may (bindT t k) s -> may t s.
Proof. induction t as [[]|g u k0 IH|t1 IH1 t2 IH2]; cbn; naive_solver. Qed.

Lemma may_recoverT {A} (h : string -> Thr A) (t : Thr A) s : may (recoverT h t) s -> may t s.
Proof. induction t as [[]|g u k0 IH|t1 IH1 t2 IH2]; cbn; naive_solver. Qed.

(** A goroutine with a run satisfies its specification on every run. *)
Lemma wp_runs {A} (t : Thr A) Q s r s' : wp t Q s -> runs t s r s' -> Q r s'.
Proof.
  intros Hw Hr. induction Hr as [r s|g u k s r s' Hg Hr IH|t1 t2 s r s' Hr IH|t1 t2 s r s' Hr IH]; cbn in Hw.
  - done.
  - by apply IH, Hw.
  - apply IH. destruct Hw as (H1 & _). apply H1. eauto using runs_may.
  - apply IH. destruct Hw as (_ & H2 & _). apply H2. eauto using runs_may.
Qed.

(** The outcomes that are neither errors nor panics continue with [k]. *)
Lemma wp_bindT {A B} (t : Thr A) (k : A -> Thr B) Q s :
  wp t (fun r s => match r with
                   | Ok a => wp (k a) Q s
                   | Err e => Q (Err e) s
                   | Panic p => Q (Panic p) s
                   end) s ->
  (forall a s, may (k a) s) -> wp (bindT t k) Q s.
Proof.
  intros H Hk. revert s H; induction t as [[]|g u k0 IH|t1 IH1 t2 IH2]; intros s; cbn; try done.
  - intros [? ?]. split; [done|]. by apply IH.
  - intros (H1 & H2 & H3).
    assert (Hm : forall t0, may t0 s -> may (bindT t0 k) s).
    { clear -Hk. intros t0. induction t0 as [[]|g u k0 IH|t1 IH1 t2 IH2]; cbn; naive_solver. }
    split_and!; [intros ?%may_bindT; auto..|]. naive_solver.
Qed.

Lemma wp_recoverT {A} (h : string -> Thr A) (t : Thr A) Q s :
  wp t (fun r s => match r with Panic p => wp (h p) Q s | r => Q r s end) s ->
  (forall p s, may (h p) s) -> wp (recoverT h t) Q s.
Proof.
  intros H Hh. revert s H; induction t as [[]|g u k0 IH|t1 IH1 t2 IH2]; intros s; cbn; try done.
  - intros [? ?]. split; [done|]. by apply IH.
  - intros (H1 & H2 & H3).
    assert (Hm : forall t0, may t0 s -> may (recoverT h t0) s).
    { clear -Hh. intros t0. induction t0 as [[]|g u k0 IH|t1 IH1 t2 IH2]; cbn; naive_solver. }
    split_and!; [intros ?%may_recoverT; auto..|]. naive_solver.
Qed.

Lemma wp_attemptT {A B} (t : Thr A) (k : result A -> Thr B) Q s :
  wp t (fun r s => match r with Panic p => Q (Panic p) s | r => wp (k r) Q s end) s ->
  (forall r s, may (k r) s) -> wp (attemptT t k) Q s.
Proof.
  intros H Hk. revert s H; induction t as [[]|g u k0 IH|t1 IH1 t2 IH2]; intros s; cbn; try done.
  - intros [? ?]. split; [done|]. by apply IH.
  - assert (Hm : forall t0, may (attemptT t0 k) s <-> may t0 s).
    { clear -Hk. intros t0. induction t0 as [[]|g u k0 IH|t1 IH1 t2 IH2]; cbn; naive_solver. }
    rewrite !Hm. intros (H1 & H2 & H3). split_and!; auto.
Qed.

Lemma wp_chooseT {A} n (k : option nat -> Thr A) Q s :
  (forall c, wp (k c) Q s) -> (forall c, may (k c) s) -> wp (chooseT n k) Q s.
Proof.
  intros H Hm. induction n as [|n IH]; cbn; [done|]. split_and!; auto.
Qed.

Lemma may_chooseT {A} n (k : option nat -> Thr A) s : (forall c, may (k c) s) -> may (chooseT n k) s.
Proof. intros Hm. destruct n; cbn; auto. Qed.

(** ** Invariants of the shared state

    From a state in [I], every action of the goroutine keeps [I], and so does
    what it goes on with. *)
Section invariant.
Context (I : S -> Prop).

Fixpoint stays {A} (t : Thr A) : Prop :=
  match t with
  | Done _ => True
  | Atomic g u k => forall s, I s -> g s = true -> I (u s) /\ stays (k s)
  | Choose t1 t2 => stays t1 /\ stays t2
  end.

Lemma stays_bindT {A B} (t : Thr A) (k : A -> Thr B) : stays t -> (forall a, stays (k a)) -> stays (bindT t k).
Proof.
  intros Ht Hk. induction t as [[]|g u k0 IH|t1 IH1 t2 IH2]; cbn in *; auto; [|naive_solver].
  intros s Hs Hg. destruct (Ht s Hs Hg). auto.
Qed.

Lemma stays_recoverT {A} (h : string -> Thr A) (t : Thr A) :
  stays t -> (forall p, stays (h p)) -> stays (recoverT h t).
Proof.
  intros Ht Hk. induction t as [[]|g u k0 IH|t1 IH1 t2 IH2]; cbn in *; auto; [|naive_solver].
  intros s Hs Hg. destruct (Ht s Hs Hg). auto.
Qed.

Lemma stays_step {A} (t : Thr A) s t' s' : stays t -> I s -> tstep t s t' s' -> I s' /\ stays t'.
Proof.
  intros H HI Hstep. induction Hstep; cbn in H; [by apply H|apply IHHstep; [apply H|done]..].
Qed.

Lemma stays_await {X A} g (m : St S X) (k : result X -> Thr A) :
  (forall s, I s -> I (m s).2) -> (forall r, stays (k r)) -> stays (await g m k).
Proof. intros Hm Hk s Hs _. split; [by apply Hm|apply Hk]. Qed.
End invariant.

(** ** Ownership among goroutines

    [I s O] is an invariant of the shared state [s] in which the goroutines
    together hold the resources [O] (addresses of messages, here).  A
    goroutine that holds [a] and satisfies [holds Q a] keeps [I] at each of
    its actions, whatever the others do in between, and ends with an outcome
    and resources in [Q]. *)

Section ownership.
Context (I : S -> list nat -> Prop).

Fixpoint holds {A} (Q : result A -> list nat -> Prop) (a : list nat) (t : Thr A) : Prop :=
  match t with
  | Done r => Q r a
  | Atomic g u k => forall s O, I s (a ++ O) -> g s = true ->
      exists a', I (u s) (a' ++ O) /\ holds Q a' (k s)
  | Choose t1 t2 => holds Q a t1 /\ holds Q a t2
  end.

Lemma holds_mono {A} (Q Q' : result A -> list nat -> Prop) a t :
  (forall r a, Q r a -> Q' r a) -> holds Q a t -> holds Q' a t.
Proof.
  intros HQ. revert a; induction t as [r|g u k IH|t1 IH1 t2 IH2]; intros a; cbn; [apply HQ| |naive_solver].
  intros H s O HI Hg. destruct (H s O HI Hg) as (a' & ? & ?). exists a'. eauto.
Qed.

Lemma holds_bindT {A B} (Q : result B -> list nat -> Prop) a (t : Thr A) (k : A -> Thr B) :
  holds (fun r a => match r with
                    | Ok x => holds Q a (k x)
                    | Err e => Q (Err e) a
                    | Panic p => Q (Panic p) a
                    end) a t -> holds Q a (bindT t k).
Proof.
  revert a; induction t as [[x|e|p]|g u k0 IH|t1 IH1 t2 IH2]; intros a; cbn; try done; [|naive_solver].
  intros H s O HI Hg. destruct (H s O HI Hg) as (a' & ? & ?). exists a'. eauto.
Qed.

Lemma holds_recoverT {A} (Q : result A -> list nat -> Prop) a (t : Thr A) h :
  holds (fun r a => match r with Panic p => holds Q a (h p) | r => Q r a end) a t ->
  holds Q a (recoverT h t).
Proof.
  revert a; induction t as [[x|e|p]|g u k0 IH|t1 IH1 t2 IH2]; intros a; cbn; try done; [|naive_solver].
  intros H s O HI Hg. destruct (H s O HI Hg) as (a' & ? & ?). exists a'. eauto.
Qed.

Lemma holds_attemptT {A B} (Q : result B -> list nat -> Prop) a (t : Thr A) (k : result A -> Thr B) :
  holds (fun r a => match r with Panic p => Q (Panic p) a | r => holds Q a (k r) end) a t ->
  holds Q a (attemptT t k).
Proof.
  revert a; induction t as [[x|e|p]|g u k0 IH|t1 IH1 t2 IH2]; intros a; cbn; try done; [|naive_solver].
  intros H s O HI Hg. destruct (H s O HI Hg) as (a' & ? & ?). exists a'. eauto.
Qed.

Lemma holds_chooseT {A} (Q : result A -> list nat -> Prop) a n (k : option nat -> Thr A) :
  (forall c, holds Q a (k c)) -> holds Q a (chooseT n k).
Proof. intros Hk. induction n; cbn; auto. Qed.

(** More resources in hand than [t] uses. *)
Lemma holds_frame {A} (Q : result A -> list nat -> Prop) a b (t : Thr A) :
  holds Q a t -> (forall s O O', O ≡ₚ O' -> I s O -> I s O') ->
  holds (fun r a' => exists a0, a' = a0 ++ b /\ Q r a0) (a ++ b) t.
Proof.
  intros Ht Hp. revert a Ht; induction t as [r|g u k IH|t1 IH1 t2 IH2]; intros a; cbn; [eauto| |naive_solver].
  intros H s O HI Hg. rewrite <- app_assoc in HI. destruct (H s _ HI Hg) as (a' & HI' & Ht').
  exists (a' ++ b). rewrite <- app_assoc. eauto.
Qed.

(** One action of a goroutine among others. *)
Lemma holds_step {A} (Q : result A -> list nat -> Prop) a t s t' s' O :
  holds Q a t -> I s (a ++ O) -> tstep t s t' s' -> exists a', I s' (a' ++ O) /\ holds Q a' t'.
Proof.
  intros H HI Hstep. induction Hstep as [g u k s Hg|t1 t2 s t' s' _ IH|t1 t2 s t' s' _ IH]; cbn in H.
  - by apply H.
  - apply IH; [apply H|done].
  - apply IH; [apply H|done].
Qed.
End ownership.
End threads.

Arguments Thr S A : clear implicits.
Arguments Done {S A} r.
Arguments Atomic {S A} ready upd k.
Arguments Choose {S A} t1 t2.

(** ** A goroutine working on a part of the state

    The part is found through [get], which fails where the pointer to it is
    nil, and written back with [put]. *)
Section lift.
Context {D S : Type} (get : D -> option S) (put : S -> D -> D).

Fixpoint liftT {A} (t : Thr S A) : Thr D A :=
  match t with
  | Done r => Done r
  | Atomic g u k =>
      Atomic (fun d => match get d with Some s => g s | None => true end)
             (fun d => match get d with Some s => put (u s) d | None => d end)
             (fun d => match get d with
                       | Some s => liftT (k s)
                       | None => Done (Panic "nil pointer dereference")
                       end)
  | Choose t1 t2 => Choose (liftT t1) (liftT t2)
  end.

Lemma wp_liftT {A} (t : Thr S A) (Q : result A -> D -> Prop) d s :
  (forall s d s0, get d = Some s0 -> get (put s d) = Some s) ->
  (forall s s' d, put s' (put s d) = put s' d) -> (forall s d, get d = Some s -> put s d = d) ->
  get d = Some s -> wp t (fun r s' => Q r (put s' d)) s -> wp (liftT t) Q d.
Proof.
  intros Hgp Hpp Hpg. revert d s; induction t as [r|g u k IH|t1 IH1 t2 IH2]; intros d s Hd; cbn.
  - by rewrite Hpg.
  - rewrite Hd. intros [Hg Hw]. split; [done|]. apply (IH s _ (u s)); [by eapply Hgp|].
    eapply wp_mono; [|exact Hw]. intros r s'. cbn. by rewrite Hpp.
  - assert (Hm : forall t0 : Thr S A, may (liftT t0) d <-> may t0 s).
    { clear -Hd. intros t0. induction t0 as [[]|g u k0 IH|t1 IH1 t2 IH2]; cbn; [done|done|done|by rewrite Hd|].
      by rewrite IH1, IH2. }
    rewrite !Hm. intros (H1 & H2 & H3). split_and!; [intros; by eapply IH1; eauto|intros; by eapply IH2; eauto|done].
Qed.

(** Ownership: the invariant of the part holds with the resources of the rest
    of the state, [rest], counted among those of the other goroutines. *)
Lemma holds_liftT {A} (I : S -> list nat -> Prop) (J : D -> list nat -> Prop) rest
    (Q : result A -> list nat -> Prop) a (t : Thr S A) :
  (forall d s O, J d O -> get d = Some s -> I s (O ++ rest d)) ->
  (forall d s s' O O', J d O' -> get d = Some s -> I s' (O ++ rest d) -> J (put s' d) O) ->
  (forall p a, Q (Panic p) a) -> holds I Q a t -> holds J Q a (liftT t).
Proof.
  intros Hget Hput HP. revert a; induction t as [r|g u k IH|t1 IH1 t2 IH2]; intros a; cbn; [done| |naive_solver].
  intros Ht d O HJ Hg. destruct (get d) as [s|] eqn:E; [|exists a; split; [done|apply HP]].
  pose proof (Hget d s _ HJ E) as HI. rewrite <- app_assoc in HI. destruct (Ht s _ HI Hg) as (a' & HI' & Hk).
  exists a'. split; [|by apply IH]. eapply Hput; [done|done|]. by rewrite <- app_assoc.
Qed.
End lift.
