(* ===== verification/Sink.v ===== *)
(** * Package [sink] (internal/sink/worker.go, sink.go): the operations

    A [WorkerPool] owns a bounded channel of messages and a number of workers
    that deliver them to a [Sink], retrying and, after repeated failures,
    opening a circuit breaker that a background probe closes again.  What it
    cannot deliver goes to the write-ahead log or is dropped, as its
    backpressure strategy says.

    The sink and the log are interfaces ([Sink], [MsgLog]).  The methods are
    goroutines ([Threads]): each section under [wp.mu], each channel
    operation and each call of the sink or of the log is one action.  The
    log lines of the code are left out; [Metrics] has what it records. *)

From Stdlib Require Import ZArith Lia Ascii String SpecFloat.
From stdpp Require Import base tactics numbers strings gmap list.
From S2P Require Import Prelude GoStrings GoFloat Message Threads.

(** ** Interfaces *)

(** [Sink]: [Send] may look at the message and at whether its context is
    already cancelled; [K] is the backend's state. *)
Class Sink (K : Type) := {
  Name : string;
  Send : bool -> message.Message -> St K unit;
  HealthCheck : St K unit;
  SinkClose : St K unit;
}.

(** What the pool uses of the write-ahead log. *)
Class MsgLog (L : Type) := {
  log_write : message.Message -> St L unit;
}.

Module sink.
Local Open Scope go_scope.

(** ** Data *)

Inductive Backpressure := BackpressureDrop | BackpressureBlock | BackpressureFallback.
#[global] Instance Backpressure_eq_dec : EqDecision Backpressure.
Proof. solve_decision. Defined.

Definition Millisecond : Z := 1000000.
Definition Second : Z := 1000 * Millisecond.

Definition replayPauseHighWatermark : f64 := f64_div (f64_of_Z 80) (f64_of_Z 100).
Definition replaySlowHighWatermark : f64 := f64_div (f64_of_Z 50) (f64_of_Z 100).

(** What does not change after [NewWorkerPool]. *)
Record Params := MkParams {
  workers : Z;
  chcap : Z;                       (* cap(ch) *)
  maxFails : Z;
  backpressure : Backpressure;
  submitTimeout : Z;
  recoveryInterval : Z;
}.

(** The circuit breaker, under [mu]; [recGo] counts the recovery goroutines
    started and not yet scheduled. *)
Record Breaker := MkBreaker {
  circuitOpen : bool;
  failCount : Z;
  recoveryOnce : bool;
  recoveryStop : option bool;      (* nil, or whether it is closed *)
  recGo : nat;
}.

Inductive OnceState := OnceNew | OnceRunning | OnceDone.

(** What [Shutdown] drives. *)
Record Life := MkLife {
  closed : bool;
  ctxDone : bool;
  metricsStop : bool;              (* closed *)
  shutdownOnce : OnceState;
  wg : nat;                        (* workers still running *)
}.

Record WorkerPool := MkWorkerPool {
  params : Params;
  ch : list nat;                   (* the messages queued, oldest first *)
  chClosed : bool;
  brk : Breaker;
  life : Life;
  walFallbacks : Z;
}.

Record WorkerPoolConfig := MkWorkerPoolConfig {
  c_Workers : Z;
  c_ChannelSize : Z;
  c_MaxFails : Z;
  c_Backpressure : Backpressure;
  c_SubmitTimeout : Z;
}.

Definition default_pos (v d : Z) : Z := if (v <=? 0)%Z then d else v.

Definition NewWorkerPool (cfg : WorkerPoolConfig) : WorkerPool :=
  MkWorkerPool
    (MkParams (default_pos (c_Workers cfg) 16) (default_pos (c_ChannelSize cfg) 16384)
              (default_pos (c_MaxFails cfg) 10) (c_Backpressure cfg)
              (default_pos (c_SubmitTimeout cfg) (100 * Millisecond)) (15 * Second))
    [] false (MkBreaker false 0 false None 0)
    (MkLife false false false OnceNew (Z.to_nat (default_pos (c_Workers cfg) 16))) 0.

Section pool.
Context {K L : Type} `{Sink K} `{MsgLog L}.

(** The pool with the memory of the messages, the log and the backend. *)
Record PoolSt := MkPoolSt {
  wp_ : WorkerPool;
  mem : Pool message.Message;
  walWriter : option L;
  snk : K;
}.

Definition set_wp (w : WorkerPool) (s : PoolSt) : PoolSt := MkPoolSt w (mem s) (walWriter s) (snk s).
Definition set_mem (p : Pool message.Message) (s : PoolSt) : PoolSt := MkPoolSt (wp_ s) p (walWriter s) (snk s).
Definition set_ch (q : list nat) (s : PoolSt) : PoolSt :=
  set_wp (MkWorkerPool (params (wp_ s)) q (chClosed (wp_ s)) (brk (wp_ s)) (life (wp_ s)) (walFallbacks (wp_ s))) s.
Definition set_brk (b : Breaker) (s : PoolSt) : PoolSt :=
  set_wp (MkWorkerPool (params (wp_ s)) (ch (wp_ s)) (chClosed (wp_ s)) b (life (wp_ s)) (walFallbacks (wp_ s))) s.
Definition set_life (l : Life) (s : PoolSt) : PoolSt :=
  set_wp (MkWorkerPool (params (wp_ s)) (ch (wp_ s)) (chClosed (wp_ s)) (brk (wp_ s)) l (walFallbacks (wp_ s))) s.
Definition close_ch (s : PoolSt) : PoolSt :=
  set_wp (MkWorkerPool (params (wp_ s)) (ch (wp_ s)) true (brk (wp_ s)) (life (wp_ s)) (walFallbacks (wp_ s))) s.
Definition count_fallback (s : PoolSt) : PoolSt :=
  set_wp (MkWorkerPool (params (wp_ s)) (ch (wp_ s)) (chClosed (wp_ s)) (brk (wp_ s)) (life (wp_ s))
                       (walFallbacks (wp_ s) +64 1%Z)) s.

Definition is_open (s : PoolSt) : bool := circuitOpen (brk (wp_ s)).
Definition is_closed (s : PoolSt) : bool := closed (life (wp_ s)).
Definition ctx_done (s : PoolSt) : bool := ctxDone (life (wp_ s)).

Abbreviation Go := (Thr PoolSt).

(** Read the state in one action. *)
Definition read {X A} (f : PoolSt -> X) (k : X -> Go A) : Go A :=
  Atomic (fun _ => true) (fun s => s) (fun s => k (f s)).

(** A call whose panics end the goroutine and whose errors the caller sees. *)
Definition call {X A} (m : St PoolSt X) (k : option X -> Go A) : Go A :=
  atomic m (fun r => match r with
                     | Ok x => k (Some x)
                     | Err _ => k None
                     | Panic p => Done (Panic p)
                     end).

(** ** The breaker *)

Definition startRecovery (b : Breaker) : Breaker :=
  if recoveryOnce b then b
  else MkBreaker (circuitOpen b) (failCount b) true (Some false) (S (recGo b)).

Definition recordFailure : St PoolSt unit :=
  modify (fun s =>
    let b := brk (wp_ s) in
    let n := (failCount b +64 1%Z) in
    if (maxFails (params (wp_ s)) <=? n)%Z && negb (circuitOpen b)
    then set_brk (startRecovery (MkBreaker true n (recoveryOnce b) (recoveryStop b) (recGo b))) s
    else set_brk (MkBreaker (circuitOpen b) n (recoveryOnce b) (recoveryStop b) (recGo b)) s).

Definition resetFailures : St PoolSt unit :=
  modify (fun s =>
    let b := brk (wp_ s) in
    set_brk (MkBreaker false 0 (recoveryOnce b) (recoveryStop b) (recGo b)) s).

(** ** Processing *)

Definition ReleaseMessage (msg : nat) : St PoolSt unit :=
  zoom mem set_mem (message.ReleaseMessage (Some msg)).

Definition release (msg : nat) : Go unit := atomic (ReleaseMessage msg) Done.

(** [wp.walWriter.WriteMessage(msg)]. *)
Definition walWrite (msg : nat) : St PoolSt unit := fun s =>
  match walWriter s, cells (mem s) !! msg with
  | Some l, Some m => let '(r, l') := log_write m l in (r, MkPoolSt (wp_ s) (mem s) (Some l') (snk s))
  | _, _ => (Panic "nil pointer dereference", s)
  end.

(** [wp.sink.Send(ctx, msg)]: the context of a draining worker is not the
    pool's. *)
Definition send (drain : bool) (msg : nat) : St PoolSt unit := fun s =>
  match cells (mem s) !! msg with
  | Some m => let '(r, k) := Send (if drain then false else ctx_done s) m (snk s) in
              (r, MkPoolSt (wp_ s) (mem s) (walWriter s) k)
  | None => (Panic "nil pointer dereference", s)
  end.

(** The reason is only logged. *)
Definition handleRejected (msg : nat) (reason : string) : Go unit :=
  read (fun s => bool_decide (backpressure (params (wp_ s)) = BackpressureFallback) &&
                 match walWriter s with Some _ => true | None => false end)
    (fun fallback =>
       if fallback then
         call (walWrite msg) (fun ok =>
           match ok with
           | None => release msg
           | Some _ => atomic (modify count_fallback) (fun _ => release msg)
           end)
       else release msg).

(** Attempts [attempt], [attempt + 1], ... while [left] are left.  The
    [select] of the backoff is decided by time and by the pool's context. *)
Fixpoint send_attempts (left attempt : nat) (msg : nat) (drain : bool) : Go unit :=
  match left with
  | O => atomic recordFailure (fun _ => handleRejected msg "send_failure")
  | S left' =>
      let try := call (send drain msg) (fun ok =>
        match ok with
        | Some _ => atomic resetFailures (fun _ => release msg)
        | None => send_attempts left' (S attempt) msg drain
        end) in
      match attempt with
      | O => try
      | _ => Choose (await ctx_done (ret tt) (fun _ => handleRejected msg "shutdown_interrupt")) try
      end
  end.

Definition processWithContext (msg : nat) (drain : bool) : Go unit :=
  read is_open (fun open =>
    if open then handleRejected msg "circuit_open" else send_attempts 3 0 msg drain).

Definition safeProcess (msg : nat) (drain : bool) : Go unit :=
  recoverT (fun _ => handleRejected msg "worker_panic") (processWithContext msg drain).

(** ** Submitting *)

(** [ch <- msg] when there is room; sending on a closed channel panics. *)
Definition has_room (s : PoolSt) : bool := (Z.of_nat (length (ch (wp_ s))) <? chcap (params (wp_ s)))%Z.

Definition trySend (msg : nat) : St PoolSt bool := fun s =>
  if chClosed (wp_ s) then (Panic "send on closed channel", s)
  else if has_room s then (Ok true, set_ch (ch (wp_ s) ++ [msg]) s)
  else (Ok false, s).

Definition can_send (s : PoolSt) : bool := chClosed (wp_ s) || has_room s.

Definition reject (msg : nat) (reason err : string) : Go unit :=
  bindT (handleRejected msg reason) (fun _ => Done (Err (ErrorString err))).

Definition Submit (msg : nat) : Go unit :=
  read is_closed (fun isClosed =>
  if isClosed then bindT (release msg) (fun _ => Done (Err (ErrorString "worker pool closed"))) else
  call (trySend msg) (fun sent =>
    match sent with
    | Some true => Done (Ok tt)
    | _ =>
        read (fun s => backpressure (params (wp_ s))) (fun bp =>
          match bp with
          | BackpressureBlock =>
              Choose (await can_send (trySend msg) (fun r =>
                        match r with Panic p => Done (Panic p) | _ => Done (Ok tt) end))
                     (reject msg "channel_full_timeout" "worker pool channel full (block timeout)")
          | BackpressureFallback => handleRejected msg "channel_full"
          | BackpressureDrop => reject msg "channel_full" "worker pool channel full (dropped)"
          end)
    end)).

Definition SubmitStrict (msg : nat) : Go unit :=
  read (fun s => (is_closed s, is_open s)) (fun '(isClosed, isOpen) =>
  if isClosed then bindT (release msg) (fun _ => Done (Err (ErrorString "worker pool closed"))) else
  if isOpen then bindT (release msg) (fun _ => Done (Err (ErrorString "worker pool circuit open"))) else
  call (trySend msg) (fun sent =>
    match sent with
    | Some true => Done (Ok tt)
    | _ => bindT (release msg) (fun _ => Done (Err (ErrorString "worker pool channel full")))
    end)).

Definition ChannelUsage (w : WorkerPool) : f64 :=
  if (chcap (params w) =? 0)%Z then S754_zero false
  else f64_div (f64_of_Z (Z.of_nat (length (ch w)))) (f64_of_Z (chcap (params w))).

(** The decision and the delay; the reason text is left out. *)
Definition CanAcceptReplay (w : WorkerPool) : bool * Z :=
  if closed (life w) then (false, 0%Z) else
  if circuitOpen (brk w) then (false, 0%Z) else
  let usage := ChannelUsage w in
  if f64_geb usage replayPauseHighWatermark then (false, 0%Z) else
  if f64_geb usage replaySlowHighWatermark then
    let delay := (f64_trunc (f64_mul (f64_sub usage replaySlowHighWatermark) (f64_of_Z 1000)) * Millisecond)%Z in
    let delay := if (delay <? 10 * Millisecond)%Z then (10 * Millisecond)%Z else delay in
    let delay := if (300 * Millisecond <? delay)%Z then (300 * Millisecond)%Z else delay in
    (true, delay)
  else (true, 0%Z).

(** ** Shutting down *)

Definition upd_life (f : Life -> Life) : St PoolSt unit := modify (fun s => set_life (f (life (wp_ s))) s).

Definition close_metrics : St PoolSt unit := fun s =>
  let l := life (wp_ s) in
  if metricsStop l then (Panic "close of closed channel", s)
  else (Ok tt, set_life (MkLife (closed l) (ctxDone l) true (shutdownOnce l) (wg l)) s).

Definition close_channel : St PoolSt unit := fun s =>
  if chClosed (wp_ s) then (Panic "close of closed channel", s) else (Ok tt, close_ch s).

Definition close_recovery : St PoolSt unit := fun s =>
  let b := brk (wp_ s) in
  match recoveryStop b with
  | None => (Ok tt, s)
  | Some true => (Panic "close of closed channel", s)
  | Some false =>
      (Ok tt, set_brk (MkBreaker (circuitOpen b) (failCount b) (recoveryOnce b) (Some true) (recGo b)) s)
  end.

Definition set_once (o : OnceState) (l : Life) : Life :=
  MkLife (closed l) (ctxDone l) (metricsStop l) o (wg l).

Definition once_is (o : OnceState) (s : PoolSt) : bool :=
  match o, shutdownOnce (life (wp_ s)) with
  | OnceNew, OnceNew | OnceRunning, OnceRunning | OnceDone, OnceDone => true
  | _, _ => false
  end.

Definition sinkClose : St PoolSt unit := fun s =>
  let '(r, k) := SinkClose (snk s) in (r, MkPoolSt (wp_ s) (mem s) (walWriter s) k).

(** [sync.Once]: one caller runs the body, the others wait for its end. *)
Definition Shutdown : Go unit :=
  Choose
    (await (once_is OnceNew) (upd_life (set_once OnceRunning)) (fun _ =>
     atomic (upd_life (fun l => MkLife true (ctxDone l) (metricsStop l) (shutdownOnce l) (wg l))) (fun _ =>
     atomic (upd_life (fun l => MkLife (closed l) true (metricsStop l) (shutdownOnce l) (wg l))) (fun _ =>
     call close_metrics (fun _ =>
     call close_channel (fun _ =>
     call close_recovery (fun _ =>
     Choose (await (fun s => bool_decide (wg (life (wp_ s)) = 0)) sinkClose (fun r =>
               atomic (upd_life (set_once OnceDone)) (fun _ => Done r)))
            (atomic (upd_life (set_once OnceDone)) (fun _ =>
               Done (Err (ErrorString "shutdown timeout")))))))))))
    (await (once_is OnceDone) (ret tt) Done).

(** ** The recovery probe

    One turn of [recoveryLoop]: whether it returns. *)
Definition probe : St PoolSt unit := fun s =>
  let '(r, k) := HealthCheck (snk s) in (r, MkPoolSt (wp_ s) (mem s) (walWriter s) k).

Definition recovery_turn : Go bool :=
  Choose
    (await (fun s => bool_decide (recoveryStop (brk (wp_ s)) = Some true)) (ret tt) (fun _ => Done (Ok true)))
    (read is_open (fun open =>
       if negb open then Done (Ok true) else
       call probe (fun ok =>
         match ok with
         | None => Done (Ok false)
         | Some _ => atomic resetFailures (fun _ => Done (Ok true))
         end))).

(** The deferred [wp.recoveryOnce = sync.Once{}]. *)
Definition recovery_exit : St PoolSt unit :=
  modify (fun s => let b := brk (wp_ s) in
    set_brk (MkBreaker (circuitOpen b) (failCount b) false (recoveryStop b) (recGo b)) s).

End pool.
Arguments PoolSt K L : clear implicits.

(** ** The registry of sink factories (sink.go)

    [A] is what a factory makes, [Cfg] its configuration map. *)
Section registry.
Context {Cfg A : Type}.
Definition Factory : Type := string -> Cfg -> result A.
Definition Registry : Type := gmap string Factory.
Definition NewRegistry : Registry := ∅.
Definition Register (sinkType : string) (factory : Factory) (r : Registry) : Registry :=
  <[sinkType := factory]> r.
Definition Create (sinkType name : string) (cfg : Cfg) (r : Registry) : result A :=
  match r !! sinkType with
  | None => Err (ErrorString ("unknown sink type: " +:+ sinkType))
  | Some factory => factory name cfg
  end.
End registry.
End sink.
