(* ===== verification/SinkOwn.v ===== *)
(** * The worker pool: ownership of messages

    A message belongs to one goroutine at a time, or waits in the channel, or
    has been handed back to the message pool.  Every method of the worker
    pool respects this at each of its actions, whatever the others do. *)

From Stdlib Require Import ZArith Lia Ascii String.
From stdpp Require Import base tactics numbers strings gmap list.
From S2P Require Import Prelude GoStrings Message Threads Sink.

Import sink.
Local Open Scope go_scope.

(** ** What the log promises the pool *)

(** Its invariant is kept and it does not panic, whatever fails. *)
Class LogSafe (L : Type) `{MsgLog L} := {
  log_inv : L -> Prop;
  log_safe l m r l' : log_inv l -> log_write m l = (r, l') -> log_inv l' /\ forall p, r <> Panic p;
}.

(** While it is healthy, with room for [n] more, it appends one record. *)
Class LogSpec (L : Type) `{MsgLog L} := {
  log_ok : nat -> L -> Prop;
  log_view : L -> bytes;
  log_record : message.Message -> bytes -> Prop;
  log_spec n l m b : log_ok (S n) l -> log_record m b ->
    exists l', log_write m l = (Ok tt, l') /\ log_ok n l' /\ log_view l' = log_view l ++ b;
}.

Section own.
Context {K L : Type} `{Sink K} `{LogSafe L}.
Abbreviation PoolSt := (PoolSt K L).
Abbreviation Go := (Thr PoolSt).

(** ** The invariant *)

(** [O]: the messages the goroutines hold.  Whether the pool was given a log
    does not change. *)
Context (has_log : bool).

Record pool_inv (s : PoolSt) (O : list nat) : Prop := {
  pi_mem : message.pool_ok (mem s);
  pi_live : Forall (message.live (mem s)) (O ++ ch (wp_ s));
  pi_nodup : NoDup (O ++ ch (wp_ s));
  pi_log : match walWriter s with Some l => has_log = true /\ log_inv l | None => has_log = false end;
  pi_exit : (Z.of_nat (wg (life (wp_ s))) < workers (params (wp_ s)))%Z ->
            chClosed (wp_ s) = true /\ ch (wp_ s) = [];
  pi_workers : (0 < workers (params (wp_ s)))%Z;
}.

Lemma pool_inv_perm s O O' : O ≡ₚ O' -> pool_inv s O -> pool_inv s O'.
Proof.
  intros Hp [H2 H3 H4 H5 H6 H7]. split; try done.
  - by rewrite <- Hp.
  - by rewrite <- Hp.
Qed.

Lemma pool_inv_weaken s a O : pool_inv s (a :: O) -> pool_inv s O.
Proof.
  intros [H2 H3 H4 H5 H6 H7]. split; try done.
  - by apply Forall_cons in H3 as [_ ?].
  - by apply NoDup_cons in H4 as [_ ?].
Qed.

(** Steps that touch neither messages, nor the channel, nor the workers. *)
Lemma pool_inv_step s s' O :
  pool_inv s O -> mem s' = mem s -> walWriter s' = walWriter s ->
  ch (wp_ s') = ch (wp_ s) -> (chClosed (wp_ s) = true -> chClosed (wp_ s') = true) ->
  wg (life (wp_ s')) = wg (life (wp_ s)) -> params (wp_ s') = params (wp_ s) -> pool_inv s' O.
Proof.
  intros [H2 H3 H4 H5 H6 H7] Em Ew Ec Ecl Eg Ep. split; rewrite ?Em, ?Ew, ?Ec, ?Ep; try done.
  rewrite Eg. intros Hlt. destruct (H6 Hlt). auto.
Qed.

Lemma inv_release s a O :
  pool_inv s (a :: O) -> exists s', ReleaseMessage a s = (Ok tt, s') /\ pool_inv s' O /\
    ~ message.live (mem s') a /\ wp_ s' = wp_ s /\ walWriter s' = walWriter s /\ snk s' = snk s.
Proof.
  intros [H2 H3 H4 H5 H6 H7]. apply Forall_cons in H3 as [Ha H3]. apply NoDup_cons in H4 as [Hn H4].
  destruct (message.ReleaseMessage_spec a (mem s) H2 Ha) as (p' & Hr & Hok & Hnl & Hoth).
  exists (set_mem p' s). split; [unfold ReleaseMessage, zoom; by rewrite Hr|].
  split; [|done]. split; cbn; try done.
  rewrite Forall_forall in *. intros b Hb. apply Hoth; [|by apply H3]. intros ->. by apply Hn.
Qed.

Lemma inv_walWrite s a O r s' :
  has_log = true -> pool_inv s (a :: O) -> walWrite a s = (r, s') ->
  pool_inv s' (a :: O) /\ (forall p, r <> Panic p) /\ wp_ s' = wp_ s /\ mem s' = mem s /\
  snk s' = snk s.
Proof.
  intros Hl0 HI E. unfold walWrite in E. pose proof (pi_log _ _ HI) as Hlog.
  destruct (walWriter s) as [l|] eqn:El; [|congruence]. destruct Hlog as [_ Hlog].
  pose proof (pi_live _ _ HI) as Hl. apply Forall_cons in Hl as [[[m Hm] _] _]. rewrite Hm in E.
  destruct (log_write m l) as [r0 l'] eqn:Ew. injection E as <- <-.
  destruct (log_safe l m r0 l' Hlog Ew) as [Hinv Hp].
  split; [|done]. destruct HI as [H2 H3 H4 H5 H6 H7]. by split; cbn.
Qed.

Lemma inv_send s a O drain r s' :
  pool_inv s (a :: O) -> send drain a s = (r, s') ->
  pool_inv s' (a :: O) /\ wp_ s' = wp_ s /\ mem s' = mem s /\ walWriter s' = walWriter s.
Proof.
  intros HI E. unfold send in E. pose proof (pi_live _ _ HI) as Hl. apply Forall_cons in Hl as [[[m Hm] _] _].
  rewrite Hm in E. destruct (Send _ m (snk s)) as [r0 k]. injection E as <- <-.
  split; [|done]. by eapply pool_inv_step.
Qed.

Lemma inv_breaker s b O : pool_inv s O -> pool_inv (set_brk b s) O.
Proof. intros HI. by eapply pool_inv_step. Qed.

Lemma inv_recordFailure s O : pool_inv s O -> pool_inv (recordFailure s).2 O.
Proof. intros HI. unfold recordFailure, modify. cbn. destruct (_ && _); by apply inv_breaker. Qed.

Lemma inv_trySend s a O r s' :
  pool_inv s (a :: O) -> trySend a s = (r, s') ->
  match r with
  | Ok true => pool_inv s' O
  | Ok false => s' = s
  | Err _ => False
  | Panic _ => s' = s
  end.
Proof.
  intros HI E. unfold trySend in E. destruct (chClosed (wp_ s)) eqn:Ec; [by injection E as <- <-|].
  destruct (has_room s); injection E as <- <-; [|done].
  assert (Hp : O ++ ch (wp_ s) ++ [a] ≡ₚ (a :: O) ++ ch (wp_ s)).
  { cbn. rewrite app_assoc, Permutation_app_comm. done. }
  destruct HI as [H2 H3 H4 H5 H6 H7]. split; cbn in *; try done.
  - by rewrite Hp.
  - by rewrite Hp.
  - intros Hlt. destruct (H6 Hlt). congruence.
Qed.

(** ** The methods *)

Abbreviation holds := (holds pool_inv).

(** The goroutine ends with nothing in hand and without panicking. *)
Definition clean_end (r : result unit) (a : list nat) : Prop := a = [] /\ forall p, r <> Panic p.
(** It may panic, but otherwise has nothing left. *)
Definition no_leak (r : result unit) (a : list nat) : Prop := (forall p, r <> Panic p) -> a = [].

Lemma clean_no_leak r a : clean_end r a -> no_leak r a.
Proof. by intros [? _] _. Qed.

Lemma holds_read {X A} Q a (f : PoolSt -> X) (k : X -> Go A) :
  (forall s O, pool_inv s (a ++ O) -> holds Q a (k (f s))) -> holds Q a (read f k).
Proof. intros Hk s O HI _. exists a. eauto. Qed.

Lemma holds_release m : holds clean_end [m] (release m).
Proof.
  intros s O HI _. destruct (inv_release s m O HI) as (s' & Hr & HI' & _).
  exists []. cbn. rewrite Hr. by split_and!.
Qed.

(** An action that keeps what the goroutine holds. *)
Lemma holds_atomic_keep {X A} Q a (m : St PoolSt X) (k : result X -> Go A) :
  (forall s O, pool_inv s (a ++ O) -> pool_inv (m s).2 (a ++ O) /\ holds Q a (k (m s).1)) ->
  holds Q a (atomic m k).
Proof. intros Hm s O HI _. exists a. by apply Hm. Qed.

Lemma holds_handleRejected m reason : holds clean_end [m] (handleRejected m reason).
Proof.
  unfold handleRejected. intros s O HI _. exists [m]. split; [done|].
  destruct (_ && _) eqn:Eb; [|apply holds_release].
  assert (Hl : has_log = true).
  { apply andb_true_iff in Eb as [_ Ew]. pose proof (pi_log _ _ HI) as Hlog.
    destruct (walWriter s); [apply Hlog|done]. }
  clear s O HI Eb. apply holds_atomic_keep. intros s O HI.
  destruct (walWrite m s) as [r s'] eqn:E. destruct (inv_walWrite s m O r s' Hl HI E) as (HI' & Hp & _).
  split; [done|]. cbn [fst]. destruct r as [[]|e|p]; [|apply holds_release|by destruct (Hp p)].
  apply holds_atomic_keep. intros s1 O1 HI1. split; [by eapply pool_inv_step|]. apply holds_release.
Qed.

(** Once [Send] has panicked the message is still in hand. *)
Definition sent_or_panic (m : nat) (r : result unit) (a : list nat) : Prop :=
  match r with Panic _ => a = [m] | _ => a = [] end.

Lemma clean_sent m r a : clean_end r a -> sent_or_panic m r a.
Proof. intros [-> Hp]. destruct r; try done. by destruct (Hp why). Qed.

Lemma holds_attempts left attempt m drain : holds (sent_or_panic m) [m] (send_attempts left attempt m drain).
Proof.
  revert attempt; induction left as [|left IH]; intros attempt; cbn [send_attempts].
  - apply holds_atomic_keep. intros s O HI. split; [by apply inv_recordFailure|].
    eapply holds_mono; [apply clean_sent|apply holds_handleRejected].
  - assert (Htry : holds (sent_or_panic m) [m] (call (send drain m) (fun ok =>
        match ok with
        | Some _ => atomic resetFailures (fun _ => release m)
        | None => send_attempts left (S attempt) m drain
        end))).
    { apply holds_atomic_keep. intros s O HI. destruct (send drain m s) as [r s'] eqn:E.
      destruct (inv_send s m O drain r s' HI E) as (HI' & _). split; [done|]. cbn [fst].
      destruct r as [[]|e|p]; [|apply IH|done].
      apply holds_atomic_keep. intros s1 O1 HI1. split; [by apply inv_breaker|].
      eapply holds_mono; [apply clean_sent|apply holds_release]. }
    destruct attempt; [exact Htry|]. split; [|exact Htry].
    intros s O HI _. exists [m]. split; [done|].
    eapply holds_mono; [apply clean_sent|apply holds_handleRejected].
Qed.

(** A worker always disposes of the message it took, whatever the sink does. *)
Lemma holds_safeProcess m drain : holds clean_end [m] (safeProcess m drain).
Proof.
  apply holds_recoverT, holds_read. intros s O _.
  assert (Hsub : forall r a, sent_or_panic m r a ->
    match r with Panic p => holds clean_end a (handleRejected m "worker_panic") | r => clean_end r a end).
  { intros [[]|e|p] a; cbn; [by intros ->..|]. intros ->. exact (holds_handleRejected m "worker_panic").
  }
  destruct (is_open s); (eapply holds_mono; [exact Hsub|]); [|apply holds_attempts].
  eapply holds_mono; [apply clean_sent|apply holds_handleRejected].
Qed.

(** [t], then an error. *)
Lemma holds_then_err m (t : Go unit) e :
  holds clean_end [m] t -> holds clean_end [m] (bindT t (fun _ => Done (Err e))).
Proof.
  intros Ht. apply holds_bindT. eapply holds_mono; [|exact Ht].
  intros [[]|e'|p] a [-> Hp]; cbn; [done|done|by destruct (Hp p)].
Qed.

Lemma holds_trySend Q m (k : option bool -> Go unit) :
  (forall p, Q (Panic p) [m]) -> holds Q [] (k (Some true)) -> holds Q [m] (k (Some false)) ->
  holds Q [m] (call (trySend m) k).
Proof.
  intros Hp Ht Hf s O HI _. cbn. destruct (trySend m s) as [r s'] eqn:E. pose proof (inv_trySend s m O r s' HI E) as HI'.
  destruct r as [[]|e|p]; cbn; [by exists []|subst s'; by exists [m]|done|subst s'; exists [m]; split; [done|apply Hp]].
Qed.

Lemma no_leak_panic p a : no_leak (Panic p) a.
Proof. intros Hp. by destruct (Hp p). Qed.

Lemma holds_Submit m : holds no_leak [m] (Submit m).
Proof.
  assert (Hend : forall t : Go unit, holds clean_end [m] t -> holds no_leak [m] t).
  { intros t. apply holds_mono. apply clean_no_leak. }
  apply holds_read. intros s O _. destruct (is_closed s).
  { apply Hend, holds_then_err, holds_release. }
  apply holds_trySend; [intros p; apply no_leak_panic|done|]. apply holds_read. intros s1 O1 _.
  destruct (backpressure _).
  - apply Hend, holds_then_err, holds_handleRejected.
  - split; [|apply Hend, holds_then_err, holds_handleRejected].
    intros s2 O2 HI2 Hg. cbn. destruct (trySend m s2) as [r s'] eqn:E.
    pose proof (inv_trySend s2 m O2 r s' HI2 E) as HI'. unfold trySend, can_send in *.
    destruct (chClosed (wp_ s2)); [injection E as <- <-; exists [m]; split; [done|apply no_leak_panic]|].
    rewrite orb_false_l in Hg. rewrite Hg in E. injection E as <- <-. by exists [].
  - apply Hend, holds_handleRejected.
Qed.

Lemma holds_SubmitStrict m : holds no_leak [m] (SubmitStrict m).
Proof.
  assert (Herr : forall e, holds no_leak [m] (bindT (release m) (fun _ => Done (Err e)))).
  { intros e. eapply holds_mono; [apply clean_no_leak|]. apply holds_then_err, holds_release. }
  apply holds_read. intros s O _. destruct (is_closed s); [apply Herr|]. destruct (is_open s); [apply Herr|].
  apply holds_trySend; [intros p; apply no_leak_panic|done|apply Herr].
Qed.

Lemma holds_call_keep {A} Q (m : St PoolSt unit) (k : option unit -> Go A) :
  (forall s O, pool_inv s O -> pool_inv (m s).2 O) -> (forall p, Q (Panic p) []) ->
  (forall o, holds Q [] (k o)) -> holds Q [] (call m k).
Proof.
  intros Hm Hp Hk. apply holds_atomic_keep. intros s O HI. split; [by apply Hm|].
  destruct (m s).1; [apply Hk|apply Hk|apply Hp].
Qed.

Lemma inv_upd_life f s O :
  (forall l, wg (f l) = wg l) -> pool_inv s O -> pool_inv (upd_life f s).2 O.
Proof. intros Hf HI. eapply pool_inv_step; try done. cbn. apply Hf. Qed.

Lemma holds_Shutdown : holds no_leak [] (Shutdown (K := K)).
Proof.
  assert (Hnp : forall p, no_leak (Panic p) []) by (intros; apply no_leak_panic).
  assert (Hend : forall r, holds no_leak [] (atomic (upd_life (set_once OnceDone)) (fun _ => Done r))).
  { intros r. apply holds_atomic_keep. intros s O HI. split; [by apply inv_upd_life|]. by intros _. }
  split.
  2:{ intros s O HI _. exists []. split; [done|]. by intros _. }
  intros s O HI _. exists []. split; [by apply inv_upd_life|]. clear s O HI.
  apply holds_atomic_keep. intros s O HI. split; [by apply inv_upd_life|]. clear s O HI.
  apply holds_atomic_keep. intros s O HI. split; [by apply inv_upd_life|]. clear s O HI.
  apply holds_call_keep; [|done|intros _].
  { intros s O HI. unfold close_metrics. destruct (metricsStop _); [done|]. by eapply pool_inv_step. }
  apply holds_call_keep; [|done|intros _].
  { intros s O HI. unfold close_channel. destruct (chClosed (wp_ s)) eqn:E; [done|]. by eapply pool_inv_step. }
  apply holds_call_keep; [|done|intros _].
  { intros s O HI. unfold close_recovery. destruct (recoveryStop _) as [[]|]; try done. by apply inv_breaker. }
  split; [|apply Hend]. intros s O HI _. exists []. split; [|apply Hend].
  unfold sinkClose. destruct (SinkClose (snk s)) as [r k]. by eapply pool_inv_step.
Qed.

Lemma holds_recovery_turn : holds (fun _ a => a = []) [] (recovery_turn (K := K)).
Proof.
  split.
  { intros s O HI _. exists []. by split. }
  apply holds_read. intros s O _. destruct (negb _); [done|].
  apply holds_call_keep; [|done|].
  { intros s1 O1 HI. unfold probe. destruct (HealthCheck (snk s1)) as [r k]. by eapply pool_inv_step. }
  intros [[]|]; [|done]. apply holds_atomic_keep. intros s1 O1 HI. split; [by apply inv_breaker|done].
Qed.
End own.
