(* ===== verification/SinkMachine.v ===== *)
(** * The worker pool at work

    The workers, the callers of the pool's methods and the recovery probes as
    a machine: an action lets one goroutine make one step.  The loops of
    [worker] and [recoveryLoop] are unfolded here. *)

From Stdlib Require Import ZArith Lia Ascii String.
From stdpp Require Import base tactics numbers strings gmap list relations.
From S2P Require Import Prelude GoStrings Message Threads Sink SinkOwn.

Import sink.
Local Open Scope go_scope.

(** One step of a goroutine along [path], the outcome of its [select]s. *)
Fixpoint advance {S A} (t : Thr S A) (path : list bool) (s : S) : option (Thr S A * S) :=
  match t with
  | Done _ => None
  | Atomic g u k => if g s then Some (k s, u s) else None
  | Choose t1 t2 =>
      match path with
      | [] => advance t1 [] s
      | b :: path' => advance (if b then t1 else t2) path' s
      end
  end.

Lemma advance_tstep {S A} (t : Thr S A) path s t' s' : advance t path s = Some (t', s') -> tstep t s t' s'.
Proof.
  revert path; induction t as [r|g u k IH|t1 IH1 t2 IH2]; intros path E; cbn in E; [done| |].
  - destruct (g s) eqn:Eg; [|done]. injection E as <- <-. by constructor.
  - destruct path as [|[] path]; [apply tstep_left|apply tstep_left|apply tstep_right]; eauto.
Qed.

Section machine.
Context {K L : Type} `{Sink K} `{LogSafe L}.
Abbreviation PoolSt := (PoolSt K L).
Abbreviation Go := (Thr PoolSt).

(** A worker waits in its [select], processes a message (in the loop that
    drains the channel, when [drain]), drains, or has returned. *)
Inductive Worker := WIdle | WBusy (drain : bool) (t : Go unit) | WDrain | WExited.

(** A probe waits for its ticker, makes a turn, or runs its deferred call. *)
Inductive Probe := RWait | RRun (t : Go bool) | RExit.

Record Machine := MkMachine {
  st : PoolSt;
  ws : list Worker;
  cs : list (Go unit);         (* callers of Submit, SubmitStrict, Shutdown *)
  rs : list Probe;
}.

Inductive action :=
| AWorker (i : nat) (path : list bool)
| ACaller (i : nat) (path : list bool)
| ASpawn
| AProbe (i : nat) (path : list bool).

Definition worker_exit (s : PoolSt) : PoolSt :=
  let l := life (wp_ s) in
  set_life (MkLife (closed l) (ctxDone l) (metricsStop l) (shutdownOnce l) (pred (wg l))) s.

(** A receive: the oldest message; on a closed empty channel the end. *)
Definition receive (drain : bool) (s : PoolSt) : option (Worker * PoolSt) :=
  match ch (wp_ s) with
  | m :: q => Some (WBusy drain (safeProcess m drain), set_ch q s)
  | [] => if chClosed (wp_ s) then Some (WExited, worker_exit s) else None
  end.

(** One step of [worker]; in the [select], [path] says which ready case. *)
Definition worker_step (w : Worker) (path : list bool) (s : PoolSt) : option (Worker * PoolSt) :=
  match w with
  | WIdle => match path with
             | true :: _ => if ctx_done s then Some (WDrain, s) else None
             | _ => receive false s
             end
  | WBusy drain (Done r) => match r with
                            | Panic _ => None
                            | _ => Some (if drain then WDrain else WIdle, s)
                            end
  | WBusy drain t => '(t', s') ← advance t path s; Some (WBusy drain t', s')
  | WDrain => receive true s
  | WExited => None
  end.

Definition probe_step (r : Probe) (path : list bool) (s : PoolSt) : option (option Probe * PoolSt) :=
  match r with
  | RWait => Some (Some (RRun recovery_turn), s)
  | RRun (Done (Ok false)) => Some (Some RWait, s)
  | RRun (Done _) => Some (Some RExit, s)
  | RRun t => '(t', s') ← advance t path s; Some (Some (RRun t'), s')
  | RExit => Some (None, (recovery_exit s).2)
  end.

Definition spawn (s : PoolSt) : option PoolSt :=
  let b := brk (wp_ s) in
  match recGo b with
  | O => None
  | S n => Some (set_brk (MkBreaker (circuitOpen b) (failCount b) (recoveryOnce b) (recoveryStop b) n) s)
  end.

Definition mstep (a : action) (m : Machine) : option Machine :=
  match a with
  | AWorker i path =>
      w ← ws m !! i; '(w', s') ← worker_step w path (st m);
      Some (MkMachine s' (<[i := w']> (ws m)) (cs m) (rs m))
  | ACaller i path =>
      t ← cs m !! i; '(t', s') ← advance t path (st m);
      Some (MkMachine s' (ws m) (<[i := t']> (cs m)) (rs m))
  | ASpawn => s' ← spawn (st m); Some (MkMachine s' (ws m) (cs m) (rs m ++ [RWait]))
  | AProbe i path =>
      r ← rs m !! i; '(r', s') ← probe_step r path (st m);
      Some (MkMachine s' (ws m) (cs m) (match r' with Some r' => <[i := r']> (rs m) | None => delete i (rs m) end))
  end.

Fixpoint msteps (acts : list action) (m : Machine) : option Machine :=
  match acts with
  | [] => Some m
  | a :: acts' => m' ← mstep a m; msteps acts' m'
  end.

Lemma msteps_app a1 a2 m m1 m2 : msteps a1 m = Some m1 -> msteps a2 m1 = Some m2 -> msteps (a1 ++ a2) m = Some m2.
Proof.
  revert m; induction a1 as [|a a1 IH]; intros m E1 E2; cbn in *; [by injection E1 as ->|].
  destruct (mstep a m) as [m'|]; [|done]. by apply IH.
Qed.

Definition reaches (m m' : Machine) : Prop := exists acts, msteps acts m = Some m'.

Lemma reaches_inv (P : Machine -> Prop) m m' :
  (forall a m1 m2, P m1 -> mstep a m1 = Some m2 -> P m2) -> reaches m m' -> P m -> P m'.
Proof.
  intros Hstep (acts & Hr). revert m Hr; induction acts as [|a acts IH]; intros m Hr HP; cbn in Hr.
  - by injection Hr as <-.
  - destruct (mstep a m) as [m1|] eqn:E; [|done]. apply (IH m1); [done|]. by eapply Hstep.
Qed.

(** Reachability by evaluation. *)
Lemma reaches_check acts m (p : Machine -> bool) :
  match msteps acts m with Some m' => p m' | None => false end = true ->
  exists m', reaches m m' /\ p m' = true.
Proof. destruct (msteps acts m) as [m'|] eqn:E; [|done]. intros Hp. exists m'. split; [by exists acts|done]. Qed.

(** ** The invariant of the machine *)

Context (has_log : bool).
Abbreviation pool_inv := (pool_inv has_log).

Definition worker_holds (a : list nat) (w : Worker) : Prop :=
  match w with
  | WBusy _ t => holds pool_inv clean_end a t
  | _ => a = []
  end.

Definition probe_holds (a : list nat) (r : Probe) : Prop :=
  match r with
  | RRun t => holds pool_inv (fun _ a => a = []) a t
  | _ => a = []
  end.

Definition machine_inv (m : Machine) : Prop :=
  exists hw hc hr, Forall2 worker_holds hw (ws m) /\ Forall2 (holds pool_inv no_leak) hc (cs m) /\
    Forall2 probe_holds hr (rs m) /\ pool_inv (st m) (concat hw ++ concat hc ++ concat hr).

(** The resources of the goroutine at [i], and those of the others. *)
Lemma concat_at (hs : list (list nat)) i a :
  hs !! i = Some a -> exists rest, concat hs ≡ₚ a ++ rest /\ forall a', concat (<[i := a']> hs) ≡ₚ a' ++ rest.
Proof.
  revert i; induction hs as [|h hs IH]; intros [|i] Hi; simplify_eq/=.
  - by exists (concat hs).
  - destruct (IH i Hi) as (rest & Hc1 & Hc2). exists (h ++ rest). split.
    + by rewrite Hc1, app_assoc, (Permutation_app_comm h a), <- app_assoc.
    + intros a'. by rewrite Hc2, app_assoc, (Permutation_app_comm h a'), <- app_assoc.
Qed.

Lemma concat_insert_nil (hs : list (list nat)) i :
  i < length hs -> concat (<[i := []]> hs) = concat (delete i hs).
Proof.
  revert i; induction hs as [|h hs IH]; intros [|i] Hi; cbn in *; [lia|lia|done|]. by rewrite IH by lia.
Qed.

(** One goroutine of a list moves: its resources change, the others' do not. *)
Lemma move_one {X} (P : list nat -> X -> Prop) hs xs i x (s : PoolSt) O O1 O2 :
  Forall2 P hs xs -> xs !! i = Some x -> pool_inv s O -> O ≡ₚ O1 ++ concat hs ++ O2 ->
  exists a rest, P a x /\ pool_inv s (a ++ rest) /\
    forall a' x' (s' : PoolSt), P a' x' -> pool_inv s' (a' ++ rest) ->
      Forall2 P (<[i := a']> hs) (<[i := x']> xs) /\ pool_inv s' (O1 ++ concat (<[i := a']> hs) ++ O2).
Proof.
  intros HF Hx HI Hp. destruct (Forall2_lookup_r _ _ _ _ _ HF Hx) as (a & Ha & Hpa).
  destruct (concat_at hs i a Ha) as (rest & Hc & Hc').
  assert (Hswap : forall b, O1 ++ (b ++ rest) ++ O2 ≡ₚ b ++ rest ++ O1 ++ O2).
  { intros b. rewrite <- app_assoc, (app_assoc O1 b), (Permutation_app_comm O1 b), <- app_assoc.
    by rewrite (app_assoc O1 rest), (Permutation_app_comm O1 rest), <- app_assoc. }
  exists a, (rest ++ O1 ++ O2). split; [done|]. split.
  - eapply pool_inv_perm; [|exact HI]. by rewrite Hp, Hc, Hswap.
  - intros a' x' s' Ha' HI'. split; [by apply Forall2_insert|].
    eapply pool_inv_perm; [|exact HI']. by rewrite Hc', Hswap.
Qed.

Lemma receive_inv drain s w' s' O :
  pool_inv s O -> receive drain s = Some (w', s') -> exists a', worker_holds a' w' /\ pool_inv s' (a' ++ O).
Proof.
  intros HI E. unfold receive in E. destruct (ch (wp_ s)) as [|m q] eqn:Ec.
  - destruct (chClosed (wp_ s)) eqn:Ecl; [|done]. injection E as <- <-. exists []. split; [done|].
    destruct HI as [A1 A2 A3 A4 A5 A6]. split; cbn in *; try done.
  - injection E as <- <-. exists [m]. split; [apply holds_safeProcess|].
    assert (Hp : m :: O ++ q ≡ₚ O ++ m :: q) by (by rewrite Permutation_middle).
    destruct HI as [A1 A2 A3 A4 A5 A6]. rewrite Ec in *. split; cbn in *; try done.
    + by rewrite Hp.
    + by rewrite Hp.
    + intros Hlt. by destruct (A5 Hlt).
Qed.

Lemma worker_step_inv w path s w' s' a O :
  worker_holds a w -> pool_inv s (a ++ O) -> worker_step w path s = Some (w', s') ->
  exists a', worker_holds a' w' /\ pool_inv s' (a' ++ O).
Proof.
  intros Hw HI E. destruct w as [|drain t| |]; cbn in Hw; [|destruct t as [r|g u k|t1 t2]| |done]; cbn in E.
  - subst a. destruct path as [|[] path]; try by eapply receive_inv.
    destruct (ctx_done s); [|done]. injection E as <- <-. by exists [].
  - destruct Hw as [-> _]. destruct r; try done; injection E as <- <-; exists []; by destruct drain.
  - destruct (g s) eqn:Eg; [|done]. cbn in E. injection E as <- <-.
    destruct (Hw s O HI Eg) as (a' & ? & ?). by exists a'.
  - destruct (match path with [] => _ | _ :: _ => _ end) as [[t' s1]|] eqn:Ea; [|done].
    cbn in E. injection E as <- <-.
    destruct (holds_step pool_inv clean_end a (Choose t1 t2) s t' s1 O Hw HI) as (a' & ? & ?).
    { by apply (advance_tstep (Choose t1 t2) path). } by exists a'.
  - subst a. by eapply receive_inv.
Qed.

Lemma probe_step_inv r path s r' s' a O :
  probe_holds a r -> pool_inv s (a ++ O) -> probe_step r path s = Some (r', s') ->
  exists a', match r' with Some r' => probe_holds a' r' | None => a' = [] end /\ pool_inv s' (a' ++ O).
Proof.
  intros Hr HI E. destruct r as [|t|]; cbn in Hr, E.
  - subst a. injection E as <- <-. exists []. split; [apply holds_recovery_turn|done].
  - destruct (match t with Done _ => true | _ => false end) eqn:Et.
    + destruct t as [r|g u k|t1 t2]; [|done..]. cbn in Hr. subst a. exists [].
      destruct r as [[]|e|p]; injection E as <- <-; done.
    + assert (Ha : exists t1 s1, advance t path s = Some (t1, s1) /\ r' = Some (RRun t1) /\ s' = s1).
      { destruct t as [r|g u k|t1 t2]; [done|..];
          (destruct (advance _ path s) as [[t' s1]|]; [|done]); cbn in E; injection E as <- <-; eauto. }
      destruct Ha as (t1 & s1 & Ha & -> & ->).
      destruct (holds_step pool_inv _ a t s t1 s1 O Hr HI (advance_tstep _ _ _ _ _ Ha)) as (a' & ? & ?).
      by exists a'.
  - subst a. injection E as <- <-. exists []. split; [done|]. by apply inv_breaker.
Qed.

Lemma mstep_inv a m m' : machine_inv m -> mstep a m = Some m' -> machine_inv m'.
Proof.
  intros (hw & hc & hr & Hw & Hc & Hr & HI) E. destruct a as [i path|i path| |i path]; cbn in E.
  - destruct (ws m !! i) as [w|] eqn:Ew; [|done]. cbn in E.
    destruct (worker_step w path (st m)) as [[w' s']|] eqn:Es; [|done]. cbn in E. injection E as <-.
    destruct (move_one worker_holds hw (ws m) i w (st m) _ [] (concat hc ++ concat hr) Hw Ew HI ltac:(done))
      as (b & rest & Hb & HIb & Hstep).
    destruct (worker_step_inv w path (st m) w' s' b rest Hb HIb Es) as (b' & Hb' & HIb').
    destruct (Hstep b' w' s' Hb' HIb') as [HF HI']. by exists (<[i := b']> hw), hc, hr.
  - destruct (cs m !! i) as [t|] eqn:Ew; [|done]. cbn in E.
    destruct (advance t path (st m)) as [[t' s']|] eqn:Es; [|done]. cbn in E. injection E as <-.
    destruct (move_one (holds pool_inv no_leak) hc (cs m) i t (st m) _ (concat hw) (concat hr) Hc Ew HI ltac:(done))
      as (b & rest & Hb & HIb & Hstep).
    destruct (holds_step pool_inv no_leak b t _ t' s' rest Hb HIb (advance_tstep _ _ _ _ _ Es)) as (b' & HIb' & Hb').
    destruct (Hstep b' t' s' Hb' HIb') as [HF HI']. by exists hw, (<[i := b']> hc), hr.
  - unfold spawn in E. destruct (recGo (brk (wp_ (st m)))) as [|n]; [done|]. cbn in E. injection E as <-.
    exists hw, hc, (hr ++ [[]]). split_and!; try done.
    + apply Forall2_app; [done|]. by repeat constructor.
    + cbn [st]. rewrite concat_app. cbn [concat]. rewrite !app_nil_r. by apply inv_breaker.
  - destruct (rs m !! i) as [r|] eqn:Ew; [|done]. cbn in E.
    destruct (probe_step r path (st m)) as [[r' s']|] eqn:Es; [|done]. cbn in E. injection E as <-.
    destruct (move_one probe_holds hr (rs m) i r (st m) _ (concat hw ++ concat hc) [] Hr Ew HI) as (b & rest & Hb & HIb & Hstep).
    { by rewrite app_nil_r, app_assoc. }
    destruct (probe_step_inv r path (st m) r' s' b rest Hb HIb Es) as (b' & Hb' & HIb').
    destruct r' as [r'|].
    + destruct (Hstep b' r' s' Hb' HIb') as [HF HI']. exists hw, hc, (<[i := b']> hr). split_and!; try done.
      by rewrite app_nil_r, <- app_assoc in HI'.
    + subst b'. destruct (Hstep [] RWait s' eq_refl HIb') as [HF HI'].
      exists hw, hc, (delete i hr). split_and!; try done.
      * by apply Forall2_delete.
      * rewrite app_nil_r, <- app_assoc, concat_insert_nil in HI'; [done|].
        apply lookup_lt_Some in Ew. by rewrite (Forall2_length _ _ _ Hr).
Qed.
End machine.
