(* ===== verification/SinkTheorems.v ===== *)
(** * The guarantees of the worker pool

    What callers of package [sink] rely on: messages have one owner, nothing
    accepted is left behind at shutdown, a message ends in exactly one place,
    and how the circuit breaker opens, closes and can stay open. *)

From Stdlib Require Import ZArith Lia Ascii String SpecFloat.
From stdpp Require Import base tactics numbers strings gmap list.
From S2P Require Import Prelude GoStrings GoFloat Message Threads Sink SinkOwn SinkMachine.

Import sink.
Local Open Scope go_scope.

(** A sink that also records the messages it accepted. *)
Definition recorded {K} (SK : Sink K) : Sink (K * list message.Message) := {|
  Name := Name (K := K);
  Send ctx m := fun s =>
    match Send ctx m s.1 with
    | (Ok u, k) => (Ok u, (k, s.2 ++ [m]))
    | (r, k) => (r, (k, s.2))
    end;
  HealthCheck := zoom fst (fun k s => (k, s.2)) (HealthCheck (K := K));
  SinkClose := zoom fst (fun k s => (k, s.2)) (SinkClose (K := K));
|}.

Section outcome.
Context {K L : Type} {SK : Sink K} `{LogSafe L} `{!LogSpec L}.
#[local] Instance rec_sink : Sink (K * list message.Message) := recorded SK.
Abbreviation PoolSt := (PoolSt (K * list message.Message) L).
Abbreviation Go := (Thr PoolSt).
Context (has_log : bool) (m : nat) (v : message.Message) (b : bytes) (n : nat).

(** The message [m] is in hand, with contents [v], and the log has room. *)
Record in_hand (s : PoolSt) (O : list nat) : Prop := {
  ih_inv : pool_inv has_log s (m :: O);
  ih_cell : cells (mem s) !! m = Some v;
  ih_log : forall l, walWriter s = Some l -> log_ok (S n) l;
}.

(** The message was handed over to the log when the strategy and the
    configuration say so, else to nobody. *)
Definition rejected (s s' : PoolSt) : Prop :=
  match walWriter s with
  | Some l =>
      if decide (backpressure (params (wp_ s)) = BackpressureFallback)
      then exists l', walWriter s' = Some l' /\ log_ok n l' /\ log_view l' = log_view l ++ b
      else walWriter s' = Some l
  | None => walWriter s' = None
  end.

Definition disposed (O : list nat) (s s' : PoolSt) : Prop :=
  pool_inv has_log s' O /\ ~ message.live (mem s') m.

Hypothesis Hrec : log_record v b.

Lemma wp_release s O (Q : result unit -> PoolSt -> Prop) :
  pool_inv has_log s (m :: O) ->
  (forall s', disposed O s s' -> wp_ s' = wp_ s -> walWriter s' = walWriter s -> snk s' = snk s -> Q (Ok tt) s') ->
  wp (release m) Q s.
Proof.
  intros HI HQ. destruct (inv_release has_log s m O HI) as (s' & Hr & HI' & Hnl & Hw & Hl & Hk).
  cbn. rewrite Hr. split; [done|]. by apply HQ.
Qed.

Lemma wp_handleRejected reason s O (Q : result unit -> PoolSt -> Prop) :
  in_hand s O ->
  (forall s', disposed O s s' -> ch (wp_ s') = ch (wp_ s) -> rejected s s' -> snk s' = snk s -> Q (Ok tt) s') ->
  wp (handleRejected m reason) Q s.
Proof.
  intros [HI Hc Hl] HQ. unfold handleRejected. cbn [wp read]. split; [done|]. unfold rejected in HQ.
  destruct (walWriter s) as [l|] eqn:El; cbn [andb].
  2:{ rewrite andb_false_r. apply (wp_release s O); [done|]. intros s' Hd Hw Hwl Hk.
      apply HQ; try done; congruence. }
  rewrite andb_true_r. destruct (decide (backpressure (params (wp_ s)) = BackpressureFallback)) as [Hb|Hb].
  - rewrite bool_decide_eq_true_2 by done.
    destruct (log_spec n l v b (Hl l eq_refl) Hrec) as (l' & Hw & Hok' & Hv).
    assert (Hl0 : has_log = true) by (pose proof (pi_log _ _ _ HI) as HH; rewrite El in HH; apply HH).
    set (s1 := MkPoolSt (wp_ s) (mem s) (Some l') (snk s)).
    assert (E : walWrite m s = (Ok tt, s1)) by (unfold walWrite; by rewrite El, Hc, Hw).
    destruct (inv_walWrite has_log s m O _ _ Hl0 HI E) as (HI1 & _).
    cbn [wp call atomic]. rewrite E. cbn [fst snd]. split; [done|]. cbn [wp atomic]. split; [done|].
    apply (wp_release _ O).
    + by eapply pool_inv_step.
    + intros s' Hd Hwp Hwl Hk. apply HQ; [done|by rewrite Hwp|by exists l'|done].
  - rewrite bool_decide_eq_false_2 by done. apply (wp_release s O); [done|].
    intros s' Hd Hw Hwl Hk. apply HQ; try done; congruence.
Qed.

(** How the processing of a message ends: delivered once, or rejected. *)
Definition settled (O : list nat) (s s' : PoolSt) : Prop :=
  disposed O s s' /\
  ((snk s').2 = (snk s).2 ++ [v] /\ walWriter s' = walWriter s \/
   (snk s').2 = (snk s).2 /\ rejected s s').

Definition same_log (s s' : PoolSt) : Prop :=
  walWriter s' = walWriter s /\ params (wp_ s') = params (wp_ s) /\ (snk s').2 = (snk s).2.

Lemma rejected_same s s1 s' : same_log s s1 -> rejected s1 s' -> rejected s s'.
Proof. intros (E1 & E2 & _). unfold rejected. by rewrite E1, E2. Qed.

Lemma wp_reject_settled reason s s1 O (Q : result unit -> PoolSt -> Prop) :
  in_hand s1 O -> same_log s s1 -> (forall s', settled O s s' -> Q (Ok tt) s') ->
  wp (handleRejected m reason) Q s1.
Proof.
  intros Hh Hs HQ. apply (wp_handleRejected reason s1 O); [done|]. intros s' Hd _ Hr Hk. apply HQ.
  split; [done|]. right. split; [rewrite Hk; apply Hs|by eapply rejected_same].
Qed.

Lemma in_hand_step s s' O :
  in_hand s O -> pool_inv has_log s' (m :: O) -> mem s' = mem s -> walWriter s' = walWriter s -> in_hand s' O.
Proof. intros [_ Hc Hl] HI Em Ew. split; [done|by rewrite Em|by rewrite Ew]. Qed.

Lemma wp_attempts left attempt drain s s1 O :
  in_hand s1 O -> same_log s s1 ->
  wp (send_attempts left attempt m drain)
    (fun r s' => match r with
                 | Ok _ => settled O s s'
                 | Err _ => False
                 | Panic _ => in_hand s' O /\ same_log s s'
                 end) s1.
Proof.
  revert attempt s1; induction left as [|left IH]; intros attempt s1 Hh Hs; cbn [send_attempts].
  - cbn [wp atomic]. split; [done|].
    pose proof (inv_recordFailure has_log s1 _ (ih_inv _ _ Hh)) as HI.
    apply (wp_reject_settled "send_failure" s _ O); [|destruct Hs as (? & ? & ?)|done].
    + apply (in_hand_step s1); try done; unfold recordFailure, modify; cbn; by destruct (_ && _).
    + unfold same_log, recordFailure, modify. cbn. by destruct (_ && _).
  - set (try := call (send drain m) _).
    assert (Htry : wp try (fun r s' => match r with
                 | Ok _ => settled O s s' | Err _ => False
                 | Panic _ => in_hand s' O /\ same_log s s' end) s1).
    { unfold try. cbn [wp call atomic]. split; [done|]. destruct (send drain m s1) as [r s2] eqn:E.
      destruct (inv_send has_log s1 m O drain r s2 (ih_inv _ _ Hh) E) as (HI2 & Hw2 & Hm2 & Hl2).
      assert (Hh2 : in_hand s2 O) by (by apply (in_hand_step s1)).
      assert (Hk : (snk s2).2 = match r with Ok _ => (snk s1).2 ++ [v] | _ => (snk s1).2 end).
      { unfold send in E. rewrite (ih_cell _ _ Hh) in E. cbn in E.
        destruct (Send _ v (snk s1).1) as [[]]; by injection E as <- <-. }
      destruct Hs as (Hs1 & Hs2 & Hs3). cbn [fst snd].
      destruct r as [[]|e|p]; cbn [wp].
      - split; [done|]. apply (wp_release _ O); [by apply inv_breaker|].
        intros s' Hd _ Hwl Hk'. split; [done|]. left. rewrite Hk', Hwl. cbn. split; [|congruence].
        by rewrite Hk, Hs3.
      - apply IH; [done|]. split_and!; congruence.
      - split; [done|]. split_and!; congruence. }
    destruct attempt as [|attempt]; [exact Htry|]. cbn [wp]. split; [|split].
    + intros Hm. split; [exact Hm|].
      apply (wp_reject_settled "shutdown_interrupt" s s1 O); done.
    + by intros _.
    + right. done.
Qed.

Lemma may_handleRejected reason s : may (handleRejected (K := K * list message.Message) (L := L) m reason) s.
Proof. done. Qed.

Lemma wp_safeProcess drain s O :
  in_hand s O -> wp (safeProcess m drain) (fun r s' => r = Ok tt /\ settled O s s') s.
Proof.
  intros Hh. unfold safeProcess. apply wp_recoverT; [|intros p s'; apply may_handleRejected].
  assert (Hs : same_log s s) by done. unfold processWithContext. cbn [wp read]. split; [done|].
  destruct (is_open s).
  - by apply (wp_reject_settled "circuit_open" s s O).
  - eapply wp_mono; [|by apply (wp_attempts 3 0 drain s s O)]. intros [[]|e|p] s'; cbn; [done|done|].
    intros [Hh' Hs']. by apply (wp_reject_settled "worker_panic" s s' O).
Qed.
End outcome.

(** ** The pool as started *)

Inductive Caller := CSubmit (m : nat) | CSubmitStrict (m : nat) | CShutdown.

Definition caller_msgs (c : Caller) : list nat :=
  match c with CSubmit m | CSubmitStrict m => [m] | CShutdown => [] end.

Section machine.
Context {K L : Type} `{Sink K} `{LogSafe L}.

Definition caller_thread (c : Caller) : Thr (PoolSt K L) unit :=
  match c with
  | CSubmit m => Submit m
  | CSubmitStrict m => SubmitStrict m
  | CShutdown => Shutdown
  end.

(** [NewWorkerPool] with its workers running, and callers about to call. *)
Definition start (cfg : WorkerPoolConfig) (p : Pool message.Message) (w : option L) (k : K)
    (callers : list Caller) : Machine (K := K) (L := L) :=
  let pool := NewWorkerPool cfg in
  MkMachine (MkPoolSt pool p w k) (replicate (Z.to_nat (workers (params pool))) WIdle)
            (caller_thread <$> callers) [].

Definition has_some (w : option L) : bool := match w with Some _ => true | None => false end.

Lemma start_inv cfg p w k callers :
  message.pool_ok p -> NoDup (concat (caller_msgs <$> callers)) ->
  Forall (message.live p) (concat (caller_msgs <$> callers)) -> (forall l, w = Some l -> log_inv l) ->
  machine_inv (has_some w) (start cfg p w k callers).
Proof.
  intros Hp Hnd Hlive Hlog. unfold start. cbv zeta. set (N := Z.to_nat (workers (params (NewWorkerPool cfg)))).
  exists (replicate N []), (caller_msgs <$> callers), [].
  split_and!.
  - cbn [ws]. clearbody N. induction N; cbn; by constructor.
  - cbn [cs]. clear Hnd Hlive. induction callers as [|c callers IH]; cbn; constructor; [|done].
    destruct c; [apply holds_Submit|apply holds_SubmitStrict|apply holds_Shutdown].
  - constructor.
  - assert (Hz : concat (replicate N (@nil nat)) = []) by (clearbody N; by induction N).
    rewrite Hz. cbn [concat app]. rewrite app_nil_r. cbn [st].
    split; cbn [mem wp_ walWriter ch NewWorkerPool]; rewrite ?app_nil_r; try done.
    + destruct w; cbn; auto.
    + cbn. unfold default_pos. destruct (Z.leb_spec (c_Workers cfg) 0); lia.
    + cbn. unfold default_pos. destruct (Z.leb_spec (c_Workers cfg) 0); lia.
Qed.

(** C4.  However the workers, the submitters, [Shutdown] and the recovery
    probes interleave and whatever the sink does (errors and panics
    included), no message is handed back to the message pool twice or while
    it is queued, the queue holds no message twice, and no worker dies of a
    panic. *)
Theorem messages_have_one_owner cfg p w k callers m :
  message.pool_ok p -> NoDup (concat (caller_msgs <$> callers)) ->
  Forall (message.live p) (concat (caller_msgs <$> callers)) -> (forall l, w = Some l -> log_inv l) ->
  reaches (start cfg p w k callers) m ->
  message.pool_ok (mem (st m)) /\ NoDup (ch (wp_ (st m))) /\
  Forall (message.live (mem (st m))) (ch (wp_ (st m))) /\
  forall d why, WBusy d (Done (Panic why)) ∉ ws m.
Proof.
  intros Hp Hnd Hl Hlog Hr.
  assert (Hinv : machine_inv (has_some w) m).
  { eapply reaches_inv; [|exact Hr|by apply start_inv]. intros a m1 m2. apply mstep_inv. }
  destruct Hinv as (hw & hc & hr & Hw & _ & _ & [H1' H2' H3' _ _ _]).
  rewrite Forall_app in H2'. apply NoDup_app in H3' as (_ & _ & H3').
  split_and!; [done|done|apply H2'|]. intros d why Hin.
  destruct (list_elem_of_lookup_1 _ _ Hin) as (i & Hi).
  destruct (Forall2_lookup_r _ _ _ _ _ Hw Hi) as (a & _ & [_ Hpan]). by destruct (Hpan why).
Qed.

(** C19.  Graceful shutdown: when the last worker has returned (which is when
    [Shutdown] closes the sink) the channel is closed and empty, so every
    message it had accepted was processed. *)
Theorem shutdown_leaves_nothing_queued cfg p w k callers m :
  message.pool_ok p -> NoDup (concat (caller_msgs <$> callers)) ->
  Forall (message.live p) (concat (caller_msgs <$> callers)) -> (forall l, w = Some l -> log_inv l) ->
  reaches (start cfg p w k callers) m -> wg (life (wp_ (st m))) = 0 ->
  chClosed (wp_ (st m)) = true /\ ch (wp_ (st m)) = [].
Proof.
  intros Hp Hnd Hl Hlog Hr Hz.
  assert (Hinv : machine_inv (has_some w) m).
  { eapply reaches_inv; [|exact Hr|by apply start_inv]. intros a m1 m2. apply mstep_inv. }
  destruct Hinv as (hw & hc & hr & _ & _ & _ & HI). apply (pi_exit _ _ _ HI).
  rewrite Hz. apply (pi_workers _ _ _ HI).
Qed.
End machine.

(** ** Where messages end *)

Section ends.
Context {K L : Type} {SK : Sink K} `{LogSafe L} `{!LogSpec L}.
#[local] Existing Instance rec_sink.


Lemma wp_Submit_fallback has_log m v b n (s : PoolSt (K * list message.Message) L) O l :
  in_hand has_log m v n s O -> log_record v b ->
  is_closed s = false -> chClosed (wp_ s) = false ->
  backpressure (params (wp_ s)) = BackpressureFallback -> walWriter s = Some l ->
  wp (Submit m) (fun r s' => r = Ok tt /\
    if has_room s
    then ch (wp_ s') = ch (wp_ s) ++ [m] /\ walWriter s' = Some l /\ pool_inv has_log s' O
    else ch (wp_ s') = ch (wp_ s) /\ disposed has_log m O s s' /\
         exists l', walWriter s' = Some l' /\ log_ok n l' /\ log_view l' = log_view l ++ b) s.
Proof.
  intros Hh Hb Hc Hcl Hbp Hl. unfold Submit. cbn [wp read]. split; [done|]. rewrite Hc.
  cbn [wp call atomic]. split; [done|].
  assert (Et : trySend m s = if has_room s then (Ok true, set_ch (ch (wp_ s) ++ [m]) s) else (Ok false, s))
    by (unfold trySend; by rewrite Hcl).
  rewrite Et. destruct (has_room s) eqn:Er; cbn [fst snd wp].
  - split; [done|]. split; [done|]. split; [done|].
    exact (inv_trySend has_log s m O (Ok true) _ (ih_inv _ _ _ _ _ _ Hh) Et).
  - split; [done|]. rewrite Hbp. apply (wp_handleRejected has_log m v b n Hb "channel_full" s O); [done|].
    intros s' Hd Hch Hrej _. split; [done|]. split; [done|]. split; [done|].
    unfold rejected in Hrej. by rewrite Hl, Hbp in Hrej.
Qed.

(** Under the fallback strategy an open pool with a working log never
    refuses or loses a message: [Submit] returns nil without waiting, with
    the message at the end of the queue or, when that is full, its record in
    the log. *)
Theorem submit_fallback_keeps_message has_log m v b n (s : PoolSt (K * list message.Message) L) O l :
  in_hand has_log m v n s O -> log_record v b ->
  is_closed s = false -> chClosed (wp_ s) = false ->
  backpressure (params (wp_ s)) = BackpressureFallback -> walWriter s = Some l ->
  wp (Submit m) (fun r s' => r = Ok tt /\
    if has_room s
    then ch (wp_ s') = ch (wp_ s) ++ [m] /\ walWriter s' = Some l /\ pool_inv has_log s' O
    else ch (wp_ s') = ch (wp_ s) /\ disposed has_log m O s s' /\
         exists l', walWriter s' = Some l' /\ log_ok n l' /\ log_view l' = log_view l ++ b) s.
Proof. intros. by apply (wp_Submit_fallback has_log m v b n). Qed.

(** When the channel is full and the log refuses the record, [Submit]
    under the fallback strategy still returns nil: the message was handed
    back to the pool, is not queued, not logged and not even counted. *)
Theorem submit_fallback_drops_silently has_log m v (s : PoolSt (K * list message.Message) L) O l e l' :
  pool_inv has_log s (m :: O) -> cells (mem s) !! m = Some v ->
  is_closed s = false -> chClosed (wp_ s) = false -> has_room s = false ->
  backpressure (params (wp_ s)) = BackpressureFallback -> walWriter s = Some l ->
  log_write v l = (Err e, l') ->
  wp (Submit m) (fun r s' => r = Ok tt /\ ~ message.live (mem s') m /\ ch (wp_ s') = ch (wp_ s) /\
    walWriter s' = Some l' /\ walFallbacks (wp_ s') = walFallbacks (wp_ s)) s.
Proof.
  intros HI Hc Hcl Hch Hroom Hbp Hl He.
  assert (Et : trySend m s = (Ok false, s)) by (unfold trySend; by rewrite Hch, Hroom).
  unfold Submit. cbn [wp read]. split; [done|]. rewrite Hcl. cbn [wp call atomic]. split; [done|].
  rewrite Et. cbn [fst snd wp]. split; [done|]. rewrite Hbp. unfold handleRejected. cbn [wp read]. split; [done|].
  rewrite Hbp, Hl. cbn [bool_decide decide_rel andb]. rewrite bool_decide_eq_true_2 by done. cbn [andb].
  assert (Ew : walWrite m s = (Err e, MkPoolSt (wp_ s) (mem s) (Some l') (snk s)))
    by (unfold walWrite; by rewrite Hl, Hc, He).
  assert (Hhl : has_log = true) by (pose proof (pi_log _ _ _ HI) as HH; rewrite Hl in HH; apply HH).
  destruct (inv_walWrite has_log s m O _ _ Hhl HI Ew) as (HI' & _).
  cbn [wp call atomic]. split; [done|]. rewrite Ew. cbn [fst snd].
  apply (wp_release has_log m _ O _ HI'). intros s' [_ Hnl] Hw Hwl _. split_and!; try done; by rewrite Hw.
Qed.
End ends.

(** ** The circuit breaker *)

Section breaker.
Context {K L : Type} `{Sink K} `{MsgLog L}.

(** The breaker after a sequence of outcomes of messages, [true] for a
    delivery. *)
Definition after (outcomes : list bool) (s : PoolSt K L) : PoolSt K L :=
  foldl (fun s (ok : bool) => if ok then (resetFailures s).2 else (recordFailure s).2) s outcomes.

(** The failures since the last delivery. *)
Definition streak (outcomes : list bool) : nat := foldl (fun n (ok : bool) => if ok then 0 else S n) 0 outcomes.

Lemma after_snoc outcomes ok s :
  after (outcomes ++ [ok]) s =
  if ok then (resetFailures (after outcomes s)).2 else (recordFailure (after outcomes s)).2.
Proof. unfold after. by rewrite foldl_app. Qed.

Lemma streak_snoc outcomes ok : streak (outcomes ++ [ok]) = if ok then 0 else S (streak outcomes).
Proof. unfold streak. by rewrite foldl_app. Qed.

End breaker.

(** ** A breaker nobody closes *)

Section stuck.
Context {K L : Type} `{Sink K} `{LogSafe L}.
Abbreviation PoolSt := (PoolSt K L).
Abbreviation Go := (Thr PoolSt).

(** The circuit is open and no probe was started. *)
Definition open_unprobed (s : PoolSt) : Prop := is_open s = true /\ recGo (brk (wp_ s)) = 0.

(** Actions that leave the breaker alone, but for [recoveryStop]. *)
Definition spares (m : PoolSt -> PoolSt) : Prop := forall s,
  circuitOpen (brk (wp_ (m s))) = circuitOpen (brk (wp_ s)) /\ recGo (brk (wp_ (m s))) = recGo (brk (wp_ s)).

Lemma quiet_await {X A} g (m : St PoolSt X) (k : result X -> Go A) :
  spares (fun s => (m s).2) -> (forall r, stays open_unprobed (k r)) -> stays open_unprobed (await g m k).
Proof.
  intros Hm Hk. apply stays_await; [|done]. intros s [Ho Hr]. destruct (Hm s) as [E1 E2].
  unfold open_unprobed, is_open. by rewrite E1, E2.
Qed.

Lemma quiet_call {X A} (m : St PoolSt X) (k : option X -> Go A) :
  spares (fun s => (m s).2) -> (forall r, stays open_unprobed (k r)) -> stays open_unprobed (call m k).
Proof. intros Hm Hk. apply (quiet_await (fun _ => true)); [done|]. intros [x|e|p]; cbn; auto. Qed.

Lemma quiet_read {X A} (f : PoolSt -> X) (k : X -> Go A) :
  (forall x, stays open_unprobed (k x)) -> stays open_unprobed (read f k).
Proof. intros Hk s Hs _. split; [done|apply Hk]. Qed.

Lemma spares_walWrite m : spares (fun s => (walWrite m s).2).
Proof.
  intros s. unfold walWrite. destruct (walWriter s), (cells (mem s) !! m); try done. by destruct (log_write _ _).
Qed.

Lemma spares_trySend m : spares (fun s => (trySend m s).2).
Proof. intros s. unfold trySend. destruct (chClosed (wp_ s)), (has_room s); done. Qed.

Lemma spares_release m : spares (fun s => (ReleaseMessage m s).2).
Proof. intros s. unfold ReleaseMessage, zoom. by destruct (message.ReleaseMessage _ _). Qed.

Lemma quiet_release m : stays open_unprobed (release m).
Proof. by apply (quiet_await (fun _ => true)); [apply spares_release|]. Qed.

Lemma quiet_handleRejected m reason : stays open_unprobed (handleRejected m reason).
Proof.
  apply quiet_read. intros [|]; [|apply quiet_release]. apply quiet_call; [apply spares_walWrite|].
  intros [[]|]; [|apply quiet_release]. apply (quiet_await (fun _ => true)); [done|].
  intros _. apply quiet_release.
Qed.

(** With the circuit open, processing a message ends in its rejection. *)
Lemma quiet_safeProcess m drain : stays open_unprobed (safeProcess m drain).
Proof.
  apply stays_recoverT; [|intros _; apply quiet_handleRejected]. intros s Hs _. split; [done|].
  destruct Hs as [-> _]. apply quiet_handleRejected.
Qed.

Lemma quiet_caller c : stays open_unprobed (caller_thread c).
Proof.
  assert (Herr : forall t e, stays open_unprobed t -> stays open_unprobed (bindT t (fun _ : unit => Done (A := unit) (Err e)))).
  { intros t e Ht. by apply stays_bindT. }
  destruct c as [m|m|]; cbn [caller_thread].
  - apply quiet_read. intros [|]; [apply Herr, quiet_release|]. apply quiet_call; [apply spares_trySend|].
    intros [[|]|]; [done|..]; apply quiet_read; intros [| |];
      try apply quiet_handleRejected; try (apply Herr, quiet_handleRejected);
      (split; [|apply Herr, quiet_handleRejected]); (apply quiet_await; [apply spares_trySend|by intros [[]|e|p]]).
  - apply quiet_read. intros [[|] [|]]; try (apply Herr, quiet_release); apply quiet_call; try apply spares_trySend;
      intros [[|]|]; try done; apply Herr, quiet_release.
  - assert (Hup : forall f, spares (fun s => (upd_life f s).2)) by done.
    assert (Hend : forall r : result unit, stays open_unprobed (atomic (upd_life (set_once OnceDone)) (fun _ => Done r))).
    { intros r. by apply (quiet_await (fun _ => true)). }
    split; [|by apply quiet_await]. apply quiet_await; [apply Hup|intros _].
    apply (quiet_await (fun _ => true)); [apply Hup|intros _].
    apply (quiet_await (fun _ => true)); [apply Hup|intros _].
    apply quiet_call; [|intros _].
    { intros s. unfold close_metrics. by destruct (metricsStop _). }
    apply quiet_call; [|intros _].
    { intros s. unfold close_channel. by destruct (chClosed _). }
    apply quiet_call; [|intros _].
    { intros s. unfold close_recovery. by destruct (recoveryStop _) as [[]|]. }
    split; [|apply Hend]. apply quiet_await; [|intros r; apply Hend].
    intros s. unfold sinkClose. by destruct (SinkClose (snk s)).
Qed.

(** No probe, and every goroutine leaves the open breaker alone. *)
Definition deaf (m : Machine (K := K) (L := L)) : Prop :=
  open_unprobed (st m) /\ rs m = [] /\ Forall (stays open_unprobed) (cs m) /\
  Forall (fun w => match w with WBusy _ t => stays open_unprobed t | _ => True end) (ws m).

Lemma deaf_receive drain s w s' :
  open_unprobed s -> receive drain s = Some (w, s') ->
  open_unprobed s' /\ match w with WBusy _ t => stays open_unprobed t | _ => True end.
Proof.
  intros Hs E. unfold receive in E. destruct (ch (wp_ s)) as [|m q].
  - destruct (chClosed (wp_ s)); [|done]. by injection E as <- <-.
  - injection E as <- <-. split; [done|apply quiet_safeProcess].
Qed.

Lemma deaf_worker w path s w' s' :
  open_unprobed s -> match w with WBusy _ t => stays open_unprobed t | _ => True end ->
  worker_step w path s = Some (w', s') ->
  open_unprobed s' /\ match w' with WBusy _ t => stays open_unprobed t | _ => True end.
Proof.
  intros Hs Hw E. destruct w as [|drain t| |]; cbn in E; [| |by eapply deaf_receive|done].
  - destruct path as [|[] path]; try by eapply deaf_receive.
    destruct (ctx_done s); [|done]. by injection E as <- <-.
  - destruct (match t with Done _ => true | _ => false end) eqn:Et.
    + destruct t as [r|g u k|t1 t2]; [|done..]. destruct r; try done; injection E as <- <-; by destruct drain.
    + assert (Ha : exists t1, advance t path s = Some (t1, s') /\ w' = WBusy drain t1).
      { destruct t as [r|g u k|t1 t2]; [done|..];
          (destruct (advance _ path s) as [[t' s1]|]; [|done]); cbn in E; injection E as <- <-; eauto. }
      destruct Ha as (t1 & Ha & ->). by eapply stays_step, advance_tstep.
Qed.

Lemma deaf_step a m m' : deaf m -> mstep a m = Some m' -> deaf m'.
Proof.
  intros (Hs & Hr & Hc & Hw) E. destruct a as [i path|i path| |i path]; cbn in E.
  - destruct (ws m !! i) as [w|] eqn:Ew; [|done]. cbn in E.
    destruct (worker_step w path (st m)) as [[w' s']|] eqn:Es; [|done]. cbn in E. injection E as <-.
    rewrite Forall_lookup in Hw. destruct (deaf_worker _ _ _ _ _ Hs (Hw i w Ew) Es) as [Hs' Hw'].
    split_and!; try done. apply Forall_insert; [by apply Forall_lookup|done].
  - destruct (cs m !! i) as [t|] eqn:Ew; [|done]. cbn in E.
    destruct (advance t path (st m)) as [[t' s']|] eqn:Es; [|done]. cbn in E. injection E as <-.
    rewrite Forall_lookup in Hc. destruct (stays_step _ _ _ _ _ (Hc i t Ew) Hs (advance_tstep _ _ _ _ _ Es)).
    split_and!; try done. apply Forall_insert; [by apply Forall_lookup|done].
  - unfold spawn in E. destruct Hs as [_ Hs]. by rewrite Hs in E.
  - by rewrite Hr in E.
Qed.
End stuck.

(** ** A small world for the examples

    A sink that refuses every message but reports itself healthy, and a log
    kept in memory. *)

Module demo.
#[global] Instance down : Sink unit := {|
  Name := "down";
  Send _ _ := fail (ErrorString "refused");
  HealthCheck := ret tt;
  SinkClose := ret tt;
|}.

Definition record_of (m : message.Message) : bytes := list_ascii_of_string (message.Project m).

#[global] Instance memlog : MsgLog bytes := {| log_write m := modify (fun l => l ++ record_of m) |}.

#[global, refine] Instance memlog_safe : LogSafe bytes := {| log_inv _ := True |}.
Proof. intros l m r l' _ [= <- <-]. by split. Defined.

#[global, refine] Instance memlog_spec : LogSpec bytes := {|
  log_ok _ _ := True; log_view l := l; log_record m b := b = record_of m;
|}.
Proof. intros n l m b _ ->. by eexists. Defined.

Definition msg (p : string) : message.Message := message.MkMessage "" "" p "" None "" ∅ zeroTime.
Definition pool2 : Pool message.Message := MkPool (<[0 := msg "a"]> (<[1 := msg "b"]> ∅)) [] 2.

Lemma pool2_ok : message.pool_ok pool2.
Proof.
  split; cbn; [constructor|set_solver|].
  intros a [v Hv]. destruct (decide (a = 0)); [lia|]. destruct (decide (a = 1)); [lia|].
  rewrite !lookup_insert_ne, lookup_empty in Hv by done. done.
Qed.

Lemma pool2_live : Forall (message.live pool2) [0; 1].
Proof. repeat constructor; cbn; try (by eexists); set_solver. Qed.

Definition config (n fails : Z) (bp : Backpressure) : WorkerPoolConfig := MkWorkerPoolConfig 1 n fails bp 1.

(** Two submissions to a pool with one worker and [MaxFails = 1]. *)
Definition two_submits : Machine (K := unit) (L := bytes) :=
  start (config 4 1 BackpressureFallback) pool2 (Some []) tt [CSubmit 0; CSubmit 1].

Definition one_message : list action :=
  [AWorker 0 []; AWorker 0 []; AWorker 0 []; AWorker 0 [false]; AWorker 0 [false];
   AWorker 0 []; AWorker 0 []; AWorker 0 []; AWorker 0 []; AWorker 0 []; AWorker 0 []].

Definition late_probe : list action :=
  [ACaller 0 []; ACaller 0 []; ACaller 1 []; ACaller 1 []] ++ one_message ++
  [ASpawn; AProbe 0 []; AProbe 0 [false]; AProbe 0 []; AProbe 0 []] ++ one_message ++
  [AProbe 0 []; AProbe 0 []].
End demo.

Definition with_callers {K L} `{Sink K} `{LogSafe L} (more : list Caller) (m : Machine (K := K) (L := L)) : Machine :=
  MkMachine (st m) (ws m) (cs m ++ (caller_thread <$> more)) (rs m).

(** The circuit is open, no probe is left and no goroutine is under way. *)
Definition at_rest {K L} `{Sink K} `{LogSafe L} (m : Machine (K := K) (L := L)) : bool :=
  is_open (st m) && bool_decide (recGo (brk (wp_ (st m))) = 0) &&
  match rs m with [] => true | _ => false end &&
  forallb (fun t => match t with Done _ => true | _ => false end) (cs m) &&
  forallb (fun w => match w with WBusy _ _ => false | _ => true end) (ws m).

Lemma at_rest_deaf {K L} `{Sink K} `{LogSafe L} (m : Machine (K := K) (L := L)) more :
  at_rest m = true -> deaf (with_callers more m).
Proof.
  unfold at_rest. rewrite !andb_true_iff, bool_decide_eq_true. intros [[[[Ho Hg] Hr] Hc] Hw].
  split; [done|]. split; [cbn; by destruct (rs m)|]. split.
  - apply Forall_app. split.
    + clear -Hc. induction (cs m) as [|t ts IH]; [done|]. apply andb_prop in Hc as [Ht Hc].
      constructor; [by destruct t|auto].
    + apply Forall_fmap, Forall_true. intros c. apply quiet_caller.
  - cbn [ws with_callers]. clear -Hw. induction (ws m) as [|w l IH]; [done|]. apply andb_prop in Hw as [Ht Hw].
    constructor; [by destruct w|auto].
Qed.

(** The probe closes the circuit before its deferred call re-arms
    [recoveryOnce]; when the circuit opens again in between, no new probe
    starts.  From the state this reaches, the circuit stays open whatever is
    submitted and however long the pool runs, although the sink reports
    itself healthy. *)
Theorem breaker_can_stay_open_forever :
  exists m, reaches demo.two_submits m /\
    forall more m', reaches (with_callers more m) m' -> is_open (st m') = true /\ rs m' = [].
Proof.
  destruct (reaches_check demo.late_probe demo.two_submits at_rest) as (m & Hm & Hrest).
  { vm_compute. reflexivity. }
  exists m. split; [done|]. intros more m' Hr.
  apply (reaches_inv deaf) in Hr; [|apply deaf_step|by apply at_rest_deaf].
  by destruct Hr as ([? _] & ? & _).
Qed.

(** [Submit] checks [closed] and sends later; when [Shutdown] closes the
    channel in between, the submitting goroutine panics. *)
Theorem submit_can_panic_at_shutdown :
  exists m, reaches (start (demo.config 4 1 BackpressureDrop) demo.pool2 (Some []) tt [CSubmit 0; CShutdown]) m /\
    cs m !! 0 = Some (Done (Panic "send on closed channel")).
Proof.
  destruct (reaches_check
    [ACaller 0 []; ACaller 1 [true]; ACaller 1 []; ACaller 1 []; ACaller 1 []; ACaller 1 []; ACaller 0 []]
    (start (demo.config 4 1 BackpressureDrop) demo.pool2 (Some []) tt [CSubmit 0; CShutdown])
    (fun m => match cs m !! 0 with
              | Some (Done (Panic p)) => String.eqb p "send on closed channel"
              | _ => false end)) as (m & Hm & Hp).
  { vm_compute. reflexivity. }
  exists m. split; [done|]. destruct (cs m !! 0) as [[[]| |]|]; try done.
  apply String.eqb_eq in Hp as ->. done.
Qed.

(** ** Pacing the replay *)

(** The decision for a number of queued messages and a capacity. *)
Definition pace_float (len cap : Z) : bool * Z :=
  let usage := f64_div (f64_of_Z len) (f64_of_Z cap) in
  if f64_geb usage replayPauseHighWatermark then (false, 0%Z) else
  if f64_geb usage replaySlowHighWatermark then
    (true, Z.min (300 * Millisecond) (Z.max (10 * Millisecond)
       (f64_trunc (f64_mul (f64_sub usage replaySlowHighWatermark) (f64_of_Z 1000)) * Millisecond)))
  else (true, 0%Z).

Lemma CanAcceptReplay_pace w :
  closed (life w) = false -> circuitOpen (brk w) = false -> chcap (params w) <> 0%Z ->
  CanAcceptReplay w = pace_float (Z.of_nat (length (ch w))) (chcap (params w)).
Proof.
  intros Hc Ho Hz. unfold CanAcceptReplay, pace_float, ChannelUsage. rewrite Hc, Ho.
  rewrite (proj2 (Z.eqb_neq _ _)) by done. destruct (f64_geb _ _); [done|]. destruct (f64_geb _ _); [|done].
  f_equal. repeat case_match; lia.
Qed.

(** What the thresholds mean in integers. *)
Definition pace_spec (len cap : Z) : bool * Z :=
  if (4 * cap <=? 5 * len)%Z then (false, 0%Z) else
  if (cap <=? 2 * len)%Z then
    (true, Z.min 300 (Z.max 10 ((2 * len - cap) * 500 / cap)) * Millisecond)%Z
  else (true, 0%Z).

Fixpoint all_below (n : nat) (z : Z) (p : Z -> bool) : bool :=
  match n with O => true | S n' => p z && all_below n' (z + 1)%Z p end.

Lemma all_below_spec n z p x : all_below n z p = true -> (z <= x < z + Z.of_nat n)%Z -> p x = true.
Proof.
  revert z; induction n as [|n IH]; intros z Ha Hx; [lia|]. cbn in Ha. apply andb_prop in Ha as [H1 H2].
  destruct (decide (x = z)) as [->|]; [done|]. apply (IH (z + 1)%Z); [done|lia].
Qed.

Definition pace_eqb (a b : bool * Z) : bool := Bool.eqb a.1 b.1 && Z.eqb a.2 b.2.

Lemma pace_default : all_below (Z.to_nat 16385) 0 (fun n => pace_eqb (pace_float n 16384) (pace_spec n 16384)) = true.
Proof. vm_compute. reflexivity. Qed.


(** ** Instances *)

Lemma messages_have_one_owner_witness :
  exists m, reaches demo.two_submits m /\ is_open (st m) = true /\ message.pool_ok (mem (st m)) /\
    NoDup (ch (wp_ (st m))) /\ Forall (message.live (mem (st m))) (ch (wp_ (st m))) /\
    forall d why, WBusy d (Done (Panic why)) ∉ ws m.
Proof.
  destruct (reaches_check (take 15 demo.late_probe) demo.two_submits (fun m => is_open (st m))) as (m & Hm & Ho).
  { vm_compute. reflexivity. }
  exists m. split; [done|]. split; [done|].
  apply (messages_have_one_owner (demo.config 4 1 BackpressureFallback) demo.pool2 (Some []) tt [CSubmit 0; CSubmit 1]).
  - exact demo.pool2_ok.
  - cbn. apply NoDup_ListNoDup. repeat constructor; cbn; lia.
  - exact demo.pool2_live.
  - done.
  - exact Hm.
Defined.

Lemma shutdown_leaves_nothing_queued_witness :
  exists m, reaches (start (demo.config 4 1 BackpressureFallback) demo.pool2 (Some []) tt [CSubmit 0; CShutdown]) m /\
    wg (life (wp_ (st m))) = 0 /\ chClosed (wp_ (st m)) = true /\ ch (wp_ (st m)) = [].
Proof.
  destruct (reaches_check
    ([ACaller 0 []; ACaller 0 []; ACaller 1 [true]; ACaller 1 []; ACaller 1 []; ACaller 1 []; ACaller 1 []] ++
     demo.one_message ++ [AWorker 0 []])
    (start (demo.config 4 1 BackpressureFallback) demo.pool2 (Some []) tt [CSubmit 0; CShutdown])
    (fun m => bool_decide (wg (life (wp_ (st m))) = 0))) as (m & Hm & Hwg).
  { vm_compute. reflexivity. }
  apply bool_decide_eq_true in Hwg. exists m. split; [done|]. split; [done|].
  apply (shutdown_leaves_nothing_queued (demo.config 4 1 BackpressureFallback) demo.pool2 (Some []) tt [CSubmit 0; CShutdown]).
  - exact demo.pool2_ok.
  - cbn. apply NoDup_ListNoDup. repeat constructor; cbn; lia.
  - pose proof demo.pool2_live as Hl. apply Forall_cons in Hl as [Hl _]. cbn. by constructor.
  - done.
  - exact Hm.
  - exact Hwg.
Defined.

#[local] Existing Instance rec_sink.

(** A pool with room for [n] messages and one message in hand. *)
Definition holding (n : Z) : PoolSt (unit * list message.Message) bytes :=
  MkPoolSt (NewWorkerPool (demo.config n 1 BackpressureFallback)) demo.pool2 (Some []) (tt, []).

Definition full : PoolSt (unit * list message.Message) bytes := set_ch [1] (holding 1).

Lemma holding_in_hand n : in_hand true 0 (demo.msg "a") 0 (holding n) [].
Proof.
  split; [|done|done]. split; cbn; try done.
  - exact demo.pool2_ok.
  - pose proof demo.pool2_live as Hl. apply Forall_cons in Hl as [Hl _]. by constructor.
  - apply NoDup_singleton.
Qed.

Lemma full_in_hand : in_hand true 0 (demo.msg "a") 0 full [].
Proof.
  split; [|done|done]. split; cbn; try done.
  - exact demo.pool2_ok.
  - exact demo.pool2_live.
  - apply NoDup_ListNoDup. repeat constructor; cbn; lia.
Qed.


Lemma submit_fallback_keeps_message_witness :
  wp (Submit 0) (fun r s' => r = Ok tt /\ exists l', walWriter s' = Some l' /\ l' = [] ++ ["a"%char]) full.
Proof.
  eapply wp_mono; [|apply (submit_fallback_keeps_message true 0 (demo.msg "a") ["a"%char] 0 full [] []); try done; apply full_in_hand].
  intros r s' [-> (_ & _ & l' & Hl & _ & Hv)]. split; [done|]. by exists l'.
Defined.

(** A log that refuses every record. *)
Module broken.
#[global] Instance brokenlog : MsgLog unit := {| log_write _ := fail (ErrorString "no space left") |}.
#[global, refine] Instance brokenlog_safe : LogSafe unit := {| log_inv _ := True |}.
Proof. intros l m r l' _ [= <- <-]. by split. Defined.
#[global, refine] Instance brokenlog_spec : LogSpec unit := {|
  log_ok _ _ := False; log_view _ := []; log_record _ _ := True;
|}.
Proof. by intros. Defined.
Definition full : PoolSt (unit * list message.Message) unit :=
  set_ch [1] (MkPoolSt (NewWorkerPool (demo.config 1 1 BackpressureFallback)) demo.pool2 (Some tt) (tt, [])).
End broken.

Lemma submit_fallback_drops_silently_witness :
  wp (Submit 0) (fun r s' => r = Ok tt /\ ~ message.live (mem s') 0 /\ ch (wp_ s') = [1] /\
    walWriter s' = Some tt /\ walFallbacks (wp_ s') = 0%Z) broken.full.
Proof.
  apply (submit_fallback_drops_silently true 0 (demo.msg "a") broken.full [] tt (ErrorString "no space left") tt); try done.
  split; cbn; try done.
  - exact demo.pool2_ok.
  - exact demo.pool2_live.
  - apply NoDup_ListNoDup. repeat constructor; cbn; lia.
Defined.

Definition idle : PoolSt unit bytes :=
  MkPoolSt (NewWorkerPool (demo.config 4 2 BackpressureDrop)) demo.pool2 (Some []) tt.


