(* ===== verification/SinkDrain.v ===== *)
(** * The worker pool: shutting down ends

    Processing a message takes a bounded number of steps and never waits
    without a way out, so once the channel is closed the workers come to an
    end by themselves. *)

From Stdlib Require Import ZArith Lia Ascii String.
From stdpp Require Import base tactics numbers strings gmap list relations.
From S2P Require Import Prelude GoStrings GoFloat Message Threads Sink SinkOwn SinkMachine SinkTheorems.

Import sink.
Local Open Scope go_scope.

Section drain.
Context {K L : Type} `{Sink K} `{LogSafe L}.
Abbreviation PoolSt := (PoolSt K L).
Abbreviation Go := (Thr PoolSt).
Abbreviation Machine := (Machine (K := K) (L := L)).
Abbreviation Worker := (Worker (K := K) (L := L)).

(** ** Goroutines that end *)

(** Some action of the goroutine is ready. *)
Fixpoint moves {A} (t : Go A) (s : PoolSt) : Prop :=
  match t with
  | Done _ => False
  | Atomic g _ _ => g s = true
  | Choose t1 t2 => moves t1 s \/ moves t2 s
  end.

Definition ready {A} (t : Go A) : Prop := (exists r, t = Done r) \/ forall s, moves t s.

(** The channel is as it was. *)
Definition same_ch (s s' : PoolSt) : Prop := ch (wp_ s') = ch (wp_ s) /\ chClosed (wp_ s') = chClosed (wp_ s).

(** At most [n] actions, none of which touches the channel, and never stuck
    after the first. *)
Fixpoint tame {A} (n : nat) (t : Go A) : Prop :=
  match t with
  | Done _ => True
  | Atomic _ u k =>
      match n with
      | O => False
      | S n' => forall s, same_ch s (u s) /\ tame n' (k s) /\ ready (k s)
      end
  | Choose t1 t2 => tame n t1 /\ tame n t2
  end.

(** Both, as the combinators need it. *)
Definition ends {A} (n : nat) (t : Go A) : Prop := tame n t /\ ready t.

Lemma tame_mono {A} n n' (t : Go A) : n <= n' -> tame n t -> tame n' t.
Proof.
  revert n n'; induction t as [r|g u k IH|t1 IH1 t2 IH2]; intros n n' Hn; cbn; [done| |naive_solver].
  destruct n as [|n]; [done|]. destruct n' as [|n']; [lia|]. intros Ht s. destruct (Ht s) as (H1' & H2' & H3').
  split; [done|]. split; [|done]. by apply (IH s n); [lia|].
Qed.

Lemma ends_mono {A} n n' (t : Go A) : n <= n' -> ends n t -> ends n' t.
Proof. intros Hn [Ht Hr]. split; [by apply (tame_mono n)|done]. Qed.

Lemma ends_done {A} (r : result A) : ends 0 (Done r).
Proof. split; [done|]. left. by eexists. Qed.

Definition leaves_ch {X} (m : St PoolSt X) : Prop := forall s, same_ch s (m s).2.

Lemma ends_atomic {X A} n (m : St PoolSt X) (k : result X -> Go A) :
  leaves_ch m -> (forall r, ends n (k r)) -> ends (S n) (atomic m k).
Proof. intros Hm Hk. split; [|by right]. intros s. split; [apply Hm|]. apply Hk. Qed.

Lemma ends_read {X A} n (f : PoolSt -> X) (k : X -> Go A) : (forall x, ends n (k x)) -> ends (S n) (read f k).
Proof. intros Hk. split; [|by right]. intros s. split; [done|]. apply Hk. Qed.

Lemma ends_call {X A} n (m : St PoolSt X) (k : option X -> Go A) :
  leaves_ch m -> (forall x, ends n (k x)) -> ends (S n) (call m k).
Proof.
  intros Hm Hk. apply ends_atomic; [done|]. intros [x|e|p]; [apply Hk..|].
  eapply ends_mono, ends_done. lia.
Qed.

(** A [select] with a case that is always ready. *)
Lemma ends_select {A} n (g : PoolSt -> bool) (k : result unit -> Go A) (t : Go A) :
  (forall r, ends n (k r)) -> ends (S n) t -> (forall s, moves t s) -> ends (S n) (Choose (await g (ret tt) k) t).
Proof.
  intros Hk [Ht _] Hm. split; [|right; intros s; by right]. split; [|done].
  intros s. split; [done|]. apply Hk.
Qed.

Lemma moves_recover {A} h (t : Go A) s : moves t s -> moves (recoverT h t) s.
Proof. induction t as [r|g u k IH|t1 IH1 t2 IH2]; cbn; [done|done|naive_solver]. Qed.

Lemma tame_recover {A} n j (h : string -> Go A) (t : Go A) : (forall p, ends j (h p)) -> tame n t -> tame (n + j) (recoverT h t).
Proof.
  intros Hh. assert (Hr : forall t : Go A, ready t -> ready (recoverT h t)).
  { intros [[a|e|p]|g u k|t1 t2] Hr; cbn; [left; by eexists|left; by eexists|apply Hh| |].
    - right. intros s. destruct Hr as [[r [=]]|Hr]; [apply (Hr s)].
    - right. intros s. destruct Hr as [[r [=]]|Hr]; [apply (moves_recover h (Choose t1 t2) s (Hr s))]. }
  revert n; induction t as [r|g u k IH|t1 IH1 t2 IH2]; intros n; cbn [recoverT tame].
  - intros _. destruct r as [a|e|p]; [done|done|]. apply (tame_mono j); [lia|apply Hh].
  - destruct n as [|n]; [done|]. cbn [Nat.add]. intros Ht s. destruct (Ht s) as (H1' & H2' & H3'). auto.
  - intros [H1' H2']. auto.
Qed.

Lemma ends_recover {A} n j (h : string -> Go A) (t : Go A) : (forall p, ends j (h p)) -> ends n t -> (forall s, moves t s) ->
  ends (n + j) (recoverT h t).
Proof. intros Hh [Ht _] Hm. split; [by apply tame_recover|]. right. intros s. by apply moves_recover. Qed.

(** ** Processing a message ends *)

Lemma release_leaves m : leaves_ch (ReleaseMessage m).
Proof. intros s. unfold ReleaseMessage, zoom. by destruct (message.ReleaseMessage _ _). Qed.

Lemma ends_release m : ends 1 (release m : Go unit).
Proof. apply ends_atomic; [apply release_leaves|]. intros. apply ends_done. Qed.

Lemma walWrite_leaves m : leaves_ch (walWrite m).
Proof. intros s. unfold walWrite. repeat case_match; by simplify_eq/=. Qed.

Lemma send_leaves d m : leaves_ch (send d m).
Proof. intros s. unfold send. repeat case_match; by simplify_eq/=. Qed.

Lemma record_leaves : leaves_ch recordFailure.
Proof. intros s. unfold recordFailure, modify. cbn. by destruct (_ && _). Qed.

Lemma ends_rejected m why : ends 4 (handleRejected m why).
Proof.
  apply ends_read. intros []; [|eapply ends_mono, ends_release; lia].
  apply ends_call; [apply walWrite_leaves|]. intros [x|]; [|eapply ends_mono, ends_release; lia].
  apply ends_atomic; [done|]. intros. apply ends_release.
Qed.

Lemma ends_attempts left a m d : ends (left + 5) (send_attempts left a m d) /\ forall s, moves (send_attempts left a m d) s.
Proof.
  revert a; induction left as [|left IH]; intros a; cbn [send_attempts].
  - split; [|done]. apply ends_atomic; [apply record_leaves|]. intros. apply ends_rejected.
  - set (try := call (send d m) _).
    assert (Htry : ends (S left + 5) try).
    { apply (ends_call (left + 5)); [apply send_leaves|]. intros [x|]; [|apply IH].
      apply (ends_mono 2); [lia|]. apply ends_atomic; [done|]. intros. apply ends_release. }
    destruct a as [|a]; [by split|]. split; [|by right]. apply (ends_select (left + 5)); [|done|done].
    intros. apply (ends_mono 4); [lia|apply ends_rejected].
Qed.

(** Thirteen actions at most: the breaker, three attempts, the failure, and
    twice the handling of a rejected message. *)
Lemma ends_safeProcess m d : ends 13 (safeProcess m d) /\ forall s, moves (safeProcess m d) s.
Proof.
  split; [|done]. apply (ends_recover 9 4); [intros; apply ends_rejected| |done].
  apply ends_read. intros []; [eapply ends_mono, ends_rejected; lia|]. apply (ends_attempts 3).
Qed.

(** One step of a goroutine that ends. *)
Lemma tame_advance {A} n (t : Go A) path s t' s' : tame n t -> advance t path s = Some (t', s') ->
  exists n', n = S n' /\ ends n' t' /\ same_ch s s'.
Proof.
  revert path; induction t as [r|g u k IH|t1 IH1 t2 IH2]; intros path; cbn [tame advance]; [done| |].
  - destruct n as [|n]; [done|]. intros Ht. destruct (g s); [|done]. intros [= <- <-]. destruct (Ht s) as (H1' & H2' & H3').
    by exists n.
  - intros [H1' H2']. destruct path as [|[] path]; eauto.
Qed.

Lemma moves_advance {A} (t : Go A) s : moves t s -> exists path t' s', advance t path s = Some (t', s').
Proof.
  induction t as [r|g u k IH|t1 IH1 t2 IH2]; cbn; [done|intros ->; by exists [], (k s), (u s)|].
  intros [Hm|Hm]; [destruct (IH1 Hm) as (path & t' & s' & E); by exists (true :: path), t', s'|].
  destruct (IH2 Hm) as (path & t' & s' & E). by exists (false :: path), t', s'.
Qed.

(** ** The pool runs down *)

(** How many steps a worker can make before it takes another message. *)
Definition ranked (n : nat) (w : Worker) : Prop :=
  match w with
  | WExited => n = 0
  | WDrain => n = 1
  | WIdle => n = 2
  | WBusy _ t => exists k, n = k + 3 /\ k <= 13 /\ ends k t
  end.

Lemma ranked_le n w : ranked n w -> n <= 16.
Proof. destruct w; cbn; [lia| |lia|lia]. intros (k & -> & Hk & _). lia. Qed.

Lemma receive_ranked d s w' s' : receive d s = Some (w', s') ->
  exists n', ranked n' w' /\ n' + 16 * length (ch (wp_ s')) <= 16 * length (ch (wp_ s)) /\
    chClosed (wp_ s') = chClosed (wp_ s) /\ (w' = WExited -> ch (wp_ s') = []) /\ (ch (wp_ s) = [] -> ch (wp_ s') = []).
Proof.
  unfold receive. destruct (ch (wp_ s)) as [|m q] eqn:Ec.
  - destruct (chClosed (wp_ s)) eqn:Ecl; [|done]. intros [= <- <-]. exists 0. cbn. rewrite Ec. split_and!; done || lia.
  - intros [= <- <-]. exists 16. split; [exists 13; split_and!; [done|lia|apply ends_safeProcess]|]. cbn. split_and!; done || lia.
Qed.

(** Every step of a worker uses up some of what is left to do. *)
Lemma worker_step_ranked n w path s w' s' : ranked n w -> worker_step w path s = Some (w', s') ->
  exists n', ranked n' w' /\ n' + 16 * length (ch (wp_ s')) < n + 16 * length (ch (wp_ s)) /\
    chClosed (wp_ s') = chClosed (wp_ s) /\ (w' = WExited -> ch (wp_ s') = []) /\ (ch (wp_ s) = [] -> ch (wp_ s') = []).
Proof.
  assert (Hrecv : forall d n, 0 < n -> receive d s = Some (w', s') -> exists n', ranked n' w' /\
    n' + 16 * length (ch (wp_ s')) < n + 16 * length (ch (wp_ s)) /\ chClosed (wp_ s') = chClosed (wp_ s) /\
    (w' = WExited -> ch (wp_ s') = []) /\ (ch (wp_ s) = [] -> ch (wp_ s') = [])).
  { intros d n0 Hn (n' & Hr & Hl & Hc)%receive_ranked. exists n'. split; [done|]. split; [lia|done]. }
  destruct w as [|d t| |]; cbn [ranked worker_step].
  - intros ->. destruct path as [|[] path]; try (apply Hrecv; lia).
    destruct (ctx_done s); [|done]. intros [= <- <-]. exists 1. split_and!; try done. lia.
  - intros (k & -> & Hk & [Ht Hr]). destruct (match t with Done _ => true | _ => false end) eqn:Ed.
    + destruct t as [r| |]; [|done..]. destruct r as [a|e|q]; [intros [= <- <-]..|done];
        (exists (if d then 1 else 2); destruct d; split_and!; try done; lia).
    + intros E. assert (Ha : exists t', advance t path s = Some (t', s') /\ w' = WBusy d t').
      { destruct t as [r|g u k0|t1 t2]; [done|..]; (destruct (advance _ path s) as [[t' s1]|]; [|done]);
          cbn in E; injection E as <- <-; by eexists. }
      destruct Ha as (t' & Ha & ->). destruct (tame_advance _ _ _ _ _ _ Ht Ha) as (k' & -> & He & [Hch Hcl]).
      exists (k' + 3). split; [exists k'; split_and!; [done|lia|apply He..]|]. rewrite Hch, Hcl. split_and!; try done; lia.
  - intros ->. apply Hrecv. lia.
  - done.
Qed.

Definition all_ranked (m : Machine) : Prop := exists ns, Forall2 ranked ns (ws m).

Lemma mstep_ranked a m m' : all_ranked m -> mstep a m = Some m' -> all_ranked m'.
Proof.
  intros [ns Hns] E. destruct a as [i path|i path| |i path]; cbn in E.
  - destruct (ws m !! i) as [w|] eqn:Ew; [|done]. cbn in E. destruct (worker_step w path (st m)) as [[w' s']|] eqn:Es; [|done].
    injection E as <-. destruct (Forall2_lookup_r _ _ _ _ _ Hns Ew) as (n & _ & Hn).
    destruct (worker_step_ranked _ _ _ _ _ _ Hn Es) as (n' & Hn' & _). exists (<[i := n']> ns). by apply Forall2_insert.
  - destruct (cs m !! i); [|done]. cbn in E. destruct (advance _ _ _) as [[]|]; [|done]. injection E as <-. by exists ns.
  - destruct (spawn (st m)); [|done]. injection E as <-. by exists ns.
  - destruct (rs m !! i); [|done]. cbn in E. destruct (probe_step _ _ _) as [[]|]; [|done]. injection E as <-. by exists ns.
Qed.

(** What is left to do in the whole pool. *)
Definition left_to_do (ns : list nat) (m : Machine) : nat := sum_list ns + 16 * length (ch (wp_ (st m))).

Definition is_worker (a : action) : Prop := match a with AWorker _ _ => True | _ => False end.

Lemma sum_insert ns i n n' : ns !! i = Some n -> sum_list (<[i := n']> ns) + n = sum_list ns + n'.
Proof. revert i; induction ns as [|x ns IH]; intros [|i] Hi; simplify_eq/=; [lia|]. specialize (IH i Hi). lia. Qed.

Lemma worker_run acts m m' ns : Forall is_worker acts -> msteps acts m = Some m' -> Forall2 ranked ns (ws m) ->
  chClosed (wp_ (st m)) = true ->
  exists ns', Forall2 ranked ns' (ws m') /\ length acts + left_to_do ns' m' <= left_to_do ns m /\ chClosed (wp_ (st m')) = true /\
    forall i, (exists w, ws m !! i = Some w /\ w <> WExited) \/ ch (wp_ (st m)) = [] ->
              (exists w, ws m' !! i = Some w /\ w <> WExited) \/ ch (wp_ (st m')) = [].
Proof.
  intros Ha. revert m ns; induction Ha as [|a acts Hw _ IH]; intros m ns E Hns Hc.
  { injection E as <-. exists ns. split_and!; try done. }
  cbn [msteps] in E. destruct (mstep a m) as [m1|] eqn:E1; [|done]. cbn in E.
  destruct a as [i path| | |]; try done. cbn in E1. destruct (ws m !! i) as [w|] eqn:Ew; [|done]. cbn in E1.
  destruct (worker_step w path (st m)) as [[w' s']|] eqn:Es; [|done]. injection E1 as <-.
  destruct (Forall2_lookup_r _ _ _ _ _ Hns Ew) as (n & Hni & Hn).
  destruct (worker_step_ranked _ _ _ _ _ _ Hn Es) as (n' & Hn' & Hlt & Hc' & Hex & Hem).
  destruct (IH _ (<[i := n']> ns) E) as (ns' & H1' & H2' & H3' & H4'); [by apply Forall2_insert|by cbn; rewrite Hc'|].
  exists ns'. split; [done|]. split; [|split; [done|]].
  - pose proof (sum_insert ns i n n' Hni). unfold left_to_do in *. cbn [st length] in *. lia.
  - intros j Hj. apply H4'. cbn [ws st]. destruct Hj as [(v & Hv & Hne)|He]; [|right; by apply Hem].
    destruct (decide (j = i)) as [->|Hji]; [|left; exists v; by rewrite list_lookup_insert_ne].
    destruct (match w' with WExited => true | _ => false end) eqn:Ex.
    + right. apply Hex. by destruct w'.
    + left. exists w'. split; [apply list_lookup_insert_eq; by eapply lookup_lt_Some|]. by destruct w'.
Qed.

(** On a closed channel every worker that has not returned can go on. *)
Lemma worker_can_step m i w n : ws m !! i = Some w -> ranked n w -> w <> WExited ->
  (forall d why, w <> WBusy d (Done (Panic why))) -> chClosed (wp_ (st m)) = true ->
  exists path, mstep (AWorker i path) m <> None.
Proof.
  intros Hw Hn Hne Hp Hc. cbn. rewrite Hw. cbn.
  assert (Hrecv : forall d, receive d (st m) <> None) by (intros d; unfold receive; rewrite Hc; by destruct (ch _)).
  destruct w as [|d t| |]; cbn in Hn.
  - exists []. cbn. specialize (Hrecv false). by destruct (receive false (st m)) as [[]|].
  - destruct Hn as (k & _ & _ & [_ [[r ->]|Hr]]).
    + exists []. cbn. destruct r as [a|e|q]; [done|done|by destruct (Hp d q)].
    + destruct (moves_advance t (st m) (Hr (st m))) as (path & t' & s' & E). exists path.
      destruct t as [r|g u k0|t1 t2]; [done|..]; cbn [worker_step]; by rewrite E.
  - exists []. cbn. specialize (Hrecv true). by destruct (receive true (st m)) as [[]|].
  - done.
Qed.

(** C10.  Shutting down comes to an end.  Once the channel is closed, the
    workers make at most sixteen steps per queued message and sixteen each,
    whatever the sink answers and however they are scheduled, panics of the
    sink included; and when none of them can go on all have returned and
    nothing is left in the channel. *)
Theorem closed_pool_runs_down cfg p w k callers m acts m' :
  message.pool_ok p -> NoDup (concat (caller_msgs <$> callers)) ->
  Forall (message.live p) (concat (caller_msgs <$> callers)) -> (forall l, w = Some l -> log_inv l) ->
  reaches (start cfg p w k callers) m -> chClosed (wp_ (st m)) = true ->
  Forall is_worker acts -> msteps acts m = Some m' ->
  length acts <= 16 * (length (ch (wp_ (st m))) + length (ws m)) /\
  ((forall i path, mstep (AWorker i path) m' = None) ->
   Forall (fun x => x = WExited) (ws m') /\ (Exists (fun x => x <> WExited) (ws m) -> ch (wp_ (st m')) = [])).
Proof.
  intros Hp Hnd Hl Hlog Hr Hc Hacts E.
  assert (Hrank : all_ranked m).
  { eapply reaches_inv; [|exact Hr|]; [intros a m1 m2; apply mstep_ranked|].
    exists (replicate (Z.to_nat (workers (params (NewWorkerPool cfg)))) 2). apply Forall2_replicate. done. }
  destruct Hrank as [ns Hns]. destruct (worker_run acts m m' ns Hacts E Hns Hc) as (ns' & Hns' & Hlen & Hc' & Hex).
  split.
  { assert (Hsum : sum_list ns <= 16 * length (ws m)).
    { clear -Hns. induction Hns as [|n w ns ws Hn _ IH]; cbn; [lia|]. apply ranked_le in Hn. lia. }
    unfold left_to_do in Hlen. lia. }
  intros Hstuck.
  assert (Hpan : forall d why, WBusy d (Done (Panic why)) ∉ ws m').
  { assert (Hinv : machine_inv (has_some w) m').
    { destruct Hr as [acts0 Hr]. assert (Hr' : reaches (start cfg p w k callers) m') by (exists (acts0 ++ acts); by apply msteps_app with m).
      eapply reaches_inv; [|exact Hr'|by apply start_inv]. intros a m1 m2. apply mstep_inv. }
    destruct Hinv as (hw & hc & hr & Hw & _). intros d why Hin. destruct (list_elem_of_lookup_1 _ _ Hin) as (i & Hi).
    destruct (Forall2_lookup_r _ _ _ _ _ Hw Hi) as (a & _ & [_ Hq]). by destruct (Hq why). }
  assert (Hall : forall i x, ws m' !! i = Some x -> x = WExited).
  { intros i x Hx. destruct (Forall2_lookup_r _ _ _ _ _ Hns' Hx) as (n & _ & Hn).
    destruct (match x with WExited => true | _ => false end) eqn:Ex; [by destruct x|].
    destruct (worker_can_step m' i x n Hx Hn) as (path & Hstep); try done; [by intros ->| |by destruct (Hstep (Hstuck i path))].
    intros d why ->. apply (Hpan d why). by eapply list_elem_of_lookup_2. }
  split; [apply Forall_lookup; eauto|].
  intros (x & Hx & Hne)%Exists_exists. apply list_elem_of_lookup_1 in Hx as [i Hx].
  destruct (Hex i) as [(y & Hy & Hne')|He]; [left; by exists x| |done]. by destruct (Hne' (Hall i y Hy)).
Qed.
End drain.

(** A pool with one message queued when it is shut down. *)
Definition closing : list action :=
  [ACaller 0 []; ACaller 0 []; ACaller 1 [true]; ACaller 1 []; ACaller 1 []; ACaller 1 []; ACaller 1 []].
Definition running_down : list action := demo.one_message ++ [AWorker 0 []].

Lemma closed_pool_runs_down_witness :
  exists m m', reaches (start (demo.config 4 1 BackpressureFallback) demo.pool2 (Some []) tt [CSubmit 0; CShutdown]) m /\
    chClosed (wp_ (st m)) = true /\ msteps running_down m = Some m' /\
    12 <= 16 * (length (ch (wp_ (st m))) + length (ws m)).
Proof.
  destruct (reaches_check closing
    (start (demo.config 4 1 BackpressureFallback) demo.pool2 (Some []) tt [CSubmit 0; CShutdown])
    (fun m => chClosed (wp_ (st m)) && match msteps running_down m with Some _ => true | None => false end))
    as (m & Hm & Hp).
  { vm_compute. reflexivity. }
  apply andb_prop in Hp as [Hc Hs]. destruct (msteps running_down m) as [m'|] eqn:E; [|discriminate Hs].
  exists m, m'. split; [exact Hm|]. split; [exact Hc|]. split; [exact E|].
  apply (closed_pool_runs_down (demo.config 4 1 BackpressureFallback) demo.pool2 (Some []) tt [CSubmit 0; CShutdown] m running_down m').
  - exact demo.pool2_ok.
  - cbn. apply NoDup_ListNoDup. repeat constructor; cbn; lia.
  - pose proof demo.pool2_live as Hl. apply Forall_cons in Hl as [Hl _]. cbn. by constructor.
  - done.
  - exact Hm.
  - exact Hc.
  - repeat constructor.
  - exact E.
Defined.
