(* ===== verification/SinkWal.v ===== *)
(** * The write-ahead log as the worker pool's log

    [wal.Writer] keeps the promises ([LogSafe], [LogSpec]) the theorems on
    the worker pool rely on, so they hold of the two together. *)

From Stdlib Require Import ZArith Lia Ascii String.
From stdpp Require Import base tactics numbers strings gmap list sorting.
From S2P Require Import Prelude GoStrings GoOs Message Threads Sink SinkOwn SinkTheorems Wal WalSegments WalWriter WalRefine WalReplay JsonEntry WalTheorems.

Section instance.

#[global] Instance wal_log : MsgLog wal.WalSt := {| log_write m := wal.WriteMessage m |}.

#[global, refine] Instance wal_log_safe : LogSafe wal.WalSt := {| log_inv := wf |}.
Proof.
  intros s m r s' Hwf Hw. by destruct (Write_spec _ _ _ _ Hwf Hw) as (? & ? & _).
Defined.

(** Healthy, with segment numbers to spare for [n] more writes. *)
Definition wal_ok (n : nat) (s : wal.WalSt) : Prop :=
  exists k, healthy k s /\ wal.closeOnce (wal.wr s) = false /\ (0 <= k)%Z /\ (k + Z.of_nat n < bound)%Z.

Definition wal_record (m : message.Message) (line : bytes) : Prop :=
  line_of (wal.entry_of_message m) line /\ (Z.of_nat (length line) <= bound)%Z.

#[global, refine] Instance wal_log_spec : LogSpec wal.WalSt := {|
  log_ok := wal_ok; log_view := wal_bytes; log_record := wal_record;
|}.
Proof.
  intros n s m b (k & Hh & Ho & Hk & Hb) [Hl Hlen].
  destruct (Write_healthy k s (wal.entry_of_message m) b) as (s' & Hw & Hh' & _ & Hv & _); try done; [lia|].
  exists s'. split; [done|]. split; [|done]. exists (k + 1)%Z. split; [done|]. split; [|lia].
  pose proof (closed_is_write_all false [wal.entry_of_message m] s Ho) as Hk'. cbn [write_all] in Hk'.
  by rewrite (bind_run_Ok _ _ _ _ _ Hw) in Hk'.
Defined.
End instance.


(** A full pool over a log just opened. *)
Definition full_over_wal : sink.PoolSt (unit * list message.Message) wal.WalSt :=
  sink.set_ch [1] (sink.MkPoolSt (sink.NewWorkerPool (demo.config 1 1 sink.BackpressureFallback)) demo.pool2 (Some fresh) (tt, [])).

Lemma full_over_wal_in_hand : in_hand true 0 (demo.msg "a") 1 full_over_wal [].
Proof.
  split; [|done|].
  - split; cbn; try done.
    + exact demo.pool2_ok.
    + exact demo.pool2_live.
    + apply NoDup_ListNoDup. repeat constructor; cbn; lia.
  - intros l [= <-]. exists 0%Z. split; [exact fresh_healthy|]. unfold bound. cbn. lia.
Qed.

