(* ===== verification/Gin.v ===== *)
(** * What the gateway uses of [gin] and [net/http]

    A request context as the handlers of the upload route see it: the
    request's headers and body, the values handlers leave for each other
    ([c.Set], [c.Get]) and the answers written.  A middleware ends by calling
    [c.Next()] or by aborting the chain; what it does after [c.Next()]
    returns is modelled where it is used. *)

From Stdlib Require Import ZArith Lia Ascii String.
From stdpp Require Import base tactics numbers strings gmap list.
From S2P Require Import Prelude GoStrings Message Threads.

Module gin.
Local Open Scope go_scope.

(** A value stored in a context: of the types the handlers store, or another. *)
Inductive ctxval := CString (s : string) | CBytes (b : bytes) | COther.

(** The body may be nil; reading it may fail. *)
Record Context := MkContext {
  Keys : gmap string ctxval;
  Header : gmap string string;
  Body : option (result bytes);
  Written : list (Z * message.UploadResponse);
  RespHeader : gmap string string;
}.

Definition Get (key : string) (c : Context) : option ctxval := Keys c !! key.
Definition Set_ (key : string) (v : ctxval) (c : Context) : Context :=
  MkContext (<[key := v]> (Keys c)) (Header c) (Body c) (Written c) (RespHeader c).
Definition GetString (key : string) (c : Context) : string :=
  match Get key c with Some (CString s) => s | _ => "" end.
Definition GetHeader (key : string) (c : Context) : string := default "" (Header c !! key).
Definition SetBody (b : option (result bytes)) (c : Context) : Context :=
  MkContext (Keys c) (Header c) b (Written c) (RespHeader c).
Definition JSON (status : Z) (r : message.UploadResponse) (c : Context) : Context :=
  MkContext (Keys c) (Header c) (Body c) (Written c ++ [(status, r)]) (RespHeader c).
(** [c.Header(k, v)]: a header of the answer. *)
Definition SetRespHeader (k v : string) (c : Context) : Context :=
  MkContext (Keys c) (Header c) (Body c) (Written c) (<[k := v]> (RespHeader c)).

(** An answer with only a code and a message. *)
Definition errorResponse (code : Z) (msg : string) : message.UploadResponse :=
  message.MkUploadResponse code msg "" "".

(** [c.AbortWithStatusJSON], and [c.JSON] followed by [c.Abort]. *)
Inductive verdict := Next (c : Context) | Abort (c : Context).

Definition reject (code : Z) (msg : string) (c : Context) : verdict :=
  Abort (JSON code (errorResponse code msg) c).

Definition ctx_of (v : verdict) : Context := match v with Next c | Abort c => c end.

(** The rest of the chain runs when the middleware called [c.Next()]. *)
Definition andThen {S} (t : Thr S verdict) (k : Context -> Thr S verdict) : Thr S verdict :=
  bindT t (fun v => match v with Next c => k c | Abort c => Done (Ok (Abort c)) end).

(** The first [n] bytes pass [http.MaxBytesReader]; a longer body, or a read
    that fails, makes [io.ReadAll] return an error.  A negative limit is 0. *)
Definition MaxBytesRead (n : Z) (b : option (result bytes)) : result bytes :=
  match b with
  | None => Panic "nil pointer dereference"
  | Some (Ok b) =>
      if (Z.max n 0 <? Z.of_nat (length b))%Z then Err (SysError "http: request body too large") else Ok b
  | Some r => r
  end.
End gin.
