(* ===== verification/Metrics.v ===== *)
(** * Package [metrics] (internal/metrics/metrics.go)

    The metrics the gateway exports and the functions that record them, with
    the middleware that counts requests (internal/observability).  The
    Prometheus client is an interface: [promauto] panics on a descriptor that
    is malformed or registered before, [WithLabelValues] on a wrong number of
    values or on one that is not UTF-8. *)

From Stdlib Require Import ZArith Lia Ascii String SpecFloat.
From stdpp Require Import base tactics numbers strings gmap list.
From S2P Require Import Prelude GoStrings GoUtf8 GoFloat Message JsonAny Sink Gin.

Inductive metricKind := Counter | Gauge | Histogram.

#[global] Instance metricKind_eq_dec : EqDecision metricKind.
Proof. solve_decision. Defined.

(** The options of a metric and the names of its labels. *)
Record Desc := MkDesc { d_kind : metricKind; d_name : string; d_help : string; d_labels : list string }.

Definition name_start (c : ascii) : bool :=
  let z := byte_val c in utf8.between 65 90 z || utf8.between 97 122 z || (z =? 95)%Z.
Definition name_char (c : ascii) : bool := name_start c || utf8.between 48 57 (byte_val c).

(** The names Prometheus accepts; a colon is allowed in names of metrics
    only and not used here. *)
Definition valid_name (s : string) : bool :=
  match bytes_of s with c :: r => name_start c && forallb name_char r | [] => false end.

Definition valid_desc (d : Desc) : bool :=
  valid_name (d_name d) && forallb (fun l => valid_name l && negb (HasPrefix l "__")) (d_labels d) &&
  bool_decide (NoDup (d_labels d)).

(** Values for the labels of a metric. *)
Definition fits_labels (d : Desc) (vs : list string) : Prop :=
  length vs = length (d_labels d) /\ Forall (fun v => is_utf8 (bytes_of v)) vs.

(** The registry with its series. *)
Class Prometheus := {
  Reg : Type;
  NewReg : Reg;
  register : Desc -> St Reg unit;                       (* promauto.New... *)
  incWith : Desc -> list string -> St Reg unit;         (* .WithLabelValues(...).Inc() *)
  setWith : Desc -> list string -> f64 -> St Reg unit;  (* .WithLabelValues(...).Set(x), .Set(x) *)
  observeWith : Desc -> list string -> f64 -> St Reg unit;
  registered : string -> Reg -> bool;
  counterAt : string -> list string -> Reg -> Z;
  gaugeAt : string -> list string -> Reg -> option f64;
  observedAt : string -> list string -> Reg -> list f64;
}.

(** What differs between two registries. *)
Definition same_series `{Prometheus} (r r' : Reg) : Prop :=
  (forall n ls, counterAt n ls r' = counterAt n ls r) /\ (forall n ls, gaugeAt n ls r' = gaugeAt n ls r) /\
  (forall n ls, observedAt n ls r' = observedAt n ls r).

Class PrometheusLaws `{Prometheus} : Prop := {
  new_empty n ls : registered n NewReg = false /\ counterAt n ls NewReg = 0%Z /\ gaugeAt n ls NewReg = None /\ observedAt n ls NewReg = [];
  register_ok d r : valid_desc d = true -> registered (d_name d) r = false ->
    exists r', register d r = (Ok tt, r') /\ same_series r r' /\ forall n, registered n r' = String.eqb n (d_name d) || registered n r;
  inc_ok d vs r : d_kind d = Counter -> registered (d_name d) r = true -> fits_labels d vs ->
    exists r', incWith d vs r = (Ok tt, r') /\ (forall n, registered n r' = registered n r) /\
      (forall n ls, counterAt n ls r' = counterAt n ls r + if decide (n = d_name d /\ ls = vs) then 1 else 0)%Z /\
      (forall n ls, gaugeAt n ls r' = gaugeAt n ls r) /\ (forall n ls, observedAt n ls r' = observedAt n ls r);
  set_ok d vs x r : d_kind d = Gauge -> registered (d_name d) r = true -> fits_labels d vs ->
    exists r', setWith d vs x r = (Ok tt, r') /\ (forall n, registered n r' = registered n r) /\
      (forall n ls, gaugeAt n ls r' = if decide (n = d_name d /\ ls = vs) then Some x else gaugeAt n ls r) /\
      (forall n ls, counterAt n ls r' = counterAt n ls r) /\ (forall n ls, observedAt n ls r' = observedAt n ls r);
  observe_ok d vs x r : d_kind d = Histogram -> registered (d_name d) r = true -> fits_labels d vs ->
    exists r', observeWith d vs x r = (Ok tt, r') /\ (forall n, registered n r' = registered n r) /\
      (forall n ls, observedAt n ls r' = observedAt n ls r ++ if decide (n = d_name d /\ ls = vs) then [x] else []) /\
      (forall n ls, counterAt n ls r' = counterAt n ls r) /\ (forall n ls, gaugeAt n ls r' = gaugeAt n ls r);
}.

Module metrics.
Local Open Scope go_scope.

(** ** The metrics *)

Definition HTTPRequestsTotal : Desc :=
  MkDesc Counter "gateway_http_requests_total" "Total number of HTTP requests handled." ["project"; "method"; "status"].
Definition HTTPRequestDuration : Desc :=
  MkDesc Histogram "gateway_http_request_duration_seconds" "HTTP request duration in seconds." ["project"; "method"; "status"].
Definition SinkDeliveriesTotal : Desc :=
  MkDesc Counter "gateway_sink_deliveries_total" "Total number of sink delivery attempts." ["sink"; "status"].
Definition SinkRetriesTotal : Desc :=
  MkDesc Counter "gateway_sink_retries_total" "Total number of sink retry attempts." ["sink"].
Definition CircuitState : Desc :=
  MkDesc Gauge "gateway_circuit_state" "Circuit breaker state: 0=closed, 1=open." ["sink"].
Definition ChannelUsageRatio : Desc :=
  MkDesc Gauge "gateway_channel_usage_ratio" "Current sink channel usage ratio (0.0 to 1.0)." ["sink"].
Definition RatelimitRejectsTotal : Desc :=
  MkDesc Counter "gateway_ratelimit_rejects_total" "Total number of rate-limit rejections." ["level"; "project"].
Definition PoolGoroutines : Desc :=
  MkDesc Gauge "gateway_pool_goroutines" "Number of active goroutines in the ants pool." [].
Definition PoolCapacity : Desc :=
  MkDesc Gauge "gateway_pool_capacity" "Total capacity of the ants pool." [].

(** The package's variables in the order of their initialisation. *)
Definition all : list Desc :=
  [HTTPRequestsTotal; HTTPRequestDuration; SinkDeliveriesTotal; SinkRetriesTotal; CircuitState; ChannelUsageRatio;
   RatelimitRejectsTotal; PoolGoroutines; PoolCapacity].

Section record.
Context `{Prometheus}.

Fixpoint register_all (ds : list Desc) : St Reg unit :=
  match ds with [] => ret tt | d :: ds' => register d ;;; register_all ds' end.

(** The initialisation of the package. *)
Definition init : St Reg unit := register_all all.

Definition RecordSinkSuccess (sinkName : string) : St Reg unit := incWith SinkDeliveriesTotal [sinkName; "success"].
Definition RecordSinkFailure (sinkName : string) : St Reg unit := incWith SinkDeliveriesTotal [sinkName; "failure"].
Definition RecordSinkRetry (sinkName : string) : St Reg unit := incWith SinkRetriesTotal [sinkName].

Definition SetCircuitState (sinkName : string) (open : bool) : St Reg unit :=
  let v := if open then f64_of_Z 1 else f64_of_Z 0 in setWith CircuitState [sinkName] v.

Definition SetChannelUsage (sinkName : string) (ratio : f64) : St Reg unit := setWith ChannelUsageRatio [sinkName] ratio.

(** The two rejections of the rate limiting middlewares. *)
Definition rejectGlobal : St Reg unit := incWith RatelimitRejectsTotal ["global"; ""].
Definition rejectProject (name : string) : St Reg unit := incWith RatelimitRejectsTotal ["project"; name].

(** A tick of [reportMetrics] of a worker pool, which reads the pool in two
    steps: [u] is the pool when its channel is measured, [w] when its breaker
    is read. *)
Definition reportPool (sinkName : string) (u w : sink.WorkerPool) : St Reg unit :=
  SetChannelUsage sinkName (sink.ChannelUsage u) ;;; SetCircuitState sinkName (sink.circuitOpen (sink.brk w)).

(** The gauges of the goroutine pool: its capacity, set by [server.New], and a
    tick of [reportMetrics] of the gateway. *)
Definition setPoolCapacity (cap : Z) : St Reg unit := setWith PoolCapacity [] (f64_of_Z cap).
Definition reportGateway (running : Z) : St Reg unit := setWith PoolGoroutines [] (f64_of_Z running).

(** [c.Writer.Status()]: of the first answer, 200 without one. *)
Definition Status (c : gin.Context) : Z := match gin.Written c with (code, _) :: _ => code | [] => 200 end.

(** What [MetricsMiddleware] does after [c.Next()]. *)
Definition MetricsMiddleware (method : string) (duration : f64) (c : gin.Context) : St Reg unit :=
  let status := Itoa (Status c) in
  let project := match gin.Get "project_name" c with Some (gin.CString s) => s | _ => "" end in
  incWith HTTPRequestsTotal [project; method; status] ;;;
  observeWith HTTPRequestDuration [project; method; status] duration.
End record.
End metrics.

Import metrics.
Local Open Scope go_scope.

(** ** What the gateway records *)

Inductive event :=
| ESuccess (sinkName : string)
| EFailure (sinkName : string)
| ERetry (sinkName : string)
| ECircuit (sinkName : string) (open : bool)
| EReport (sinkName : string) (u w : sink.WorkerPool)
| EPoolCapacity (cap : Z)
| EPoolRunning (running : Z)
| ERejectGlobal
| ERejectProject (name : string)
| ERequest (method : string) (duration : f64) (c : gin.Context).

(** The texts an event puts into labels. *)
Definition texts (e : event) : list string :=
  match e with
  | ESuccess s | EFailure s | ERetry s | ECircuit s _ | EReport s _ _ | ERejectProject s => [s]
  | ERejectGlobal | EPoolCapacity _ | EPoolRunning _ => []
  | ERequest m _ c => [m; match gin.Get "project_name" c with Some (gin.CString s) => s | _ => "" end]
  end.

Definition labelled (e : event) : Prop := Forall (fun t => is_utf8 (bytes_of t)) (texts e).

(** The series an event counts in, the gauge it sets and what it observes. *)
Definition request_labels (m : string) (c : gin.Context) : list string :=
  [match gin.Get "project_name" c with Some (gin.CString s) => s | _ => "" end; m; Itoa (Status c)].

Definition counts (e : event) : option (string * list string) :=
  match e with
  | ESuccess s => Some ("gateway_sink_deliveries_total", [s; "success"])
  | EFailure s => Some ("gateway_sink_deliveries_total", [s; "failure"])
  | ERetry s => Some ("gateway_sink_retries_total", [s])
  | ERejectGlobal => Some ("gateway_ratelimit_rejects_total", ["global"; ""])
  | ERejectProject p => Some ("gateway_ratelimit_rejects_total", ["project"; p])
  | ERequest m _ c => Some ("gateway_http_requests_total", request_labels m c)
  | _ => None
  end.

Definition sets (e : event) : list (string * list string * f64) :=
  match e with
  | ECircuit s open => [("gateway_circuit_state", [s], f64_of_Z (if open then 1 else 0))]
  | EReport s u w => [("gateway_channel_usage_ratio", [s], sink.ChannelUsage u);
                      ("gateway_circuit_state", [s], f64_of_Z (if sink.circuitOpen (sink.brk w) then 1 else 0))]
  | EPoolCapacity n => [("gateway_pool_capacity", [], f64_of_Z n)]
  | EPoolRunning n => [("gateway_pool_goroutines", [], f64_of_Z n)]
  | _ => []
  end.

Definition observes (e : event) : option (string * list string * f64) :=
  match e with ERequest m x c => Some ("gateway_http_request_duration_seconds", request_labels m c, x) | _ => None end.

Section events.
Context `{PrometheusLaws}.

Definition record (e : event) : St Reg unit :=
  match e with
  | ESuccess s => RecordSinkSuccess s
  | EFailure s => RecordSinkFailure s
  | ERetry s => RecordSinkRetry s
  | ECircuit s open => SetCircuitState s open
  | EReport s u w => reportPool s u w
  | EPoolCapacity n => setPoolCapacity n
  | EPoolRunning n => reportGateway n
  | ERejectGlobal => rejectGlobal
  | ERejectProject p => rejectProject p
  | ERequest m x c => MetricsMiddleware m x c
  end.

Fixpoint record_all (es : list event) : St Reg unit :=
  match es with [] => ret tt | e :: es' => record e ;;; record_all es' end.

(** What is recorded under a key. *)
Definition under (n : string) (ls : list string) (l : list (string * list string * f64)) : list f64 :=
  omap (fun s => if decide (s.1 = (n, ls)) then Some s.2 else None) l.

(** The registry after the increments [cs], the assignments [gs] and the
    observations [os]. *)
Record series (cs : list (string * list string)) (gs os : list (string * list string * f64)) (r : Reg) : Prop := {
  se_registered d : d ∈ all -> registered (d_name d) r = true;
  se_counter n ls : counterAt n ls r = Z.of_nat (length (filter (eq (n, ls)) cs));
  se_gauge n ls : gaugeAt n ls r = last (under n ls gs);
  se_observed n ls : observedAt n ls r = under n ls os;
}.

(** The values of the series after the events [es]. *)
Definition tally (es : list event) : Reg -> Prop := series (omap counts es) (es ≫= sets) (omap observes es).

Lemma register_all_ok ds r : Forall (fun d => valid_desc d = true) ds -> NoDup (d_name <$> ds) ->
  Forall (fun d => registered (d_name d) r = false) ds ->
  exists r', register_all ds r = (Ok tt, r') /\ same_series r r' /\
    forall n, registered n r' = bool_decide (n ∈ d_name <$> ds) || registered n r.
Proof.
  revert r; induction ds as [|d ds IH]; intros r Hv Hn Hr; cbn [register_all].
  { exists r. split; [done|]. split; [done|]. intros n. by rewrite bool_decide_false by set_solver. }
  apply Forall_cons in Hv as [Hd Hv]. apply Forall_cons in Hr as [Hrd Hr]. cbn in Hn. apply NoDup_cons in Hn as [Hnd Hn].
  destruct (register_ok d r Hd Hrd) as (r1 & E1 & (S1 & S2 & S3) & Hreg).
  destruct (IH r1) as (r2 & E2 & (T1 & T2 & T3) & Hreg2); [done|done| |].
  { apply Forall_forall. intros d' Hd'. rewrite Hreg. rewrite Forall_forall in Hr. rewrite (Hr _ Hd'), orb_false_r.
    apply String.eqb_neq. intros E. apply Hnd. rewrite <- E. by apply list_elem_of_fmap_2. }
  exists r2. rewrite (bind_run_Ok _ _ _ _ _ E1). split; [done|]. split.
  - split_and!; intros n ls; [rewrite T1; apply S1|rewrite T2; apply S2|rewrite T3; apply S3].
  - intros n. rewrite Hreg2, Hreg. cbn [fmap list_fmap]. destruct (String.eqb_spec n (d_name d)) as [->|Hne].
    + rewrite (bool_decide_true (d_name d ∈ d_name d :: _)) by set_solver. by rewrite orb_true_r.
    + cbn [orb]. f_equal. apply bool_decide_ext. set_solver.
Qed.

Lemma init_ok : exists r, init NewReg = (Ok tt, r) /\ tally [] r.
Proof.
  assert (Hnew : forall n ls, registered n NewReg = false /\ counterAt n ls NewReg = 0%Z /\ gaugeAt n ls NewReg = None /\ observedAt n ls NewReg = [])
    by (intros; apply new_empty).
  destruct (register_all_ok all NewReg) as (r & E & (S1 & S2 & S3) & Hreg).
  - repeat (constructor; [vm_compute; reflexivity|]). constructor.
  - apply (bool_decide_unpack _). vm_compute. exact I.
  - apply Forall_forall. intros d _. by destruct (Hnew (d_name d) []) as [? _].
  - exists r. split; [done|]. split.
    + intros d Hd. rewrite Hreg, bool_decide_true; [done|]. by apply list_elem_of_fmap_2.
    + intros n ls. rewrite S1. by destruct (Hnew n ls) as (_ & ? & _).
    + intros n ls. rewrite S2. by destruct (Hnew n ls) as (_ & _ & ? & _).
    + intros n ls. rewrite S3. by destruct (Hnew n ls) as (_ & _ & _ & ?).
Qed.

Lemma under_snoc n ls l n' ls' x : under n ls (l ++ [(n', ls', x)]) = under n ls l ++ if decide (n = n' /\ ls = ls') then [x] else [].
Proof.
  unfold under. rewrite omap_app. f_equal. cbn.
  destruct (decide ((n', ls') = (n, ls))) as [[= -> ->]|Hne]; [by rewrite decide_True|by rewrite decide_False by naive_solver].
Qed.

Lemma count_snoc n ls n' ls' (l : list (string * list string)) :
  Z.of_nat (length (filter (eq (n, ls)) (l ++ [(n', ls')]))) =
  (Z.of_nat (length (filter (eq (n, ls)) l)) + if decide (n = n' /\ ls = ls') then 1 else 0)%Z.
Proof.
  rewrite filter_app, length_app. destruct (decide ((n, ls) = (n', ls'))) as [E|Hne].
  - rewrite filter_cons_True, filter_nil by done. rewrite decide_True by naive_solver. cbn [length]. lia.
  - rewrite filter_cons_False, filter_nil by done. rewrite decide_False by naive_solver. cbn [length]. lia.
Qed.

Lemma series_inc d vs cs gs os r : series cs gs os r -> d ∈ all -> d_kind d = Counter -> fits_labels d vs ->
  exists r', incWith d vs r = (Ok tt, r') /\ series (cs ++ [(d_name d, vs)]) gs os r'.
Proof.
  intros [T1 T2 T3 T4] Hd Hk Hf. destruct (inc_ok d vs r Hk (T1 d Hd) Hf) as (r' & E & Hreg & H1 & H2 & H3).
  exists r'. split; [done|]. split; intros; [rewrite Hreg; by apply T1|by rewrite H1, T2, count_snoc|by rewrite H2|by rewrite H3].
Qed.

Lemma series_set d vs x cs gs os r : series cs gs os r -> d ∈ all -> d_kind d = Gauge -> fits_labels d vs ->
  exists r', setWith d vs x r = (Ok tt, r') /\ series cs (gs ++ [(d_name d, vs, x)]) os r'.
Proof.
  intros [T1 T2 T3 T4] Hd Hk Hf. destruct (set_ok d vs x r Hk (T1 d Hd) Hf) as (r' & E & Hreg & H1 & H2 & H3).
  exists r'. split; [done|]. split; intros; [rewrite Hreg; by apply T1|by rewrite H2| |by rewrite H3].
  rewrite H1, under_snoc. destruct (decide _); [by rewrite last_snoc|by rewrite app_nil_r].
Qed.

Lemma series_observe d vs x cs gs os r : series cs gs os r -> d ∈ all -> d_kind d = Histogram -> fits_labels d vs ->
  exists r', observeWith d vs x r = (Ok tt, r') /\ series cs gs (os ++ [(d_name d, vs, x)]) r'.
Proof.
  intros [T1 T2 T3 T4] Hd Hk Hf. destruct (observe_ok d vs x r Hk (T1 d Hd) Hf) as (r' & E & Hreg & H1 & H2 & H3).
  exists r'. split; [done|]. split; intros; [rewrite Hreg; by apply T1|by rewrite H2|by rewrite H3|by rewrite H1, T4, under_snoc].
Qed.

(** The values of a call are texts of the event or constants. *)
Lemma fits_values e d vs : labelled e -> length vs = length (d_labels d) ->
  Forall (fun v => v ∈ texts e \/ bool_decide (utf8.to_valid (bytes_of v) = bytes_of v) = true) vs -> fits_labels d vs.
Proof.
  intros Hu Hlen Hv. split; [done|]. eapply Forall_impl; [exact Hv|].
  intros v [Hin|Hb%bool_decide_eq_true]; [|by apply fixed_is_utf8]. unfold labelled in Hu. rewrite Forall_forall in Hu. by apply Hu.
Qed.

Local Ltac values Hl :=
  apply (fits_values _ _ _ Hl); [done|]; repeat first [apply Forall_nil_2|apply Forall_cons_2; [first [left; apply list_elem_of_here|by right]|]].

Lemma request_ok m x c cs gs os r : series cs gs os r -> labelled (ERequest m x c) ->
  exists r', MetricsMiddleware m x c r = (Ok tt, r') /\
    series (cs ++ [("gateway_http_requests_total", request_labels m c)]) gs (os ++ [("gateway_http_request_duration_seconds", request_labels m c, x)]) r'.
Proof.
  intros Hs Hl. assert (Hf : Forall (fun v => is_utf8 (bytes_of v)) (request_labels m c)).
  { unfold labelled in Hl. cbn [texts] in Hl. apply Forall_cons in Hl as [Hm Hl]. apply Forall_cons in Hl as [Hp _].
    unfold request_labels. constructor; [done|]. constructor; [done|]. constructor; [apply Itoa_utf8|constructor]. }
  destruct (series_inc HTTPRequestsTotal (request_labels m c) _ _ _ _ Hs) as (r1 & E1 & H1); [set_solver|done|by split|].
  destruct (series_observe HTTPRequestDuration (request_labels m c) x _ _ _ _ H1) as (r2 & E2 & H2); [set_solver|done|by split|].
  exists r2. split; [|done]. unfold MetricsMiddleware. by rewrite (bind_run_Ok _ _ _ _ _ E1).
Qed.

Lemma report_ok s u w cs gs os r : series cs gs os r -> labelled (EReport s u w) ->
  exists r', reportPool s u w r = (Ok tt, r') /\ series cs (gs ++ sets (EReport s u w)) os r'.
Proof.
  intros Hs Hl. set (b := sink.circuitOpen (sink.brk w)).
  destruct (series_set ChannelUsageRatio [s] (sink.ChannelUsage u) _ _ _ _ Hs) as (r1 & E1 & H1); [set_solver|done|values Hl|].
  destruct (series_set CircuitState [s] (f64_of_Z (if b then 1 else 0)) _ _ _ _ H1) as (r2 & E2 & H2); [set_solver|done|values Hl|].
  exists r2. split; [|by rewrite <- app_assoc in H2]. unfold reportPool. rewrite (bind_run_Ok _ _ _ _ _ E1).
  unfold SetCircuitState. fold b. by destruct b.
Qed.

Lemma record_ok es e r : tally es r -> labelled e -> exists r', record e r = (Ok tt, r') /\ tally (es ++ [e]) r'.
Proof.
  unfold tally. rewrite !omap_app, bind_app. intros Ht Hl.
  destruct e as [s|s|s|s b|s u w|n|n| |p|m x c]; cbn [record mbind list_bind omap list_omap counts sets observes]; rewrite ?app_nil_r.
  1-3, 8-9: apply series_inc; try done; first [values Hl|set_solver].
  - unfold SetCircuitState. destruct b; apply series_set; try done; first [values Hl|set_solver].
  - apply report_ok; by rewrite ?app_nil_r.
  - apply series_set; try done; first [values Hl|set_solver].
  - apply series_set; try done; first [values Hl|set_solver].
  - by apply request_ok.
Qed.

(** C25.  The package initialises without a panic (its names are well formed
    and distinct), and recording never panics as long as the names of sinks,
    projects and methods are UTF-8: every call passes as many values as the
    metric has labels.  After any sequence of events each counter is the
    number of events of its kind with its labels, each gauge the last value
    set, and each histogram has the durations of its requests in order. *)
Theorem metrics_count_what_happened es : Forall labelled es ->
  exists r0 r, init NewReg = (Ok tt, r0) /\ record_all es r0 = (Ok tt, r) /\ tally es r.
Proof.
  intros Hes. destruct init_ok as (r0 & E0 & Ht0). exists r0.
  assert (Hgen : forall pre r, tally pre r -> exists r', record_all es r = (Ok tt, r') /\ tally (pre ++ es) r').
  { clear E0 Ht0 r0. induction Hes as [|e es He _ IH]; intros pre r Ht; cbn [record_all]; [exists r; by rewrite app_nil_r|].
    destruct (record_ok pre e r Ht He) as (r1 & E1 & Ht1). destruct (IH (pre ++ [e]) r1 Ht1) as (r2 & E2 & Ht2).
    exists r2. rewrite (bind_run_Ok _ _ _ _ _ E1). split; [done|]. by rewrite <- app_assoc in Ht2. }
  destruct (Hgen [] r0 Ht0) as (r & E & Ht). by exists r.
Qed.
End events.

(** ** An instance *)

Module prom_demo.
Record reg := MkReg { names : list string; cs : list (string * list string); gs : list (string * list string * f64);
                      os : list (string * list string * f64) }.

(** Whether the library accepts a use of a metric. *)
Definition guard (d : Desc) (vs : list string) (r : reg) (r' : reg) : result unit * reg :=
  if bool_decide (d_name d ∈ names r /\ length vs = length (d_labels d) /\ Forall (fun v => utf8.to_valid (bytes_of v) = bytes_of v) vs)
  then (Ok tt, r') else (Panic "inconsistent label cardinality", r).

#[global] Instance prom : Prometheus := {|
  Reg := reg; NewReg := MkReg [] [] [] [];
  register d r := if valid_desc d && negb (bool_decide (d_name d ∈ names r))
                  then (Ok tt, MkReg (d_name d :: names r) (cs r) (gs r) (os r)) else (Panic "duplicate metrics collector registration", r);
  incWith d vs r := guard d vs r (MkReg (names r) (cs r ++ [(d_name d, vs)]) (gs r) (os r));
  setWith d vs x r := guard d vs r (MkReg (names r) (cs r) (gs r ++ [(d_name d, vs, x)]) (os r));
  observeWith d vs x r := guard d vs r (MkReg (names r) (cs r) (gs r) (os r ++ [(d_name d, vs, x)]));
  registered n r := bool_decide (n ∈ names r);
  counterAt n ls r := Z.of_nat (length (filter (eq (n, ls)) (cs r)));
  gaugeAt n ls r := last (under n ls (gs r));
  observedAt n ls r := under n ls (os r);
|}.

Lemma guard_ok d vs r r' : registered (d_name d) r = true -> fits_labels d vs -> guard d vs r r' = (Ok tt, r').
Proof.
  intros Hr%bool_decide_eq_true [Hl Hu]. unfold guard. rewrite bool_decide_true; [done|]. split; [done|]. split; [done|].
  eapply Forall_impl; [exact Hu|]. intros v. apply is_utf8_fixed.
Qed.

#[global] Instance prom_laws : PrometheusLaws.
Proof.
  split.
  - done.
  - intros d r Hv Hr. cbn in *. rewrite Hv, Hr. eexists. split; [done|]. split; [done|]. intros n. cbn.
    destruct (String.eqb_spec n (d_name d)) as [->|Hne]; [by rewrite bool_decide_true by set_solver|]. apply bool_decide_ext. set_solver.
  - intros d vs r _ Hr Hf. cbn [incWith prom]. rewrite guard_ok by done. eexists. split; [done|]. split; [done|]. split; [|done].
    intros n ls. apply count_snoc.
  - intros d vs x r _ Hr Hf. cbn [setWith prom]. rewrite guard_ok by done. eexists. split; [done|]. split; [done|]. split; [|done].
    intros n ls. cbn [gaugeAt prom gs]. rewrite under_snoc. destruct (decide _); [by rewrite last_snoc|by rewrite app_nil_r].
  - intros d vs x r _ Hr Hf. cbn [observeWith prom]. rewrite guard_ok by done. eexists. split; [done|]. split; [done|]. split; [|done].
    intros n ls. apply under_snoc.
Qed.

Definition answered : gin.Context :=
  gin.JSON 200 (message.MkUploadResponse 0 "success" "r" "r") (gin.Set_ "project_name" (gin.CString "a") (gin.MkContext ∅ ∅ None [] ∅)).

Definition some_events : list event :=
  [ESuccess "a-redis-0"; ERetry "a-redis-0"; EFailure "a-redis-0"; ECircuit "a-redis-0" true; EPoolCapacity 10; ERejectGlobal; ERequest "POST" (f64_of_Z 1) answered].
End prom_demo.

Lemma metrics_count_what_happened_witness :
  exists r0 r, init NewReg = (Ok tt, r0) /\ record_all prom_demo.some_events r0 = (Ok tt, r) /\ tally prom_demo.some_events r.
Proof.
  apply (metrics_count_what_happened prom_demo.some_events).
  repeat (constructor; [repeat (constructor; [apply fixed_is_utf8; vm_compute; reflexivity|]); constructor|]). constructor.
Defined.
