(* ===== verification/RateLimit.v ===== *)
(** * Package [ratelimit] (internal/ratelimit/ratelimit.go)

    A limiter per project and a global one.  The token bucket itself is
    [golang.org/x/time/rate], an interface here: its limiters are values the
    manager keeps behind pointers and updates by the library's calls.

    [m.mu] makes each locked section one action; the field [qps] of an entry
    is read outside the lock at line 45 and written under it. *)

From Stdlib Require Import ZArith Lia Ascii String SpecFloat.
From stdpp Require Import base tactics numbers strings gmap list.
From S2P Require Import Prelude GoStrings GoFloat Message Threads ConfigPkg Gin.

(** ** [rate.Limiter]

    Times are in nanoseconds and tokens in billionths, so that a rate of [n]
    tokens per second is [n] billionths per nanosecond. *)

Definition oneToken : Z := 1000000000.

Class RateLimiter := {
  Limiter : Type;
  NewLimiter : Z -> f64 -> Z -> Limiter;      (* at a time, limit, burst *)
  SetLimit : Z -> f64 -> Limiter -> Limiter;
  SetBurst : Z -> Z -> Limiter -> Limiter;
  Allow : Z -> Limiter -> bool * Limiter;
  Limit : Limiter -> f64;
  Burst : Limiter -> Z;
  TokensAt : Z -> Limiter -> Z;
}.

(** What the library documents: a token bucket of size [Burst], full at
    first, refilled at [Limit] tokens per second; [Allow] takes a token when
    there is one; changing the limits adds no tokens. *)
Class RateLimiterLaws `{RateLimiter} : Prop := {
  new_limit t r b : Limit (NewLimiter t r b) = r;
  new_burst t r b : Burst (NewLimiter t r b) = b;
  new_full t r b : TokensAt t (NewLimiter t r b) = (b * oneToken)%Z;
  setLimit_limit t r l : Limit (SetLimit t r l) = r;
  setLimit_burst t r l : Burst (SetLimit t r l) = Burst l;
  setLimit_tokens t r l : (TokensAt t (SetLimit t r l) <= TokensAt t l)%Z;
  setBurst_limit t b l : Limit (SetBurst t b l) = Limit l;
  setBurst_burst t b l : Burst (SetBurst t b l) = b;
  setBurst_tokens t b l : (TokensAt t (SetBurst t b l) <= TokensAt t l)%Z;
  allow_limit t l : Limit (Allow t l).2 = Limit l;
  allow_burst t l : Burst (Allow t l).2 = Burst l;
  allow_iff t l : (Allow t l).1 = true <-> (oneToken <= TokensAt t l)%Z;
  allow_takes t l : TokensAt t (Allow t l).2 =
    (if (Allow t l).1 then TokensAt t l - oneToken else TokensAt t l)%Z;
  bucket_size t l : (TokensAt t l <= Burst l * oneToken)%Z;
  refill t t' qps l : (0 < qps < 2 ^ 53)%Z -> Limit l = f64_of_Z qps -> (t <= t')%Z ->
    (TokensAt t' l <= TokensAt t l + qps * (t' - t))%Z;
}.

Module ratelimit.
Local Open Scope go_scope.

Section manager.
Context `{RateLimiter}.

(** [lim] is the address of a limiter. *)
Record projectLimiter := MkProjectLimiter { qps : Z; lim : nat }.

(** [projectRL] maps a project to the address of its entry. *)
Record Manager := MkManager {
  projectRL : gmap string nat;
  globalRL : nat;
  entries : list projectLimiter;
  limiters : list Limiter;
}.

Definition set_limiters (l : list Limiter) (m : Manager) : Manager :=
  MkManager (projectRL m) (globalRL m) (entries m) l.

Definition normalizeQPS (q : Z) : Z := if (q <=? 0)%Z then 1000 else q.

Definition newLimiter (now q : Z) : Limiter :=
  let q := normalizeQPS q in NewLimiter now (f64_of_Z q) (wrap64 (q * 2)).

Definition NewManager (now : Z) (c : config.Config) : Manager :=
  MkManager ∅ 0 [] [newLimiter now (config.GlobalRateLimit (config.Server c))].

Definition set_rate (now q : Z) (l : Limiter) : Limiter :=
  SetBurst now (wrap64 (q * 2)) (SetLimit now (f64_of_Z q) l).

(** The callback [NewManager] registers with the configuration. *)
Definition updateGlobalLimiter (now q : Z) : St Manager unit :=
  let q := normalizeQPS q in
  modify (fun m => set_limiters (alter (set_rate now q) (globalRL m) (limiters m)) m).

(** The section under [m.mu.Lock()]. *)
Definition update_or_create (now : Z) (project : string) (q : Z) : St Manager nat := fun m =>
  match projectRL m !! project with
  | Some e =>
      match entries m !! e with
      | None => (Panic "nil pointer dereference", m)
      | Some en =>
          if (qps en =? q)%Z then (Ok (lim en), m) else
          (Ok (lim en),
           MkManager (projectRL m) (globalRL m) (<[e := MkProjectLimiter q (lim en)]> (entries m))
             (alter (set_rate now q) (lim en) (limiters m)))
      end
  | None =>
      let a := length (limiters m) in
      (Ok a, MkManager (<[project := length (entries m)]> (projectRL m)) (globalRL m)
               (entries m ++ [MkProjectLimiter q a]) (limiters m ++ [newLimiter now q]))
  end.

Definition reads {X A} (f : Manager -> X) (k : X -> Thr Manager A) : Thr Manager A :=
  Atomic (fun _ => true) (fun m => m) (fun m => k (f m)).

Definition GetOrCreateLimiter (now : Z) (project : string) (q : Z) : Thr Manager nat :=
  let q := normalizeQPS q in
  reads (fun m => projectRL m !! project) (fun entry =>
  reads (fun m => entry ≫= fun e => entries m !! e) (fun en =>
  match en with
  | Some en => if (qps en =? q)%Z then Done (Ok (lim en)) else atomic (update_or_create now project q) Done
  | None => atomic (update_or_create now project q) Done
  end)).

(** [lim.Allow()] on the limiter at an address. *)
Definition allow (now : Z) (a : nat) : St Manager bool := fun m =>
  match limiters m !! a with
  | None => (Panic "nil pointer dereference", m)
  | Some l => let '(b, l') := Allow now l in (Ok b, set_limiters (<[a := l']> (limiters m)) m)
  end.

Definition GlobalLimit (now : Z) : St Manager bool := fun m => allow now (globalRL m) m.

(** [if !lim.Allow() { c.JSON(429, msg); c.Abort(); return }; c.Next()]. *)
Definition pass_or_429 (msg : string) (c : gin.Context) (allowed : result bool) : Thr Manager gin.verdict :=
  match allowed with
  | Ok b => Done (Ok (if b : bool then gin.Next c else gin.reject 429 msg c))
  | Err e => Done (Err e)
  | Panic p => Done (Panic p)
  end.

Definition GlobalMiddleware (now : Z) (c : gin.Context) : Thr Manager gin.verdict :=
  atomic (GlobalLimit now) (pass_or_429 "global rate limit exceeded" c).

(** [project] is the lookup of an enabled project in the configuration. *)
Definition ProjectMiddleware (project : string -> option config.ProjectConfig) (now : Z) (c : gin.Context) :
    Thr Manager gin.verdict :=
  match gin.Get "project_name" c with
  | Some (gin.CString projectName) =>
      match project projectName with
      | None => Done (Ok (gin.Next c))
      | Some projCfg =>
          bindT (GetOrCreateLimiter now (config.Name projCfg) (config.RateLimit projCfg)) (fun a =>
            atomic (allow now a) (pass_or_429 "project rate limit exceeded" c))
      end
  | _ => Done (Ok (gin.Next c))
  end.
End manager.
Arguments Manager {_}.
Arguments MkManager {_}.
End ratelimit.

Import ratelimit.

(** ** The abstract manager

    Every project has its own limiter, together with the rate it was last
    set to. *)

Section spec.
Context `{RateLimiter}.

Definition tuned (now q : Z) (old : option (Z * Limiter)) : Limiter :=
  match old with
  | None => newLimiter now q
  | Some (q0, l) => if (q0 =? q)%Z then l else set_rate now q l
  end.

(** A request of a project at a rate. *)
Definition spec_request (now : Z) (p : string) (q : Z) (M : gmap string (Z * Limiter)) :
    bool * gmap string (Z * Limiter) :=
  let '(b, l) := Allow now (tuned now q (M !! p)) in (b, <[p := (q, l)]> M).

(** The limiter of a project in the manager. *)
Definition limiter_of (m : Manager) (p : string) : option (Z * Limiter) :=
  e ← projectRL m !! p; en ← entries m !! e; l ← limiters m !! lim en; Some (qps en, l).

Definition represents (m : Manager) (M : gmap string (Z * Limiter)) : Prop :=
  forall p, limiter_of m p = M !! p.

(** Entries and limiters are not shared, and no pointer dangles. *)
Record rl_ok (m : Manager) : Prop := {
  rl_entry p e : projectRL m !! p = Some e -> is_Some (entries m !! e);
  rl_inj p p' e : projectRL m !! p = Some e -> projectRL m !! p' = Some e -> p = p';
  rl_lim e en : entries m !! e = Some en -> is_Some (limiters m !! lim en) /\ lim en <> globalRL m;
  rl_lim_inj e e' en en' : entries m !! e = Some en -> entries m !! e' = Some en' -> lim en = lim en' -> e = e';
  rl_global : is_Some (limiters m !! globalRL m);
}.

Lemma NewManager_ok now c : rl_ok (NewManager now c).
Proof. by split. Qed.

(** Changing the limiter at an address keeps the shape. *)
Lemma rl_ok_limiters m ls :
  rl_ok m -> (forall a, is_Some (limiters m !! a) -> is_Some (ls !! a)) -> rl_ok (set_limiters ls m).
Proof.
  intros [H1 H2 H3 H4 H5] Hls. split; cbn; try done; [|by apply Hls].
  intros e en He. destruct (H3 e en He). split; [by apply Hls|done].
Qed.

(** The project [p] has the limiter at address [a], set to rate [q]. *)
Definition assigned (m : Manager) (p : string) (q : Z) (a : nat) : Prop :=
  exists e, projectRL m !! p = Some e /\ entries m !! e = Some (MkProjectLimiter q a).

Lemma limiter_of_assigned m p q a l :
  assigned m p q a -> limiters m !! a = Some l -> limiter_of m p = Some (q, l).
Proof. intros (e & Hp & He) Hl. unfold limiter_of. rewrite Hp. cbn. rewrite He. cbn. by rewrite Hl. Qed.

Lemma assigned_of_limiter m p q l :
  limiter_of m p = Some (q, l) -> exists a, assigned m p q a /\ limiters m !! a = Some l.
Proof.
  unfold limiter_of, assigned. destruct (projectRL m !! p) as [e|]; [|done]. cbn.
  destruct (entries m !! e) as [[q0 a]|] eqn:He; [|done]. cbn.
  destruct (limiters m !! a) as [l0|] eqn:Hl; [|done]. intros [= -> ->]. eauto 6.
Qed.

Lemma limiter_of_None m p : rl_ok m -> limiter_of m p = None -> projectRL m !! p = None.
Proof.
  intros Hok. unfold limiter_of. destruct (projectRL m !! p) as [e|] eqn:Hp; [|done]. cbn.
  destruct (rl_entry m Hok p e Hp) as [en He]. rewrite He. cbn.
  destruct (rl_lim m Hok e en He) as [[l ->] _]. done.
Qed.

(** A new value of the limiter of [p] changes no other project's. *)
Lemma represents_write m M p q a l' :
  rl_ok m -> represents m M -> assigned m p q a -> is_Some (limiters m !! a) ->
  represents (set_limiters (<[a := l']> (limiters m)) m) (<[p := (q, l')]> M).
Proof.
  intros Hok HM (e & Hp & He) Ha p'. destruct (decide (p' = p)) as [->|Hne].
  - rewrite lookup_insert_eq. apply (limiter_of_assigned _ _ _ a); [by exists e|]. cbn.
    apply list_lookup_insert_eq. by apply lookup_lt_is_Some.
  - rewrite lookup_insert_ne by done. rewrite <- HM. unfold limiter_of. cbn.
    destruct (projectRL m !! p') as [e'|] eqn:Hp'; [|done]. cbn.
    destruct (entries m !! e') as [en'|] eqn:He'; [|done]. cbn.
    rewrite list_lookup_insert_ne; [done|]. intros Heq. apply Hne.
    rewrite (rl_lim_inj m Hok e e' _ en' He He') in Hp by done. by apply (rl_inj m Hok p' p e').
Qed.

Lemma rl_ok_write m a l' : rl_ok m -> rl_ok (set_limiters (<[a := l']> (limiters m)) m).
Proof.
  intros Hok. apply rl_ok_limiters; [done|]. intros b. rewrite !lookup_lt_is_Some. by rewrite length_insert.
Qed.

Lemma alter_as_insert {A} (f : A -> A) (i : nat) (l : list A) x : l !! i = Some x -> alter f i l = <[i := f x]> l.
Proof. revert i; induction l as [|y l IH]; intros [|i] Hx; simplify_eq/=; [done|]. f_equal. by apply IH. Qed.

(** An entry set to another rate. *)
Definition with_rate (m : Manager) (e : nat) (q : Z) (a : nat) : Manager :=
  MkManager (projectRL m) (globalRL m) (<[e := MkProjectLimiter q a]> (entries m)) (limiters m).

Lemma with_rate_ok m e q0 q a :
  rl_ok m -> entries m !! e = Some (MkProjectLimiter q0 a) -> rl_ok (with_rate m e q a).
Proof.
  intros [H1 H2 H3 H4 H5] He.
  assert (Hent : forall e' en, entries (with_rate m e q a) !! e' = Some en ->
    exists en0, entries m !! e' = Some en0 /\ lim en0 = lim en).
  { intros e' en. cbn. destruct (decide (e = e')) as [<-|Hee]; [|rewrite list_lookup_insert_ne by done; eauto].
    rewrite list_lookup_insert_eq by (by eapply lookup_lt_Some). intros [= <-]. eauto. }
  split; try done.
  - intros p' e' Hp'. cbn. rewrite lookup_lt_is_Some, length_insert, <- lookup_lt_is_Some. by eapply H1.
  - intros e' en He'. destruct (Hent _ _ He') as (en0 & Hen0 & <-). by eapply H3.
  - intros e1 e2 en1 en2 K1 K2 Heq. destruct (Hent _ _ K1) as (n1 & Hn1 & E1), (Hent _ _ K2) as (n2 & Hn2 & E2).
    eapply H4; eauto. congruence.
Qed.

Lemma with_rate_represents m M p e q0 q a l :
  rl_ok m -> represents m M -> projectRL m !! p = Some e -> entries m !! e = Some (MkProjectLimiter q0 a) ->
  limiters m !! a = Some l -> represents (with_rate m e q a) (<[p := (q, l)]> M).
Proof.
  intros Hok HM Hp He Ha p'. destruct (decide (p' = p)) as [->|Hpp].
  - rewrite lookup_insert_eq. apply (limiter_of_assigned _ _ _ a); [|done]. exists e. split; [done|]. cbn.
    apply list_lookup_insert_eq. by eapply lookup_lt_Some.
  - rewrite lookup_insert_ne, <- HM by done. unfold limiter_of. cbn.
    destruct (projectRL m !! p') as [e'|] eqn:Hp'; [|done]. cbn. rewrite list_lookup_insert_ne; [done|].
    intros <-. apply Hpp. by eapply (rl_inj m Hok).
Qed.

(** A project served for the first time. *)
Definition with_project (m : Manager) (p : string) (q : Z) (l : Limiter) : Manager :=
  MkManager (<[p := length (entries m)]> (projectRL m)) (globalRL m)
    (entries m ++ [MkProjectLimiter q (length (limiters m))]) (limiters m ++ [l]).

Lemma with_project_ok m p q l : rl_ok m -> projectRL m !! p = None -> rl_ok (with_project m p q l).
Proof.
  intros [H1 H2 H3 H4 H5] Hp.
  assert (Hfresh : forall p', projectRL m !! p' <> Some (length (entries m))).
  { intros p' Hp'. apply H1 in Hp'. apply lookup_lt_is_Some in Hp'. lia. }
  assert (Hent : forall e en, entries (with_project m p q l) !! e = Some en ->
    entries m !! e = Some en \/ e = length (entries m) /\ lim en = length (limiters m)).
  { intros e en. cbn. intros [Hl|[? Hl]]%lookup_app_Some; [by left|right].
    apply list_lookup_singleton_Some in Hl as [? <-]. split; [lia|done]. }
  assert (Hlim : forall e en, entries m !! e = Some en -> lim en < length (limiters m)).
  { intros e en He. apply lookup_lt_is_Some. by apply (H3 e en). }
  split.
  - intros p' e. cbn. rewrite lookup_lt_is_Some, length_app. cbn. destruct (decide (p' = p)) as [->|Hne].
    + rewrite lookup_insert_eq. intros [= <-]. lia.
    + rewrite lookup_insert_ne by done. intros [? He%lookup_lt_Some]%H1. lia.
  - intros p1 p2 e. cbn. rewrite !lookup_insert_Some. naive_solver.
  - intros e en [He|[-> Hl]]%Hent.
    + destruct (H3 e en He) as [[x Hx] ?]. split; [|done]. exists x. cbn. by apply lookup_app_l_Some.
    + rewrite Hl. split; [exists l; by apply list_lookup_middle|]. cbn. apply lookup_lt_is_Some in H5. lia.
  - intros e1 e2 en1 en2 [K1|[-> L1]]%Hent [K2|[-> L2]]%Hent Heq; [by eapply H4|..|done].
    + apply Hlim in K1. lia.
    + apply Hlim in K2. lia.
  - cbn. destruct H5 as [x Hx]. exists x. by apply lookup_app_l_Some.
Qed.

Lemma with_project_represents m M p q l :
  rl_ok m -> represents m M -> represents (with_project m p q l) (<[p := (q, l)]> M).
Proof.
  intros Hok HM p'. unfold limiter_of. cbn. destruct (decide (p' = p)) as [->|Hpp].
  - rewrite !lookup_insert_eq. cbn. rewrite list_lookup_middle by done. cbn. by rewrite list_lookup_middle.
  - rewrite !lookup_insert_ne, <- HM by done. unfold limiter_of.
    destruct (projectRL m !! p') as [e'|] eqn:Hp'; [|done]. cbn.
    destruct (rl_entry m Hok p' e' Hp') as [en He]. rewrite He, (lookup_app_l_Some _ _ _ _ He). cbn.
    destruct (rl_lim m Hok e' en He) as [[l0 Hl0] _]. by rewrite Hl0, (lookup_app_l_Some _ _ _ _ Hl0).
Qed.

Lemma update_or_create_spec now p q m M :
  rl_ok m -> represents m M ->
  exists a m', update_or_create now p q m = (Ok a, m') /\ rl_ok m' /\ assigned m' p q a /\
    limiters m' !! a = Some (tuned now q (M !! p)) /\ represents m' (<[p := (q, tuned now q (M !! p))]> M).
Proof.
  intros Hok HM. unfold update_or_create. rewrite <- HM. destruct (limiter_of m p) as [[q0 l]|] eqn:Hl.
  - destruct (assigned_of_limiter m p q0 l Hl) as (a & (e & Hp & He) & Ha). rewrite Hp, He. cbn [qps lim tuned].
    destruct (Z.eqb_spec q0 q) as [->|Hne].
    { exists a, m. split_and!; try done; [by exists e|]. rewrite insert_id; [done|]. by rewrite <- HM. }
    rewrite (alter_as_insert _ _ _ l Ha).
    change (MkManager _ _ _ (<[a := _]> _)) with
      (set_limiters (<[a := set_rate now q l]> (limiters (with_rate m e q a))) (with_rate m e q a)).
    pose proof (with_rate_ok m e q0 q a Hok He) as Hok1.
    assert (Has : assigned (with_rate m e q a) p q a)
      by (exists e; split; [done|]; cbn; apply list_lookup_insert_eq; by eapply lookup_lt_Some).
    eexists _, _. split; [done|]. split; [by apply rl_ok_write|]. split; [exact Has|].
    split; [cbn; apply list_lookup_insert_eq; by eapply lookup_lt_Some|].
    rewrite <- (insert_insert_eq M p _ (q, l)). apply represents_write; try done.
    by eapply with_rate_represents.
  - pose proof (limiter_of_None m p Hok Hl) as Hpn. rewrite Hpn. cbn [tuned].
    exists (length (limiters m)), (with_project m p q (newLimiter now q)). split; [done|].
    split; [by apply with_project_ok|]. split.
    { exists (length (entries m)). cbn. by rewrite lookup_insert_eq, list_lookup_middle. }
    split; [cbn; by apply list_lookup_middle|]. by apply with_project_represents.
Qed.

(** [lim.Allow()] on the limiter of a project. *)
Lemma allow_spec now m M p q a l :
  rl_ok m -> represents m M -> assigned m p q a -> limiters m !! a = Some l ->
  exists m', allow now a m = (Ok (Allow now l).1, m') /\ rl_ok m' /\ represents m' (<[p := (q, (Allow now l).2)]> M).
Proof.
  intros Hok HM Has Ha. unfold allow. rewrite Ha. destruct (Allow now l) as [b l'] eqn:E. eexists. split; [done|].
  split; [by apply rl_ok_write|]. apply represents_write; try done.
Qed.

(** The middleware alone is one request of the abstract manager. *)
Lemma project_middleware_spec project now c m M n pj :
  rl_ok m -> represents m M -> gin.Get "project_name" c = Some (gin.CString n) -> project n = Some pj ->
  wp (ProjectMiddleware project now c) (fun r m' =>
    let '(b, M') := spec_request now (config.Name pj) (normalizeQPS (config.RateLimit pj)) M in
    r = Ok (if b then gin.Next c else gin.reject 429 "project rate limit exceeded" c) /\
    rl_ok m' /\ represents m' M') m.
Proof.
  intros Hok HM Hn Hpj. unfold ProjectMiddleware. rewrite Hn, Hpj. unfold GetOrCreateLimiter, spec_request.
  set (p := config.Name pj). set (q := normalizeQPS (config.RateLimit pj)).
  set (post := fun (r : result gin.verdict) (m' : Manager) => _).
  assert (Hend : forall m1 M1 a l, rl_ok m1 -> represents m1 M1 -> assigned m1 p q a -> limiters m1 !! a = Some l ->
    l = tuned now q (M !! p) -> M1 = <[p := (q, l)]> M ->
    wp (atomic (allow now a) (pass_or_429 "project rate limit exceeded" c)) post m1).
  { intros m1 M1 a l Hok1 HM1 Has Ha Hl ->. destruct (allow_spec now m1 _ p q a l Hok1 HM1 Has Ha) as (m2 & E & Hok2 & HM2).
    cbn. rewrite E. split; [done|]. cbn. unfold post. rewrite insert_insert_eq, Hl in HM2. rewrite Hl.
    destruct (Allow now (tuned now q (M !! p))) as [[] l']; done. }
  assert (Hslow : wp (bindT (atomic (update_or_create now p q) Done) (fun a =>
    atomic (allow now a) (pass_or_429 "project rate limit exceeded" c))) post m).
  { destruct (update_or_create_spec now p q m M Hok HM) as (a & m1 & E & Hok1 & Has & Ha & HM1).
    cbn [bindT atomic wp]. rewrite E. split; [done|]. by eapply Hend. }
  cbn [bindT reads wp]. split; [done|]. split; [done|].
  destruct (limiter_of m p) as [[q0 l]|] eqn:Hl.
  - destruct (assigned_of_limiter m p q0 l Hl) as (a & (e & Hp & He) & Ha). rewrite Hp. cbn. rewrite He. cbn.
    destruct (Z.eqb_spec q0 q) as [->|Hne]; [|exact Hslow].
    rewrite HM in Hl. eapply Hend; try done; [by exists e| |by rewrite insert_id]. rewrite Hl. cbn.
    by rewrite Z.eqb_refl.
  - rewrite (limiter_of_None m p Hok Hl). cbn. exact Hslow.
Qed.
End spec.

(** ** Requests one after another *)

Section requests.
Context `{RateLimiterLaws}.

(** When it comes, the configuration it meets and its context. *)
Record request := MkRequest {
  rq_time : Z;
  rq_project : string -> option config.ProjectConfig;
  rq_ctx : gin.Context;
}.

(** The project a request counts for, and the rate. *)
Definition rq_limit (r : request) : option (string * Z) :=
  match gin.Get "project_name" (rq_ctx r) with
  | Some (gin.CString n) =>
      (fun pj => (config.Name pj, normalizeQPS (config.RateLimit pj))) <$> rq_project r n
  | _ => None
  end.

(** The operations on the global limiter that happen in between. *)
Inductive global_op : Manager -> Manager -> Prop :=
| global_reload now q m : global_op m (updateGlobalLimiter now q m).2
| global_request now c m r m' : runs (GlobalMiddleware now c) m r m' -> global_op m m'.

Inductive serves : list request -> Manager -> list gin.verdict -> Manager -> Prop :=
| serves_nil m : serves [] m [] m
| serves_global rs m m1 vs m2 : global_op m m1 -> serves rs m1 vs m2 -> serves rs m vs m2
| serves_cons r rs m v m1 vs m2 :
    runs (ProjectMiddleware (rq_project r) (rq_time r) (rq_ctx r)) m (Ok v) m1 ->
    serves rs m1 vs m2 -> serves (r :: rs) m (v :: vs) m2.

(** The same as a function. *)
Fixpoint serve (rs : list request) (m : Manager) : option (list gin.verdict * Manager) :=
  match rs with
  | [] => Some ([], m)
  | r :: rs' =>
      match exec (ProjectMiddleware (rq_project r) (rq_time r) (rq_ctx r)) [] m with
      | Some (Ok v, m1) => '(vs, m2) ← serve rs' m1; Some (v :: vs, m2)
      | _ => None
      end
  end.

Lemma serve_serves rs m vs m' : serve rs m = Some (vs, m') -> serves rs m vs m'.
Proof.
  revert m vs; induction rs as [|r rs IH]; intros m vs; cbn; [intros [= <- <-]; constructor|].
  destruct (exec _ [] m) as [[[v|e|q] m1]|] eqn:E; try done.
  destruct (serve rs m1) as [[vs1 m2]|] eqn:E1; [|done]. cbn. intros [= <- <-].
  eapply serves_cons; [by eapply exec_runs|]. by apply IH.
Qed.

Definition is_next (v : gin.verdict) : bool := match v with gin.Next _ => true | gin.Abort _ => false end.

(** The requests of project [p] let through. *)
Fixpoint passed (p : string) (rs : list request) (vs : list gin.verdict) : Z :=
  match rs, vs with
  | r :: rs', v :: vs' =>
      ((if bool_decide (fst <$> rq_limit r = Some p) && is_next v then 1 else 0) + passed p rs' vs')%Z
  | _, _ => 0%Z
  end.

(** Times do not decrease and end by [t1]. *)
Fixpoint in_order (t0 : Z) (rs : list request) (t1 : Z) : Prop :=
  match rs with
  | [] => (t0 <= t1)%Z
  | r :: rs' => (t0 <= rq_time r)%Z /\ in_order (rq_time r) rs' t1
  end.

Lemma in_order_le t0 rs t1 : in_order t0 rs t1 -> (t0 <= t1)%Z.
Proof. revert t0; induction rs as [|r rs IH]; intros t0; cbn; [done|]. intros [? ?%IH]. lia. Qed.

Lemma global_write m M l' :
  rl_ok m -> represents m M -> let m' := set_limiters (<[globalRL m := l']> (limiters m)) m in
  rl_ok m' /\ represents m' M.
Proof.
  intros Hok HM. split; [by apply rl_ok_write|]. intros p. rewrite <- HM. unfold limiter_of. cbn.
  destruct (projectRL m !! p) as [e|]; [|done]. cbn. destruct (entries m !! e) as [en|] eqn:He; [|done]. cbn.
  destruct (rl_lim m Hok e en He). by rewrite list_lookup_insert_ne.
Qed.

Lemma global_op_spec m m' M : global_op m m' -> rl_ok m -> represents m M -> rl_ok m' /\ represents m' M.
Proof.
  intros Hop Hok HM. destruct (rl_global m Hok) as [l Hl]. destruct Hop as [now q m|now c m r m' Hr].
  - cbn. rewrite (alter_as_insert _ _ _ l Hl). by apply global_write.
  - apply (wp_runs _ (fun _ m' => rl_ok m' /\ represents m' M) _ _ _) in Hr; [done|].
    unfold GlobalMiddleware, GlobalLimit, allow, atomic. cbn. split; [done|]. rewrite Hl.
    destruct (Allow now l) as [b l']. cbn. by apply global_write.
Qed.

(** Every limiter is set as its entry says. *)
Definition tuned_ok (M : gmap string (Z * Limiter)) : Prop :=
  forall p q l, M !! p = Some (q, l) -> Limit l = f64_of_Z q /\ Burst l = wrap64 (q * 2).

Lemma normalizeQPS_idem q : normalizeQPS (normalizeQPS q) = normalizeQPS q.
Proof. unfold normalizeQPS. destruct (Z.leb_spec q 0); [done|]. destruct (Z.leb_spec q 0); [lia|done]. Qed.

Lemma tuned_set now q M p :
  tuned_ok M -> normalizeQPS q = q ->
  Limit (tuned now q (M !! p)) = f64_of_Z q /\ Burst (tuned now q (M !! p)) = wrap64 (q * 2).
Proof.
  intros HM Hq. unfold tuned. destruct (M !! p) as [[q0 l]|] eqn:E.
  - destruct (Z.eqb_spec q0 q) as [->|_]; [by apply (HM p)|]. unfold set_rate.
    by rewrite setBurst_limit, setLimit_limit, setBurst_burst.
  - unfold newLimiter. by rewrite Hq, new_limit, new_burst.
Qed.

Lemma spec_request_tuned now p q M :
  tuned_ok M -> normalizeQPS q = q -> tuned_ok (spec_request now p q M).2.
Proof.
  intros HM Hq. unfold spec_request. destruct (tuned_set now q M p HM Hq) as [Hl Hb].
  pose proof (allow_limit now (tuned now q (M !! p))) as Hal. pose proof (allow_burst now (tuned now q (M !! p))) as Hab.
  destruct (Allow now (tuned now q (M !! p))) as [b l]. cbn in *. intros p' q' l'.
  rewrite lookup_insert_Some. intros [[<- [= <- <-]]|[_ HM']]; [|by apply (HM p')]. split; congruence.
Qed.

(** A request, whichever project it is for, as the abstract manager sees it. *)
Definition spec_step (r : request) (M : gmap string (Z * Limiter)) : bool * gmap string (Z * Limiter) :=
  match rq_limit r with
  | Some (p, q) => spec_request (rq_time r) p q M
  | None => (true, M)
  end.

Lemma rq_limit_normal r p q : rq_limit r = Some (p, q) -> normalizeQPS q = q.
Proof.
  unfold rq_limit. destruct (gin.Get _ _) as [[n| |]|]; try done.
  destruct (rq_project r n); cbn; [|done]. intros [= <- <-]. apply normalizeQPS_idem.
Qed.

Lemma request_spec r m M :
  rl_ok m -> represents m M ->
  wp (ProjectMiddleware (rq_project r) (rq_time r) (rq_ctx r)) (fun res m' =>
    (exists v, res = Ok v /\ is_next v = (spec_step r M).1) /\ rl_ok m' /\ represents m' (spec_step r M).2) m.
Proof.
  intros Hok HM. unfold spec_step, rq_limit.
  destruct (gin.Get "project_name" (rq_ctx r)) as [[n| |]|] eqn:Hn;
    [|unfold ProjectMiddleware; rewrite Hn; cbn; eauto..].
  destruct (rq_project r n) as [pj|] eqn:Hpj; [|unfold ProjectMiddleware; rewrite Hn, Hpj; cbn; eauto].
  cbn [fmap option_fmap option_map]. eapply wp_mono; [|by eapply project_middleware_spec].
  intros res m'. cbn. destruct (spec_request _ _ _ M) as [b M']. cbn. intros (-> & ? & ?).
  split; [|done]. eexists. split; [done|]. by destruct b.
Qed.

(** What is left for [p] at time [t], in billionths of a request. *)
Definition budget (p : string) (q t : Z) (M : gmap string (Z * Limiter)) : Z :=
  match M !! p with
  | Some (q0, l) => if (q0 =? q)%Z then TokensAt t l else 2 * q * oneToken
  | None => 2 * q * oneToken
  end.

Section bound.
Context (p : string) (q : Z) (Hq : (0 < q < 2 ^ 53)%Z).

Lemma wrap_2q : wrap64 (q * 2) = (2 * q)%Z.
Proof. rewrite wrap64_id; [lia|]. unfold in_int64, two63. lia. Qed.

Lemma budget_later t t' M :
  tuned_ok M -> (t <= t')%Z -> (budget p q t' M <= budget p q t M + q * (t' - t))%Z.
Proof.
  intros HM Ht. unfold budget. destruct (M !! p) as [[q0 l]|] eqn:E; [|nia].
  destruct (Z.eqb_spec q0 q) as [->|_]; [|nia]. destruct (HM p q l E) as [Hl _].
  apply (refill t t' q l Hq Hl Ht).
Qed.

Lemma budget_tuned t M : tuned_ok M -> (TokensAt t (tuned t q (M !! p)) <= budget p q t M)%Z.
Proof.
  intros HM.
  assert (Hn : normalizeQPS q = q) by (unfold normalizeQPS; destruct (Z.leb_spec q 0); lia).
  destruct (tuned_set t q M p HM Hn) as [_ Hb]. pose proof (bucket_size t (tuned t q (M !! p))) as Hs.
  rewrite Hb, wrap_2q in Hs. unfold budget, tuned in *.
  destruct (M !! p) as [[q0 l]|]; [|done]. destruct (q0 =? q)%Z; [lia|done].
Qed.

Lemma budget_request t M :
  tuned_ok M ->
  let '(b, M') := spec_request t p q M in
  (budget p q t M' + (if b then oneToken else 0) <= budget p q t M)%Z /\ (b = true -> 0 <= budget p q t M')%Z.
Proof.
  intros HM. pose proof (budget_tuned t M HM) as Hb. unfold spec_request.
  pose proof (allow_takes t (tuned t q (M !! p))) as Ht. pose proof (allow_iff t (tuned t q (M !! p))) as Hi.
  destruct (Allow t (tuned t q (M !! p))) as [b l]. cbn in Ht, Hi.
  assert (Hl : budget p q t (<[p := (q, l)]> M) = TokensAt t l)
    by (unfold budget; by rewrite lookup_insert_eq, Z.eqb_refl).
  rewrite Hl. destruct b; split; try done; try lia.
Qed.

(** Whether a request counts for [p] and passed. *)
Definition counts (r : request) (b : bool) : bool := bool_decide (fst <$> rq_limit r = Some p) && b.

Lemma budget_step t r M :
  tuned_ok M -> (t <= rq_time r)%Z -> (forall q', rq_limit r = Some (p, q') -> q' = q) ->
  let '(b, M') := spec_step r M in
  (budget p q (rq_time r) M' + (if counts r b then oneToken else 0) <= budget p q t M + q * (rq_time r - t))%Z /\
  (counts r b = true -> 0 <= budget p q (rq_time r) M')%Z /\ tuned_ok M'.
Proof.
  intros HM Ht Hr. pose proof (budget_later t (rq_time r) M HM Ht) as Hlater. unfold spec_step, counts.
  destruct (rq_limit r) as [[p' q']|] eqn:E; [|rewrite bool_decide_false by done; cbn [andb]; split_and!; [lia|done|done]].
  cbn [fmap option_fmap option_map fst].
  pose proof (spec_request_tuned (rq_time r) p' q' M HM (rq_limit_normal r p' q' E)) as HM'.
  case_bool_decide as Hp.
  - injection Hp as ->. rewrite (Hr q' eq_refl) in *. pose proof (budget_request (rq_time r) M HM) as Hbn.
    destruct (spec_request _ _ _ M) as [b M'']. destruct Hbn as [Hb Hn]. cbn in *. split_and!; [destruct b; lia|done|done].
  - assert (Hother : (spec_request (rq_time r) p' q' M).2 !! p = M !! p).
    { unfold spec_request. destruct (Allow _ _). cbn. rewrite lookup_insert_ne; [done|]. congruence. }
    destruct (spec_request _ _ _ M) as [b M'']. cbn in *. split_and!; [|done|done].
    assert (budget p q (rq_time r) M'' = budget p q (rq_time r) M) as -> by (unfold budget; by rewrite Hother). lia.
Qed.

Lemma passed_bound rs t0 t1 m M vs m' :
  rl_ok m -> represents m M -> tuned_ok M -> serves rs m vs m' -> in_order t0 rs t1 ->
  Forall (fun r => forall q', rq_limit r = Some (p, q') -> q' = q) rs ->
  passed p rs vs = 0%Z \/ (oneToken * passed p rs vs <= budget p q t0 M + q * (t1 - t0))%Z.
Proof.
  intros Hok HM Ht Hs. revert t0 M Hok HM Ht. induction Hs as [m|rs m m1 vs m2 Hop _ IH|r rs m v m1 vs m2 Hrun _ IH];
    intros t0 M Hok HM Ht Hord Hall; [by left| |].
  { destruct (global_op_spec m m1 M Hop Hok HM). by apply IH. }
  cbn in Hord. destruct Hord as [Hle Hord]. apply Forall_cons in Hall as [Hr Hall].
  pose proof (wp_runs _ _ _ _ _ (request_spec r m M Hok HM) Hrun) as ((v' & [= <-] & Hv) & Hok1 & HM1).
  pose proof (budget_step t0 r M Ht Hle Hr) as Hb. destruct (spec_step r M) as [b M1]. cbn in Hv, HM1.
  destruct Hb as (Hb & Hn & Ht1). specialize (IH (rq_time r) M1 Hok1 HM1 Ht1 Hord Hall).
  pose proof (in_order_le _ _ _ Hord). cbn [passed]. rewrite Hv. fold (counts r b). destruct (counts r b).
  - specialize (Hn eq_refl). right. destruct IH as [-> |IH]; nia.
  - destruct IH as [-> |IH]; [by left|right]. nia.
Qed.
End bound.

(** The state after any requests from the start. *)
Lemma serves_inv rs m vs m' M :
  serves rs m vs m' -> rl_ok m -> represents m M -> tuned_ok M ->
  exists M', rl_ok m' /\ represents m' M' /\ tuned_ok M'.
Proof.
  intros Hs. revert M. induction Hs as [m|rs m m1 vs m2 Hop _ IH|r rs m v m1 vs m2 Hrun _ IH];
    intros M Hok HM Ht; [by exists M| |].
  { destruct (global_op_spec m m1 M Hop Hok HM). by eapply IH. }
  pose proof (wp_runs _ _ _ _ _ (request_spec r m M Hok HM) Hrun) as (_ & Hok1 & HM1).
  eapply IH; [done|done|]. unfold spec_step. destruct (rq_limit r) as [[p q]|] eqn:E; [|done].
  apply spec_request_tuned; [done|]. by eapply rq_limit_normal.
Qed.

Lemma NewManager_represents now c : represents (NewManager now c) ∅.
Proof. intros p. by rewrite lookup_empty. Qed.

Lemma started rs now c vs m :
  serves rs (NewManager now c) vs m -> exists M, rl_ok m /\ represents m M /\ tuned_ok M.
Proof.
  intros Hs. eapply (serves_inv _ _ _ _ ∅); [done|apply NewManager_ok|apply NewManager_represents|].
  intros p q l. by rewrite lookup_empty.
Qed.

Lemma budget_max p q t M : (0 < q < 2 ^ 53)%Z -> tuned_ok M -> (budget p q t M <= 2 * q * oneToken)%Z.
Proof.
  intros Hq Ht. unfold budget. destruct (M !! p) as [[q0 l]|] eqn:E; [|done].
  destruct (Z.eqb_spec q0 q) as [->|_]; [|done].
  pose proof (bucket_size t l) as Hs. destruct (Ht p q l E) as [_ Hbu]. rewrite Hbu, wrap_2q in Hs; lia.
Qed.


(** A rate limit of 2^62 or more makes [qps * 2] negative, and a bucket of
    negative size refuses every request. *)
Theorem overflowing_rate_refuses_all before now cfg vs0 m r p q :
  serves before (NewManager now cfg) vs0 m -> rq_limit r = Some (p, q) -> (2 ^ 62 <= q < two63)%Z ->
  wp (ProjectMiddleware (rq_project r) (rq_time r) (rq_ctx r)) (fun res _ =>
    exists v, res = Ok v /\ is_next v = false) m.
Proof.
  intros Hb0 Hr Hq. destruct (started _ _ _ _ _ Hb0) as (M & Hok & HM & Ht).
  eapply wp_mono; [|apply (request_spec r m M Hok HM)]. intros res m' [(v & -> & Hv) _]. exists v. split; [done|].
  rewrite Hv. unfold spec_step. rewrite Hr. unfold spec_request. set (l := tuned (rq_time r) q (M !! p)).
  destruct (tuned_set (rq_time r) q M p Ht (rq_limit_normal r p q Hr)) as [_ Hb]. fold l in Hb.
  pose proof (bucket_size (rq_time r) l) as Hs. rewrite Hb, wrap64_above in Hs by (unfold two63, two64 in *; lia).
  pose proof (allow_iff (rq_time r) l) as [Hi _].
  destruct (Allow (rq_time r) l) as [[] l']; [|done]. cbn in *. specialize (Hi eq_refl).
  unfold two63, two64, oneToken in *. lia.
Qed.
End requests.

(** ** A token bucket that satisfies the interface *)

Record bucket := MkBucket { bk_limit : f64; bk_burst : Z; bk_tokens : Z; bk_last : Z }.

Definition bucket_at (t : Z) (b : bucket) : Z :=
  Z.min (bk_burst b * oneToken) (bk_tokens b + f64_trunc (bk_limit b) * Z.max 0 (t - bk_last b)).

Definition bucket_allow (t : Z) (b : bucket) : bool * bucket :=
  let n := bucket_at t b in
  let ok := (oneToken <=? n)%Z in
  (ok, MkBucket (bk_limit b) (bk_burst b) (if ok then n - oneToken else n)%Z t).

#[export] Instance bucket_limiter : RateLimiter := {|
  Limiter := bucket;
  NewLimiter t r b := MkBucket r b (b * oneToken) t;
  SetLimit t r l := MkBucket r (bk_burst l) (bucket_at t l) t;
  SetBurst t b l := MkBucket (bk_limit l) b (bucket_at t l) t;
  Allow := bucket_allow;
  Limit := bk_limit;
  Burst := bk_burst;
  TokensAt := bucket_at;
|}.

#[export] Instance bucket_laws : RateLimiterLaws.
Proof.
  assert (Hsame : forall t r b n, bucket_at t (MkBucket r b n t) = Z.min (b * oneToken) n).
  { intros. unfold bucket_at. cbn. rewrite Z.sub_diag, Z.max_id. lia. }
  split; try done; cbn; intros; rewrite ?Hsame.
  - lia.
  - lia.
  - lia.
  - apply Z.leb_le.
  - unfold bucket_at, oneToken. destruct (_ <=? _)%Z; lia.
  - unfold bucket_at. lia.
  - unfold bucket_at. replace (bk_limit l) with (f64_of_Z qps0) by done. rewrite f64_trunc_of_Z by lia. nia.
Qed.

(** Three requests of a project limited to one per second at the same moment:
    two pass. *)
Definition wit_pj : config.ProjectConfig := config.MkProjectConfig "web" true [] 1 0 false [].
Definition wit_project (n : string) : option config.ProjectConfig := if String.eqb n "web" then Some wit_pj else None.
Definition wit_ctx : gin.Context := gin.Set_ "project_name" (gin.CString "web") (gin.MkContext ∅ ∅ None [] ∅).
Definition wit_rq : request := MkRequest 0 wit_project wit_ctx.

Definition wit_start : Manager := NewManager 0 (config.applyDefaults empty_config).


Lemma overflowing_rate_refuses_all_witness :
  let r := MkRequest 0 (fun _ => Some (config.MkProjectConfig "web" true [] (2 ^ 62) 0 false [])) wit_ctx in
  wp (ProjectMiddleware (rq_project r) (rq_time r) (rq_ctx r)) (fun res _ =>
    exists v, res = Ok v /\ is_next v = false) wit_start.
Proof.
  apply (overflowing_rate_refuses_all [] 0 (config.applyDefaults empty_config) [] wit_start _ "web" (2 ^ 62)).
  - apply serves_nil.
  - reflexivity.
  - unfold two63. lia.
Defined.
