(* ===== verification/Observability.v ===== *)
(** * Package [observability] (internal/observability/observability.go)

    The health checker: probes registered by name, a background goroutine
    that runs them and caches the results, and the endpoints that report
    them.  A probe is asked of the outside world, which the state carries
    along with the time; [h.mu] makes each locked section one action. *)

From Stdlib Require Import ZArith Lia Ascii String SpecFloat.
From stdpp Require Import base tactics numbers strings gmap list.
From S2P Require Import Prelude GoStrings GoFloat Threads ConfigPkg.

Module observability.
Local Open Scope go_scope.

Definition Second : Z := 1000000000.

(** What a call of a probe does: its outcome and how long it takes. *)
Record probe_run := MkProbeRun { pr_outcome : result unit; pr_time : Z }.

Section checker.
Context {W : Type}.

Definition Probe : Type := W -> probe_run.

Record HealthChecker := MkHealthChecker {
  statuses : gmap string bool;
  probes : gmap string Probe;
  lastCheck : Z;
  stopOnce : bool;
  stopClosed : bool;
  world : W;
  now : Z;
}.

Definition NewHealthChecker (w : W) (t : Z) : HealthChecker := MkHealthChecker ∅ ∅ 0 false false w t.

Definition set_statuses (st : gmap string bool) (h : HealthChecker) : HealthChecker :=
  MkHealthChecker st (probes h) (now h) (stopOnce h) (stopClosed h) (world h) (now h).
Definition set_probes (ps : gmap string Probe) (h : HealthChecker) : HealthChecker :=
  MkHealthChecker (statuses h) ps (lastCheck h) (stopOnce h) (stopClosed h) (world h) (now h).
Definition set_now (t : Z) (h : HealthChecker) : HealthChecker :=
  MkHealthChecker (statuses h) (probes h) (lastCheck h) (stopOnce h) (stopClosed h) (world h) t.

Definition Register (name : string) (probe : Probe) : St HealthChecker unit :=
  modify (fun h => set_probes (<[name := probe]> (probes h)) h).

Definition norm_timeout (timeout : Z) : Z := if (timeout <=? 0)%Z then 3 * Second else timeout.

(** The [select] between the probe's answer and the deadline; a panic of the
    probe is recovered in its own goroutine and becomes an error.  [tie] is
    the choice of [select] when both are ready. *)
Definition probe_result (run : probe_run) (timeout : Z) (tie : bool) : result unit :=
  let timeout := norm_timeout timeout in
  if (pr_time run <? timeout)%Z || (pr_time run =? timeout)%Z && tie then
    match pr_outcome run with
    | Panic p => Err (ErrorString ("panic: " +:+ p))
    | r => r
    end
  else Err (ErrorString "context deadline exceeded").

(** Time passes while the probe runs. *)
Definition runProbe (probe : Probe) (timeout : Z) (k : result unit -> Thr HealthChecker unit) :
    Thr HealthChecker unit :=
  let act tie := atomic (fun h =>
    let run := probe (world h) in
    (Ok (probe_result run timeout tie), set_now (now h + Z.min (pr_time run) (norm_timeout timeout))%Z h))
    (fun r => match r with Ok x => k x | Err e => Done (Err e) | Panic p => Done (Panic p) end) in
  Choose (act true) (act false).

(** The loop over a copy of the probes, in the order of its iteration. *)
Fixpoint check_probes (ps : list (string * Probe)) (st : gmap string bool) : Thr HealthChecker unit :=
  match ps with
  | [] => atomic (modify (set_statuses st)) Done
  | (name, probe) :: ps' =>
      runProbe probe (3 * Second) (fun r => check_probes ps' (<[name := is_ok r]> st))
  end.

Definition checkAll : Thr HealthChecker unit :=
  Atomic (fun _ => true) (fun h => h) (fun h => check_probes (map_to_list (probes h)) ∅).

(** [n] turns of the goroutine that [Run] starts; a tick or the closing of
    [stopCh] comes first. *)
Fixpoint check_loop (n : nat) : Thr HealthChecker unit :=
  match n with
  | O => Done (Ok tt)
  | S n' =>
      Choose (await stopClosed (ret tt) (fun _ => Done (Ok tt)))
             (bindT checkAll (fun _ => check_loop n'))
  end.

Definition norm_interval (interval : Z) : Z := if (interval <=? 0)%Z then 5 * Second else interval.

(** The goroutine of [Run], with a deferred [recover]. *)
Definition Run (n : nat) : Thr HealthChecker unit :=
  recoverT (fun _ => Done (Ok tt)) (bindT checkAll (fun _ => check_loop n)).

(** The function [Run] returns. *)
Definition stop : St HealthChecker unit := fun h =>
  if stopOnce h then (Ok tt, h) else
  if stopClosed h then (Panic "close of closed channel", h) else
  (Ok tt, MkHealthChecker (statuses h) (probes h) (lastCheck h) true true (world h) (now h)).

Definition Status (h : HealthChecker) : gmap string bool :=
  foldl (fun acc kv => <[kv.1 := kv.2]> acc) ∅ (map_to_list (statuses h)).

Definition Healthy (h : HealthChecker) : bool :=
  forallb snd (map_to_list (statuses h)) && bool_decide (0 < size (statuses h)).

(** ** Endpoints *)

(** [GET /health]: [Status] and [Healthy] lock separately. *)
Record HealthReport := MkHealthReport { hr_code : Z; hr_status : bool; hr_components : gmap string bool }.

Definition health : Thr HealthChecker HealthReport :=
  atomic (fun h => (Ok (Status h), h)) (fun r =>
  match r with
  | Ok status =>
      atomic (fun h => (Ok (Healthy h), h)) (fun r =>
      match r with
      | Ok healthy => Done (Ok (MkHealthReport (if healthy : bool then 200 else 503) healthy status))
      | Err e => Done (Err e)
      | Panic p => Done (Panic p)
      end)
  | Err e => Done (Err e)
  | Panic p => Done (Panic p)
  end).

(** [GET /ready]. *)
Definition ready (h : HealthChecker) : Z * bool := if Healthy h then (200%Z, true) else (503%Z, false).
End checker.
Arguments HealthChecker W : clear implicits.
Arguments Probe W : clear implicits.

(** [GET metricsPath]. *)
Definition metricsPath (c : config.Config) : string :=
  if String.eqb (config.MetricsPath (config.Metrics c)) "" then "/metrics" else config.MetricsPath (config.Metrics c).

(** The routes [RegisterHealthEndpoints] adds, in order: method and path. *)
Definition health_routes (c : config.Config) : list (string * string) :=
  [("GET", "/health"); ("GET", "/ready"); ("GET", metricsPath c); ("POST", "/admin/config/reload"); ("GET", "/admin/pools")].

(** [POST /admin/config/reload]. *)
Definition admin_reload {V} (readFile : string -> St V bytes) (yaml : bytes -> result config.Config) :
    St (config.Manager V * V) Z := fun s =>
  match config.Reload readFile yaml s with
  | (Ok _, s') => (Ok 200%Z, s')
  | (Err _, s') => (Ok 500%Z, s')
  | (Panic p, s') => (Panic p, s')
  end.
End observability.

Import observability.

(** ** Health *)

Section health.
Context {W : Type}.
Abbreviation HC := (HealthChecker W).

(** What a check would find now: the probe answers nil before the deadline. *)
Definition answers (p : Probe W) (w : W) : Prop := pr_outcome (p w) = Ok tt /\ (pr_time (p w) < 3 * Second)%Z.
Definition fails (p : Probe W) (w : W) : Prop := pr_outcome (p w) <> Ok tt \/ (3 * Second < pr_time (p w))%Z.

Lemma probe_result_ok p w tie : answers p w -> probe_result (p w) (3 * Second) tie = Ok tt.
Proof.
  intros [Ho Ht]. unfold probe_result. change (norm_timeout (3 * Second)) with (3 * Second)%Z.
  rewrite (proj2 (Z.ltb_lt _ _) Ht), Ho. done.
Qed.

Lemma probe_result_fails p w tie : fails p w -> is_ok (probe_result (p w) (3 * Second) tie) = false.
Proof.
  unfold fails, probe_result. change (norm_timeout (3 * Second)) with (3 * Second)%Z. intros [Ho|Ht].
  - destruct (_ || _); [|done]. by destruct (pr_outcome (p w)) as [[]|e|q].
  - destruct (Z.ltb_spec (pr_time (p w)) (3 * Second)), (Z.eqb_spec (pr_time (p w)) (3 * Second)); done || lia.
Qed.

Lemma healthy_spec (h : HC) : Healthy h = true <-> statuses h <> ∅ /\ map_Forall (fun _ b => b = true) (statuses h).
Proof.
  unfold Healthy. rewrite andb_true_iff, bool_decide_eq_true, forallb_forall. split.
  - intros [Hall Hs]. split; [intros He; rewrite He, map_size_empty in Hs; lia|].
    intros k b Hk. apply (Hall (k, b)). by apply list_elem_of_In, elem_of_map_to_list.
  - intros [Hne Hall]. split.
    + intros [k b] Hin%list_elem_of_In%elem_of_map_to_list. by apply (Hall k b).
    + assert (size (statuses h) <> 0) by (intros Hz; by apply map_size_empty_inv in Hz); lia.
Qed.

Lemma status_copy (h : HC) : Status h = statuses h.
Proof. unfold Status. rewrite foldl_insert_union. apply map_union_empty. Qed.

(** What a finished check leaves. *)
Definition checked (h : HC) (st : gmap string bool) (h' : HC) : Prop :=
  statuses h' = st /\ probes h' = probes h /\ world h' = world h /\ stopClosed h' = stopClosed h /\
  lastCheck h' = now h'.

Definition verdict_ok (p : Probe W) (w : W) (b : bool) : Prop :=
  (answers p w -> b = true) /\ (fails p w -> b = false).

Lemma verdict_result p w tie : verdict_ok p w (is_ok (probe_result (p w) (3 * Second) tie)).
Proof. split; [intros Ha; by rewrite probe_result_ok|apply probe_result_fails]. Qed.

Lemma check_probes_spec ps st (h : HC) :
  NoDup ps.*1 ->
  wp (check_probes ps st) (fun r h' => r = Ok tt /\ (now h' <= now h + Z.of_nat (length ps) * (3 * Second))%Z /\
    exists st', checked h st' h' /\ (forall n, n ∉ ps.*1 -> st' !! n = st !! n) /\
      forall n p, (n, p) ∈ ps -> exists b, st' !! n = Some b /\ verdict_ok p (world h) b) h.
Proof.
  revert st h; induction ps as [|[n p] ps IH]; intros st h Hnd; cbn [check_probes].
  { cbn. split_and!; [done|done|lia|]. exists st. split_and!; [done| |]; [done|]. intros n p Hin. by apply elem_of_nil in Hin. }
  apply NoDup_cons in Hnd as [Hn Hnd].
  assert (Htie : forall tie, wp (check_probes ps (<[n := is_ok (probe_result (p (world h)) (3 * Second) tie)]> st))
    (fun r h' => r = Ok tt /\ (now h' <= now h + Z.of_nat (length ((n, p) :: ps)) * (3 * Second))%Z /\
      exists st', checked h st' h' /\ (forall n', n' ∉ ((n, p) :: ps).*1 -> st' !! n' = st !! n') /\
        forall n' p', (n', p') ∈ (n, p) :: ps -> exists b, st' !! n' = Some b /\ verdict_ok p' (world h) b)
    (set_now (now h + Z.min (pr_time (p (world h))) (3 * Second)) h)).
  { intros tie. eapply wp_mono; [|apply IH, Hnd]. intros r h' (-> & Ht & st' & Hc & Hout & Hin). split; [done|].
    split; [cbn [now set_now length] in *; lia|]. exists st'. split; [exact Hc|]. split.
    - intros n' Hn'. cbn in Hn'. rewrite not_elem_of_cons in Hn'. rewrite Hout by naive_solver.
      by rewrite lookup_insert_ne by naive_solver.
    - intros n' p' [[= -> ->]|Hps]%elem_of_cons; [|by apply Hin]. eexists. rewrite Hout by done.
      rewrite lookup_insert_eq. split; [done|]. apply verdict_result. }
  cbn. split_and!; [intros _; split; [done|apply Htie]..|by left].
Qed.

End health.

(** Stopping the checker, as a shutdown does, leaves the readiness as it is. *)
Theorem ready_ignores_shutdown {W} (h : HealthChecker W) : ready (stop h).2 = ready h.
Proof. unfold stop. by destruct (stopOnce h), (stopClosed h). Qed.
