(* ===== verification/Auth.v ===== *)
(** * Package [auth] (internal/auth/auth.go)

    The HMAC middleware.  A request is its headers and body; the key store is
    an interface of the code, the project decoded from the body an argument
    ([Server.peekProject]); the state is the nonce cache. *)

From Stdlib Require Import ZArith Lia Ascii String.
From stdpp Require Import base tactics numbers strings gmap list.
From S2P Require Import Prelude GoStrings GoCrypto ConfigPkg.

Module auth.
Local Open Scope go_scope.

Definition Second : Z := 1000000000.

(** [AppKeyStore]. *)
Record AppKeyStore := MkAppKeyStore {
  GetSecret : string -> result string;
  IsAuthorized : string -> string -> result bool;
}.

(** [nonceCache]: the time each key was seen at, in nanoseconds. *)
Abbreviation nonces := (gmap string Z).

(** What the middleware reads of a [gin.Context]: headers (absent ones are
    empty), the value stored under "raw_body", which may be of another type,
    and the body, which may be nil or fail to read. *)
Record Request := MkRequest {
  X_App_Key : string;
  X_Timestamp : string;
  X_Nonce : string;
  X_Signature : string;
  raw_body : option (option bytes);
  body : option (result bytes);
}.

(** [c.Next()], with the app key stored in the context and the context's
    request as the next handler finds it, or [c.Abort()]. *)
Inductive Outcome :=
| Next (app_key : option string) (r : Request)
| Abort (code : Z) (msg : string).

Definition to_bytes (s : string) : bytes := list_ascii_of_string s.

Definition abs (x : Z) : Z := if (x <? 0)%Z then wrap64 (- x) else x.

(** ** Signatures *)

Definition computeHMACBytes (secret : string) (data : bytes) : bytes := hmac_sha256 (to_bytes secret) data.

Definition computeHMAC (secret : string) (bdy : bytes) (timestamp nonce : string) : bytes :=
  hex_EncodeToString (computeHMACBytes secret (bdy ++ to_bytes timestamp ++ to_bytes nonce)).

Definition verifyHMAC (secret : string) (bdy : bytes) (timestamp nonce : string) (signature : string) : bool :=
  if String.eqb signature "" then false else
  match hex_DecodeString (to_bytes signature) with
  | None => false
  | Some got => hmac_Equal (computeHMACBytes secret (bdy ++ to_bytes timestamp ++ to_bytes nonce)) got
  end.

(** ** Nonces *)

(** [NewMiddleware]: the store of the keys and an empty cache of nonces. *)
Record Middleware := MkMiddleware { keyStore : AppKeyStore; nonceCache : nonces }.
Definition NewMiddleware (store : AppKeyStore) : result Middleware := Ok (MkMiddleware store ∅).

Definition nonce_key (appKey nonce : string) : string := appKey +:+ String "000" nonce.

(** The oldest entry of the cache in the order of iteration; the empty key
    stands for none. *)
Definition older (a b : string * Z) : string * Z :=
  if String.eqb a.1 "" || (b.2 <? a.2)%Z then b else a.
Definition oldest (l : list (string * Z)) : string * Z := foldl older ("", 0%Z) l.

(** [for len(cache) >= max]: at most one turn per entry. *)
Fixpoint evict (fuel : nat) (max : Z) (c : nonces) : nonces :=
  match fuel with
  | O => c
  | S fuel' =>
      if (Z.of_nat (size c) <? max)%Z then c else
      let '(k, _) := oldest (map_to_list c) in
      if String.eqb k "" then c else evict fuel' max (delete k c)
  end.

(** Whether the nonce was seen before; [now] in nanoseconds. *)
Definition consumeNonce (appKey nonce : string) (ttlSeconds maxNonces now : Z) (c : nonces) : bool * nonces :=
  let ttl := if (ttlSeconds <=? 0)%Z then 300%Z else ttlSeconds in
  let max := if (maxNonces <=? 0)%Z then 100000%Z else maxNonces in
  let key := nonce_key appKey nonce in
  let expireBefore := (now + wrap64 (- ttl * Second))%Z in
  let c := filter (fun kt => (expireBefore <= kt.2)%Z) c in
  match c !! key with
  | Some _ => (true, c)
  | None => (false, <[key := now]> (evict (size c) max c))
  end.

(** ** The handler *)

Section handler.
Context (cfg : config.AuthConfig) (store : AppKeyStore) (peekProject : bytes -> option string).

(** The body, and the context after reading it: the bytes are kept under
    "raw_body" and the body can be read again. *)
Definition rawBodyFromContext (r : Request) : option bytes * Request :=
  match raw_body r with
  | Some b => (b, r)
  | None =>
      match body r with
      | Some (Ok b) =>
          (Some b, MkRequest (X_App_Key r) (X_Timestamp r) (X_Nonce r) (X_Signature r) (Some (Some b)) (Some (Ok b)))
      | _ => (None, r)
      end
  end.

Definition authorizeProject (appKey project : string) : bool :=
  match IsAuthorized store appKey project with Ok b => b | _ => false end.

Definition valid_secret (appKey : string) : option string :=
  match GetSecret store appKey with
  | Ok s => if String.eqb s "" then None else Some s
  | _ => None
  end.

(** A json error or an empty project skips the check. *)
Definition project_ok (appKey : string) (b : bytes) : bool :=
  match peekProject b with
  | Some p => if String.eqb p "" then true else authorizeProject appKey p
  | None => true
  end.

(** The clock is read twice, by the handler ([now]) and by [consumeNonce]
    ([now']). *)
Definition Handler (r : Request) (now now' : Z) (c : nonces) : Outcome * nonces :=
  if negb (config.AuthEnabled cfg) then (Next None r, c) else
  match rawBodyFromContext r with
  | (None, _) => (Abort 400 "request body not available", c)
  | (Some bodyBytes, r') =>
      if String.eqb (X_App_Key r) "" then (Abort 401 "missing X-App-Key header", c) else
      match valid_secret (X_App_Key r) with
      | None => (Abort 401 "invalid app key", c)
      | Some secret =>
          match ParseInt (X_Timestamp r) with
          | None => (Abort 401 "invalid timestamp", c)
          | Some ts =>
              if (config.TimestampWindow cfg <? abs ((now / Second)%Z -64 ts))%Z
              then (Abort 401 "timestamp out of window", c) else
              if String.eqb (X_Nonce r) "" then (Abort 401 "missing nonce", c) else
              if negb (verifyHMAC secret bodyBytes (X_Timestamp r) (X_Nonce r) (X_Signature r))
              then (Abort 401 "signature mismatch", c) else
              if negb (project_ok (X_App_Key r) bodyBytes)
              then (Abort 403 "app key is not authorized for project", c) else
              let '(seen, c') := consumeNonce (X_App_Key r) (X_Nonce r) (config.NonceTTLSeconds cfg)
                                   (config.NonceCacheSize cfg) now' c in
              if seen then (Abort 401 "nonce already used", c')
              else (Next (Some (X_App_Key r)) r', c')
          end
      end
  end.
End handler.
End auth.

Import auth.
Local Open Scope go_scope.

(** ** The nonce cache *)

Definition nonempty_keys (c : nonces) : Prop := forall k, is_Some (c !! k) -> k <> "".

Lemma nonce_key_nonempty a n : nonce_key a n <> "".
Proof. unfold nonce_key. by destruct a. Qed.

Lemma oldest_elem l : l <> [] -> Forall (fun kt : string * Z => kt.1 <> "") l -> oldest l ∈ l /\ (oldest l).1 <> "".
Proof.
  intros Hne Hk. unfold oldest.
  assert (Hgen : forall l a, Forall (fun kt : string * Z => kt.1 <> "") l -> a.1 <> "" ->
    (foldl older a l = a \/ foldl older a l ∈ l) /\ (foldl older a l).1 <> "").
  { clear l Hne Hk. induction l as [|b l IH]; intros a Hk Ha; cbn [foldl]; [by split; [left|]|].
    apply Forall_cons in Hk as [Hb Hl].
    assert (Hab : older a b = b \/ older a b = a) by (unfold older; destruct (_ || _); auto).
    destruct Hab as [-> | ->].
    - destruct (IH b Hl Hb) as [[-> |Hin] Hne]; (split; [|done]); right; [by left|by right].
    - destruct (IH a Hl Ha) as [[-> |Hin] Hne]; (split; [|done]); [by left|right; by right]. }
  destruct l as [|a l]; [done|]. apply Forall_cons in Hk as [Hk Hl]. cbn [foldl].
  change (older ("", 0%Z) a) with a.
  destruct (Hgen l a Hl Hk) as [[H|H] Hn]; (split; [|exact Hn]); [rewrite H; by left|by right].
Qed.

Lemma oldest_in c : c <> ∅ -> nonempty_keys c -> exists k t, oldest (map_to_list c) = (k, t) /\ c !! k = Some t /\ k <> "".
Proof.
  intros Hne Hk. destruct (oldest_elem (map_to_list c)) as [Hin Hnk].
  - by rewrite map_to_list_empty_iff.
  - apply Forall_forall. intros [k t] Hin%elem_of_map_to_list. apply Hk. by eexists.
  - destruct (oldest (map_to_list c)) as [k t]. exists k, t. apply elem_of_map_to_list in Hin. done.
Qed.

Lemma evict_spec fuel max c :
  nonempty_keys c -> (0 < max)%Z -> size c <= fuel ->
  (Z.of_nat (size (evict fuel max c)) < max)%Z /\ evict fuel max c ⊆ c /\
  ((Z.of_nat (size c) < max)%Z -> evict fuel max c = c).
Proof.
  revert c; induction fuel as [|fuel IH]; intros c Hk Hm Hf; cbn [evict].
  { assert (size c = 0) as -> by lia. split_and!; [lia|done|done]. }
  destruct (Z.ltb_spec (Z.of_nat (size c)) max) as [Hlt|Hge]; [done|].
  assert (Hne : c <> ∅) by (intros ->; rewrite map_size_empty in Hge; lia).
  destruct (oldest_in c Hne Hk) as (k & t & -> & Hkt & Hkn). apply String.eqb_neq in Hkn. rewrite Hkn.
  pose proof (map_size_delete_Some k c (mk_is_Some _ _ Hkt)) as Hsz.
  assert (size c <> 0) by (intros H0; by apply map_size_empty_inv in H0).
  destruct (IH (delete k c)) as (H1 & H2 & _); [|done|lia|].
  { intros k' [v Hv]. apply Hk. apply lookup_delete_Some in Hv as [_ Hv]. by eexists. }
  split_and!; [done| |lia]. etrans; [exact H2|]. apply delete_subseteq.
Qed.

Lemma evict_nonempty fuel max c : nonempty_keys c -> (0 < max)%Z -> size c <= fuel -> nonempty_keys (evict fuel max c).
Proof.
  intros Hk Hm Hf k [v Hv]. destruct (evict_spec fuel max c Hk Hm Hf) as (_ & Hsub & _). apply Hk. exists v.
  by eapply lookup_weaken.
Qed.

Definition live_nonces (ttl now : Z) (c : nonces) : nonces :=
  filter (fun kt => (now + wrap64 (- ttl * Second) <= kt.2)%Z) c.

Lemma live_nonempty ttl now c : nonempty_keys c -> nonempty_keys (live_nonces ttl now c).
Proof. intros Hk k [v Hv]. apply map_lookup_filter_Some in Hv as [Hv _]. apply Hk. by eexists. Qed.

Definition eff_max (m : Z) : Z := if (m <=? 0)%Z then 100000%Z else m.
Definition eff_ttl (t : Z) : Z := if (t <=? 0)%Z then 300%Z else t.

Lemma eff_max_pos m : (0 < eff_max m)%Z.
Proof. unfold eff_max. destruct (Z.leb_spec m 0); lia. Qed.

Lemma consume_unfold a n ttl max now c :
  consumeNonce a n ttl max now c =
  match live_nonces (eff_ttl ttl) now c !! nonce_key a n with
  | Some _ => (true, live_nonces (eff_ttl ttl) now c)
  | None => (false, <[nonce_key a n := now]>
      (evict (size (live_nonces (eff_ttl ttl) now c)) (eff_max max) (live_nonces (eff_ttl ttl) now c)))
  end.
Proof. done. Qed.

Lemma live_nonces_size ttl now c : size (live_nonces ttl now c) <= size c.
Proof. apply map_subseteq_size, map_filter_subseteq. Qed.

(** One more request: an unexpired nonce stays as long as there is room. *)
Lemma consume_keeps a n ttl max now c k t :
  nonempty_keys c -> c !! k = Some t -> (now + wrap64 (- eff_ttl ttl * Second) <= t)%Z ->
  (Z.of_nat (size c) < eff_max max)%Z ->
  let c' := (consumeNonce a n ttl max now c).2 in
  c' !! k = Some t /\
  nonempty_keys c' /\ size c' <= S (size c).
Proof.
  intros Hk Hkt Ht Hsz. cbn zeta. rewrite consume_unfold.
  set (c1 := live_nonces (eff_ttl ttl) now c).
  assert (H1 : c1 !! k = Some t) by (apply map_lookup_filter_Some; done).
  assert (Hk1 : nonempty_keys c1) by (by apply live_nonempty).
  pose proof (live_nonces_size (eff_ttl ttl) now c) as Hs1. fold c1 in Hs1.
  destruct (c1 !! nonce_key a n) as [t'|] eqn:E; cbn [snd].
  { split; [done|]. split; [done|lia]. }
  destruct (evict_spec (size c1) (eff_max max) c1 Hk1 (eff_max_pos max) ltac:(lia)) as (_ & _ & Heq).
  rewrite Heq by lia. split_and!.
  - rewrite lookup_insert_ne; [done|]. congruence.
  - intros k' [v Hv]. destruct (decide (k' = nonce_key a n)) as [->|Hne]; [apply nonce_key_nonempty|].
    rewrite lookup_insert_ne in Hv by done. apply Hk1. by eexists.
  - rewrite map_size_insert_None by done. lia.
Qed.

(** ** Theorems *)

Lemma signature_verified secret b ts nonce :
  verifyHMAC secret b ts nonce (string_of_list_ascii (computeHMAC secret b ts nonce)) = true.
Proof.
  unfold verifyHMAC, hmac_Equal, computeHMAC, to_bytes.
  rewrite list_ascii_of_string_of_list_ascii, hex_roundtrip.
  destruct (String.eqb_spec (string_of_list_ascii (hex_EncodeToString
    (computeHMACBytes secret (b ++ list_ascii_of_string ts ++ list_ascii_of_string nonce)))) "") as [He|_].
  - apply (f_equal list_ascii_of_string), (f_equal hex_DecodeString) in He.
    rewrite list_ascii_of_string_of_list_ascii, hex_roundtrip in He. injection He as He.
    apply (f_equal length) in He. unfold computeHMACBytes in He. by rewrite hmac_sha256_length in He.
  - by apply bool_decide_eq_true.
Qed.

(** A signature made by [computeHMAC], printed in hexadecimal, is the
    one [verifyHMAC] accepts; and it accepts nothing but hexadecimal text of
    the HMAC-SHA256 of body, timestamp and nonce under the secret. *)
Theorem signature_roundtrip secret b ts nonce sig :
  verifyHMAC secret b ts nonce (string_of_list_ascii (computeHMAC secret b ts nonce)) = true /\
  (verifyHMAC secret b ts nonce sig = true <->
   hex_DecodeString (to_bytes sig) = Some (hmac_sha256 (to_bytes secret) (b ++ to_bytes ts ++ to_bytes nonce))).
Proof.
  assert (Hiff : verifyHMAC secret b ts nonce sig = true <->
   hex_DecodeString (to_bytes sig) = Some (hmac_sha256 (to_bytes secret) (b ++ to_bytes ts ++ to_bytes nonce))).
  { unfold verifyHMAC, hmac_Equal, computeHMACBytes. destruct (String.eqb_spec sig "") as [->|Hne].
    - cbn [to_bytes list_ascii_of_string hex_DecodeString]. split; [done|]. intros Heq.
      apply (inj Some), (f_equal length) in Heq. by rewrite hmac_sha256_length in Heq.
    - destruct (hex_DecodeString (to_bytes sig)) as [got|]; [|done].
      rewrite bool_decide_eq_true. split; congruence. }
  split; [apply signature_verified|exact Hiff].
Qed.

Section handler.
Context (cfg : config.AuthConfig) (store : AppKeyStore) (peekProject : bytes -> option string).

Lemma handler_next r now now' c k r' c' :
  config.AuthEnabled cfg = true -> Handler cfg store peekProject r now now' c = (Next k r', c') ->
  k = Some (X_App_Key r) /\
  exists b secret ts,
    rawBodyFromContext r = (Some b, r') /\ GetSecret store (X_App_Key r) = Ok secret /\ secret <> "" /\
    ParseInt (X_Timestamp r) = Some ts /\
    (abs ((now / Second)%Z -64 ts) <= config.TimestampWindow cfg)%Z /\
    verifyHMAC secret b (X_Timestamp r) (X_Nonce r) (X_Signature r) = true /\
    project_ok store peekProject (X_App_Key r) b = true /\
    consumeNonce (X_App_Key r) (X_Nonce r) (config.NonceTTLSeconds cfg) (config.NonceCacheSize cfg) now' c = (false, c').
Proof.
  intros Hen. unfold Handler, valid_secret. rewrite Hen. cbn [negb].
  destruct (rawBodyFromContext r) as [[b|] r1]; [|done]. destruct (String.eqb_spec (X_App_Key r) ""); [done|].
  destruct (GetSecret store (X_App_Key r)) as [secret|e|p]; try done.
  destruct (String.eqb_spec secret ""); [done|]. destruct (ParseInt (X_Timestamp r)) as [ts|]; [|done].
  destruct (Z.ltb_spec (config.TimestampWindow cfg) (abs (wrap64 ((now / Second) - ts)))) as [|Hwin]; [done|].
  destruct (String.eqb_spec (X_Nonce r) ""); [done|].
  destruct (verifyHMAC secret b (X_Timestamp r) (X_Nonce r) (X_Signature r)) eqn:Ev; [|done]. cbn [negb].
  destruct (project_ok store peekProject (X_App_Key r) b) eqn:Ep; [|done]. cbn [negb].
  destruct (consumeNonce _ _ _ _ now' c) as [[] c1] eqn:Ec; [done|]. intros [= <- <- <-].
  split; [done|]. by exists b, secret, ts.
Qed.

(** The cache after a request: either untouched, or what [consumeNonce] left. *)
Lemma handler_cache r now now' c o c' :
  Handler cfg store peekProject r now now' c = (o, c') ->
  c' = c \/ c' = (consumeNonce (X_App_Key r) (X_Nonce r) (config.NonceTTLSeconds cfg) (config.NonceCacheSize cfg) now' c).2.
Proof.
  unfold Handler. intros Hh. repeat case_match; simplify_eq; auto.
Qed.

(** C14.  Authenticity: with authentication enabled, a request is let through
    only if its app key has a secret, its signature is the HMAC of its own
    body, timestamp and nonce under that secret, the key is authorized for
    the project the body names, and its timestamp is within the window of the
    current time (unless the difference of the two overflows an int64); and
    the next handler reads the very body that was signed. *)
Theorem accepted_request_is_authentic r now now' c k r' c' :
  config.AuthEnabled cfg = true -> Handler cfg store peekProject r now now' c = (Next k r', c') ->
  k = Some (X_App_Key r) /\
  exists b secret ts,
    rawBodyFromContext r' = (Some b, r') /\
    GetSecret store (X_App_Key r) = Ok secret /\ secret <> "" /\
    hex_DecodeString (to_bytes (X_Signature r)) =
      Some (hmac_sha256 (to_bytes secret) (b ++ to_bytes (X_Timestamp r) ++ to_bytes (X_Nonce r))) /\
    (forall p, peekProject b = Some p -> p <> "" -> IsAuthorized store (X_App_Key r) p = Ok true) /\
    ParseInt (X_Timestamp r) = Some ts /\
    ((- two63 < now / Second - ts < two63)%Z -> (Z.abs (now / Second - ts) <= config.TimestampWindow cfg)%Z).
Proof.
  intros Hen Hh. destruct (handler_next r now now' c k r' c' Hen Hh)
    as (-> & b & secret & ts & Hb & Hs & Hsn & Hts & Hwin & Hv & Hp & _).
  split; [done|]. exists b, secret, ts. split_and!; try done.
  - unfold rawBodyFromContext in *. destruct (raw_body r) as [b'|] eqn:Er; [injection Hb as -> <-; by rewrite Er|].
    destruct (body r) as [[b'|e|q]|]; try done. by injection Hb as -> <-.
  - unfold verifyHMAC, hmac_Equal, computeHMACBytes in Hv. destruct (String.eqb _ ""); [done|].
    destruct (hex_DecodeString _) as [got|]; [|done]. apply bool_decide_eq_true in Hv. by rewrite Hv.
  - intros p Hpk Hpn. unfold project_ok, authorizeProject in Hp. rewrite Hpk in Hp.
    apply String.eqb_neq in Hpn. rewrite Hpn in Hp. by destruct (IsAuthorized _ _ _) as [[]|e|q].
  - intros Hr. unfold abs in Hwin. rewrite wrap64_id in Hwin by (unfold in_int64; lia).
    destruct (Z.ltb_spec (now / Second - ts) 0); [|lia].
    rewrite wrap64_id in Hwin by (unfold in_int64; lia). lia.
Qed.

(** Requests one after another, each with its two clock readings. *)
Fixpoint serve (l : list (Request * (Z * Z))) (c : nonces) : list Outcome * nonces :=
  match l with
  | [] => ([], c)
  | (r, (now, now')) :: l =>
      let '(o, c) := Handler cfg store peekProject r now now' c in
      let '(os, c) := serve l c in (o :: os, c)
  end.

Lemma serve_keeps l c k t :
  nonempty_keys c -> c !! k = Some t ->
  Forall (fun '(_, (_, now')) => now' + wrap64 (- eff_ttl (config.NonceTTLSeconds cfg) * Second) <= t)%Z l ->
  (Z.of_nat (size c + length l) <= eff_max (config.NonceCacheSize cfg))%Z ->
  (serve l c).2 !! k = Some t.
Proof.
  revert c; induction l as [|[r [now now']] l IH]; intros c Hk Hkt Hl Hsz; [done|].
  apply Forall_cons in Hl as [Ht Hl]. cbn [serve length] in *.
  destruct (Handler cfg store peekProject r now now' c) as [o c1] eqn:E.
  assert (Hc1 : c1 !! k = Some t /\ nonempty_keys c1 /\ size c1 <= S (size c)).
  { destruct (handler_cache _ _ _ _ _ _ E) as [->|Hc]; [split_and!; [done|done|lia]|]. subst c1.
    apply consume_keeps; [done|done|done|lia]. }
  destruct Hc1 as (Hk1 & Hn1 & Hs1). specialize (IH c1 Hn1 Hk1 Hl ltac:(lia)).
  by destruct (serve l c1) as [os c2].
Qed.

Lemma consume_inv a n ttl max now c :
  nonempty_keys c -> (Z.of_nat (size c) <= eff_max max)%Z ->
  let c' := (consumeNonce a n ttl max now c).2 in
  nonempty_keys c' /\ (Z.of_nat (size c') <= eff_max max)%Z.
Proof.
  intros Hk Hsz. cbn zeta. rewrite consume_unfold. set (c1 := live_nonces (eff_ttl ttl) now c).
  assert (Hk1 : nonempty_keys c1) by (by apply live_nonempty).
  pose proof (live_nonces_size (eff_ttl ttl) now c) as Hs1. fold c1 in Hs1.
  destruct (c1 !! nonce_key a n) as [t'|] eqn:E; cbn [snd]; [split; [done|lia]|].
  destruct (evict_spec (size c1) (eff_max max) c1 Hk1 (eff_max_pos max) ltac:(lia)) as (Hlt & Hsub & _).
  pose proof (evict_nonempty (size c1) (eff_max max) c1 Hk1 (eff_max_pos max) ltac:(lia)) as Hke.
  split.
  - intros k [v Hv]. destruct (decide (k = nonce_key a n)) as [->|Hne]; [apply nonce_key_nonempty|].
    rewrite lookup_insert_ne in Hv by done. apply Hke. by eexists.
  - rewrite map_size_insert_None; [lia|]. destruct (evict _ _ c1 !! _) eqn:E'; [|done].
    by rewrite (lookup_weaken _ _ _ _ E' Hsub) in E.
Qed.

Lemma serve_inv l c :
  nonempty_keys c -> (Z.of_nat (size c) <= eff_max (config.NonceCacheSize cfg))%Z ->
  nonempty_keys (serve l c).2 /\ (Z.of_nat (size (serve l c).2) <= eff_max (config.NonceCacheSize cfg))%Z.
Proof.
  revert c; induction l as [|[r [now now']] l IH]; intros c Hk Hsz; [done|]. cbn [serve].
  destruct (Handler cfg store peekProject r now now' c) as [o c1] eqn:E.
  assert (Hc1 : nonempty_keys c1 /\ (Z.of_nat (size c1) <= eff_max (config.NonceCacheSize cfg))%Z).
  { destruct (handler_cache _ _ _ _ _ _ E) as [->|Hc]; [done|]. subst c1. by apply consume_inv. }
  destruct Hc1 as [Hk1 Hs1]. specialize (IH c1 Hk1 Hs1). by destruct (serve l c1) as [os c2].
Qed.

Lemma serve_inv_empty l :
  nonempty_keys (serve l ∅).2 /\ (Z.of_nat (size (serve l ∅).2) <= eff_max (config.NonceCacheSize cfg))%Z.
Proof.
  apply serve_inv.
  - intros k [v Hv]. by rewrite lookup_empty in Hv.
  - rewrite map_size_empty. pose proof (eff_max_pos (config.NonceCacheSize cfg)). lia.
Qed.

Lemma consume_fresh a n ttl max now c c' :
  consumeNonce a n ttl max now c = (false, c') -> c' !! nonce_key a n = Some now.
Proof.
  rewrite consume_unfold. destruct (live_nonces _ _ _ !! _); [done|]. intros [= <-]. apply lookup_insert_eq.
Qed.

(** C15.  Replay protection: from the start of the middleware, whatever was
    served before ([l0]) and in between ([l]), a second request with the same
    app key and nonce is not let through while the time to live of the nonce
    has not passed and the cache has room for the requests in between. *)
Theorem nonce_reuse_is_rejected l0 r now now' k r1 c1 l r2 t t' :
  config.AuthEnabled cfg = true ->
  Handler cfg store peekProject r now now' (serve l0 ∅).2 = (Next k r1, c1) ->
  let ttl := (eff_ttl (config.NonceTTLSeconds cfg) * Second)%Z in
  (ttl < two63)%Z ->
  Forall (fun '(_, (_, n')) => n' <= now' + ttl)%Z l -> (t' <= now' + ttl)%Z ->
  (Z.of_nat (size c1 + length l) <= eff_max (config.NonceCacheSize cfg))%Z ->
  X_App_Key r2 = X_App_Key r -> X_Nonce r2 = X_Nonce r ->
  exists code msg c2, Handler cfg store peekProject r2 t t' (serve l c1).2 = (Abort code msg, c2).
Proof.
  intros Hen Hh ttl Httl Hl Ht Hsz Ha Hn.
  destruct (handler_next _ _ _ _ _ _ _ Hen Hh) as (_ & _ & _ & _ & _ & _ & _ & _ & _ & _ & _ & Hc).
  destruct (serve_inv_empty l0) as [Hk0 Hs0].
  pose proof (consume_inv (X_App_Key r) (X_Nonce r) (config.NonceTTLSeconds cfg) _ now' _ Hk0 Hs0) as [Hk1 _].
  rewrite Hc in Hk1. cbn [snd] in Hk1.
  assert (Hpos : (0 < ttl)%Z) by (unfold ttl, eff_ttl, Second; destruct (Z.leb_spec (config.NonceTTLSeconds cfg) 0); lia).
  assert (Hw : wrap64 (- eff_ttl (config.NonceTTLSeconds cfg) * Second) = (- ttl)%Z).
  { unfold ttl in *. rewrite wrap64_id; [lia|unfold in_int64; lia]. }
  assert (Hkeep : (serve l c1).2 !! nonce_key (X_App_Key r) (X_Nonce r) = Some now').
  { apply serve_keeps; [done|by eapply consume_fresh| |done]. rewrite Hw. eapply Forall_impl; [exact Hl|].
    intros [q [n n']]. lia. }
  destruct (Handler cfg store peekProject r2 t t' (serve l c1).2) as [[k2 r3|code msg] c2] eqn:E; [|by eauto].
  destruct (handler_next _ _ _ _ _ _ _ Hen E) as (_ & _ & _ & _ & _ & _ & _ & _ & _ & _ & _ & Hc2).
  rewrite consume_unfold, Ha, Hn in Hc2.
  assert (Hlive : live_nonces (eff_ttl (config.NonceTTLSeconds cfg)) t' (serve l c1).2
    !! nonce_key (X_App_Key r) (X_Nonce r) = Some now').
  { apply map_lookup_filter_Some. split; [done|]. cbn. rewrite Hw. lia. }
  by rewrite Hlive in Hc2.
Qed.

(** The nonce cache never holds more than [nonce_cache_size] entries
    (100000 if that is not positive), whatever is served. *)
Theorem nonce_cache_is_bounded l :
  (Z.of_nat (size (serve l ∅).2) <= eff_max (config.NonceCacheSize cfg))%Z.
Proof. apply serve_inv_empty. Qed.
End handler.

(** ** Concrete requests *)

Module traffic.
(** The defaults of [applyDefaults], with authentication on. *)
Definition cfg : config.AuthConfig := config.auth_defaults (config.MkAuthConfig true 0 0 0).
Definition store : AppKeyStore :=
  MkAppKeyStore (fun k => if String.eqb k "app" then Ok "s3cret" else Ok "")
                (fun k p => Ok (String.eqb p "game")).
Definition peek (b : bytes) : option string := Some "game".
Definition upload : bytes := to_bytes "{}".
Definition sign (ts nonce : string) : Request :=
  MkRequest "app" ts nonce (string_of_list_ascii (computeHMAC "s3cret" upload ts nonce)) None (Some (Ok upload)).
Definition at_s (s : Z) : Z := (s * Second)%Z.
Definition passes (o : Outcome) : bool := match o with Next _ _ => true | Abort _ _ => false end.
End traffic.

Lemma accepted_request_is_authentic_witness :
  exists k r' c', Handler traffic.cfg traffic.store traffic.peek (traffic.sign "1000" "n1")
               (traffic.at_s 1000) (traffic.at_s 1000) ∅ = (Next k r', c') /\
    exists b secret ts,
      GetSecret traffic.store "app" = Ok secret /\
      hex_DecodeString (to_bytes (X_Signature (traffic.sign "1000" "n1"))) =
        Some (hmac_sha256 (to_bytes secret) (b ++ to_bytes "1000" ++ to_bytes "n1")) /\
      ParseInt "1000" = Some ts.
Proof.
  set (r := traffic.sign "1000" "n1").
  destruct (Handler traffic.cfg traffic.store traffic.peek r (traffic.at_s 1000) (traffic.at_s 1000) ∅)
    as [[k r'|code msg] c'] eqn:E.
  - destruct (accepted_request_is_authentic traffic.cfg traffic.store traffic.peek r _ _ _ k r' c' eq_refl E)
      as (_ & b & secret & ts & _ & H1 & _ & H2 & _ & H3 & _).
    exists k, r', c'. split; [reflexivity|]. exists b, secret, ts. split_and!; [exact H1|exact H2|exact H3].
  - exfalso. apply (f_equal (fun p => traffic.passes p.1)) in E. vm_compute in E. discriminate.
Defined.

Lemma nonce_reuse_is_rejected_witness :
  exists code msg c2,
    Handler traffic.cfg traffic.store traffic.peek (traffic.sign "1000" "n1") (traffic.at_s 1200) (traffic.at_s 1200)
      (serve traffic.cfg traffic.store traffic.peek [(traffic.sign "1001" "n2", (traffic.at_s 1001, traffic.at_s 1001))]
        (Handler traffic.cfg traffic.store traffic.peek (traffic.sign "1000" "n1")
           (traffic.at_s 1000) (traffic.at_s 1000) ∅).2).2 = (Abort code msg, c2).
Proof.
  set (r := traffic.sign "1000" "n1").
  destruct (Handler traffic.cfg traffic.store traffic.peek r (traffic.at_s 1000) (traffic.at_s 1000) ∅)
    as [[k r'|code msg] c'] eqn:E.
  - apply (nonce_reuse_is_rejected traffic.cfg traffic.store traffic.peek [] r (traffic.at_s 1000)
      (traffic.at_s 1000) k r' c' _ r _ _ eq_refl E); try reflexivity.
    + repeat constructor; vm_compute; discriminate.
    + vm_compute; discriminate.
    + assert (Hs : size c' = 1%nat).
      { apply (f_equal (fun p => size p.2)) in E. vm_compute in E. symmetry. exact E. }
      rewrite Hs. vm_compute. discriminate.
  - exfalso. apply (f_equal (fun p => traffic.passes p.1)) in E. vm_compute in E. discriminate.
Defined.

(** The limit of the replay protection: the window accepts timestamps
    up to 300 seconds ahead of the clock while a nonce lives 300 seconds from
    its use, so with the default configuration one signed request, dated 300
    seconds ahead, is let through at 1000s and, the same bytes, again at
    1400s; in between (at 1200s) it is refused. *)
Theorem future_request_passes_twice :
  let r := traffic.sign "1300" "n1" in
  let at_ s := (r, (traffic.at_s s, traffic.at_s s)) in
  traffic.passes <$> (serve traffic.cfg traffic.store traffic.peek [at_ 1000%Z; at_ 1200%Z; at_ 1400%Z] ∅).1
  = [true; false; true].
Proof. vm_compute. reflexivity. Qed.

(** The window check wraps around: a timestamp exactly 2^63 seconds
    before the clock makes the difference the smallest int64, which [abs]
    leaves negative, so a request dated 292 billion years ago passes. *)
Theorem window_check_wraps_around :
  let r := traffic.sign "-9223372036854774808" "n1" in
  ParseInt (X_Timestamp r) = Some (1000 - two63)%Z /\
  abs (1000 -64 (1000 - two63))%Z = (- two63)%Z /\
  traffic.passes <$> (serve traffic.cfg traffic.store traffic.peek [(r, (traffic.at_s 1000, traffic.at_s 1000))] ∅).1
  = [true].
Proof. vm_compute. done. Qed.
