(* ===== verification/Pipeline.v ===== *)
(** * Package [pipeline] (internal/pipeline/pipeline.go, processors.go)

    Processors transform a message in place before it is delivered; a chain
    runs them in order.  The three built-in processors decode the payload as
    a JSON object, change its fields and encode it again.  [encoding/json]
    is [JsonDecode] and [JsonAny]. *)

From Stdlib Require Import ZArith Lia Ascii String SpecFloat.
From stdpp Require Import base tactics numbers strings gmap list.
From S2P Require Import Prelude GoStrings GoUtf8 GoFloat Message ConfigPkg Json JsonDecode JsonEncode JsonAny.

(** [json.Unmarshal] into a [map[string]interface{}], which [null] leaves
    nil, and [json.Marshal] of one. *)
Definition json_Unmarshal (b : bytes) : option (option anymap) :=
  match jsondec.UnmarshalMap b with Ok m => Some m | _ => None end.
Definition json_Marshal (m : option anymap) : result bytes := jsonany.MarshalMap m.
Arguments json_Unmarshal : simpl never.
Arguments json_Marshal : simpl never.

Module pipeline.
Local Open Scope go_scope.

Abbreviation Mem := (Pool message.Message).

(** [Processor]: takes and returns a pointer, which may be nil. *)
Record Processor := MkProcessor {
  ProcName : string;
  Process : option nat -> St Mem (option nat);
}.

(** ** Chains *)

Definition Chain : Type := list Processor.
Definition NewChain (processors : list Processor) : Chain := processors.
Definition Add (c : Chain) (p : Processor) : Chain := c ++ [p].
Definition Len (c : Chain) : nat := length c.

Fixpoint ChainProcess (c : Chain) (msg : option nat) : St Mem (option nat) :=
  match c with
  | [] => ret msg
  | p :: c' =>
      msg' <- wrapErr ("pipeline " +:+ ProcName p) (Process p msg) ;;
      ChainProcess c' msg'
  end.

(** ** The built-in processors *)

Section builtins.

Definition set_Data (raw : bytes) (m : message.Message) : message.Message :=
  message.MkMessage (message.RequestID m) (message.TraceID m) (message.Project m) (message.Router m)
    (Some raw) (message.Env m) (message.Headers m) (message.Timestamp m).

(** [*msg] through a pointer that may be nil. *)
Definition deref (msg : option nat) : St Mem (nat * message.Message) :=
  match msg with
  | None => panic "nil pointer dereference"
  | Some a => m <- load a ;; ret (a, m)
  end.

(** [json.Marshal(data)], with the error wrapped, then [msg.Data = raw]. *)
Definition put_data (what : string) (data : option anymap) (a : nat) (m : message.Message) : St Mem (option nat) :=
  raw <- wrapErr (what +:+ " marshal") (fun s => (json_Marshal data, s)) ;;
  store a (set_Data raw m) ;;;
  ret (Some a).

Record FieldFilter := MkFieldFilter { ff_fields : list string; ff_mode : string }.
Definition NewFieldFilter (mode : string) (fields : list string) : FieldFilter := MkFieldFilter fields mode.

Definition filter_include (fields : list string) (data : anymap) : anymap :=
  foldl (fun acc field => match data !! field with Some v => <[field := v]> acc | None => acc end) ∅ fields.

Definition filter_exclude (fields : list string) (data : anymap) : anymap :=
  foldl (fun acc field => delete field acc) data fields.

Definition FieldFilter_Process (f : FieldFilter) (msg : option nat) : St Mem (option nat) :=
  am <- deref msg ;;
  let '(a, m) := am in
  if decide (length (raw_bytes (message.Data m)) = 0) then ret msg else
  match json_Unmarshal (raw_bytes (message.Data m)) with
  | None => ret msg
  | Some data =>
      if String.eqb (ff_mode f) "include" then
        put_data "field_filter" (Some (filter_include (ff_fields f) (default ∅ data))) a m
      else if String.eqb (ff_mode f) "exclude" then
        put_data "field_filter" (filter_exclude (ff_fields f) <$> data) a m
      else ret msg
  end.

Record FieldAdd := MkFieldAdd { fa_fields : anymap }.
Definition NewFieldAdd (fields : anymap) : FieldAdd := MkFieldAdd fields.

(** [for k, v := range f.fields { data[k] = v }]; [data] may be nil. *)
Definition add_fields (fields : anymap) (data : option anymap) : St Mem (option anymap) :=
  match data with
  | Some d => ret (Some (foldl (fun acc kv => <[kv.1 := kv.2]> acc) d (map_to_list fields)))
  | None =>
      match map_to_list fields with
      | [] => ret None
      | _ :: _ => panic "assignment to entry in nil map"
      end
  end.

Definition FieldAdd_Process (f : FieldAdd) (msg : option nat) : St Mem (option nat) :=
  am <- deref msg ;;
  let '(a, m) := am in
  let data := if decide (length (raw_bytes (message.Data m)) = 0) then Some ∅
              else match json_Unmarshal (raw_bytes (message.Data m)) with
                   | None => Some ∅
                   | Some data => data
                   end in
  data <- add_fields (fa_fields f) data ;;
  put_data "field_add" data a m.

Record FieldRedact := MkFieldRedact { fr_fields : gmap string string }.
Definition NewFieldRedact (fields : gmap string string) : FieldRedact := MkFieldRedact fields.

Definition redact (fields : gmap string string) (data : anymap) : anymap :=
  foldl (fun acc fm => match acc !! fm.1 with Some _ => <[fm.1 := VString fm.2]> acc | None => acc end)
        data (map_to_list fields).

Definition FieldRedact_Process (f : FieldRedact) (msg : option nat) : St Mem (option nat) :=
  am <- deref msg ;;
  let '(a, m) := am in
  if decide (length (raw_bytes (message.Data m)) = 0) then ret msg else
  match json_Unmarshal (raw_bytes (message.Data m)) with
  | None => ret msg
  | Some data => put_data "field_redact" (redact (fr_fields f) <$> data) a m
  end.

Definition filter_proc (f : FieldFilter) : Processor := MkProcessor "field_filter" (FieldFilter_Process f).
Definition add_proc (f : FieldAdd) : Processor := MkProcessor "field_add" (FieldAdd_Process f).
Definition redact_proc (f : FieldRedact) : Processor := MkProcessor "field_redact" (FieldRedact_Process f).

(** ** The registry *)

Definition Factory : Type := anymap -> result Processor.
Definition Registry : Type := gmap string Factory.

Definition any_string (v : any) : option string := match v with VString s => Some s | _ => None end.

Definition filter_factory (cfg : anymap) : result Processor :=
  let mode := match cfg !! "mode" with Some (VString s) => s | _ => "exclude" end in
  let mode := if negb (String.eqb mode "include") && negb (String.eqb mode "exclude") then "exclude" else mode in
  let fields := match cfg !! "fields" with Some (VList raw) => omap any_string raw | _ => [] end in
  Ok (filter_proc (NewFieldFilter mode fields)).

Definition add_factory (cfg : anymap) : result Processor :=
  let fields := match cfg !! "fields" with Some (VMap raw) => list_to_map raw | _ => ∅ end in
  Ok (add_proc (NewFieldAdd fields)).

Definition redact_factory (cfg : anymap) : result Processor :=
  let fields := match cfg !! "fields" with
                | Some (VMap raw) => omap any_string (list_to_map raw : anymap)
                | _ => ∅
                end in
  Ok (redact_proc (NewFieldRedact fields)).

Definition Register (name : string) (factory : Factory) (r : Registry) : Registry := <[name := factory]> r.

Definition registerBuiltins (r : Registry) : Registry :=
  Register "field_redact" redact_factory
    (Register "field_add" add_factory (Register "field_filter" filter_factory r)).

Definition NewRegistry : Registry := registerBuiltins ∅.

(** In some order of the map's keys. *)
Definition listAvailable (r : Registry) : string := String.concat ", " (map_to_list r).*1.

Definition Create (typ : string) (cfg : anymap) (r : Registry) : result Processor :=
  match r !! typ with
  | None => Err (ErrorString ("unknown pipeline processor: " +:+ typ +:+ " (available: " +:+ listAvailable r +:+ ")"))
  | Some factory => factory cfg
  end.
End builtins.
End pipeline.

Import pipeline.
Local Open Scope go_scope.

(** ** What the processors do to an object *)

Inductive builtin :=
| BInclude (fields : list string)
| BExclude (fields : list string)
| BAdd (fields : anymap)
| BRedact (fields : gmap string string).

(** The processor, and its effect as a function on objects. *)
Definition proc_of (b : builtin) : Processor :=
  match b with
  | BInclude fs => filter_proc (NewFieldFilter "include" fs)
  | BExclude fs => filter_proc (NewFieldFilter "exclude" fs)
  | BAdd fs => add_proc (NewFieldAdd fs)
  | BRedact fs => redact_proc (NewFieldRedact fs)
  end.

Definition effect (d : anymap) (b : builtin) : anymap :=
  match b with
  | BInclude fs => filter (fun kv => kv.1 ∈ fs) d
  | BExclude fs => filter (fun kv => kv.1 ∉ fs) d
  | BAdd fs => fs ∪ d
  | BRedact fs => map_imap (fun k v => Some (from_option VString v (fs !! k))) d
  end.

Lemma filter_include_eq fs d : filter_include fs d = filter (fun kv => kv.1 ∈ fs) d.
Proof.
  assert (Hg : forall fs acc k, foldl (fun acc field => match d !! field with Some v => <[field := v]> acc | None => acc end) acc fs !! k
    = if decide (k ∈ fs) then match d !! k with Some v => Some v | None => (acc : anymap) !! k end else acc !! k).
  { clear fs. induction fs as [|f fs IH]; intros acc k; cbn [foldl]; [by rewrite decide_False by set_solver|].
    rewrite IH. destruct (decide (k = f)) as [->|Hne].
    - rewrite (decide_True (P := f ∈ f :: fs)) by set_solver.
      destruct (d !! f) as [v|]; [|by destruct (decide _)]. destruct (decide _); [done|apply lookup_insert_eq].
    - assert (Ha : (match d !! f with Some v => <[f := v]> acc | None => acc end) !! k = acc !! k).
      { destruct (d !! f); [by rewrite lookup_insert_ne|done]. }
      rewrite Ha. destruct (decide (k ∈ fs)), (decide (k ∈ f :: fs)); set_solver. }
  apply map_eq. intros k. unfold filter_include. rewrite Hg, map_lookup_filter. destruct (d !! k) as [v|] eqn:E; cbn.
  - destruct (decide (k ∈ fs)); [by rewrite option_guard_True|by rewrite option_guard_False].
  - by destruct (decide _).
Qed.

Lemma filter_exclude_eq fs d : filter_exclude fs d = filter (fun kv => kv.1 ∉ fs) d.
Proof.
  apply map_eq. intros k. unfold filter_exclude. revert d. induction fs as [|f fs IH]; intros d; cbn [foldl].
  - rewrite map_lookup_filter. destruct (d !! k); [|done]. cbn. by rewrite option_guard_True by set_solver.
  - rewrite IH, !map_lookup_filter. destruct (decide (k = f)) as [->|Hne].
    + rewrite lookup_delete_eq. cbn. destruct (d !! f); [|done]. cbn. by rewrite option_guard_False by set_solver.
    + rewrite lookup_delete_ne by done. destruct (d !! k); [|done]. cbn. apply option_guard_iff. set_solver.
Qed.

Lemma redact_eq fs d : redact fs d = effect d (BRedact fs).
Proof.
  unfold redact. cbn [effect]. revert d; induction fs as [|k v fs Hk Hf IH] using map_first_key_ind; intros d.
  - rewrite map_to_list_empty. cbn. apply map_eq. intros i. rewrite map_lookup_imap. by destruct (d !! i).
  - rewrite (map_to_list_insert_first_key _ _ _ Hk Hf). cbn [foldl fst snd]. rewrite IH. apply map_eq. intros i.
    rewrite !map_lookup_imap. destruct (decide (i = k)) as [->|Hne].
    + rewrite lookup_insert_eq. destruct (d !! k) eqn:E; rewrite ?lookup_insert_eq, ?E; cbn; [by rewrite Hk|done].
    + rewrite lookup_insert_ne by done. destruct (d !! k); by rewrite ?lookup_insert_ne by done.
Qed.

(** What JSON can express: valid UTF-8, numbers that are finite, and nesting
    within the decoder's limit when it is a field of an object. *)
Definition json_key (s : string) : Prop := is_utf8 (bytes_of s).
Definition json_val (v : any) : Prop := fits 1 v.

Lemma json_empty : json_Unmarshal [] = None.
Proof. reflexivity. Qed.

Lemma json_string s : json_key s -> json_val (VString s).
Proof. done. Qed.

Lemma json_decoded b m k v : json_Unmarshal b = Some (Some m) -> m !! k = Some v -> json_key k /\ json_val v.
Proof.
  unfold json_Unmarshal. destruct (jsondec.UnmarshalMap b) as [o| |] eqn:E; [|done..]. intros [= ->]. by apply (UnmarshalMap_obj b).
Qed.

Lemma json_roundtrip m : (forall k v, m !! k = Some v -> json_key k /\ json_val v) ->
  exists b, json_Marshal (Some m) = Ok b /\ b <> [] /\ json_Unmarshal b = Some (Some m).
Proof.
  intros Hm. destruct (MarshalMap_reads m Hm) as (b & Eb & Hne & Eu). exists b. unfold json_Unmarshal. by rewrite Eu.
Qed.

Section chain.

Definition json_obj (d : anymap) : Prop := forall k v, d !! k = Some v -> json_key k /\ json_val v.

(** A processor whose configuration JSON can express. *)
Definition expressible (b : builtin) : Prop :=
  match b with
  | BInclude _ | BExclude _ => True
  | BAdd fs => json_obj fs
  | BRedact fs => forall k s, fs !! k = Some s -> json_key s
  end.

Lemma effect_obj d b : expressible b -> json_obj d -> json_obj (effect d b).
Proof.
  intros Hb Hd k v. destruct b as [fs|fs|fs|fs]; cbn [effect expressible] in *.
  - intros [Hk _]%map_lookup_filter_Some. by apply Hd.
  - intros [Hk _]%map_lookup_filter_Some. by apply Hd.
  - intros [Hk|[_ Hk]]%lookup_union_Some_raw; [by apply Hb|by apply Hd].
  - rewrite map_lookup_imap. destruct (d !! k) as [v0|] eqn:E; [|done]. cbn. intros [= <-].
    destruct (Hd k v0 E) as [Hk Hv]. split; [done|]. destruct (fs !! k) as [s|] eqn:Ef; cbn; [|done].
    by apply json_string, (Hb k).
Qed.

Lemma put_data_run what a m p d :
  json_obj d -> exists raw, raw <> [] /\ json_Unmarshal raw = Some (Some d) /\
    put_data what (Some d) a m p = (Ok (Some a), MkPool (<[a := set_Data raw m]> (cells p)) (free p) (next p)).
Proof.
  intros Hd. destruct (json_roundtrip d Hd) as (raw & Hm & Hne & Hu). exists raw. split; [done|]. split; [done|].
  unfold put_data, bind, wrapErr. by rewrite Hm.
Qed.

(** One processor on a message whose payload is the object [d]. *)
Lemma proc_run b a m p d :
  cells p !! a = Some m -> json_Unmarshal (raw_bytes (message.Data m)) = Some (Some d) -> expressible b ->
  exists raw, raw <> [] /\ json_Unmarshal raw = Some (Some (effect d b)) /\
    Process (proc_of b) (Some a) p =
      (Ok (Some a), MkPool (<[a := set_Data raw m]> (cells p)) (free p) (next p)).
Proof.
  intros Ha Hu Hb.
  assert (Hd : json_obj (effect d b)) by (apply effect_obj; [done|]; intros k v; by apply json_decoded with (1 := Hu)).
  assert (Hlen : length (raw_bytes (message.Data m)) <> 0).
  { intros Hz%nil_length_inv. by rewrite Hz, json_empty in Hu. }
  assert (Hload : deref (Some a) p = (Ok (a, m), p)) by (unfold deref, bind, load; by rewrite Ha).
  destruct b as [fs|fs|fs|fs];
    cbn [proc_of Process filter_proc add_proc redact_proc]; unfold FieldFilter_Process, FieldAdd_Process, FieldRedact_Process;
    rewrite (bind_run_Ok _ _ _ _ _ Hload), decide_False, Hu by done;
    cbn [ff_mode ff_fields NewFieldFilter String.eqb Ascii.eqb Bool.eqb default fmap option_fmap option_map].
  - rewrite filter_include_eq. by apply put_data_run.
  - rewrite filter_exclude_eq. by apply put_data_run.
  - unfold add_fields. cbn [fa_fields NewFieldAdd]. rewrite foldl_insert_union. by apply put_data_run.
  - cbn [fr_fields NewFieldRedact]. rewrite redact_eq. by apply put_data_run.
Qed.

Lemma set_Data_twice r1 r2 m : set_Data r2 (set_Data r1 m) = set_Data r2 m.
Proof. done. Qed.

Lemma set_Data_same raw m : message.Data m = Some raw -> set_Data raw m = m.
Proof. destruct m; cbn. by intros ->. Qed.


(** A payload of [null] decodes to a nil map, and adding a field to it
    panics: [field_add] with at least one field does not return. *)
Theorem field_add_panics_on_null f a m p :
  cells p !! a = Some m -> json_Unmarshal (raw_bytes (message.Data m)) = Some None -> fa_fields f <> ∅ ->
  FieldAdd_Process f (Some a) p = (Panic "assignment to entry in nil map", p).
Proof.
  intros Ha Hu Hf.
  assert (Hlen : length (raw_bytes (message.Data m)) <> 0).
  { intros Hz%nil_length_inv. by rewrite Hz, json_empty in Hu. }
  assert (Hload : deref (Some a) p = (Ok (a, m), p)) by (unfold deref, bind, load; by rewrite Ha).
  unfold FieldAdd_Process. rewrite (bind_run_Ok _ _ _ _ _ Hload), decide_False, Hu by done.
  unfold add_fields, bind, panic. destruct (map_to_list (fa_fields f)) eqn:E; [|done].
  by apply map_to_list_empty_iff in E.
Qed.
End chain.

(** ** Examples *)

Module strobj.
Definition null : bytes := bytes_of "null".
Definition payload (d : gmap string string) : bytes :=
  match json_Marshal (Some (VString <$> d)) with Ok b => b | _ => [] end.
Definition login : gmap string string := {["user" := "ann"; "password" := "xyzzy"; "ip" := "::1"]}.
Definition mem (data : bytes) : Pool message.Message :=
  MkPool {[0 := set_Data data message.newMessage]} [] 1.
End strobj.


Lemma field_add_panics_on_null_witness :
  FieldAdd_Process (NewFieldAdd {["env" := VString "prod"]}) (Some 0) (strobj.mem strobj.null) =
    (Panic "assignment to entry in nil map", strobj.mem strobj.null).
Proof.
  apply (field_add_panics_on_null _ 0 (set_Data strobj.null message.newMessage)).
  - reflexivity.
  - reflexivity.
  - discriminate.
Defined.
