(* ===== verification/Dispatcher.v ===== *)
(** * Package [project] (internal/project/dispatcher.go): the operations

    The dispatcher owns the worker pools of every project.  It builds them
    from the configuration ([Initialize]), runs a message through its
    project's pipeline and submits a copy of it to each pool ([Dispatch],
    [DispatchStrict]), and tells the replay of the log when to wait
    ([ReplayBackoff]).

    Pools are shared by pointer: an address into [heap].  All pools share the
    memory of the messages and the write-ahead log.  [d.mu] is left out: it
    is taken exclusively only by [Initialize], which runs before anything
    else.  Log lines are left out. *)

From Stdlib Require Import ZArith Lia Ascii String SpecFloat.
From stdpp Require Import base tactics numbers strings gmap list.
From S2P Require Import Prelude GoStrings GoFloat Message Threads Sink ConfigPkg Pipeline.

Module project.
Import sink.
Local Open Scope go_scope.

Section dispatcher.
Context {W K L : Type} `{Sink K} `{MsgLog L}.

(** A pool with its sink, and the name the sink was created with. *)
Record PoolCell := MkPoolCell { pc_name : string; pc_wp : WorkerPool; pc_snk : K }.

Record Dispatcher := MkDispatcher {
  cfg : config.Manager W;
  reg : Registry (Cfg := anymap) (A := K);
  pipelineReg : pipeline.Registry;
  pools : option (gmap string (list nat));
  walWriter : option L;
  bp : Backpressure;
  heap : list PoolCell;
  mem : Pool message.Message;
}.

Definition NewDispatcher (c : config.Manager W) (r : Registry) (w : option L) (b : Backpressure)
    (m : Pool message.Message) : Dispatcher :=
  MkDispatcher c r pipeline.NewRegistry (Some ∅) w b [] m.

Definition set_pools (p : option (gmap string (list nat))) (d : Dispatcher) : Dispatcher :=
  MkDispatcher (cfg d) (reg d) (pipelineReg d) p (walWriter d) (bp d) (heap d) (mem d).
Definition set_heap (h : list PoolCell) (d : Dispatcher) : Dispatcher :=
  MkDispatcher (cfg d) (reg d) (pipelineReg d) (pools d) (walWriter d) (bp d) h (mem d).
Definition set_mem (m : Pool message.Message) (d : Dispatcher) : Dispatcher :=
  MkDispatcher (cfg d) (reg d) (pipelineReg d) (pools d) (walWriter d) (bp d) (heap d) m.

(** The pool at an address as its methods see it, and what they change. *)
Definition pool_at (i : nat) (d : Dispatcher) : option (PoolSt K L) :=
  (fun c => MkPoolSt (pc_wp c) (mem d) (walWriter d) (pc_snk c)) <$> heap d !! i.
Definition put_pool (i : nat) (s : PoolSt K L) (d : Dispatcher) : Dispatcher :=
  MkDispatcher (cfg d) (reg d) (pipelineReg d) (pools d) (sink.walWriter s) (bp d)
    (alter (fun c => MkPoolCell (pc_name c) (wp_ s) (snk s)) i (heap d)) (sink.mem s).

(** ** Configuration of a sink *)

(** The lowest layer: the global settings of the sink's type. *)
Definition globalSinkDefaults (c : config.Config) (sinkType : string) : anymap :=
  if String.eqb sinkType "redis" then
    let r := config.Redis (config.SinksCfg c) in
    list_to_map [
      ("addr", VString (config.Addr r));
      ("password", VString (config.Password r));
      ("db", VFloat (f64_of_Z (config.DB r)));
      ("pool_size", VFloat (f64_of_Z (config.PoolSize r)));
      ("min_idle_conns", VFloat (f64_of_Z (config.MinIdleConns r)));
      ("dial_timeout", VString (Duration_String (config.DialTimeout r)));
      ("read_timeout", VString (Duration_String (config.RedisReadTimeout r)));
      ("write_timeout", VString (Duration_String (config.RedisWriteTimeout r)));
      ("key", VString (config.Key r));
      ("type", VString (config.RedisType r));
      ("max_len", VFloat (f64_of_Z (config.MaxLen r)))]
  else if String.eqb sinkType "kafka" then
    let k := config.Kafka (config.SinksCfg c) in
    list_to_map [
      ("brokers", VList (VString <$> config.Brokers k));
      ("topic", VString (config.Topic k));
      ("partition_key", VString (config.PartitionKey k));
      ("compression", VString (config.Compression k));
      ("batch_size", VFloat (f64_of_Z (config.BatchSize k)));
      ("batch_timeout", VString (Duration_String (config.BatchTimeout k)))]
  else ∅.

(** [for k, v := range src { dst[k] = v }]. *)
Definition overlay (src dst : anymap) : anymap :=
  foldl (fun acc kv => <[kv.1 := kv.2]> acc) dst (map_to_list src).

Definition resolveSinkConfig (c : config.Config) (ref : config.SinkRef) : string * Z * Z * anymap :=
  let inst := if String.eqb (config.ref_Instance ref) "" then None
              else config.SinkInstances c !! config.ref_Instance ref in
  let '(sinkType, workers, channelSize) :=
    match inst with
    | Some i =>
        (config.inst_Type i,
         if (config.ref_Workers ref <=? 0)%Z then config.inst_Workers i else config.ref_Workers ref,
         if (config.ref_ChannelSize ref <=? 0)%Z then config.inst_ChannelSize i else config.ref_ChannelSize ref)
    | None => (config.ref_Type ref, config.ref_Workers ref, config.ref_ChannelSize ref)
    end in
  let sinkType := if String.eqb sinkType "" then "redis" else sinkType in
  let merged := globalSinkDefaults c sinkType in
  let merged := match inst with Some i => overlay (config.inst_Config i) merged | None => merged end in
  (sinkType, workers, channelSize, overlay (config.ref_Config ref) merged).

Definition readPoolInt (c : anymap) (key : string) (def : Z) : Z :=
  match c !! key with
  | Some (VFloat f) => f64_to_int f
  | Some (VInt z) => z
  | _ => def
  end.

(** ** Initialization *)

Definition getConfig : St Dispatcher config.Config := fun d => (config.Get (cfg d), d).

(** [pool := sink.NewWorkerPool(...)]: its address. *)
Definition new_pool (name : string) (k : K) (workers channelSize : Z) : St Dispatcher nat := fun d =>
  let w := NewWorkerPool (MkWorkerPoolConfig workers channelSize 10 (bp d) (100 * Millisecond)) in
  (Ok (length (heap d)), set_heap (heap d ++ [MkPoolCell name w k]) d).

Definition init_sink (projName : string) (i : nat) (sr : config.SinkRef) : St Dispatcher nat :=
  c <- getConfig ;;
  let '(sinkType, workers, channelSize, mergedCfg) := resolveSinkConfig c sr in
  let sinkName := projName +:+ "-" +:+ sinkType +:+ "-" +:+ Itoa (Z.of_nat i) in
  let workers := if (workers <=? 0)%Z then readPoolInt mergedCfg "workers" 16 else workers in
  let channelSize := if (channelSize <=? 0)%Z then readPoolInt mergedCfg "channel_size" 16384 else channelSize in
  si <- wrapErr ("create sink " +:+ sinkName) (fun d => (Create sinkType sinkName mergedCfg (reg d), d)) ;;
  new_pool sinkName si workers channelSize.

Fixpoint init_sinks (projName : string) (i : nat) (refs : list config.SinkRef) : St Dispatcher (list nat) :=
  match refs with
  | [] => ret []
  | sr :: refs' =>
      p <- init_sink projName i sr ;;
      ps <- init_sinks projName (S i) refs' ;;
      ret (p :: ps)
  end.

Definition initProject (projCfg : config.ProjectConfig) : St Dispatcher unit :=
  ps <- init_sinks (config.Name projCfg) 0 (config.Sinks projCfg) ;;
  fun d => match pools d with
           | Some m => (Ok tt, set_pools (Some (<[config.Name projCfg := ps]> m)) d)
           | None => (Panic "assignment to entry in nil map", d)
           end.

Fixpoint init_projects (projs : list config.ProjectConfig) : St Dispatcher unit :=
  match projs with
  | [] => ret tt
  | p :: projs' =>
      (if config.Enabled p then wrapErr ("init project " +:+ config.Name p) (initProject p) else ret tt) ;;;
      init_projects projs'
  end.

Definition Initialize : St Dispatcher unit :=
  c <- getConfig ;;
  init_projects (config.Projects c).

(** ** Dispatching *)

Abbreviation Go := (Thr Dispatcher).

Definition reads {X A} (f : Dispatcher -> X) (k : X -> Go A) : Go A :=
  Atomic (fun _ => true) (fun d => d) (fun d => k (f d)).

Definition onMem {A} : St (Pool message.Message) A -> St Dispatcher A := zoom mem set_mem.

Definition ReleaseMessage (msg : option nat) : Go unit := atomic (onMem (message.ReleaseMessage msg)) Done.

(** [message.ReleaseMessage(msg); return err]. *)
Definition release_fail (msg : option nat) (e : error) : Go unit :=
  bindT (ReleaseMessage msg) (fun _ => Done (Err e)).

(** [*msg] *)
Definition deref (msg : option nat) (k : message.Message -> Go unit) : Go unit :=
  reads (fun d => msg ≫= fun a => cells (mem d) !! a)
    (fun m => match m with Some m => k m | None => Done (Panic "nil pointer dereference") end).

(** [message.AcquireMessage()]: the runtime chooses among the free ones. *)
Definition AcquireMessage (k : nat -> Go unit) : Go unit :=
  reads (fun d => length (free (mem d))) (fun n =>
    chooseT n (fun c =>
      atomic (onMem (message.AcquireMessage c)) (fun r =>
        match r with Ok a => k a | Err e => Done (Err e) | Panic p => Done (Panic p) end))).

(** The fields of [src] written over those of [dst]. *)
Definition copy_fields (src dst : message.Message) : message.Message :=
  message.MkMessage (message.RequestID src) (message.TraceID src) (message.Project src) (message.Router src)
    (if decide (0 < length (raw_bytes (message.Data src))) then message.Data src else message.Data dst)
    (message.Env src)
    (foldl (fun acc kv => <[kv.1 := kv.2]> acc) (message.Headers dst) (map_to_list (message.Headers src)))
    (message.Timestamp src).

Definition copyMessage (src : option nat) (k : nat -> Go unit) : Go unit :=
  AcquireMessage (fun dst =>
    atomic (onMem (match src with
                   | None => panic "nil pointer dereference"
                   | Some a => s <- load a ;; d <- load dst ;; store dst (copy_fields s d)
                   end))
      (fun r => match r with Ok _ => k dst | Err e => Done (Err e) | Panic p => Done (Panic p) end)).

Definition pool_submit (strict : bool) (i : nat) (m : nat) : Go unit :=
  liftT (pool_at i) (put_pool i) (if strict then SubmitStrict m else Submit m).

Fixpoint submit_all (strict : bool) (msg : option nat) (ps : list nat) : Go unit :=
  match ps with
  | [] => bindT (ReleaseMessage msg) (fun _ => Done (Ok tt))
  | i :: ps' =>
      copyMessage msg (fun m =>
        attemptT (pool_submit strict i m) (fun r =>
          match r with
          | Err e => release_fail msg (WrapError "submit to sink pool" e)
          | _ => submit_all strict msg ps'
          end))
  end.

(** Processors that cannot be created are skipped. *)
Fixpoint add_processors (r : pipeline.Registry) (refs : list config.PipelineRef) (chain : pipeline.Chain) : result pipeline.Chain :=
  match refs with
  | [] => Ok chain
  | ref :: refs' =>
      match pipeline.Create (config.pipe_Type ref) (config.pipe_Config ref) r with
      | Ok proc => add_processors r refs' (pipeline.Add chain proc)
      | Err _ => add_processors r refs' chain
      | Panic p => Panic p
      end
  end.

Definition buildPipelineChain (d : Dispatcher) (projCfg : config.ProjectConfig) : result pipeline.Chain :=
  add_processors (pipelineReg d) (config.Pipelines projCfg) (pipeline.NewChain []).

(** [msg, err = chain.Process(msg)] for the project, when it has a pipeline;
    the message an error leaves is nil. *)
Definition run_pipeline (skipPipeline : bool) (proj : string) (msg : option nat) (k : option nat -> Go unit) : Go unit :=
  reads (fun d => (config.GetProject proj (cfg d), d)) (fun '(r, d) =>
    match r with
    | Panic p => Done (Panic p)
    | Ok (Some projCfg) =>
        if negb skipPipeline && bool_decide (0 < length (config.Pipelines projCfg)) then
          match buildPipelineChain d projCfg with
          | Panic p => Done (Panic p)
          | Err e => Done (Err e)
          | Ok chain =>
              atomic (onMem (pipeline.ChainProcess chain msg)) (fun r =>
                match r with
                | Ok msg' => k msg'
                | Err e => release_fail None (WrapError ("pipeline " +:+ config.Name projCfg) e)
                | Panic p => Done (Panic p)
                end)
          end
        else k msg
    | _ => k msg
    end).

Definition dispatchImpl (msg : option nat) (strict skipPipeline : bool) : Go unit :=
  match msg with
  | None => Done (Err (ErrorString "nil message"))
  | Some _ =>
      deref msg (fun m =>
      let proj := message.Project m in
      if String.eqb proj "" then release_fail msg (ErrorString "empty project") else
      reads pools (fun ps =>
      match ps with
      | None => release_fail msg (ErrorString "dispatcher pools not initialized")
      | Some pm =>
          match pm !! proj with
          | None => release_fail msg (ErrorString ("no sinks configured for project " +:+ proj))
          | Some [] => release_fail msg (ErrorString ("no sink pools configured for project " +:+ proj))
          | Some ps =>
              run_pipeline skipPipeline proj msg (fun msg' => submit_all strict msg' ps)
          end
      end))
  end.

Definition Dispatch (msg : option nat) : Go unit := dispatchImpl msg false false.
Definition DispatchStrict (msg : option nat) : Go unit := dispatchImpl msg true true.

(** ** Replay pacing, status and shutdown

    Of the reason [CanAcceptReplay] gives only the sink's name is kept. *)

Fixpoint replay_delay (d : Dispatcher) (ps : list nat) (maxDelay : Z) : result Z :=
  match ps with
  | [] => Ok maxDelay
  | i :: ps' =>
      match heap d !! i with
      | None => Panic "nil pointer dereference"
      | Some c =>
          let '(ok, delay) := CanAcceptReplay (pc_wp c) in
          if negb ok then Err (ErrorString ("replay paused for sink " +:+ pc_name c))
          else replay_delay d ps' (if (maxDelay <? delay)%Z then delay else maxDelay)
      end
  end.

Definition ReplayBackoff (projectName : string) (d : Dispatcher) : result Z :=
  if String.eqb projectName "" then Err (ErrorString "empty project") else
  match pools d with
  | None => Err (ErrorString "dispatcher pools not initialized")
  | Some pm =>
      match pm !! projectName with
      | None => Err (ErrorString ("no sinks configured for project " +:+ projectName))
      | Some [] => Err (ErrorString ("no sink pools configured for project " +:+ projectName))
      | Some ps => replay_delay d ps 0
      end
  end.

Definition all_pools (d : Dispatcher) : list nat := concat (map_to_list (default ∅ (pools d))).*2.

Record SinkInfo := MkSinkInfo { si_Name : string; si_Sink : nat }.

(** In some order of the projects. *)
Definition SinkInfos (d : Dispatcher) : list SinkInfo :=
  omap (fun i => (fun c => MkSinkInfo (pc_name c) i) <$> heap d !! i) (all_pools d).

Fixpoint shutdown_pools (ps : list nat) : Go unit :=
  match ps with
  | [] => Done (Ok tt)
  | i :: ps' => attemptT (liftT (pool_at i) (put_pool i) Shutdown) (fun _ => shutdown_pools ps')
  end.

Definition Shutdown : Go unit := reads all_pools shutdown_pools.

Definition max_usage (d : Dispatcher) (ps : list nat) : f64 :=
  foldl (fun m i => match heap d !! i with
                    | Some c => if SFltb m (ChannelUsage (pc_wp c)) then ChannelUsage (pc_wp c) else m
                    | None => m
                    end) (S754_zero false) ps.

Definition GetPoolStatus (d : Dispatcher) : gmap string f64 := max_usage d <$> default ∅ (pools d).
End dispatcher.
Arguments Dispatcher W K L : clear implicits.
End project.
