(* ===== verification/SinkAdapters.v ===== *)
(** * The Redis and Kafka sinks (internal/sink/redis_sink.go, kafka_sink.go)

    The adapters between a worker pool and the two client libraries: how the
    settings of a sink are read, what is sent for a message, and what the
    client's answer becomes.  The clients are not part of the repository; the
    calls the adapters make of them are the classes [RedisClient] and
    [KafkaWriter].  Log lines are left out. *)

From Stdlib Require Import ZArith Lia Ascii String SpecFloat.
From stdpp Require Import base tactics numbers strings gmap list sorting.
From S2P Require Import Prelude GoStrings GoFloat GoUtf8 GoTime GoCrypto Message Threads Sink ConfigPkg Json JsonDecode JsonEncode JsonCompact JsonEnvelope Pipeline Dispatcher.

Module adapters.
Local Open Scope go_scope.

(** ** Reading settings *)

Definition intConfig (cfg : anymap) (key : string) (def : Z) : Z :=
  match cfg !! key with
  | Some (VFloat val) => f64_to_int val
  | Some (VInt val) => val
  | _ => def
  end.

Definition int64Config (cfg : anymap) (key : string) (def : Z) : Z :=
  match cfg !! key with
  | Some (VFloat val) => f64_to_int val
  | Some (VInt val) => val
  | _ => def
  end.

Definition durationConfig (cfg : anymap) (key : string) (def : Z) : Z :=
  match cfg !! key with
  | Some (VString v) => match time.ParseDuration v with Some d => d | None => def end
  | _ => def
  end.

(** [if v, ok := cfg[key].(string); ok { ... = v }]. *)
Definition stringConfig (cfg : anymap) (key : string) (def : string) : string :=
  match cfg !! key with Some (VString v) => v | _ => def end.

(** ** Envelopes *)

(** The envelopes' [sync.Pool], and what the runtime picks at each [Get]. *)
Record EnvPool := MkEnvPool { envs : Pool message.Envelope; picks : nat -> option nat; picked : nat }.

Definition onEnvs {A} : St (Pool message.Envelope) A -> St EnvPool A :=
  zoom envs (fun p e => MkEnvPool p (picks e) (picked e)).

Definition acquire : St EnvPool nat := fun e =>
  let '(r, p) := message.AcquireEnvelope (picks e (picked e)) (envs e) in (r, MkEnvPool p (picks e) (S (picked e))).

(** The envelope of a message. *)
Definition envelope_of (msg : message.Message) : message.Envelope :=
  message.MkEnvelope
    (message.MkGatewayMeta (message.RequestID msg) (message.TraceID msg) (message.Timestamp msg) (message.Env msg))
    (message.Project msg) (message.Router msg) (message.Data msg).

(** Every field is assigned. *)
Definition buildEnvelope (msg : message.Message) : St EnvPool nat :=
  env <- acquire ;;
  _ <- onEnvs (load env) ;;
  onEnvs (store env (envelope_of msg)) ;;;
  ret env.

(** [envelope := buildEnvelope(msg); data, err := json.Marshal(envelope);
    message.ReleaseEnvelope(envelope)]. *)
Definition encode (msg : message.Message) : St EnvPool (result bytes) :=
  env <- buildEnvelope msg ;;
  e <- onEnvs (load env) ;;
  onEnvs (message.ReleaseEnvelope env) ;;;
  ret (jsonmsg.MarshalEnvelope e).

(** ** Redis *)

Record RedisConfig := MkRedisConfig {
  Addr : string; Password : string; DB : Z; PoolSize : Z; MinIdleConns : Z;
  DialTimeout : Z; ReadTimeout : Z; WriteTimeout : Z; Key : string; Type_ : string; MaxLen : Z }.

(** The fields of [redis.Options] that are set. *)
Record Options := MkOptions {
  o_Addr : string; o_Password : string; o_DB : Z; o_PoolSize : Z; o_MinIdleConns : Z;
  o_DialTimeout : Z; o_ReadTimeout : Z; o_WriteTimeout : Z }.

(** A command and its arguments. *)
Inductive Command :=
| LPUSH (key value : string)
| XADD (stream : string) (maxLen : Z) (approx : bool) (values : list (string * string)).

(** [github.com/redis/go-redis]: the calls on a [*redis.Client]; the flag says
    whether the context is cancelled. *)
Class RedisClient (C : Type) := {
  NewClient : Options -> C;
  run_command : bool -> Command -> St C unit;
  Ping : St C unit;
  ClientClose : St C unit;
}.

Section redis.
Context {C : Type} `{RedisClient C}.

Record RedisSink := MkRedisSink { r_name : string; client : C; key : string; typ : string; maxLen : Z; r_envs : EnvPool }.

Definition set_client (c : C) (s : RedisSink) : RedisSink :=
  MkRedisSink (r_name s) c (key s) (typ s) (maxLen s) (r_envs s).
Definition set_renvs (e : EnvPool) (s : RedisSink) : RedisSink :=
  MkRedisSink (r_name s) (client s) (key s) (typ s) (maxLen s) e.

Definition onClient {A} : St C A -> St RedisSink A := zoom client set_client.
Definition onREnvs {A} : St EnvPool A -> St RedisSink A := zoom r_envs set_renvs.

(** The error result is always nil. *)
Definition NewRedisSink (name : string) (cfg : RedisConfig) (ep : EnvPool) : RedisSink :=
  let ty := if String.eqb (Type_ cfg) "" then "list" else Type_ cfg in
  MkRedisSink name
    (NewClient (MkOptions (Addr cfg) (Password cfg) (DB cfg) (PoolSize cfg) (MinIdleConns cfg)
                          (DialTimeout cfg) (ReadTimeout cfg) (WriteTimeout cfg)))
    (Key cfg) ty (MaxLen cfg) ep.

(** The command for an encoded message. *)
Definition redis_command (s : RedisSink) (data : bytes) : Command :=
  if String.eqb (typ s) "stream"
  then XADD (key s) (maxLen s) (0 <? maxLen s)%Z [("data", string_of_list_ascii data)]
  else LPUSH (key s) (string_of_list_ascii data).

Definition RedisSend (cancelled : bool) (msg : message.Message) : St RedisSink unit :=
  data <- onREnvs (encode msg) ;;
  match data with
  | Ok d => s <- get ;; onClient (run_command cancelled (redis_command s d))
  | Err e => fail (WrapError "redis sink marshal" e)
  | Panic p => panic p
  end.

#[export] Instance redis_sink (name : string) : Sink RedisSink := {
  Name := name;
  Send := RedisSend;
  HealthCheck := onClient Ping;
  SinkClose := onClient ClientClose;
}.

Definition redis_config (cfg : anymap) : RedisConfig :=
  MkRedisConfig (stringConfig cfg "addr" "") (stringConfig cfg "password" "")
    (intConfig cfg "db" 0) (intConfig cfg "pool_size" 0) (intConfig cfg "min_idle_conns" 0)
    (durationConfig cfg "dial_timeout" 0) (durationConfig cfg "read_timeout" 0) (durationConfig cfg "write_timeout" 0)
    (stringConfig cfg "key" "") (stringConfig cfg "type" "list") (int64Config cfg "max_len" 0).

Definition RedisSinkFactory (ep : EnvPool) (name : string) (cfg : anymap) : result RedisSink :=
  Ok (NewRedisSink name (redis_config cfg) ep).
End redis.

(** ** Kafka *)

Record KafkaConfig := MkKafkaConfig {
  Brokers : list string; Topic : string; PartitionKey : string; Compression : string;
  BatchSize : Z; BatchTimeout : Z }.

Inductive codec := NoCodec | Gzip | Snappy | Lz4 | Zstd.

(** The fields of [kafka.Writer] that are set: a hash balancer, one
    acknowledgement, synchronous. *)
Record WriterConfig := MkWriterConfig {
  w_Addr : list string; w_Topic : string; w_BatchSize : Z; w_BatchTimeout : Z; w_Compression : codec }.

(** [github.com/segmentio/kafka-go] and the dialer of the health check. *)
Class KafkaWriter (C : Type) := {
  NewWriter : WriterConfig -> C;
  WriteMessages : bool -> bytes -> bytes -> St C unit;
  Dial : St C unit;
  WriterClose : St C unit;
}.

Section kafka.
Context {C : Type} `{KafkaWriter C}.

Record KafkaSink := MkKafkaSink { k_name : string; writer : C; partitionKey : string; k_envs : EnvPool }.

Definition onWriter {A} : St C A -> St KafkaSink A :=
  zoom writer (fun c s => MkKafkaSink (k_name s) c (partitionKey s) (k_envs s)).
Definition onKEnvs {A} : St EnvPool A -> St KafkaSink A :=
  zoom k_envs (fun e s => MkKafkaSink (k_name s) (writer s) (partitionKey s) e).

Definition compression_codec (c : string) : codec :=
  if String.eqb c "gzip" then Gzip else if String.eqb c "snappy" then Snappy
  else if String.eqb c "lz4" then Lz4 else if String.eqb c "zstd" then Zstd else NoCodec.

Definition NewKafkaSink (name : string) (cfg : KafkaConfig) (ep : EnvPool) : result KafkaSink :=
  if (length (Brokers cfg) =? 0)%nat then Err (ErrorString "kafka brokers required")
  else if String.eqb (Topic cfg) "" then Err (ErrorString "kafka topic required")
  else
    let batchSize := if (BatchSize cfg <=? 0)%Z then 100%Z else BatchSize cfg in
    let batchTimeout := if (BatchTimeout cfg <=? 0)%Z then (100 * config.Millisecond)%Z else BatchTimeout cfg in
    Ok (MkKafkaSink name
          (NewWriter (MkWriterConfig (Brokers cfg) (Topic cfg) batchSize batchTimeout (compression_codec (Compression cfg))))
          (PartitionKey cfg) ep).

Definition text_le (x y : string * string) : Prop := String.leb x.1 y.1 = true.
#[global] Instance text_le_dec : RelDecision text_le.
Proof. intros x y. unfold text_le. apply _. Defined.

(** [fmt.Sprint] of a decoded value; maps are printed in the order of their
    keys. *)
Fixpoint Sprint (v : any) : string :=
  match v with
  | VNil => "<nil>"
  | VString s => s
  | VBool b => if b then "true" else "false"
  | VInt z => Itoa z
  | VFloat f => Sprint_float f
  | VList l => "[" +:+ String.concat " " (List.map Sprint l) +:+ "]"
  | VMap m =>
      let texts := List.map (fun kv => (kv.1, Sprint kv.2)) m in
      "map[" +:+ String.concat " " ((fun kv => kv.1 +:+ ":" +:+ kv.2)
                   <$> merge_sort text_le texts) +:+ "]"
  end.

(** The first of the fields that is present. *)
Fixpoint first_field (fields : list string) (data : anymap) : option any :=
  match fields with
  | [] => None
  | f :: fields' => match data !! f with Some v => Some v | None => first_field fields' data end
  end.

Definition partitionKeyBytes (s : KafkaSink) (msg : message.Message) : bytes :=
  if (length (raw_bytes (message.Data msg)) =? 0)%nat then bytes_of (message.RequestID msg)
  else
    match jsondec.UnmarshalMap (raw_bytes (message.Data msg)) with
    | Ok m =>
        let data := default ∅ m in
        let own := if String.eqb (partitionKey s) "" then None else data !! partitionKey s in
        match own with
        | Some v => bytes_of (Sprint v)
        | None =>
            match first_field ["UID"; "uid"; "user_id"; "UserID"] data with
            | Some v => bytes_of (Sprint v)
            | None => bytes_of (message.RequestID msg)
            end
        end
    | _ => bytes_of (message.RequestID msg)
    end.

Definition KafkaSend (cancelled : bool) (msg : message.Message) : St KafkaSink unit :=
  data <- onKEnvs (encode msg) ;;
  match data with
  | Ok d => s <- get ;; onWriter (WriteMessages cancelled (partitionKeyBytes s msg) d)
  | Err e => fail (WrapError "kafka sink marshal" e)
  | Panic p => panic p
  end.

#[export] Instance kafka_sink (name : string) : Sink KafkaSink := {
  Name := name;
  Send := KafkaSend;
  HealthCheck := wrapErr "kafka broker unreachable" (onWriter Dial);
  SinkClose := onWriter WriterClose;
}.

(** [for _, b := range v { if s, ok := b.(string); ok { append } }]. *)
Definition brokersConfig (cfg : anymap) : list string :=
  match cfg !! "brokers" with
  | Some (VList v) => omap (fun b => match b with VString s => Some s | _ => None end) v
  | _ => []
  end.

Definition kafka_config (rawCfg : anymap) : KafkaConfig :=
  MkKafkaConfig (brokersConfig rawCfg) (stringConfig rawCfg "topic" "") (stringConfig rawCfg "partition_key" "")
    (stringConfig rawCfg "compression" "") (intConfig rawCfg "batch_size" 100)
    (durationConfig rawCfg "batch_timeout" (100 * config.Millisecond)).

Definition KafkaSinkFactory (ep : EnvPool) (name : string) (rawCfg : anymap) : result KafkaSink :=
  NewKafkaSink name (kafka_config rawCfg) ep.
End kafka.
End adapters.
