(* ===== verification/DispatchOwn.v ===== *)
(** * The dispatcher: ownership of messages across pools

    The pools of a dispatcher share the memory of the messages and the log.
    Here the ownership invariant of one pool ([SinkOwn]) is extended to all
    of them, and every method of the dispatcher is shown to respect it. *)

From Stdlib Require Import ZArith Lia Ascii String.
From stdpp Require Import base tactics numbers strings gmap list.
From S2P Require Import Prelude GoStrings Message Threads Sink SinkOwn ConfigPkg Pipeline Dispatcher.

Import project.
Local Open Scope go_scope.

Section own.
Context {W K L : Type} `{Sink K} `{LogSafe L}.
Abbreviation Disp := (Dispatcher W K L).
Context (has_log : bool).

Definition queues (h : list (PoolCell (K := K))) : list nat := concat ((fun c => sink.ch (pc_wp c)) <$> h).
Definition queued (d : Disp) : list nat := queues (heap d).

(** The queues of the pools other than [i]. *)
Definition rest (i : nat) (d : Disp) : list nat := queues (delete i (heap d)).

Record cell_ok (c : PoolCell (K := K)) : Prop := {
  co_exit : (Z.of_nat (sink.wg (sink.life (pc_wp c))) < sink.workers (sink.params (pc_wp c)))%Z ->
            sink.chClosed (pc_wp c) = true /\ sink.ch (pc_wp c) = [];
  co_workers : (0 < sink.workers (sink.params (pc_wp c)))%Z;
}.

Record disp_inv (d : Disp) (O : list nat) : Prop := {
  di_mem : message.pool_ok (mem d);
  di_live : Forall (message.live (mem d)) (O ++ queued d);
  di_nodup : NoDup (O ++ queued d);
  di_log : match walWriter d with Some l => has_log = true /\ log_inv l | None => has_log = false end;
  di_cells : Forall cell_ok (heap d);
  di_reg : pipelineReg d = pipeline.NewRegistry;
}.

Lemma disp_inv_perm d O O' : O ≡ₚ O' -> disp_inv d O -> disp_inv d O'.
Proof. intros Hp [A1 A2 A3 A4 A5 A6]. split; try done; by rewrite <- Hp. Qed.

Lemma queues_at h i c : h !! i = Some c -> queues h ≡ₚ sink.ch (pc_wp c) ++ queues (delete i h).
Proof.
  unfold queues. revert i; induction h as [|c0 h IH]; intros [|i] Hi; simplify_eq/=; [done|].
  rewrite (IH i Hi), !app_assoc. f_equiv. apply Permutation_app_comm.
Qed.

Lemma delete_alter (f : PoolCell (K := K) -> PoolCell (K := K)) (i : nat) (h : list PoolCell) : delete i (alter f i h) = delete i h.
Proof. revert i; induction h as [|c h IH]; intros [|i]; cbn; [done..|]. f_equal. apply IH. Qed.

(** A pool's own invariant, the rest of the dispatcher being counted among
    the other goroutines. *)
Lemma disp_pool i d s O : disp_inv d O -> pool_at i d = Some s -> pool_inv has_log s (O ++ rest i d).
Proof.
  intros [A1 A2 A3 A4 A5 _] Hs. unfold pool_at in Hs. destruct (heap d !! i) as [c|] eqn:E; [|done].
  cbn in Hs. injection Hs as <-. pose proof (queues_at _ _ _ E) as Hp. unfold queued in *.
  assert (Hq : O ++ queues (heap d) ≡ₚ (O ++ rest i d) ++ sink.ch (pc_wp c)).
  { rewrite Hp, <- app_assoc. f_equiv. apply Permutation_app_comm. }
  destruct (Forall_lookup_1 _ _ _ _ A5 E) as [B1 B2].
  split; cbn; try done; by rewrite <- Hq.
Qed.

Lemma disp_put i d s s' O O' :
  disp_inv d O' -> pool_at i d = Some s -> pool_inv has_log s' (O ++ rest i d) -> disp_inv (put_pool i s' d) O.
Proof.
  intros [_ _ _ _ A5 A6] Hs [B1 B2 B3 B4 B5 B6]. unfold pool_at in Hs. destruct (heap d !! i) as [c|] eqn:E; [|done].
  set (c' := MkPoolCell (pc_name c) (sink.wp_ s') (sink.snk s')).
  assert (E' : heap (put_pool i s' d) !! i = Some c') by (cbn; by rewrite list_lookup_alter_eq, E).
  assert (Hq : O ++ queued (put_pool i s' d) ≡ₚ (O ++ rest i d) ++ sink.ch (sink.wp_ s')).
  { unfold queued. rewrite (queues_at _ _ _ E'). cbn. rewrite delete_alter, <- app_assoc.
    f_equiv. apply Permutation_app_comm. }
  split; cbn; try done.
  - by rewrite Hq.
  - by rewrite Hq.
  - apply Forall_alter; [done|]. intros c0 _ _. by split.
Qed.

(** ** The methods

    Panics aside (the request fails, the message stays allocated), the
    goroutine holds at the end what [Q] says. *)

Abbreviation holds := (holds disp_inv).

Lemma holds_reads {X A} Q a (f : Disp -> X) (k : X -> Thr Disp A) :
  (forall d O, disp_inv d (a ++ O) -> holds Q a (k (f d))) -> holds Q a (reads f k).
Proof. intros Hk d O HI _. exists a. eauto. Qed.

Lemma set_mem_inv d p O O' :
  disp_inv d O' -> message.pool_ok p -> Forall (message.live p) (O ++ queued d) -> NoDup (O ++ queued d) ->
  disp_inv (set_mem p d) O.
Proof. intros [A1 A2 A3 A4 A5 A6] Hp Hl Hn. by split. Qed.

Lemma inv_ReleaseMessage d a O :
  disp_inv d (a :: O) -> exists p, onMem (message.ReleaseMessage (Some a)) d = (Ok tt, set_mem p d) /\
    disp_inv (set_mem p d) O /\ ~ message.live p a /\
    (forall b, b <> a -> message.live (mem d) b -> message.live p b /\ cells p !! b = cells (mem d) !! b).
Proof.
  intros HI. pose proof (di_live _ _ HI) as Hl. pose proof (di_nodup _ _ HI) as Hn. cbn in Hl, Hn.
  apply Forall_cons in Hl as [Ha Hl]. apply NoDup_cons in Hn as [Hna Hn].
  destruct (message.ReleaseMessage_spec a (mem d) (di_mem _ _ HI) Ha) as (p & Hr & Hok & Hnl & Hoth).
  exists p. split; [unfold onMem, zoom; by rewrite Hr|]. split; [|done].
  eapply set_mem_inv; [done|done| |done].
  rewrite Forall_forall in *. intros b Hb. apply Hoth; [|by apply Hl]. intros ->. by apply Hna.
Qed.

Lemma inv_AcquireMessage d c O :
  disp_inv d O -> exists b p, onMem (message.AcquireMessage c) d = (Ok b, set_mem p d) /\
    disp_inv (set_mem p d) (b :: O) /\ cells p !! b = Some message.newMessage /\ ~ message.live (mem d) b /\
    (forall x, message.live (mem d) x -> message.live p x /\ cells p !! x = cells (mem d) !! x).
Proof.
  intros HI. destruct (message.AcquireMessage_spec c (mem d) (di_mem _ _ HI)) as (b & p & Hr & Hok & Hc & Hl & Hnl & Hoth).
  exists b, p. split; [unfold onMem, zoom; by rewrite Hr|]. split; [|done].
  pose proof (di_live _ _ HI) as HL. eapply set_mem_inv; [done|done|..].
  - cbn. constructor; [done|]. eapply Forall_impl; [exact HL|]. intros x Hx. by apply Hoth.
  - cbn. constructor; [|apply (di_nodup _ _ HI)]. intros Hin. by rewrite Forall_forall in HL; apply Hnl, HL.
Qed.

(** Writing to a live message. *)
Lemma store_ok p a v :
  message.pool_ok p -> message.live p a ->
  let p' := MkPool (<[a := v]> (cells p)) (free p) (next p) in
  message.pool_ok p' /\ (forall b, message.live p b -> message.live p' b).
Proof.
  intros [A1 A2 A3] [Hs Hf]. split; [split; cbn; [done| |]|].
  - intros b Hb. rewrite lookup_insert_ne by (intros ->; done). by apply A2.
  - intros b Hb. apply lookup_insert_is_Some in Hb as [->|[_ Hb]]; auto.
  - intros b [Hb1 Hb2]. split; [|done]. cbn. apply lookup_insert_is_Some'. auto.
Qed.

Lemma inv_store d a v O O0 :
  disp_inv d O0 -> a ∈ O0 -> O = O0 ->
  disp_inv (set_mem (MkPool (<[a := v]> (cells (mem d))) (free (mem d)) (next (mem d))) d) O.
Proof.
  intros HI Ha ->. pose proof (di_live _ _ HI) as HL.
  assert (Hla : message.live (mem d) a) by (rewrite Forall_forall in HL; apply HL; set_solver).
  destruct (store_ok (mem d) a v (di_mem _ _ HI) Hla) as [Hok Hoth].
  eapply set_mem_inv; [done|done| |apply (di_nodup _ _ HI)]. eapply Forall_impl; [exact HL|]. apply Hoth.
Qed.

(** ** Built-in processors touch nothing but their message *)

Definition tame (f : option nat -> St (Pool message.Message) (option nat)) : Prop := forall a q r q',
  f (Some a) q = (r, q') ->
  (q' = q \/ exists v, q' = MkPool (<[a := v]> (cells q)) (free q) (next q)) /\
  forall m', r = Ok m' -> m' = Some a.

Lemma put_data_tame what data a m q r q' :
  pipeline.put_data what data a m q = (r, q') ->
  (q' = q \/ exists v, q' = MkPool (<[a := v]> (cells q)) (free q) (next q)) /\ forall m', r = Ok m' -> m' = Some a.
Proof.
  unfold pipeline.put_data, bind, wrapErr. destruct (json_Marshal data); intros [= <- <-]; [|by split; [left|]..].
  split; [right; eauto|]. by intros m' [= <-].
Qed.

Lemma ret_tame a (q q' : Pool message.Message) r :
  ret (Some a) q = (r, q') ->
  (q' = q \/ exists v, q' = MkPool (<[a := v]> (cells q)) (free q) (next q)) /\ forall m', r = Ok m' -> m' = Some a.
Proof. intros [= <- <-]. split; [auto|]. by intros m' [= <-]. Qed.

Lemma filter_tame f : tame (pipeline.FieldFilter_Process f).
Proof.
  intros a q r q'. unfold pipeline.FieldFilter_Process, pipeline.deref, bind at 1 2, load.
  destruct (cells q !! a) as [m|]; cbn; [|intros [= <- <-]; by split; [left|]].
  destruct (decide _); [apply ret_tame|]. destruct (json_Unmarshal _); [|apply ret_tame].
  destruct (String.eqb _ _); [apply put_data_tame|]. destruct (String.eqb _ _); [apply put_data_tame|apply ret_tame].
Qed.

Lemma add_tame f : tame (pipeline.FieldAdd_Process f).
Proof.
  intros a q r q'. unfold pipeline.FieldAdd_Process, pipeline.deref, bind at 1 2, load.
  destruct (cells q !! a) as [m|]; cbn; [|intros [= <- <-]; by split; [left|]].
  set (data := if decide _ then _ else _). unfold bind, pipeline.add_fields.
  destruct data as [d|]; [apply put_data_tame|]. destruct (map_to_list _); [apply put_data_tame|].
  intros [= <- <-]. by split; [left|].
Qed.

Lemma redact_tame f : tame (pipeline.FieldRedact_Process f).
Proof.
  intros a q r q'. unfold pipeline.FieldRedact_Process, pipeline.deref, bind at 1 2, load.
  destruct (cells q !! a) as [m|]; cbn; [|intros [= <- <-]; by split; [left|]].
  destruct (decide _); [apply ret_tame|]. destruct (json_Unmarshal _); [apply put_data_tame|apply ret_tame].
Qed.

Lemma create_tame typ c p : pipeline.Create typ c pipeline.NewRegistry = Ok p -> tame (pipeline.Process p).
Proof.
  unfold pipeline.Create. destruct (pipeline.NewRegistry !! typ) as [f|] eqn:E; [|done].
  unfold pipeline.NewRegistry, pipeline.registerBuiltins, pipeline.Register in E.
  apply lookup_insert_Some in E as [[_ <-]|[_ E]]; [intros [= <-]; apply redact_tame|].
  apply lookup_insert_Some in E as [[_ <-]|[_ E]]; [intros [= <-]; apply add_tame|].
  apply lookup_insert_Some in E as [[_ <-]|[_ E]]; [intros [= <-]; apply filter_tame|].
  by apply lookup_empty_Some in E.
Qed.

Lemma add_processors_tame refs chain c :
  Forall (fun p => tame (pipeline.Process p)) chain ->
  add_processors pipeline.NewRegistry refs chain = Ok c -> Forall (fun p => tame (pipeline.Process p)) c.
Proof.
  revert chain; induction refs as [|r refs IH]; intros chain Hc E; cbn in E; [by injection E as <-|].
  destruct (pipeline.Create _ _ _) as [p|e|w] eqn:Ep; [|by eapply IH|done].
  eapply IH; [|exact E]. apply Forall_app. split; [done|]. constructor; [by eapply create_tame|constructor].
Qed.

Lemma chain_tame c : Forall (fun p => tame (pipeline.Process p)) c -> tame (pipeline.ChainProcess c).
Proof.
  induction 1 as [|p c Hp _ IH]; intros a q r q' E; cbn in E; [by apply ret_tame|].
  unfold bind, wrapErr in E. destruct (pipeline.Process p (Some a) q) as [r1 q1] eqn:E1.
  destruct (Hp a q r1 q1 E1) as [Hq Hr]. destruct r1 as [m1|e|w]; [|injection E as <- <-; split; [done|done]..].
  rewrite (Hr m1 eq_refl) in E. destruct (IH a q1 r q' E) as [Hq' Hr']. split; [|done].
  destruct Hq as [->|[v ->]]; [done|]. right. destruct Hq' as [->|[v' ->]]; [eauto|].
  exists v'. cbn. by rewrite insert_insert_eq.
Qed.

(** ** Dispatching *)

Section ends.
Context (Q : result unit -> list nat -> Prop).
Hypothesis Qpanic : forall p a, Q (Panic p) a.
Hypothesis Qnil : forall r, Q r [].

Lemma holds_Release_then a (k : unit -> Thr Disp unit) :
  holds Q [] (k tt) -> holds Q [a] (bindT (ReleaseMessage (Some a)) k).
Proof.
  intros Hk d O HI _. destruct (inv_ReleaseMessage d a O HI) as (p & Hr & HI' & _). exists []. rewrite Hr. by split.
Qed.

Lemma holds_release_fail a e : holds Q [a] (release_fail (Some a) e).
Proof. apply holds_Release_then. apply Qnil. Qed.

Lemma holds_copyMessage a (k : nat -> Thr Disp unit) :
  (forall b, holds Q [b; a] (k b)) -> holds Q [a] (copyMessage (Some a) k).
Proof.
  intros Hk. apply holds_reads. intros d0 O0 _. apply holds_chooseT. intros c d O HI _.
  destruct (inv_AcquireMessage d c _ HI) as (b & p & Hr & HI' & _). exists [b; a]. cbn [atomic fst snd]. rewrite Hr.
  split; [done|]. cbn [fst]. clear d O HI p Hr HI'. intros d O HI _. exists [b; a].
  assert (HL : message.live (mem d) b /\ message.live (mem d) a).
  { pose proof (di_live _ _ HI) as HL. rewrite Forall_forall in HL. split; apply HL; set_solver. }
  destruct HL as [[[vb Hb] _] [[va Ha] _]].
  unfold onMem, zoom, bind, load. rewrite Ha, Hb. cbn [fst snd]. split; [|apply Hk].
  eapply inv_store; [exact HI|set_solver|done].
Qed.

Lemma holds_pool_submit strict i b a (k : result unit -> Thr Disp unit) :
  (forall r, holds Q [a] (k r)) -> holds Q [b; a] (attemptT (pool_submit strict i b) k).
Proof.
  intros Hk. apply holds_attemptT.
  apply (holds_mono _ (fun r x => (forall p, r <> Panic p) -> x = [a])).
  { intros r x Hx. destruct r as [u|e|p]; [|rewrite Hx by done; apply Hk..|apply Qpanic].
    rewrite Hx by done. apply Hk. }
  apply (holds_liftT (pool_at i) (put_pool i) (pool_inv has_log) disp_inv (rest i)).
  - intros d s O. apply disp_pool.
  - intros d s s' O O'. apply disp_put.
  - intros p x Hx. by destruct (Hx p).
  - eapply holds_mono; [|apply (holds_frame (pool_inv has_log) no_leak [b] [a])].
    + intros r x (a0 & -> & Hn) Hp. by rewrite (Hn Hp).
    + destruct strict; [apply holds_SubmitStrict|apply holds_Submit].
    + intros s0 O O' Hperm. by apply pool_inv_perm.
Qed.

Lemma holds_submit_all strict a ps : holds Q [a] (submit_all strict (Some a) ps).
Proof.
  induction ps as [|i ps IH]; cbn [submit_all]; [apply holds_Release_then, Qnil|].
  apply holds_copyMessage. intros b. apply holds_pool_submit. intros [u|e|p]; [done|apply holds_release_fail|done].
Qed.

Lemma holds_run_pipeline skip proj a (k : option nat -> Thr Disp unit) :
  (skip = true \/ forall e, Q (Err e) [a]) -> holds Q [a] (k (Some a)) ->
  holds Q [a] (run_pipeline skip proj (Some a) k).
Proof.
  intros He Hk d O HI _. exists [a]. split; [done|]. cbn beta.
  destruct (config.GetProject proj (cfg d)) as [[c|]|e|p]; [|done|done|apply Qpanic].
  destruct (negb skip && _) eqn:Es; [|done].
  destruct He as [->|He]; [done|].
  unfold buildPipelineChain. rewrite (di_reg _ _ HI).
  destruct (add_processors _ _ _) as [chain|e|p] eqn:Ec; [|apply He|apply Qpanic].
  apply add_processors_tame in Ec; [|constructor]. apply chain_tame in Ec.
  clear d O HI Es. intros d O HI _. exists [a]. unfold onMem, zoom. cbn [fst snd].
  destruct (pipeline.ChainProcess chain (Some a) (mem d)) as [r q'] eqn:E. destruct (Ec _ _ _ _ E) as [Hq Hr].
  cbn [fst snd]. split.
  - destruct Hq as [->|[v ->]]; [|eapply inv_store; [exact HI|set_solver|done]].
    destruct HI as [A1 A2 A3 A4 A5 A6]. by split.
  - destruct r as [m'|e|p]; [rewrite (Hr m' eq_refl); exact Hk| |apply Qpanic].
    intros d' O' HI' _. exists [a]. split; [|apply He]. unfold onMem, zoom. cbn.
    destruct HI' as [A1 A2 A3 A4 A5 A6]. by split.
Qed.

Lemma holds_dispatchImpl a strict skip :
  (skip = true \/ forall e, Q (Err e) [a]) -> holds Q [a] (dispatchImpl (Some a) strict skip).
Proof.
  intros He. unfold dispatchImpl. apply holds_reads. intros d O HI.
  destruct (_ ≫= _) as [m|]; [|apply Qpanic]. destruct (String.eqb _ _); [apply holds_release_fail|].
  apply holds_reads. intros d1 O1 _. destruct (pools d1) as [pm|]; [|apply holds_release_fail].
  destruct (pm !! _) as [[|i ps]|]; [apply holds_release_fail| |apply holds_release_fail].
  apply holds_run_pipeline; [done|]. apply (holds_submit_all strict a (i :: ps)).
Qed.
End ends.
End own.
