(* ===== verification/DispatchSystem.v ===== *)
(** * The gateway at work: requests, replays, workers and probes together

    Any number of dispatches, replays, workers and recovery probes of all
    pools, shutdowns and configuration reloads interleave action by action on
    the one state of the dispatcher. *)

From Stdlib Require Import ZArith Lia Ascii String.
From stdpp Require Import base tactics numbers strings gmap list relations.
From S2P Require Import Prelude GoStrings Message Threads Sink SinkOwn SinkMachine ConfigPkg Pipeline Dispatcher DispatchOwn.

Import project.
Local Open Scope go_scope.

(** ** The loops of a pool as goroutines, [n] turns of them *)

Section loops.
Context {K L : Type} `{Sink K} `{LogSafe L}.
Abbreviation PoolSt := (sink.PoolSt K L).

Definition can_receive (s : PoolSt) : bool :=
  sink.chClosed (sink.wp_ s) || match sink.ch (sink.wp_ s) with [] => false | _ => true end.

Definition received (s : PoolSt) : PoolSt :=
  match sink.ch (sink.wp_ s) with _ :: q => sink.set_ch q s | [] => worker_exit s end.

(** [worker]: the [select], then the loop that drains the closed channel. *)
Fixpoint worker (n : nat) (drain : bool) : Thr PoolSt unit :=
  match n with
  | O => Done (Ok tt)
  | S n' =>
      let recv := Atomic can_receive received (fun s =>
        match sink.ch (sink.wp_ s) with
        | m :: _ => bindT (sink.safeProcess m drain) (fun _ => worker n' drain)
        | [] => Done (Ok tt)
        end) in
      if drain then recv else Choose (await sink.ctx_done (ret tt) (fun _ => worker n' true)) recv
  end.

Fixpoint recoveryLoop (n : nat) : Thr PoolSt unit :=
  match n with
  | O => Done (Ok tt)
  | S n' =>
      bindT sink.recovery_turn (fun stop : bool =>
        if stop then atomic sink.recovery_exit Done else recoveryLoop n')
  end.

Context (has_log : bool).
Abbreviation any_end := (fun (_ : result unit) (_ : list nat) => True).

Lemma holds_worker n drain : holds (pool_inv has_log) any_end [] (worker n drain).
Proof.
  revert drain; induction n as [|n IH]; intros drain; [done|]. cbn [worker].
  set (recv := Atomic can_receive received _).
  assert (Hrecv : holds (pool_inv has_log) any_end [] recv).
  { intros s O HI Hg. unfold can_receive, received in *. destruct (sink.ch (sink.wp_ s)) as [|m q] eqn:Ec.
    - destruct (receive_inv has_log drain s WExited (worker_exit s) O HI) as (a' & Ha & HI').
      { unfold receive. rewrite Ec. destruct (sink.chClosed _); [done|]. done. }
      cbn in Ha. subst a'. by exists [].
    - exists [m]. split.
      + destruct (receive_inv has_log drain s (WBusy drain (sink.safeProcess m drain)) (sink.set_ch q s) O HI) as (a' & _ & HI').
        { unfold receive. by rewrite Ec. }
        assert (Hp : m :: O ++ q ≡ₚ O ++ m :: q) by (by rewrite Permutation_middle).
        destruct HI as [A1 A2 A3 A4 A5 A6]. rewrite Ec in *. split; cbn in *; try done.
        * by rewrite Hp.
        * by rewrite Hp.
        * intros Hlt. by destruct (A5 Hlt).
      + apply holds_bindT. eapply holds_mono; [|apply holds_safeProcess].
        intros [u|e|p] a [-> Hp]; [apply IH|done|done]. }
  destruct drain; [exact Hrecv|]. split; [|exact Hrecv]. intros s O HI _. exists []. split; [done|apply IH].
Qed.

Lemma holds_recoveryLoop n : holds (pool_inv has_log) any_end [] (recoveryLoop n).
Proof.
  induction n as [|n IH]; [done|]. cbn [recoveryLoop]. apply holds_bindT.
  eapply holds_mono; [|apply holds_recovery_turn]. intros [[]|e|p] a ->; [|exact IH|done|done].
  intros s O HI _. exists []. split; [by apply inv_breaker|done].
Qed.
End loops.

(** ** The system *)

Section system.
Context {W K L : Type} `{Sink K} `{LogSafe L}.
Abbreviation Disp := (Dispatcher W K L).

Inductive Goroutine :=
| GDispatch (m : nat)                (* an upload *)
| GReplay (m : nat)                  (* a replayed entry *)
| GWorker (i n : nat)
| GProbe (i n : nat)
| GShutdown
| GReload (c : config.Manager W).

Definition msgs_of (g : Goroutine) : list nat :=
  match g with GDispatch m | GReplay m => [m] | _ => [] end.

Definition set_cfg (c : config.Manager W) (d : Disp) : Disp :=
  MkDispatcher c (reg d) (pipelineReg d) (pools d) (walWriter d) (bp d) (heap d) (mem d).

Definition thread_of (g : Goroutine) : Thr Disp unit :=
  match g with
  | GDispatch m => Dispatch (Some m)
  | GReplay m => DispatchStrict (Some m)
  | GWorker i n => liftT (pool_at i) (put_pool i) (worker n false)
  | GProbe i n => liftT (pool_at i) (put_pool i) (recoveryLoop n)
  | GShutdown => Shutdown
  | GReload c => atomic (modify (set_cfg c)) Done
  end.

(** One action of one goroutine. *)
Inductive sys_step : list (Thr Disp unit) * Disp -> list (Thr Disp unit) * Disp -> Prop :=
| sys_move ts d j t t' d' : ts !! j = Some t -> tstep t d t' d' -> sys_step (ts, d) (<[j := t']> ts, d').

Context (has_log : bool).
Abbreviation any_end := (fun (_ : result unit) (_ : list nat) => True).
Abbreviation safe := (holds (S := Disp) (disp_inv has_log) any_end).

Definition sys_inv (s : list (Thr Disp unit) * Disp) : Prop :=
  exists hs, Forall2 safe hs s.1 /\ disp_inv has_log s.2 (concat hs).

Lemma sys_step_inv s s' : sys_step s s' -> sys_inv s -> sys_inv s'.
Proof.
  intros [ts d j t t' d' Hj Hstep] (hs & HF & HI). cbn [fst snd] in *.
  destruct (Forall2_lookup_r _ _ _ _ _ HF Hj) as (a & Ha & Hsafe).
  destruct (concat_at hs j a Ha) as (others & Hc & Hc').
  destruct (holds_step (disp_inv has_log) any_end a t d t' d' others Hsafe) as (a' & HI' & Hsafe'); [|done|].
  { eapply disp_inv_perm; [exact Hc|exact HI]. }
  exists (<[j := a']> hs). cbn [fst snd]. split; [by apply Forall2_insert|].
  eapply disp_inv_perm; [symmetry; apply Hc'|exact HI'].
Qed.

Lemma safe_pool i (t : Thr (sink.PoolSt K L) unit) :
  holds (pool_inv has_log) any_end [] t -> safe [] (liftT (pool_at i) (put_pool i) t).
Proof.
  intros Ht. apply (holds_liftT (pool_at i) (put_pool i) (pool_inv has_log) (disp_inv has_log) (rest i)); [..|done|done].
  - intros d s O. apply disp_pool.
  - intros d s s' O O'. apply disp_put.
Qed.

Lemma safe_shutdown ps : safe [] (shutdown_pools ps).
Proof.
  induction ps as [|i ps IH]; [done|]. cbn [shutdown_pools]. apply holds_attemptT.
  eapply (holds_mono _ (fun r a => (forall p, r <> Panic p) -> a = [])).
  { intros [u|e|p] a Ha; [rewrite Ha by done; exact IH..|done]. }
  apply (holds_liftT (pool_at i) (put_pool i) (pool_inv has_log) (disp_inv has_log) (rest i)).
  - intros d s O. apply disp_pool.
  - intros d s s' O O'. apply disp_put.
  - intros p a Ha. by destruct (Ha p).
  - apply holds_Shutdown.
Qed.

Lemma safe_thread g : safe (msgs_of g) (thread_of g).
Proof.
  destruct g as [m|m|i n|i n| |c]; cbn [msgs_of thread_of].
  - apply holds_dispatchImpl; auto.
  - apply holds_dispatchImpl; auto.
  - apply safe_pool, holds_worker.
  - apply safe_pool, holds_recoveryLoop.
  - intros d O HI _. exists []. split; [done|apply safe_shutdown].
  - intros d O HI _. exists []. split; [|done]. destruct HI as [A1 A2 A3 A4 A5 A6]. by split.
Qed.
End system.

(** C11.  However uploads, replays, the workers and probes of every pool,
    shutdowns and configuration reloads interleave (with whatever the sinks
    answer, and with any pipelines of built-in processors), the one memory of
    messages the pools share stays sound: no message is handed back twice, a
    message waiting for reuse carries nothing of its last request, every
    queued message is live, and no message is queued twice, in one pool or in
    two. *)
Theorem pools_never_share_a_message {W K L} `{Sink K} `{LogSafe L} has_log
    (d d' : Dispatcher W K L) gs ts :
  disp_inv has_log d (concat (msgs_of (W := W) <$> gs)) ->
  rtc sys_step (thread_of <$> gs, d) (ts, d') ->
  message.pool_ok (mem d') /\ Forall (message.live (mem d')) (queued d') /\ NoDup (queued d').
Proof.
  intros HI Hr.
  assert (Hinv : sys_inv has_log (thread_of <$> gs, d)).
  { exists (msgs_of <$> gs). split; [|done]. cbn. clear HI Hr.
    induction gs as [|g gs IH]; cbn; constructor; [apply safe_thread|done]. }
  assert (Hend : sys_inv has_log (ts, d')).
  { clear HI. remember (thread_of <$> gs, d) as s eqn:Es. remember (ts, d') as s' eqn:Es'.
    clear Es Es'. induction Hr as [|s1 s2 s3 Hs _ IH]; [done|]. apply IH. by eapply sys_step_inv. }
  destruct Hend as (hs & _ & [A1 A2 A3 _ _ _]). cbn in *. split; [done|].
  apply Forall_app in A2 as [_ A2]. apply NoDup_app in A3 as (_ & _ & A3). done.
Qed.
