(* ===== verification/DispatchTheorems.v ===== *)
(** * The guarantees of the dispatcher

    How the configuration of a sink is put together, what a dispatch leaves
    in the pools and in the log on success and on failure, and when the
    replay of the log waits. *)

From Stdlib Require Import ZArith Lia Ascii String SpecFloat.
From stdpp Require Import base tactics numbers strings gmap list relations.
From S2P Require Import Prelude GoStrings Message Threads Sink SinkOwn SinkTheorems ConfigPkg Pipeline Dispatcher DispatchOwn DispatchSystem.

Import project.
Local Open Scope go_scope.

(** ** Sink configuration *)

Definition or_else {A} (o1 o2 : option A) : option A := match o1 with Some x => Some x | None => o2 end.

Lemma overlay_lookup src dst k : overlay src dst !! k = or_else (src !! k) (dst !! k).
Proof.
  unfold overlay. rewrite foldl_insert_union. destruct (src !! k) as [v|] eqn:E; cbn.
  - by apply lookup_union_Some_l.
  - by apply lookup_union_r.
Qed.

Definition instance_of (c : config.Config) (ref : config.SinkRef) : option config.SinkInstanceConfig :=
  if String.eqb (config.ref_Instance ref) "" then None else config.SinkInstances c !! config.ref_Instance ref.


(** ** Running a dispatch alone *)

Section dispatch.
Context {W K L : Type} `{Sink K} `{LogSafe L} `{!LogSpec L}.
Abbreviation Disp := (Dispatcher W K L).
Context (has_log : bool).

(** Pointers in use stay in use, with the same contents. *)
Definition same_live (p p' : Pool message.Message) : Prop :=
  forall b, message.live p b -> message.live p' b /\ cells p' !! b = cells p !! b.

Lemma same_live_trans p1 p2 p3 : same_live p1 p2 -> same_live p2 p3 -> same_live p1 p3.
Proof. intros H1' H2' b Hb. destruct (H1' b Hb) as [Hb2 E]. destruct (H2' b Hb2) as [? E']. split; [done|congruence]. Qed.

Lemma copy_fields_eq v : message.Data v <> Some [] -> copy_fields v message.newMessage = v.
Proof.
  intros Hd. destruct v as [r t p ro dt e h ts]. unfold copy_fields. cbn -[map_to_list] in *.
  rewrite foldl_insert_union, map_union_empty. f_equal. destruct (decide _) as [|Hn]; [done|].
  destruct dt as [[|x dt]|]; [done| |done]. cbn in Hn. lia.
Qed.

Lemma wp_copyMessage d a v O k Q :
  disp_inv has_log d (a :: O) -> cells (mem d) !! a = Some v -> message.Data v <> Some [] ->
  (forall b p, disp_inv has_log (set_mem p d) (b :: a :: O) -> cells p !! b = Some v ->
     same_live (mem d) p -> ~ message.live (mem d) b -> wp (k b) Q (set_mem p d)) ->
  wp (copyMessage (W := W) (K := K) (L := L) (Some a) k) Q d.
Proof.
  intros HI Ha Hd Hk. cbn [copyMessage AcquireMessage reads wp]. split; [done|].
  apply wp_chooseT; [|done]. intros c. cbn [wp atomic]. split; [done|].
  destruct (inv_AcquireMessage has_log d c _ HI) as (b & p & -> & HI' & Hb & Hnb & Hoth). cbn [fst snd wp atomic].
  assert (Hal : message.live (mem d) a) by (pose proof (di_live _ _ _ HI) as HL; by apply Forall_cons in HL as [? _]).
  assert (Hba : b <> a) by (intros ->; done).
  destruct (Hoth a Hal) as [_ Ea]. split; [done|]. unfold onMem, zoom, bind, load. cbn [mem set_mem].
  rewrite Ea, Ha, Hb. cbn [fst snd]. rewrite copy_fields_eq by done.
  set (p' := MkPool (<[b := v]> (cells p)) (free p) (next p)).
  change (wp (k b) Q (set_mem p' d)). apply Hk.
  - change (disp_inv has_log (set_mem p' (set_mem p d)) (b :: a :: O)).
    eapply (inv_store has_log (set_mem p d)); [exact HI'|set_solver|done].
  - cbn. by rewrite lookup_insert_eq.
  - intros x Hx. destruct (Hoth x Hx) as [[Hx1 Hx2] Ex].
    assert (x <> b) by (intros ->; done). unfold message.live. cbn. by rewrite lookup_insert_ne.
  - done.
Qed.

(** ** What one pool does with a message in hand *)

Definition roomy (w : sink.WorkerPool) : bool := (Z.of_nat (length (sink.ch w)) <? sink.chcap (sink.params w))%Z.
Definition open_pool (w : sink.WorkerPool) : Prop := sink.closed (sink.life w) = false /\ sink.chClosed w = false.

Lemma wp_submit_room strict b (s : sink.PoolSt K L) :
  open_pool (sink.wp_ s) -> roomy (sink.wp_ s) = true ->
  (strict = true -> sink.circuitOpen (sink.brk (sink.wp_ s)) = false) ->
  wp (if strict then sink.SubmitStrict b else sink.Submit b)
    (fun r s' => r = Ok tt /\ s' = sink.set_ch (sink.ch (sink.wp_ s) ++ [b]) s) s.
Proof.
  intros [Hc Hcl] Hr Ho.
  assert (Et : sink.trySend b s = (Ok true, sink.set_ch (sink.ch (sink.wp_ s) ++ [b]) s)).
  { unfold sink.trySend, sink.has_room. unfold roomy in Hr. by rewrite Hcl, Hr. }
  destruct strict; cbn [wp sink.read sink.SubmitStrict sink.Submit]; (split; [done|]).
  - unfold sink.is_closed, sink.is_open. rewrite Hc, (Ho eq_refl). cbn [wp sink.call atomic]. rewrite Et. by cbn.
  - unfold sink.is_closed. rewrite Hc. cbn [wp sink.call atomic]. rewrite Et. by cbn.
Qed.

Lemma wp_submit_full b v (s : sink.PoolSt K L) l l' p :
  open_pool (sink.wp_ s) -> roomy (sink.wp_ s) = false ->
  sink.backpressure (sink.params (sink.wp_ s)) = sink.BackpressureFallback ->
  sink.walWriter s = Some l -> cells (sink.mem s) !! b = Some v -> log_write v l = (Ok tt, l') ->
  message.ReleaseMessage (Some b) (sink.mem s) = (Ok tt, p) ->
  wp (sink.Submit b)
    (fun r s' => r = Ok tt /\ s' = sink.MkPoolSt (sink.wp_ (sink.count_fallback s)) p (Some l') (sink.snk s)) s.
Proof.
  intros [Hc Hcl] Hr Hbp Hl Hb Hw Hrel.
  assert (Et : sink.trySend b s = (Ok false, s)).
  { unfold sink.trySend, sink.has_room. unfold roomy in Hr. by rewrite Hcl, Hr. }
  unfold sink.Submit. cbn [wp sink.read]. split; [done|]. unfold sink.is_closed. rewrite Hc. cbn [wp sink.call atomic].
  split; [done|]. rewrite Et. cbn [fst snd wp]. split; [done|]. rewrite Hbp. unfold sink.handleRejected. cbn [wp sink.read].
  split; [done|]. rewrite Hbp, Hl, bool_decide_eq_true_2 by done. cbn [andb wp sink.call atomic]. split; [done|].
  assert (Ew : sink.walWrite b s = (Ok tt, sink.MkPoolSt (sink.wp_ s) (sink.mem s) (Some l') (sink.snk s)))
    by (unfold sink.walWrite; by rewrite Hl, Hb, Hw).
  rewrite Ew. cbn [fst snd wp atomic sink.release]. split; [done|]. split; [done|].
  unfold sink.ReleaseMessage, zoom. cbn [modify snd sink.mem sink.count_fallback sink.set_wp]. rewrite Hrel. done.
Qed.

(** ** Fan-out *)

Context (v : message.Message) (lb : bytes).

(** Whether the pool at [i] is full, and how many of [ps] are. *)
Definition is_full (d : Disp) (i : nat) : bool :=
  match heap d !! i with Some c => negb (roomy (pc_wp c)) | None => false end.
Definition nfull (d : Disp) (ps : list nat) : nat := length (List.filter (is_full d) ps).

(** The pool takes the message: it is open and has room (and, for a strict
    submission, its breaker is closed), or falls back to the log. *)
Definition takes (strict : bool) (d : Disp) (i : nat) : Prop :=
  exists c, heap d !! i = Some c /\ open_pool (pc_wp c) /\
    if roomy (pc_wp c) then strict = true -> sink.circuitOpen (sink.brk (pc_wp c)) = false
    else strict = false /\ sink.backpressure (sink.params (pc_wp c)) = sink.BackpressureFallback.

(** The pools [ps] each got the message once: at the end of the queue, in a
    live copy with the same contents, or as a record of the log. *)
Record fanned (n : nat) (ps : list nat) (d d' : Disp) : Prop := {
  f_out : forall i, i ∉ ps -> heap d' !! i = heap d !! i;
  f_in : forall i c, i ∈ ps -> heap d !! i = Some c -> exists c', heap d' !! i = Some c' /\
    if roomy (pc_wp c)
    then exists b, sink.ch (pc_wp c') = sink.ch (pc_wp c) ++ [b] /\ message.live (mem d') b /\ cells (mem d') !! b = Some v
    else sink.ch (pc_wp c') = sink.ch (pc_wp c);
  f_live : same_live (mem d) (mem d');
  f_log : if decide (nfull d ps = 0) then walWriter d' = walWriter d
          else forall l, walWriter d = Some l -> exists l', walWriter d' = Some l' /\ log_ok n l' /\
            log_view l' = log_view l ++ concat (replicate (nfull d ps) lb);
}.

Lemma nfull_same d d1 ps : (forall i, i ∈ ps -> heap d1 !! i = heap d !! i) -> nfull d1 ps = nfull d ps.
Proof.
  intros Hs. unfold nfull. induction ps as [|i ps IH]; [done|]. cbn.
  assert (Hi : is_full d1 i = is_full d i) by (unfold is_full; rewrite Hs by set_solver; done).
  rewrite Hi. destruct (is_full d i); cbn; rewrite IH; [done|set_solver|done|set_solver].
Qed.

Lemma fanned_nil n d : fanned n [] d d.
Proof. split; [done|set_solver|done|]. by rewrite decide_True. Qed.

Lemma fanned_cons n i ps d d1 d' :
  i ∉ ps -> fanned (nfull d ps + n) [i] d d1 -> fanned n ps d1 d' -> fanned n (i :: ps) d d'.
Proof.
  intros Hi [A1 A2 A3 A4] [B1 B2 B3 B4].
  assert (Hsame : forall j, j ∈ ps -> heap d1 !! j = heap d !! j) by (intros j Hj; apply A1; set_solver).
  rewrite (nfull_same d d1 ps Hsame) in B4.
  assert (Hn : nfull d (i :: ps) = nfull d [i] + nfull d ps).
  { unfold nfull. cbn. by destruct (is_full d i). }
  split.
  - intros j Hj. rewrite B1 by set_solver. apply A1. set_solver.
  - intros j c Hj Ec. destruct (decide (j = i)) as [->|Hne].
    + destruct (A2 i c) as (c1 & E1 & Hc1); [set_solver|done|]. exists c1. rewrite B1 by done. split; [done|].
      destruct (roomy (pc_wp c)); [|done]. destruct Hc1 as (b & Eb & Hb & Hv). exists b. split; [done|].
      destruct (B3 b Hb) as [? ?]. split; [done|congruence].
    + destruct (B2 j c) as (c' & E' & Hc'); [set_solver|rewrite Hsame by set_solver; done|]. eauto.
  - by eapply same_live_trans.
  - rewrite Hn. destruct (decide (nfull d [i] = 0)) as [Z1|N1].
    + rewrite Z1. cbn [Nat.add]. destruct (decide (nfull d ps = 0)); [congruence|]. intros l Hl. apply B4. congruence.
    + rewrite decide_False by lia. intros l Hl. destruct (A4 l Hl) as (l1 & Hl1 & Ho1 & Hv1).
      assert (H1i : nfull d [i] = 1) by (unfold nfull in *; cbn in *; by destruct (is_full d i)). rewrite H1i in *.
      destruct (decide (nfull d ps = 0)) as [Z2|N2].
      * exists l1. rewrite Z2 in *. split; [congruence|]. split; [done|]. by rewrite Hv1.
      * destruct (B4 l1 Hl1) as (l2 & Hl2 & Ho2 & Hv2). exists l2. split; [done|]. split; [done|].
        rewrite Hv2, Hv1. cbn [replicate concat Nat.add]. by rewrite app_nil_r, <- app_assoc.
Qed.

Lemma pool_at_put i s (d : Disp) s0 : pool_at i d = Some s0 -> pool_at i (put_pool i s d) = Some s.
Proof. unfold pool_at. cbn. rewrite list_lookup_alter_eq. by destruct (heap d !! i); destruct s. Qed.

Lemma put_put i s s' (d : Disp) : put_pool i s' (put_pool i s d) = put_pool i s' d.
Proof. unfold put_pool. cbn. f_equal. by rewrite list_alter_alter_eq. Qed.

Lemma put_same i s (d : Disp) : pool_at i d = Some s -> put_pool i s d = d.
Proof.
  unfold pool_at. destruct (heap d !! i) as [c|] eqn:E; [|done]. intros [= <-]. unfold put_pool. cbn.
  destruct d as [a1 a2 a3 a4 a5 a6 h m]. cbn in *. f_equal. apply list_eq. intros j.
  destruct (decide (j = i)) as [->|Hne]; [|by rewrite list_lookup_alter_ne].
  rewrite list_lookup_alter_eq, E. by destruct c.
Qed.

Lemma put_other i j s (d : Disp) : j <> i -> heap (put_pool i s d) !! j = heap d !! j.
Proof. intros Hne. cbn. by rewrite list_lookup_alter_ne. Qed.

Lemma nfull_one d i c : heap d !! i = Some c -> nfull d [i] = if roomy (pc_wp c) then 0 else 1.
Proof. intros E. unfold nfull, is_full. cbn. rewrite E. by destruct (roomy (pc_wp c)). Qed.

(** One pool of the list, the copy [b] having just been made. *)
Lemma wp_take strict i d p a b O n Q :
  disp_inv has_log (set_mem p d) (b :: a :: O) -> cells p !! b = Some v ->
  same_live (mem d) p -> ~ message.live (mem d) b -> takes strict d i ->
  (is_full d i = true -> log_record v lb /\ exists l, walWriter d = Some l /\ log_ok (S n) l) ->
  (forall d1, disp_inv has_log d1 (a :: O) -> fanned n [i] d d1 -> Q (Ok tt) d1) ->
  wp (pool_submit strict i b) Q (set_mem p d).
Proof.
  intros HI Hb Hsl Hnb (c & Ec & Hop & Ht) Hlog HQ. unfold pool_submit.
  set (s := sink.MkPoolSt (pc_wp c) p (walWriter d) (pc_snk c)).
  assert (Es : pool_at i (set_mem p d) = Some s) by (unfold pool_at; cbn; by rewrite Ec).
  pose proof (disp_pool has_log i _ s _ HI Es) as HP. cbn [app] in HP.
  assert (Hbl : message.live p b) by (pose proof (di_live _ _ _ HI) as HL; by apply Forall_cons in HL as [? _]).
  assert (Hput : forall s' d1, d1 = put_pool i s' (set_mem p d) -> forall j, j <> i -> heap d1 !! j = heap d !! j).
  { intros s' d1 -> j Hj. by rewrite put_other. }
  assert (Hcell : forall s', heap (put_pool i s' (set_mem p d)) !! i = Some (MkPoolCell (pc_name c) (sink.wp_ s') (sink.snk s'))).
  { intros s'. cbn. by rewrite list_lookup_alter_eq, Ec. }
  apply (wp_liftT (pool_at i) (put_pool i) _ _ _ s);
    [intros s0 d0 s1; apply pool_at_put|intros s0 s1 d0; apply put_put|intros s0 d0; apply put_same|exact Es|].
  destruct (roomy (pc_wp c)) eqn:Er.
  - eapply wp_mono; [|apply (wp_submit_room strict b s); [exact Hop|exact Er|exact Ht]].
    intros r s' [-> ->]. set (s' := sink.set_ch _ s). apply HQ.
    + eapply disp_put; [exact HI|exact Es|]. eapply (inv_trySend has_log s b _ (Ok true)); [exact HP|].
      unfold sink.trySend, sink.has_room. destruct Hop as [_ Hcl]. cbn. unfold roomy in Er. by rewrite Hcl, Er.
    + split.
      * intros j Hj. apply (Hput s'); [done|set_solver].
      * intros j c0 Hj Ej. assert (j = i) as -> by set_solver. assert (c0 = c) as -> by congruence.
        rewrite Er. eexists. split; [apply Hcell|]. by exists b.
      * done.
      * rewrite (nfull_one d i c Ec), Er. by rewrite decide_True.
  - destruct Ht as [-> Hbp]. destruct Hlog as (Hrec & l & Hl & Hok); [unfold is_full; by rewrite Ec, Er|].
    destruct (log_spec n l v lb Hok Hrec) as (l' & Hw & Hok' & Hv).
    destruct (message.ReleaseMessage_spec b p (di_mem _ _ _ HI) Hbl) as (q & Hq & _ & _ & Hoth).
    eapply wp_mono; [|exact (wp_submit_full b v s l l' q Hop Er Hbp Hl Hb Hw Hq)].
    intros r s' [-> ->]. set (s' := sink.MkPoolSt _ q (Some l') _). apply HQ.
    + eapply disp_put; [exact HI|exact Es|].
      assert (Hhl : has_log = true) by (pose proof (pi_log _ _ _ HP) as HH; cbn in HH; rewrite Hl in HH; apply HH).
      assert (Ew : sink.walWrite b s = (Ok tt, sink.MkPoolSt (pc_wp c) p (Some l') (pc_snk c)))
        by (unfold sink.walWrite, s; cbn; by rewrite Hl, Hb, Hw).
      destruct (inv_walWrite has_log s b _ _ _ Hhl HP Ew) as (HP1 & _).
      destruct (inv_release has_log _ b _ HP1) as (s2 & Hs2 & HP2 & _). 
      unfold sink.ReleaseMessage, zoom in Hs2. cbn in Hs2. cbn in Hq. rewrite Hq in Hs2. injection Hs2 as <-.
      by eapply pool_inv_step.
    + split.
      * intros j Hj. apply (Hput s'); [done|set_solver].
      * intros j c0 Hj Ej. assert (j = i) as -> by set_solver. assert (c0 = c) as -> by congruence.
        rewrite Er. eexists. split; [apply Hcell|done].
      * intros x Hx. destruct (Hsl x Hx) as [Hx1 Ex]. assert (x <> b) by (intros ->; done).
        destruct (Hoth x ltac:(done) Hx1) as [? ?]. split; [done|cbn; congruence].
      * rewrite (nfull_one d i c Ec), Er. rewrite decide_False by done. intros l0 Hl0.
        assert (l0 = l) as -> by congruence. exists l'. split; [done|]. split; [done|].
        cbn [replicate concat]. by rewrite app_nil_r.
Qed.

Lemma may_submit_all strict msg ps (d : Disp) : may (submit_all strict msg ps) d.
Proof. by destruct ps. Qed.

Lemma wp_submit_prefix strict ps rest n d a O Q :
  disp_inv has_log d (a :: O) -> cells (mem d) !! a = Some v -> message.Data v <> Some [] ->
  NoDup ps -> Forall (takes strict d) ps ->
  (nfull d ps = 0 \/ log_record v lb /\ exists l, walWriter d = Some l /\ log_ok (nfull d ps + n) l) ->
  (forall d', disp_inv has_log d' (a :: O) -> fanned n ps d d' -> cells (mem d') !! a = Some v ->
     wp (submit_all strict (Some a) rest) Q d') ->
  wp (submit_all strict (Some a) (ps ++ rest)) Q d.
Proof.
  revert d; induction ps as [|i ps IH]; intros d HI Ha Hd Hnd Ht Hlog HQ.
  { apply HQ; [done|apply fanned_nil|done]. }
  apply NoDup_cons in Hnd as [Hi Hnd]. apply Forall_cons in Ht as [Hti Ht].
  assert (Hn : nfull d (i :: ps) = (if is_full d i then 1 else 0) + nfull d ps).
  { unfold nfull. cbn. by destruct (is_full d i). }
  cbn [app submit_all]. eapply wp_copyMessage; [exact HI|exact Ha|exact Hd|]. intros b p HI1 Hb Hsl Hnb.
  apply wp_attemptT; [|intros [u|e|w] d0; cbn; try apply may_submit_all; done].
  eapply (wp_take strict i d p a b O (nfull d ps + n)); [exact HI1|exact Hb|exact Hsl|exact Hnb|exact Hti|..].
  { intros Hfull. rewrite Hn, Hfull in Hlog. destruct Hlog as [|(Hr & l & Hl & Hok)]; [lia|]. eauto. }
  intros d1 HId1 Hf1. destruct Hf1 as [A1 A2 A3 A4] eqn:Ef. clear Ef.
  assert (Hsame : forall j, j ∈ ps -> heap d1 !! j = heap d !! j) by (intros j Hj; apply A1; set_solver).
  assert (Hla : message.live (mem d) a) by (pose proof (di_live _ _ _ HI) as HL; by apply Forall_cons in HL as [? _]).
  apply IH; [exact HId1|destruct (A3 a Hla); congruence|exact Hd|exact Hnd|..].
  - rewrite Forall_forall in *. intros j Hj. destruct (Ht j Hj) as (c & Ec & Hc). exists c. by rewrite Hsame.
  - rewrite (nfull_same d d1 ps Hsame). assert (Hone : nfull d [i] = if is_full d i then 1 else 0)
      by (unfold nfull; cbn; by destruct (is_full d i)).
    rewrite Hn in Hlog. rewrite Hone in A4. destruct (is_full d i).
    + destruct Hlog as [|(Hr & l & Hl & Hok)]; [lia|]. rewrite decide_False in A4 by done.
      destruct (A4 l Hl) as (l1 & Hl1 & Hok1 & _). right. split; [done|]. by exists l1.
    + rewrite decide_True in A4 by done. rewrite A4. exact Hlog.
  - intros d' HI' Hf' Ha'. apply HQ; [done| |done]. eapply fanned_cons; [exact Hi| |exact Hf']. by split.
Qed.

(** The original handed back, nothing else changed. *)
Definition released (a : nat) (d d' : Disp) : Prop :=
  d' = set_mem (mem d') d /\ ~ message.live (mem d') a /\
  forall b, b <> a -> message.live (mem d) b -> message.live (mem d') b /\ cells (mem d') !! b = cells (mem d) !! b.

Lemma wp_release_then a O (d : Disp) (r : result unit) (Q : result unit -> Disp -> Prop) :
  disp_inv has_log d (a :: O) -> (forall d', released a d d' -> disp_inv has_log d' O -> Q r d') ->
  wp (bindT (ReleaseMessage (Some a)) (fun _ => Done r)) Q d.
Proof.
  intros HI HQ. destruct (inv_ReleaseMessage has_log d a O HI) as (p & Hr & HI' & Hnl & Hoth).
  unfold ReleaseMessage, atomic. cbn [bindT wp]. rewrite Hr. cbn [fst snd bindT wp]. split; [done|]. apply HQ; [|done]. by split.
Qed.

(** ** From the request to the pools *)

(** What the pipeline leaves for the pools. *)
Inductive pipelined (skip : bool) (a : nat) (proj : string) (d : Disp) : Disp -> Prop :=
| piped_skip : skip = true -> is_ok (config.GetProject proj (cfg d)) = true -> pipelined skip a proj d d
| piped_none c : config.GetProject proj (cfg d) = Ok c -> from_option config.Pipelines [] c = [] ->
    pipelined skip a proj d d
| piped_chain c chain p : skip = false -> config.GetProject proj (cfg d) = Ok (Some c) -> config.Pipelines c <> [] ->
    buildPipelineChain d c = Ok chain -> pipeline.ChainProcess chain (Some a) (mem d) = (Ok (Some a), p) ->
    pipelined skip a proj d (set_mem p d).

Lemma pipelined_inv skip a proj d d0 O :
  disp_inv has_log d (a :: O) -> pipelined skip a proj d d0 -> disp_inv has_log d0 (a :: O).
Proof.
  intros HI [| |c chain p _ _ _ Hb Hp]; [done..|].
  unfold buildPipelineChain in Hb. rewrite (di_reg _ _ _ HI) in Hb.
  apply add_processors_tame, chain_tame in Hb; [|constructor].
  destruct (Hb _ _ _ _ Hp) as [[->|[w ->]] _]; [by destruct HI; split|].
  eapply inv_store; [exact HI|set_solver|done].
Qed.

Lemma wp_dispatchImpl strict skip a w d d0 pm ps Q :
  cells (mem d) !! a = Some w -> message.Project w <> "" -> pools d = Some pm ->
  pm !! message.Project w = Some ps -> ps <> [] -> pipelined skip a (message.Project w) d d0 ->
  wp (submit_all strict (Some a) ps) Q d0 -> wp (dispatchImpl (Some a) strict skip) Q d.
Proof.
  intros Ha Hp Hpm Hps Hne Hpipe Hw. unfold dispatchImpl. cbn [wp deref reads]. split; [done|]. cbn. rewrite Ha.
  apply String.eqb_neq in Hp as Hp'. rewrite Hp'. cbn [wp reads]. split; [done|]. rewrite Hpm, Hps.
  destruct ps as [|i ps]; [done|]. unfold run_pipeline. cbn [wp reads]. split; [done|].
  destruct Hpipe as [Hs Hg|c Hg Hc|c chain p Hs Hg Hc Hb Hch].
  - subst skip. destruct (config.GetProject _ _) as [[c|]|e|q]; [exact Hw|exact Hw|done|done].
  - rewrite Hg. destruct c as [c|]; [|exact Hw]. cbn in Hc. rewrite Hc. cbn. rewrite andb_false_r. exact Hw.
  - rewrite Hg. subst skip. rewrite bool_decide_eq_true_2 by (destruct (config.Pipelines c); [done|cbn; lia]).
    cbn [negb andb]. rewrite Hb. cbn [wp atomic]. split; [done|]. unfold onMem, zoom. rewrite Hch. exact Hw.
Qed.

(** ** Success *)

(** C13.  Fan-out under the fallback strategy: if every pool of the project is
    open and either has room or falls back to a working log, [Dispatch]
    returns nil; the message as the pipeline left it is at the end of the
    queue of every pool with room, in a copy of its own, one record of it is
    in the log for every full pool, no other pool is touched, and the
    original is back in the message pool. *)
Theorem dispatch_reaches_every_sink a w d d0 pm ps n O l :
  disp_inv has_log d (a :: O) -> cells (mem d) !! a = Some w -> message.Project w <> "" ->
  pools d = Some pm -> pm !! message.Project w = Some ps -> ps <> [] -> NoDup ps ->
  pipelined false a (message.Project w) d d0 -> cells (mem d0) !! a = Some v -> message.Data v <> Some [] ->
  Forall (takes false d0) ps -> log_record v lb -> walWriter d0 = Some l -> log_ok (nfull d0 ps + n) l ->
  wp (Dispatch (Some a)) (fun r d' => r = Ok tt /\ exists d1, fanned n ps d0 d1 /\ released a d1 d') d.
Proof.
  intros HI Hw Hp Hpm Hps Hne Hnd Hpipe Hv Hd Ht Hrec Hl Hok. unfold Dispatch.
  eapply wp_dispatchImpl; [exact Hw|exact Hp|exact Hpm|exact Hps|exact Hne|exact Hpipe|].
  replace (submit_all false (Some a) ps) with (submit_all (W := W) (K := K) (L := L) false (Some a) (ps ++ []))
    by (by rewrite app_nil_r).
  eapply (wp_submit_prefix false ps [] n d0 a O); try done.
  - by eapply pipelined_inv.
  - right. eauto.
  - intros d1 HI1 Hf1 _. cbn [submit_all]. eapply wp_release_then; [exact HI1|]. intros d' Hrel _. eauto.
Qed.

(** ** Refusal *)

(** A pool refuses: it is closed or, for a strict submission, its breaker is
    open or it is full. *)
Definition refusing (strict : bool) (w : sink.WorkerPool) : Prop :=
  sink.closed (sink.life w) = true \/
  strict = true /\ (sink.circuitOpen (sink.brk w) = true \/ open_pool w /\ roomy w = false).

Definition refuses (strict : bool) (d : Disp) (i : nat) : Prop :=
  exists c, heap d !! i = Some c /\ refusing strict (pc_wp c).

Lemma wp_refuse strict b (s : sink.PoolSt K L) q :
  refusing strict (sink.wp_ s) -> message.ReleaseMessage (Some b) (sink.mem s) = (Ok tt, q) ->
  wp (if strict then sink.SubmitStrict b else sink.Submit b) (fun r s' => (exists e, r = Err e) /\
    s' = sink.MkPoolSt (sink.wp_ s) q (sink.walWriter s) (sink.snk s)) s.
Proof.
  intros Hr Hq.
  assert (Hrel : forall e, wp (bindT (sink.release b) (fun _ => Done (Err e : result unit))) (fun r s' => (exists e, r = Err e) /\
    s' = sink.MkPoolSt (sink.wp_ s) q (sink.walWriter s) (sink.snk s)) s).
  { intros e. unfold sink.release, atomic, sink.ReleaseMessage, zoom. cbn [bindT wp]. rewrite Hq. cbn. eauto. }
  destruct strict.
  - unfold sink.SubmitStrict. cbn [wp sink.read]. split; [done|]. unfold sink.is_closed, sink.is_open.
    destruct (sink.closed _) eqn:Ec; [apply Hrel|]. destruct (sink.circuitOpen _) eqn:Eo; [apply Hrel|].
    destruct Hr as [|[_ [|[[_ Hcl] Hroom]]]]; [congruence..|].
    assert (Et : sink.trySend b s = (Ok false, s)).
    { unfold sink.trySend, sink.has_room. unfold roomy in Hroom. by rewrite Hcl, Hroom. }
    unfold sink.call, atomic. cbn [wp]. split; [done|]. rewrite Et. apply Hrel.
  - destruct Hr as [Hc|[? _]]; [|done]. unfold sink.Submit. cbn [wp sink.read]. split; [done|].
    unfold sink.is_closed. rewrite Hc. apply Hrel.
Qed.

Lemma wp_submit_refused strict i rest a O (d : Disp) (Q : result unit -> Disp -> Prop) :
  disp_inv has_log d (a :: O) -> cells (mem d) !! a = Some v -> message.Data v <> Some [] -> refuses strict d i ->
  (forall e d', released a d d' -> disp_inv has_log d' O -> Q (Err e) d') ->
  wp (submit_all strict (Some a) (i :: rest)) Q d.
Proof.
  intros HI Ha Hd (c & Ec & Hc) HQ. cbn [submit_all]. eapply wp_copyMessage; [exact HI|exact Ha|exact Hd|].
  intros b p HI1 Hb Hsl Hnb. apply wp_attemptT; [|intros [u|e|x] d0; cbn; try apply may_submit_all; done].
  set (s := sink.MkPoolSt (pc_wp c) p (walWriter d) (pc_snk c)).
  assert (Es : pool_at i (set_mem p d) = Some s) by (unfold pool_at; cbn; by rewrite Ec).
  destruct (inv_ReleaseMessage has_log (set_mem p d) b (a :: O) HI1) as (q & Hq & HI2 & Hnl & Hoth).
  assert (Hq' : message.ReleaseMessage (Some b) p = (Ok tt, q)).
  { unfold onMem, zoom in Hq. cbn [mem set_mem] in Hq. destruct (message.ReleaseMessage (Some b) p) as [r q0].
    injection Hq as -> ->. done. }
  apply (wp_liftT (pool_at i) (put_pool i) _ _ _ s);
    [intros s0 d0 s1; apply pool_at_put|intros s0 s1 d0; apply put_put|intros s0 d0; apply put_same|exact Es|].
  eapply wp_mono; [|exact (wp_refuse strict b s q Hc Hq')]. intros r s' [[e ->] ->].
  assert (Ed : put_pool i (sink.MkPoolSt (sink.wp_ s) q (sink.walWriter s) (sink.snk s)) (set_mem p d) = set_mem q d).
  { rewrite <- (put_same i (sink.MkPoolSt (sink.wp_ s) q (sink.walWriter s) (sink.snk s)) (set_mem q d)); [done|].
    unfold pool_at. cbn. by rewrite Ec. }
  rewrite Ed. cbn [sink.mem s mem set_mem] in *. unfold release_fail.
  eapply wp_release_then; [exact HI2|]. intros d' (E' & Hna & Hrest) HI'. apply HQ; [|done].
  rewrite E' in *. cbn in *. split; [done|]. split; [done|]. intros x Hx Hlx. destruct (Hsl x Hlx) as [Hlp Ep].
  assert (Hxb : x <> b) by (intros ->; done). destruct (Hoth x Hxb Hlp) as [Hlq Eq].
  destruct (Hrest x Hx Hlq) as [? ?]. split; [done|congruence].
Qed.

Lemma nfull_takes_strict d acc : Forall (takes true d) acc -> nfull d acc = 0.
Proof.
  unfold nfull. induction acc as [|i acc IH]; intros Ht; [done|]. apply Forall_cons in Ht as [(c & Ec & _ & Hc) Ht].
  cbn. unfold is_full at 1. rewrite Ec. destruct (roomy (pc_wp c)); [by apply IH|by destruct Hc].
Qed.

Lemma wp_strict_refused a d pm acc j rest O :
  disp_inv has_log d (a :: O) -> cells (mem d) !! a = Some v -> message.Data v <> Some [] ->
  message.Project v <> "" -> pools d = Some pm -> pm !! message.Project v = Some (acc ++ j :: rest) ->
  is_ok (config.GetProject (message.Project v) (cfg d)) = true ->
  NoDup (acc ++ j :: rest) -> Forall (takes true d) acc -> refuses true d j ->
  wp (DispatchStrict (Some a)) (fun r d' => (exists e, r = Err e) /\
    exists d1, fanned 0 acc d d1 /\ walWriter d1 = walWriter d /\ released a d1 d' /\ disp_inv has_log d' O) d.
Proof.
  intros HI Ha Hd Hp Hpm Hps Hg Hnd Ht Hj. unfold DispatchStrict.
  eapply wp_dispatchImpl; [exact Ha|exact Hp|exact Hpm|exact Hps|by destruct acc|by apply piped_skip|].
  apply NoDup_app in Hnd as (Hnd & Hdis & _). pose proof (nfull_takes_strict d acc Ht) as Hz.
  eapply (wp_submit_prefix true acc (j :: rest) 0 d a O); try done; [by left|].
  intros d1 HI1 Hf1 Ha1. eapply wp_submit_refused; [exact HI1|exact Ha1|exact Hd|..].
  - destruct Hj as (c & Ec & Hc). exists c. split; [|done]. rewrite (f_out _ _ _ _ Hf1); [done|].
    intros Hin. apply (Hdis j Hin). set_solver.
  - intros e d' Hrel HI'. split; [eauto|]. exists d1. split; [done|]. split; [|done].
    pose proof (f_log _ _ _ _ Hf1) as Hl. by rewrite decide_True in Hl.
Qed.

(** Every pool takes the entry. *)
Lemma wp_strict_taken a d pm ps O :
  disp_inv has_log d (a :: O) -> cells (mem d) !! a = Some v -> message.Data v <> Some [] ->
  message.Project v <> "" -> pools d = Some pm -> pm !! message.Project v = Some ps -> ps <> [] ->
  is_ok (config.GetProject (message.Project v) (cfg d)) = true -> NoDup ps -> Forall (takes true d) ps ->
  wp (DispatchStrict (Some a)) (fun r d' => r = Ok tt /\
    exists d1, fanned 0 ps d d1 /\ walWriter d1 = walWriter d /\ released a d1 d' /\ disp_inv has_log d' O) d.
Proof.
  intros HI Ha Hd Hp Hpm Hps Hne Hg Hnd Ht. unfold DispatchStrict.
  eapply wp_dispatchImpl; [exact Ha|exact Hp|exact Hpm|exact Hps|exact Hne|by apply piped_skip|].
  replace (submit_all true (Some a) ps) with (submit_all (W := W) (K := K) (L := L) true (Some a) (ps ++ []))
    by (by rewrite app_nil_r).
  pose proof (nfull_takes_strict d ps Ht) as Hz.
  eapply (wp_submit_prefix true ps [] 0 d a O); try done; [by left|].
  intros d1 HI1 Hf1 _. cbn [submit_all]. eapply wp_release_then; [exact HI1|]. intros d' Hrel HI'. split; [done|].
  exists d1. split; [done|]. split; [|done]. pose proof (f_log _ _ _ _ Hf1) as Hl. by rewrite decide_True in Hl.
Qed.

(** C35.  A replayed entry is all or error, but not all or nothing: if the
    pools [acc] take it and the next one refuses (closed, breaker open, or
    full), [DispatchStrict] returns an error, so that the segment is kept and
    the entry replayed again; the pools before already have it, the ones
    after and the log are untouched, and the original is back in the message
    pool. *)
Theorem strict_dispatch_stops_at_refusal a d pm acc j rest O :
  disp_inv has_log d (a :: O) -> cells (mem d) !! a = Some v -> message.Data v <> Some [] ->
  message.Project v <> "" -> pools d = Some pm -> pm !! message.Project v = Some (acc ++ j :: rest) ->
  is_ok (config.GetProject (message.Project v) (cfg d)) = true ->
  NoDup (acc ++ j :: rest) -> Forall (takes true d) acc -> refuses true d j ->
  wp (DispatchStrict (Some a)) (fun r d' => (exists e, r = Err e) /\
    exists d1, fanned 0 acc d d1 /\ walWriter d1 = walWriter d /\ released a d1 d') d.
Proof.
  intros HI Ha Hd Hp Hpm Hps Hg Hnd Ht Hj. eapply wp_mono; [|by eapply wp_strict_refused].
  intros r d' (He & d1 & Hf & Hl & Hrel & _). eauto.
Qed.

(** A processor's error is the exception to "on error, the message is
    always released": the chain returns nil in place of the message, nil is
    what is handed back, and the message stays allocated with no owner. *)
Theorem pipeline_error_leaks_message a w (d : Disp) pm ps c chain e p O :
  disp_inv has_log d (a :: O) -> cells (mem d) !! a = Some w -> message.Project w <> "" ->
  pools d = Some pm -> pm !! message.Project w = Some ps -> ps <> [] ->
  config.GetProject (message.Project w) (cfg d) = Ok (Some c) -> config.Pipelines c <> [] ->
  buildPipelineChain d c = Ok chain -> pipeline.ChainProcess chain (Some a) (mem d) = (Err e, p) ->
  wp (Dispatch (Some a)) (fun r d' => (exists e', r = Err e') /\
    message.live (mem d') a /\ a ∉ queued d' /\ heap d' = heap d) d.
Proof.
  intros HI Ha Hp Hpm Hps Hne Hg Hc Hb Hch. unfold Dispatch, dispatchImpl. cbn [wp deref reads]. split; [done|].
  cbn. rewrite Ha. apply String.eqb_neq in Hp as Hp'. rewrite Hp'. cbn [wp reads]. split; [done|]. rewrite Hpm, Hps.
  destruct ps as [|i ps]; [done|]. unfold run_pipeline. cbn [wp reads]. split; [done|]. rewrite Hg.
  rewrite bool_decide_eq_true_2 by (destruct (config.Pipelines c); [done|cbn; lia]). cbn [negb andb]. pose proof Hb as Hb'.
  rewrite Hb. cbn [wp atomic]. split; [done|]. unfold onMem, zoom. rewrite Hch.
  unfold buildPipelineChain in Hb'. rewrite (di_reg _ _ _ HI) in Hb'.
  apply add_processors_tame, chain_tame in Hb'; [|constructor]. destruct (Hb' _ _ _ _ Hch) as [Hq _].
  assert (HI' : disp_inv has_log (set_mem p d) (a :: O)).
  { destruct Hq as [->|[x ->]]; [by destruct HI; split|]. eapply inv_store; [exact HI|set_solver|done]. }
  pose proof (di_live _ _ _ HI') as HL. pose proof (di_nodup _ _ _ HI') as HN. cbn [app] in HL, HN.
  apply Forall_cons in HL as [HL _]. apply NoDup_cons in HN as [HN _].
  cbn. split; [done|]. split; [eauto|]. split; [exact HL|]. split; [|done].
  intros Hin. apply HN. apply elem_of_app. by right.
Qed.
End dispatch.

(** ** Replay pacing *)

Section pacing.
Context {W K L : Type}.

Definition accepts_replay (d : Dispatcher W K L) (i : nat) (delay : Z) : Prop :=
  exists c, heap d !! i = Some c /\ sink.CanAcceptReplay (pc_wp c) = (true, delay).

Lemma replay_delay_spec (d : Dispatcher W K L) ps m :
  Forall (fun i => is_Some (heap d !! i)) ps ->
  (exists delays, Forall2 (accepts_replay d) ps delays /\ replay_delay d ps m = Ok (foldl Z.max m delays)) \/
  (exists i e, i ∈ ps /\ (forall dl, ~ accepts_replay d i dl) /\ replay_delay d ps m = Err e).
Proof.
  intros Hps. revert m; induction Hps as [|i ps [c Ec] _ IH]; intros m.
  { left. exists []. by split. }
  cbn [replay_delay]. rewrite Ec. destruct (sink.CanAcceptReplay (pc_wp c)) as [[] dl] eqn:Ea; cbn [negb].
  - assert (Hm : (if (m <? dl)%Z then dl else m) = Z.max m dl) by (destruct (Z.ltb_spec m dl); lia). rewrite Hm.
    destruct (IH (Z.max m dl)) as [(delays & Hf & Hr)|(j & e & Hj & Hn & Hr)].
    + left. exists (dl :: delays). split; [|done]. constructor; [by exists c|done].
    + right. exists j, e. split; [set_solver|]. done.
  - right. exists i. eexists. split; [set_solver|]. split; [|done]. intros dl' (c' & Ec' & Ha'). congruence.
Qed.

(** The replay waits for the slowest sink: [ReplayBackoff] answers the
    longest delay asked for by a pool of the project, and an error as soon as
    one of them cannot take replayed messages at all. *)
Theorem replay_waits_for_slowest_pool proj (d : Dispatcher W K L) pm ps :
  proj <> "" -> pools d = Some pm -> pm !! proj = Some ps -> ps <> [] ->
  Forall (fun i => is_Some (heap d !! i)) ps ->
  (exists delays, Forall2 (accepts_replay d) ps delays /\ ReplayBackoff proj d = Ok (foldl Z.max 0%Z delays)) \/
  (exists i e, i ∈ ps /\ (forall dl, ~ accepts_replay d i dl) /\ ReplayBackoff proj d = Err e).
Proof.
  intros Hp Hpm Hps Hne Hh. unfold ReplayBackoff. apply String.eqb_neq in Hp. rewrite Hp, Hpm, Hps.
  destruct ps as [|i ps]; [done|]. by apply replay_delay_spec.
Qed.
End pacing.

(** ** Concrete dispatchers *)

Module disp_demo.
Import demo.

(** A pool of capacity [cap] with the messages [q] queued. *)
Definition cell (name : string) (cap : Z) (q : list nat) : PoolCell (K := unit) :=
  let w := sink.NewWorkerPool (demo.config cap 10 sink.BackpressureFallback) in
  MkPoolCell name (sink.MkWorkerPool (sink.params w) q (sink.chClosed w) (sink.brk w) (sink.life w) (sink.walFallbacks w)) tt.

Definition settings (pipes : list config.PipelineRef) : config.Manager unit :=
  config.MkManager (Some (config.MkConfig (config.MkServerConfig "" 0 0 0 0 0 0 "" 0 "") (config.MkAuthConfig false 0 0 0)
    [config.MkProjectConfig "a" true [] 0 0 false pipes]
    (config.MkSinksConfig (config.MkRedisSinkConfig "" "" 0 0 0 0 0 0 "" "" 0) (config.MkKafkaSinkConfig [] "" "" "" 0 0))
    ∅ 0 (config.MkLogConfig "" false "" false "" [] 0) (config.MkMetricsConfig false "" 0)
    (config.MkWALConfig true "" 0 0 0) (config.MkPprofConfig false ""))) "" [] false false false.

(** Project "a" has two pools: the first has room, the second is full. *)
Definition two_pools (pipes : list config.PipelineRef) : Dispatcher unit unit bytes :=
  MkDispatcher (settings pipes) sink.NewRegistry pipeline.NewRegistry (Some {["a" := [0; 1]]}) (Some [])
    sink.BackpressureFallback [cell "a-x-0" 4 []; cell "a-x-1" 1 [1]] pool2.

Lemma two_pools_inv pipes : disp_inv true (two_pools pipes) [0].
Proof.
  split; cbn; try done.
  - exact pool2_ok.
  - exact pool2_live.
  - apply NoDup_ListNoDup. repeat constructor; cbn; lia.
  - repeat constructor; cbn; done.
Qed.

Definition nan : config.PipelineRef :=
  config.MkPipelineRef "field_add" {["fields" := VMap [("x", VFloat S754_nan)]]}.
End disp_demo.

Lemma pools_never_share_a_message_witness :
  exists ts d', rtc sys_step (thread_of <$> [GDispatch 0; GWorker 1 3], disp_demo.two_pools []) (ts, d') /\
    (message.pool_ok (mem d') /\ Forall (message.live (mem d')) (queued d') /\ NoDup (queued d')).
Proof.
  assert (Hrun : exists s', rtc sys_step (thread_of <$> [GDispatch 0; GWorker 1 3], disp_demo.two_pools []) s').
  { eexists. eapply rtc_l; [eapply (sys_move _ _ 0); [reflexivity|apply tstep_atomic; reflexivity]|].
    eapply rtc_l; [eapply (sys_move _ _ 1); [reflexivity|apply tstep_right, tstep_atomic; reflexivity]|].
    apply rtc_refl. }
  destruct Hrun as [[ts d'] Hrun]. exists ts, d'. split; [exact Hrun|].
  apply (pools_never_share_a_message true (disp_demo.two_pools []) d' [GDispatch 0; GWorker 1 3] ts); [|exact Hrun].
  apply disp_demo.two_pools_inv.
Defined.

Lemma dispatch_reaches_every_sink_witness :
  wp (Dispatch (Some 0)) (fun r d' => r = Ok tt /\
    exists d1, fanned (demo.msg "a") (demo.record_of (demo.msg "a")) 0 [0; 1] (disp_demo.two_pools []) d1 /\ released 0 d1 d')
    (disp_demo.two_pools []).
Proof.
  apply (dispatch_reaches_every_sink true (demo.msg "a") (demo.record_of (demo.msg "a")) 0 (demo.msg "a")
    (disp_demo.two_pools []) (disp_demo.two_pools []) {["a" := [0; 1]]} [0; 1] 0 [] []); try done.
  - apply disp_demo.two_pools_inv.
  - apply NoDup_ListNoDup. repeat constructor; cbn; lia.
  - by eapply piped_none.
  - repeat constructor; eexists; (split; [reflexivity|]); by repeat split.
Defined.

Lemma strict_dispatch_stops_at_refusal_witness :
  wp (DispatchStrict (Some 0)) (fun r d' => (exists e, r = Err e) /\
    exists d1, fanned (demo.msg "a") [] 0 [0] (disp_demo.two_pools []) d1 /\
      walWriter d1 = walWriter (disp_demo.two_pools []) /\ released 0 d1 d')
    (disp_demo.two_pools []).
Proof.
  apply (strict_dispatch_stops_at_refusal true (demo.msg "a") [] 0
    (disp_demo.two_pools []) {["a" := [0; 1]]} [0] 1 [] []); try done.
  - apply disp_demo.two_pools_inv.
  - apply NoDup_ListNoDup. repeat constructor; cbn; lia.
  - repeat constructor; eexists; (split; [reflexivity|]); by repeat split.
  - eexists. split; [reflexivity|]. right. split; [done|]. right. by repeat split.
Defined.

Lemma pipeline_error_leaks_message_witness :
  wp (Dispatch (Some 0)) (fun r d' => (exists e', r = Err e') /\
    message.live (mem d') 0 /\ 0 ∉ queued d' /\ heap d' = heap (disp_demo.two_pools [disp_demo.nan]))
    (disp_demo.two_pools [disp_demo.nan]).
Proof.
  eapply (pipeline_error_leaks_message true 0 (demo.msg "a") (disp_demo.two_pools [disp_demo.nan])); try done.
  - apply disp_demo.two_pools_inv.
Defined.

Lemma replay_waits_for_slowest_pool_witness :
  (exists delays, Forall2 (accepts_replay (disp_demo.two_pools [])) [0; 1] delays /\
     ReplayBackoff "a" (disp_demo.two_pools []) = Ok (foldl Z.max 0%Z delays)) \/
  (exists i e, i ∈ [0; 1] /\ (forall dl, ~ accepts_replay (disp_demo.two_pools []) i dl) /\
     ReplayBackoff "a" (disp_demo.two_pools []) = Err e).
Proof.
  apply (replay_waits_for_slowest_pool "a" (disp_demo.two_pools []) {["a" := [0; 1]]} [0; 1]); try done.
  repeat constructor; by eexists.
Defined.
