(* ===== verification/Server.v ===== *)
(** * Package [server] (internal/server): the upload route

    The middlewares of middleware.go and the handlers of server.go, in the
    chain [buildRouter] makes of them for POST /api/v1/log/upload.  Each
    handler is a goroutine of atomic actions on the state all requests share:
    the dispatcher (with the configuration manager inside), the rate
    limiters, the nonce cache and the tasks given to the goroutine pool.

    The clock is read where the code reads it and the readings are
    parameters; so is the UUID of a request without an id.  The goroutine
    pool is [ants]: a call of [Submit] takes the task or returns an error.
    What the logging and metrics middlewares do after [c.Next()] is only
    output ([LogLines.LoggingMiddleware], [Metrics.MetricsMiddleware]). *)

From Stdlib Require Import ZArith Lia Ascii String.
From stdpp Require Import base tactics numbers strings gmap list.
From S2P Require Import Prelude GoStrings Message Threads Sink ConfigPkg Gin RateLimit Json JsonDecode Auth Pipeline Dispatcher.

Module server.
Local Open Scope go_scope.

(** ** Middlewares that only look at the context and the configuration *)

Definition RequestIDMiddleware (uuid : string) (c : gin.Context) : gin.verdict :=
  let requestID := gin.GetHeader "X-Request-Id" c in
  let requestID := if String.eqb requestID "" then uuid else requestID in
  gin.Next (gin.SetRespHeader "X-Request-Id" requestID (gin.Set_ "request_id" (gin.CString requestID) c)).

(** The trace id and the request id LoggingMiddleware writes after the
    request. *)
Definition log_ids (c : gin.Context) : string * string :=
  let requestID := match gin.Get "request_id" c with
                   | Some (gin.CString s) => if String.eqb s "" then "unknown" else s
                   | _ => "unknown"
                   end in
  let traceID := gin.GetHeader "X-Trace-Id" c in
  (requestID, if String.eqb traceID "" then requestID else traceID).

Definition BodyCacheMiddleware (cfg : config.Config) (c : gin.Context) : result gin.verdict :=
  let maxBytes := config.MaxBodyBytes (config.Server cfg) in
  let maxBytes := if (maxBytes <=? 0)%Z then Z.shiftl 1 20 else maxBytes in
  match gin.MaxBytesRead (wrap64 (maxBytes + 1)) (gin.Body c) with
  | Panic p => Panic p
  | Err _ => Ok (gin.reject 413 "request body too large" c)
  | Ok rawBody =>
      if (maxBytes <? Z.of_nat (length rawBody))%Z then Ok (gin.reject 413 "request body too large" c)
      else Ok (gin.Next (gin.Set_ "raw_body" (gin.CBytes rawBody) (gin.SetBody (Some (Ok rawBody)) c)))
  end.

(** [c.Get("raw_body")]: the cached bytes, a value of another type, or none. *)
Definition cached_body (c : gin.Context) : option (option bytes) :=
  match gin.Get "raw_body" c with
  | Some (gin.CBytes b) => Some (Some b)
  | Some _ => Some None
  | None => None
  end.

Definition resolve_project (cfg : config.Config) (rawBody : bytes) (c : gin.Context) : gin.verdict :=
  match jsondec.UnmarshalPeek rawBody with
  | Ok p =>
      if String.eqb p "" then gin.reject 400 "Project is required" c else
      match config.find_project p (config.Projects cfg) with
      | None => gin.reject 404 ("unknown project: " +:+ p) c
      | Some projCfg =>
          match config.AuthRequired projCfg, gin.Get "app_key" c with
          | true, None => gin.reject 401 "authentication required" c
          | _, _ => gin.Next (gin.Set_ "project_name" (gin.CString (config.Name projCfg)) c)
          end
      end
  | _ => gin.reject 400 "Project is required" c
  end.

Definition ProjectResolutionMiddleware (cfg : config.Config) (c : gin.Context) : gin.verdict :=
  match cached_body c with
  | Some (Some rawBody) => resolve_project cfg rawBody c
  | Some None => gin.reject 500 "internal error" c
  | None =>
      match gin.Body c with
      | Some (Ok rawBody) => resolve_project cfg rawBody (gin.Set_ "raw_body" (gin.CBytes rawBody) c)
      | _ => gin.reject 400 "failed to read body" c
      end
  end.

(** ** Authentication *)

Record staticKeyStore := MkStaticKeyStore { keys : gmap string string }.

Definition staticKeys (s : staticKeyStore) : auth.AppKeyStore :=
  auth.MkAppKeyStore (fun appKey => Ok (default "" (keys s !! appKey))) (fun _ _ => Ok true).

(** The store [authMiddleware] makes. *)
Definition testKeys : auth.AppKeyStore := staticKeys (MkStaticKeyStore {["test-app-key" := "test-secret"]}).

Definition peekProject (b : bytes) : option string :=
  match jsondec.UnmarshalPeek b with Ok p => Some p | _ => None end.

(** A context as [auth.Handler] reads it, and what it leaves in it. *)
Definition auth_request (c : gin.Context) : auth.Request :=
  auth.MkRequest (gin.GetHeader "X-App-Key" c) (gin.GetHeader "X-Timestamp" c) (gin.GetHeader "X-Nonce" c)
    (gin.GetHeader "X-Signature" c) (cached_body c) (gin.Body c).

Definition auth_next (k : option string) (r : auth.Request) (c : gin.Context) : gin.Context :=
  let c := match cached_body c, auth.raw_body r with
           | None, Some (Some b) => gin.Set_ "raw_body" (gin.CBytes b) (gin.SetBody (auth.body r) c)
           | _, _ => c
           end in
  match k with Some appKey => gin.Set_ "app_key" (gin.CString appKey) c | None => c end.

Definition authMiddleware (cfg : config.Config) (store : auth.AppKeyStore) (now now' : Z) (c : gin.Context) (ns : auth.nonces) :
    gin.verdict * auth.nonces :=
  match auth.Handler (config.Auth cfg) store peekProject (auth_request c) now now' ns with
  | (auth.Next k r, ns') => (gin.Next (auth_next k r c), ns')
  | (auth.Abort code msg, ns') => (gin.reject code msg c, ns')
  end.

(** ** The state requests share *)

Section gateway.
Context {W K L : Type} `{Sink K} `{MsgLog L} `{RateLimiter}.

Record Gateway := MkGateway {
  disp : project.Dispatcher W K L;
  rlMgr : ratelimit.Manager;
  nonceCache : auth.nonces;
  tasks : list nat;                (* messages whose dispatch the pool has taken and not begun *)
}.

Abbreviation Go := (Thr Gateway).

Definition set_disp (d : project.Dispatcher W K L) (g : Gateway) : Gateway :=
  MkGateway d (rlMgr g) (nonceCache g) (tasks g).
Definition set_rl (m : ratelimit.Manager) (g : Gateway) : Gateway :=
  MkGateway (disp g) m (nonceCache g) (tasks g).
Definition set_nonces (ns : auth.nonces) (g : Gateway) : Gateway :=
  MkGateway (disp g) (rlMgr g) ns (tasks g).
Definition set_tasks (ts : list nat) (g : Gateway) : Gateway :=
  MkGateway (disp g) (rlMgr g) (nonceCache g) ts.
Definition mem (g : Gateway) : Pool message.Message := project.mem (disp g).
Definition set_mem (m : Pool message.Message) (g : Gateway) : Gateway := set_disp (project.set_mem m (disp g)) g.

Definition onMem {A} : St (Pool message.Message) A -> St Gateway A := zoom mem set_mem.

(** [cfg := cfgMgr.Get()]. *)
Definition withConfig {A} (k : config.Config -> Go A) : Go A :=
  Atomic (fun _ => true) (fun g => g) (fun g =>
    match config.Get (project.cfg (disp g)) with
    | Ok cfg => k cfg
    | Err e => Done (Err e)
    | Panic p => Done (Panic p)
    end).

Definition lift_rl {A} : Thr ratelimit.Manager A -> Go A := liftT (fun g => Some (rlMgr g)) set_rl.

(** Continue with the value of a call, if it has one. *)
Definition ok_or {X A} (k : X -> Go A) (r : result X) : Go A :=
  match r with Ok x => k x | Err e => Done (Err e) | Panic p => Done (Panic p) end.

(** [message.AcquireMessage()]. *)
Definition AcquireMessage {A} (k : nat -> Go A) : Go A :=
  Atomic (fun _ => true) (fun g => g) (fun g =>
    chooseT (length (free (mem g))) (fun ch => atomic (onMem (message.AcquireMessage ch)) (ok_or k))).

(** The assignments to the fields of the new message; its headers stay. *)
Definition fill (requestID traceID : string) (req : message.UploadRequest) (now : Time) (env : string)
    (m : message.Message) : message.Message :=
  message.MkMessage requestID traceID (message.req_Project req) (message.req_Router req) (message.req_Data req)
    env (message.Headers m) now.

(** [pool.Submit(func() { disp.Dispatch(msg) ... })]: the pool takes the task
    or returns an error. *)
Definition submit_task {A} (a : nat) (taken refused : Go A) : Go A :=
  Choose (atomic (modify (fun g => set_tasks (tasks g ++ [a]) g)) (fun _ => taken)) refused.

Definition trace_id (c : gin.Context) (requestID : string) : string :=
  let traceID := gin.GetHeader "X-Trace-Id" c in if String.eqb traceID "" then requestID else traceID.

Definition UploadHandler (now : Time) (c : gin.Context) : Go gin.verdict :=
  match cached_body c with
  | Some None => Done (Ok (gin.Next (gin.JSON 500 (gin.errorResponse 500 "internal error") c)))
  | None => Done (Ok (gin.Next (gin.JSON 500 (gin.errorResponse 500 "internal error: body not available") c)))
  | Some (Some rawBody) =>
      withConfig (fun cfg =>
      if (config.MaxBodyBytes (config.Server cfg) <? Z.of_nat (length rawBody))%Z then
        Done (Ok (gin.Next (gin.JSON 413 (gin.errorResponse 413 "request body too large") c)))
      else
      match jsondec.UnmarshalUpload rawBody with
      | Ok req =>
          withConfig (fun cfg' =>
          let projCfg := config.find_project (message.req_Project req) (config.Projects cfg') in
          let limit := match projCfg with Some p => config.ProjMaxBodyBytes p | None => 0%Z end in
          if (0 <? limit)%Z && (limit <? Z.of_nat (length rawBody))%Z then
            Done (Ok (gin.Next (gin.JSON 413 (gin.errorResponse 413 "request body exceeds project limit") c)))
          else
          let requestID := gin.GetString "request_id" c in
          let traceID := trace_id c requestID in
          AcquireMessage (fun a =>
          atomic (onMem (m <- load a ;;
                         store a (fill requestID traceID req now (config.Env (config.Server cfg)) m)))
            (ok_or (fun _ =>
          submit_task a
            (Done (Ok (gin.Next (gin.JSON 200 (message.MkUploadResponse 0 "success" requestID traceID) c))))
            (atomic (onMem (message.ReleaseMessage (Some a))) (ok_or (fun _ =>
               Done (Ok (gin.Next (gin.JSON 503 (gin.errorResponse 503 "server busy, please retry") c))))))))))
      | _ => Done (Ok (gin.Next (gin.JSON 400 (gin.errorResponse 400 "invalid JSON") c)))
      end)
  end.

(** The goroutine the pool runs for a task; an error is only logged. *)
Definition dispatch_task (a : nat) : Go unit :=
  attemptT (liftT (fun g => Some (disp g)) set_disp (project.Dispatch (Some a))) (fun _ => Done (Ok tt)).

(** The pool begins the oldest task. *)
Definition take_task (g : Gateway) : option (nat * Gateway) :=
  match tasks g with a :: ts => Some (a, set_tasks ts g) | [] => None end.

(** ** The route *)

(** The readings of the clock while a request is served. *)
Record Clock := MkClock { c_global : Z; c_auth : Z; c_nonce : Z; c_project : Z; c_message : Time }.

Section route.
Context (store : auth.AppKeyStore) (clk : Clock) (uuid : string).

Definition globalLimit (c : gin.Context) : Go gin.verdict :=
  lift_rl (ratelimit.GlobalMiddleware (c_global clk) c).

Definition bodyCache (c : gin.Context) : Go gin.verdict :=
  withConfig (fun cfg => Done (BodyCacheMiddleware cfg c)).

(** Only [consumeNonce] touches shared state, under a lock. *)
Definition authenticate (c : gin.Context) : Go gin.verdict :=
  withConfig (fun cfg =>
    atomic (fun g => let '(v, ns) := authMiddleware cfg store (c_auth clk) (c_nonce clk) c (nonceCache g) in
                     (Ok v, set_nonces ns g))
      Done).

Definition projectResolution (c : gin.Context) : Go gin.verdict :=
  withConfig (fun cfg => Done (Ok (ProjectResolutionMiddleware cfg c))).

Definition projectLimit (c : gin.Context) : Go gin.verdict :=
  withConfig (fun cfg =>
    lift_rl (ratelimit.ProjectMiddleware (fun n => config.find_project n (config.Projects cfg)) (c_project clk) c)).

(** The chain, with [gin.Recovery] around it. *)
Definition upload_chain (c : gin.Context) : Go gin.verdict :=
  gin.andThen (Done (Ok (RequestIDMiddleware uuid c))) (fun c =>
  gin.andThen (globalLimit c) (fun c =>
  gin.andThen (bodyCache c) (fun c =>
  gin.andThen (authenticate c) (fun c =>
  gin.andThen (projectResolution c) (fun c =>
  gin.andThen (projectLimit c) (fun c =>
  UploadHandler (c_message clk) c)))))).

Definition upload_route (c : gin.Context) : Go gin.verdict :=
  recoverT (fun _ => Done (Ok (gin.Abort (gin.JSON 500 (gin.errorResponse 500 "") c)))) (upload_chain c).
End route.
End gateway.
Arguments Gateway W K L {_}.
End server.
