(* ===== verification/SinkAdapterTheorems.v ===== *)
(** * The Redis and Kafka sinks: theorems

    - what a sink sends for an uploaded message reads back as the message,
      with the data that was uploaded;
    - the settings of the configuration arrive unchanged at the client, by
      way of the loosely typed map the dispatcher hands to the factories. *)

From Stdlib Require Import ZArith Lia Ascii String SpecFloat.
From stdpp Require Import base tactics numbers strings gmap list sorting.
From S2P Require Import Prelude GoStrings GoFloat GoUtf8 GoTime GoCrypto Message Threads Sink ConfigPkg Json JsonDecode JsonEncode JsonCompact JsonEnvelope Pipeline Dispatcher SinkAdapters Server.

Import adapters.
Local Open Scope go_scope.

(** ** Envelopes from a pool *)

(** The pool of envelopes: what was handed back is blank and distinct. *)
Record env_ok (p : Pool message.Envelope) : Prop := {
  eo_nodup : NoDup (free p);
  eo_blank : forall a, a ∈ free p -> cells p !! a = Some message.newEnvelope;
  eo_fresh : forall a, is_Some (cells p !! a) -> (a < next p)%nat;
}.

Lemma AcquireEnvelope_spec c p : env_ok p ->
  exists a p', message.AcquireEnvelope c p = (Ok a, p') /\ env_ok p' /\
    cells p' !! a = Some message.newEnvelope /\ a ∉ free p'.
Proof.
  intros [Hnd Hbl Hfr]. unfold message.AcquireEnvelope, PoolGet.
  destruct (c ≫= fun i => free p !! i) as [a|] eqn:E.
  - destruct c as [i|]; [|done]. cbn in E. eexists a, _. split; [done|]. cbn.
    pose proof (delete_Permutation _ _ _ E) as Hperm.
    assert (Hnd' : NoDup (a :: delete i (free p))) by (by rewrite <- Hperm). apply NoDup_cons in Hnd' as [Hnotin Hnd'].
    split; [|split; [apply Hbl; by eapply list_elem_of_lookup_2|done]]. split; cbn; [done| |done].
    intros b Hb. apply Hbl. rewrite Hperm. set_solver.
  - eexists (next p), _. split; [done|]. cbn.
    assert (Hn : cells p !! next p = None).
    { destruct (cells p !! next p) eqn:En; [|done]. specialize (Hfr (next p)). rewrite En in Hfr.
      specialize (Hfr (mk_is_Some _ _ eq_refl)). lia. }
    assert (Hfree : next p ∉ free p) by (intros Hin; apply Hbl in Hin; congruence).
    split; [|by rewrite lookup_insert_eq]. split; cbn; [done| |].
    + intros a Ha. rewrite lookup_insert_ne by congruence. auto.
    + intros a [v Hv]. destruct (decide (a = next p)) as [->|]; [lia|].
      rewrite lookup_insert_ne in Hv by done. specialize (Hfr a (mk_is_Some _ _ Hv)). lia.
Qed.

(** [encode] depends on nothing but the message, and gives its envelope back
    blank. *)
Lemma encode_spec msg ep : env_ok (envs ep) ->
  exists ep', encode msg ep = (Ok (jsonmsg.MarshalEnvelope (envelope_of msg)), ep') /\ env_ok (envs ep').
Proof.
  intros Hok. destruct (AcquireEnvelope_spec (picks ep (picked ep)) (envs ep) Hok) as (a & p & E & [Hnd Hbl Hfr] & Ha & Hfree).
  unfold encode, buildEnvelope, acquire, onEnvs, zoom, load, store, modify, bind, message.ReleaseEnvelope, ret.
  rewrite E. cbn [envs picks picked]. rewrite Ha. cbn [envs picks picked cells free next]. rewrite lookup_insert_eq.
  cbn [envs picks picked cells free next bind load]. unfold bind, load. cbn [cells]. rewrite lookup_insert_eq. cbn.
  eexists. split; [done|]. cbn. split; cbn.
  - by constructor.
  - intros b [->|Hb]%elem_of_cons; [by rewrite !lookup_insert_eq|].
    rewrite !lookup_insert_ne by (intros ->; done). by apply Hbl.
  - intros b [v Hv]. destruct (decide (b = a)) as [->|]; [apply Hfr; by rewrite Ha|].
    rewrite !lookup_insert_ne in Hv by done. by apply Hfr.
Qed.

(** ** The data of an upload *)

(** [v] is the value of the member [data] of an upload, or null without one. *)
Definition uploaded (b : bytes) (req : message.UploadRequest) (v : json.jval) : Prop :=
  match message.req_Data req with
  | None => v = json.JNull
  | Some text => exists ms key, json.parse b = Some (json.JObj ms) /\ (key, (text, v)) ∈ ms /\
                   jsondec.find_field ["project"; "router"; "data"] key = Some "data"
  end.

Lemma find_field_in key n : jsondec.find_field ["project"; "router"; "data"] key = Some n ->
  n = "project" \/ n = "router" \/ n = "data".
Proof.
  unfold jsondec.find_field. case_bool_decide as Hin.
  - intros [= <-]. apply list_elem_of_fmap in Hin as (n & -> & Hn). rewrite string_of_list_ascii_of_string. set_solver.
  - destruct (list_find _ _) as [[i x]|] eqn:E; [|done]. intros [= <-]. apply list_find_Some in E as (Hx & _).
    apply list_elem_of_lookup_2 in Hx. set_solver.
Qed.

Lemma upload_data b req : jsondec.UnmarshalUpload b = Ok req ->
  exists v, uploaded b req v /\ data_value (message.req_Data req) v.
Proof.
  unfold jsondec.UnmarshalUpload, jsondec.Unmarshal, uploaded. destruct (json.parse b) as [[| | | | |ms]|] eqn:Ep; try done.
  { intros [= <-]. by exists json.JNull. }
  assert (Htext : Forall (fun m : bytes * (bytes * json.jval) =>
     json.value (2 * length m.2.1 + 1) 1 m.2.1 = Some (m.2.2, []) /\ json.skip_ws m.2.1 = m.2.1) ms).
  { unfold json.parse, json.parse_with in Ep. rewrite Nat.add_1_r in Ep. destruct (json.skip_ws b) as [|c b'] eqn:Eb; [done|].
    destruct (json.value _ 0 (c :: b')) as [[v r]|] eqn:Ev; [|done]. cbn [mbind option_bind] in Ep.
    destruct (json.skip_ws r); [|done]. injection Ep as ->. revert Ev. apply object_members. }
  set (I := fun u : message.UploadRequest * bool => exists v, match message.req_Data u.1 with
      | None => v = json.JNull
      | Some text => exists key, (key, (text, v)) ∈ ms /\ jsondec.find_field ["project"; "router"; "data"] key = Some "data"
      end).
  assert (HI : forall l u, l ⊆ ms -> I u -> I (foldl (jsondec.decode_member ["project"; "router"; "data"] jsondec.upload_set) u l)).
  { induction l as [|[key [text v]] l IH]; intros [u ok] Hl Hu; [done|]. cbn [foldl]. apply IH; [set_solver|].
    unfold jsondec.decode_member. destruct (jsondec.find_field _ key) as [n|] eqn:Ef; [|done].
    unfold jsondec.upload_set. destruct (find_field_in _ _ Ef) as [->|[->| ->]]; cbn [String.eqb Ascii.eqb Bool.eqb].
    - by destruct (jsondec.decode_string v _).
    - by destruct (jsondec.decode_string v _).
    - exists v. cbn. exists key. split; [set_solver|done]. }
  specialize (HI ms (message.MkUploadRequest "" "" None, true) ltac:(done) (ex_intro _ json.JNull eq_refl)).
  destruct (foldl _ _ ms) as [u []]; [|done]. intros [= <-]. destruct HI as [v Hv]. exists v. cbn [fst] in Hv.
  destruct (message.req_Data u) as [text|]; [|done]. destruct Hv as (key & Hin & Hf). split; [by exists ms, key|].
  rewrite Forall_forall in Htext. destruct (Htext _ Hin) as [Hv Hs]. cbn in *. exists []. by rewrite Hs.
Qed.

(** ** Sending *)

Section sending.
Context {CR : Type} `{RedisClient CR} {CK : Type} `{KafkaWriter CK}.

(** One command of the client, whose answer is the answer of [Send]. *)
Lemma RedisSend_spec cancelled msg (s : RedisSink (C := CR)) : env_ok (envs (r_envs s)) ->
  exists ep', env_ok (envs ep') /\
    RedisSend cancelled msg s =
      match jsonmsg.MarshalEnvelope (envelope_of msg) with
      | Ok text => let '(r, c) := run_command cancelled (redis_command s text) (client s) in
                   (r, set_client c (set_renvs ep' s))
      | Err e => (Err (WrapError "redis sink marshal" e), set_renvs ep' s)
      | Panic p => (Panic p, set_renvs ep' s)
      end.
Proof.
  intros Hok. destruct (encode_spec msg (r_envs s) Hok) as (ep' & E & Hok'). exists ep'. split; [done|].
  unfold RedisSend. rewrite (bind_run_Ok _ _ s _ (set_renvs ep' s)) by (unfold onREnvs, zoom; by rewrite E).
  by destruct (jsonmsg.MarshalEnvelope (envelope_of msg)).
Qed.

Lemma KafkaSend_spec cancelled msg (s : KafkaSink (C := CK)) : env_ok (envs (k_envs s)) ->
  exists ep', env_ok (envs ep') /\
    KafkaSend cancelled msg s =
      match jsonmsg.MarshalEnvelope (envelope_of msg) with
      | Ok text => let '(r, c) := WriteMessages cancelled (partitionKeyBytes s msg) text (writer s) in
                   (r, MkKafkaSink (k_name s) c (partitionKey s) ep')
      | Err e => (Err (WrapError "kafka sink marshal" e), MkKafkaSink (k_name s) (writer s) (partitionKey s) ep')
      | Panic p => (Panic p, MkKafkaSink (k_name s) (writer s) (partitionKey s) ep')
      end.
Proof.
  intros Hok. destruct (encode_spec msg (k_envs s) Hok) as (ep' & E & Hok'). exists ep'. split; [done|].
  unfold KafkaSend. rewrite (bind_run_Ok _ _ s _ (MkKafkaSink (k_name s) (writer s) (partitionKey s) ep'))
    by (unfold onKEnvs, zoom; by rewrite E).
  by destruct (jsonmsg.MarshalEnvelope (envelope_of msg)).
Qed.

(** The envelope an upload should arrive in. *)
Definition sent_envelope (rid tid : string) (req : message.UploadRequest) (now : Time) (env : string) : message.Envelope :=
  message.MkEnvelope (message.MkGatewayMeta rid tid now env) (message.req_Project req) (message.req_Router req)
    (message.req_Data req).

End sending.

(** ** Settings *)

Definition exact53 (z : Z) : Prop := (- 2 ^ 53 < z < 2 ^ 53)%Z.

(** Settings a float64 and a duration can carry. *)
Record redis_settings_ok (r : config.RedisSinkConfig) : Prop := {
  rs_db : exact53 (config.DB r);
  rs_pool : exact53 (config.PoolSize r);
  rs_idle : exact53 (config.MinIdleConns r);
  rs_len : exact53 (config.MaxLen r);
  rs_dial : in_int64 (config.DialTimeout r);
  rs_read : in_int64 (config.RedisReadTimeout r);
  rs_write : in_int64 (config.RedisWriteTimeout r);
}.

Lemma intConfig_exact cfg k z def : cfg !! k = Some (VFloat (f64_of_Z z)) -> exact53 z -> intConfig cfg k def = z.
Proof. intros E Hz. unfold intConfig. rewrite E. by apply f64_to_int_of_Z. Qed.

Lemma int64Config_exact cfg k z def : cfg !! k = Some (VFloat (f64_of_Z z)) -> exact53 z -> int64Config cfg k def = z.
Proof. apply intConfig_exact. Qed.

Lemma durationConfig_exact cfg k d def : cfg !! k = Some (VString (Duration_String d)) -> in_int64 d -> durationConfig cfg k def = d.
Proof. intros E Hd. unfold durationConfig. by rewrite E, time.parse_print_duration. Qed.

Lemma stringConfig_exact cfg k s def : cfg !! k = Some (VString s) -> stringConfig cfg k def = s.
Proof. intros E. unfold stringConfig. by rewrite E. Qed.

Section settings.
Context {CR : Type} `{RedisClient CR} {CK : Type} `{KafkaWriter CK}.

(** The settings of the configuration file as the client library gets them. *)
Definition redis_options (r : config.RedisSinkConfig) : Options :=
  MkOptions (config.Addr r) (config.Password r) (config.DB r) (config.PoolSize r) (config.MinIdleConns r)
    (config.DialTimeout r) (config.RedisReadTimeout r) (config.RedisWriteTimeout r).

Definition kafka_writer (k : config.KafkaSinkConfig) : WriterConfig :=
  MkWriterConfig (config.Brokers k) (config.Topic k)
    (if (config.BatchSize k <=? 0)%Z then 100%Z else config.BatchSize k)
    (if (config.BatchTimeout k <=? 0)%Z then (100 * config.Millisecond)%Z else config.BatchTimeout k)
    (compression_codec (config.Compression k)).

Lemma brokers_exact (l : list string) : omap (fun b => match b with VString s => Some s | _ => None end) (VString <$> l) = l.
Proof. induction l as [|s l IH]; [done|]. cbn. by rewrite IH. Qed.

Lemma redis_config_exact c : redis_settings_ok (config.Redis (config.SinksCfg c)) ->
  let r := config.Redis (config.SinksCfg c) in
  redis_config (project.globalSinkDefaults c "redis") =
  MkRedisConfig (config.Addr r) (config.Password r) (config.DB r) (config.PoolSize r) (config.MinIdleConns r)
    (config.DialTimeout r) (config.RedisReadTimeout r) (config.RedisWriteTimeout r) (config.Key r) (config.RedisType r) (config.MaxLen r).
Proof.
  intros [H1 H2 H3 H4 H5 H6 H7] r. unfold redis_config. f_equal.
  all: first [by apply stringConfig_exact | by apply intConfig_exact | by apply durationConfig_exact | by apply int64Config_exact].
Qed.

Lemma kafka_config_exact c : exact53 (config.BatchSize (config.Kafka (config.SinksCfg c))) ->
  in_int64 (config.BatchTimeout (config.Kafka (config.SinksCfg c))) ->
  let k := config.Kafka (config.SinksCfg c) in
  kafka_config (project.globalSinkDefaults c "kafka") =
  MkKafkaConfig (config.Brokers k) (config.Topic k) (config.PartitionKey k) (config.Compression k) (config.BatchSize k) (config.BatchTimeout k).
Proof.
  intros Hb Ht k. unfold kafka_config. f_equal.
  all: try first [by apply stringConfig_exact | by apply intConfig_exact | by apply durationConfig_exact].
  unfold brokersConfig. change (project.globalSinkDefaults c "kafka" !! "brokers") with (Some (VList (VString <$> config.Brokers k))).
  apply brokers_exact.
Qed.

(** C27.  The settings of a sink go through a map of untyped values, numbers
    as float64 and durations as text, and arrive unchanged: for every
    configuration whose numbers have at most 53 bits, the Redis client is
    made with exactly the configured options, and the Kafka writer with the
    configured ones after its two defaults; Kafka is refused exactly without
    brokers or without a topic. *)
Theorem sink_settings_arrive c name ep :
  redis_settings_ok (config.Redis (config.SinksCfg c)) ->
  exact53 (config.BatchSize (config.Kafka (config.SinksCfg c))) ->
  in_int64 (config.BatchTimeout (config.Kafka (config.SinksCfg c))) ->
  let r := config.Redis (config.SinksCfg c) in
  let k := config.Kafka (config.SinksCfg c) in
  RedisSinkFactory (C := CR) ep name (project.globalSinkDefaults c "redis") =
    Ok (MkRedisSink name (NewClient (redis_options r)) (config.Key r)
          (if String.eqb (config.RedisType r) "" then "list" else config.RedisType r) (config.MaxLen r) ep) /\
  KafkaSinkFactory (C := CK) ep name (project.globalSinkDefaults c "kafka") =
    (if (length (config.Brokers k) =? 0)%nat then Err (ErrorString "kafka brokers required")
     else if String.eqb (config.Topic k) "" then Err (ErrorString "kafka topic required")
     else Ok (MkKafkaSink name (NewWriter (kafka_writer k)) (config.PartitionKey k) ep)).
Proof.
  intros Hr Hb Ht r k. unfold RedisSinkFactory, KafkaSinkFactory, NewRedisSink, NewKafkaSink.
  rewrite redis_config_exact, kafka_config_exact by done. done.
Qed.
End settings.

(** ** Concrete clients *)

Module adapter_demo.
(** Clients that keep what they are sent and fail when cancelled. *)
#[local] Instance logged_redis : RedisClient (Options * list Command) := {
  NewClient o := (o, []);
  run_command cancelled cmd := if cancelled : bool then fail (ErrorString "context canceled") else modify (fun c => (c.1, c.2 ++ [cmd]));
  Ping := ret tt;
  ClientClose := ret tt;
}.
#[local] Instance logged_kafka : KafkaWriter (WriterConfig * list (bytes * bytes)) := {
  NewWriter w := (w, []);
  WriteMessages cancelled k v := if cancelled : bool then fail (ErrorString "context canceled") else modify (fun c => (c.1, c.2 ++ [(k, v)]));
  Dial := ret tt;
  WriterClose := ret tt;
}.

Definition no_envs : EnvPool := MkEnvPool emptyPool (fun _ => None) 0.

Lemma no_envs_ok : env_ok (envs no_envs).
Proof. split; [constructor|set_solver|]. intros a [v Hv]. cbn in Hv. by rewrite lookup_empty in Hv. Qed.

Definition qt : string := String json.quote "".
Definition body : bytes :=
  bytes_of ("{" +:+ qt +:+ "project" +:+ qt +:+ ":" +:+ qt +:+ "shop" +:+ qt +:+ ", " +:+
            qt +:+ "data" +:+ qt +:+ ": { " +:+ qt +:+ "uid" +:+ qt +:+ " : 12345678 } }").

Definition rsink : RedisSink := NewRedisSink "r" (MkRedisConfig "" "" 0 0 0 0 0 0 "logs" "" 0) no_envs.
Definition ksink : KafkaSink := MkKafkaSink "k" (NewWriter (MkWriterConfig [] "t" 1 1 NoCodec)) "" no_envs.
Definition midnight : Time := MkTime (739000 * 86400 * 1000000000) 0.
Definition request : message.UploadRequest :=
  message.MkUploadRequest "shop" "" (Some (bytes_of ("{ " +:+ qt +:+ "uid" +:+ qt +:+ " : 12345678 }"))).
Definition msg : message.Message := server.fill "r1" "t1" request midnight "" message.newMessage.

(** The partition key of a numeric user id is its float64 in [%v] notation. *)
Example numeric_key : string_of_list_ascii (partitionKeyBytes ksink msg) = "1.2345678e+07".
Proof. vm_compute. reflexivity. Qed.

(** Two user ids beyond 53 bits share a key. *)
Definition uid_msg (uid : string) : message.Message :=
  message.MkMessage "r1" "t1" "shop" "" (Some (bytes_of ("{" +:+ qt +:+ "uid" +:+ qt +:+ ":" +:+ uid +:+ "}"))) "" ∅ midnight.
Example large_ids_collapse :
  partitionKeyBytes ksink (uid_msg "9007199254740993") = partitionKeyBytes ksink (uid_msg "9007199254740992").
Proof. vm_compute. reflexivity. Qed.

(** What one upload leaves in the list. *)
Example pushed :
  (client (RedisSend false msg rsink).2).2 =
  [LPUSH "logs" ("{" +:+ qt +:+ "_gateway_meta" +:+ qt +:+ ":{" +:+ qt +:+ "request_id" +:+ qt +:+ ":" +:+ qt +:+ "r1" +:+ qt +:+ "," +:+
     qt +:+ "trace_id" +:+ qt +:+ ":" +:+ qt +:+ "t1" +:+ qt +:+ "," +:+ qt +:+ "received_at" +:+ qt +:+ ":" +:+ qt +:+
     "2024-04-25T00:00:00Z" +:+ qt +:+ "}," +:+ qt +:+ "project" +:+ qt +:+ ":" +:+ qt +:+ "shop" +:+ qt +:+ "," +:+
     qt +:+ "router" +:+ qt +:+ ":" +:+ qt +:+ qt +:+ "," +:+ qt +:+ "data" +:+ qt +:+ ":{" +:+ qt +:+ "uid" +:+ qt +:+ ":12345678}}")].
Proof. vm_compute. reflexivity. Qed.

Definition settings : config.Config :=
  config.MkConfig (config.MkServerConfig "" 0 0 0 0 0 0 "" 0 "") (config.MkAuthConfig false 0 0 0) []
    (config.MkSinksConfig (config.MkRedisSinkConfig "redis:6379" "" 3 50 5 3100000000 1500 0 "logs" "" 100000)
                          (config.MkKafkaSinkConfig ["k1:9092"; "k2:9092"] "logs" "uid" "zstd" 0 10000000))
    ∅ 0 (config.MkLogConfig "" false "" false "" [] 0) (config.MkMetricsConfig false "" 0)
    (config.MkWALConfig true "" 0 0 0) (config.MkPprofConfig false "").
End adapter_demo.


Lemma sink_settings_arrive_witness :
  @RedisSinkFactory _ adapter_demo.logged_redis adapter_demo.no_envs "r"
      (project.globalSinkDefaults adapter_demo.settings "redis") =
    Ok (MkRedisSink "r" (MkOptions "redis:6379" "" 3 50 5 3100000000 1500 0, []) "logs" "list" 100000 adapter_demo.no_envs) /\
  @KafkaSinkFactory _ adapter_demo.logged_kafka adapter_demo.no_envs "r"
      (project.globalSinkDefaults adapter_demo.settings "kafka") =
    Ok (MkKafkaSink "r" (MkWriterConfig ["k1:9092"; "k2:9092"] "logs" 100 10000000 Zstd, []) "uid" adapter_demo.no_envs).
Proof.
  apply (@sink_settings_arrive _ adapter_demo.logged_redis _ adapter_demo.logged_kafka adapter_demo.settings "r" adapter_demo.no_envs).
  - split; split; vm_compute; congruence.
  - split; vm_compute; congruence.
  - split; vm_compute; congruence.
Defined.
