(* ===== verification/ServerTheorems.v ===== *)
(** * The upload route: theorems

    What a request that gets through has passed, what one that does not
    leaves behind, and the limits on the body. *)

From Stdlib Require Import ZArith Lia Ascii String.
From stdpp Require Import base tactics numbers strings gmap list.
From S2P Require Import Prelude GoStrings Message Threads Sink ConfigPkg Gin RateLimit Json JsonDecode Auth Pipeline Dispatcher Server.

Import server.
Local Open Scope go_scope.

(** ** Contexts *)

Lemma gin_get_set k v c : gin.Get k (gin.Set_ k v c) = Some v.
Proof. unfold gin.Get. cbn. apply lookup_insert_eq. Qed.

Lemma gin_get_set_ne k k' v c : k <> k' -> gin.Get k (gin.Set_ k' v c) = gin.Get k c.
Proof. intros. unfold gin.Get. cbn. by apply lookup_insert_ne. Qed.

(** ** Messages taken and handed back *)

Lemma acquire_live c p a p' :
  message.pool_ok p -> message.AcquireMessage c p = (Ok a, p') ->
  message.pool_ok p' /\ cells p' !! a = Some message.newMessage /\ ~ message.live p a /\
  forall b, message.live p' b <-> b = a \/ message.live p b.
Proof.
  intros Hp E. destruct (message.AcquireMessage_spec c p Hp) as (a' & p1 & E' & Hok & Hc & Hl & Hn & Hk).
  rewrite E in E'. injection E' as <- <-. split_and!; try done. intros b. split; [|intros [->|Hb]; [done|by apply Hk]].
  intros Hb. destruct (decide (b = a)) as [->|Hne]; [by left|right]. unfold message.AcquireMessage, PoolGet in E.
  destruct Hb as [Hb1 Hb2]. destruct (c ≫= fun i => free p !! i) as [x|] eqn:Ex; injection E as <- <-; cbn in *.
  - split; [done|]. destruct c as [i|]; [|done]. cbn in Ex. pose proof (delete_Permutation _ _ _ Ex) as Hd.
    rewrite Hd. set_solver.
  - rewrite lookup_insert_ne in Hb1 by done. done.
Qed.

Lemma release_live a p p' :
  message.pool_ok p -> message.live p a -> message.ReleaseMessage (Some a) p = (Ok tt, p') ->
  message.pool_ok p' /\ forall b, message.live p' b <-> b <> a /\ message.live p b.
Proof.
  intros Hp Ha E. destruct (message.ReleaseMessage_spec a p Hp Ha) as (p1 & E' & Hok & Hn & Hk).
  rewrite E in E'. injection E' as <-. split; [done|]. intros b. split; [|intros [Hne Hb]; by apply Hk].
  intros Hb. assert (Hne : b <> a) by (by intros ->). split; [done|].
  unfold message.ReleaseMessage, bind, load in E. destruct (cells p !! a) as [m|]; [|done]. cbn in E.
  injection E as <-. destruct Hb as [Hb1 Hb2]. cbn in *. rewrite lookup_insert_ne in Hb1 by done. split; [done|set_solver].
Qed.

(** Filling in a message that is in hand. *)
Lemma store_live a m p :
  message.pool_ok p -> message.live p a ->
  message.pool_ok (store a m p).2 /\ forall b, message.live (store a m p).2 b <-> message.live p b.
Proof.
  intros [H1 H2 H3] [Hs Ha]. cbn. split; [split; cbn; [done| |]|].
  - intros b Hb. rewrite lookup_insert_ne by congruence. auto.
  - intros b [v Hv]. apply H3. destruct (decide (b = a)) as [->|Hne]; [done|]. by rewrite lookup_insert_ne in Hv.
  - intros b. unfold message.live. cbn. destruct (decide (b = a)) as [->|Hne]; [|by rewrite lookup_insert_ne].
    rewrite lookup_insert_eq. split; intros [? ?]; (split; [done|done]).
Qed.

(** ** The middlewares without shared state *)

(** A context that carries the body [b] of the request [c0] so far, with
    nothing answered. *)
Record carries (c0 : gin.Context) (rid : string) (b : bytes) (c : gin.Context) : Prop := {
  car_body : cached_body c = Some (Some b);
  car_header : gin.Header c = gin.Header c0;
  car_written : gin.Written c = gin.Written c0;
  car_rid : gin.GetString "request_id" c = rid;
}.

Lemma carries_set c0 rid b c k v :
  carries c0 rid b c -> k <> "raw_body" -> k <> "request_id" -> carries c0 rid b (gin.Set_ k v c).
Proof.
  intros [H1 H2 H3 H4] Hk1 Hk2. split; try done.
  - unfold cached_body in *. by rewrite gin_get_set_ne.
  - unfold gin.GetString in *. by rewrite gin_get_set_ne.
Qed.

(** The id of a request. *)
Definition request_id (uuid : string) (c : gin.Context) : string :=
  let h := gin.GetHeader "X-Request-Id" c in if String.eqb h "" then uuid else h.

Definition body_limit (cfg : config.Config) : Z :=
  let m := config.MaxBodyBytes (config.Server cfg) in if (m <=? 0)%Z then Z.shiftl 1 20 else m.

(** What [http.MaxBytesReader] lets through: [maxBytes + 1], which overflows. *)
Definition read_limit (cfg : config.Config) : Z := Z.max (wrap64 (body_limit cfg + 1)) 0.

(** The requests [BodyCacheMiddleware] refuses. *)
Lemma body_cache_spec cfg uuid c0 r :
  gin.Body c0 = Some r -> is_panic r = false ->
  let c1 := gin.ctx_of (RequestIDMiddleware uuid c0) in
  BodyCacheMiddleware cfg c1 = Ok (gin.reject 413 "request body too large" c1) \/
  exists b c2, r = Ok b /\ BodyCacheMiddleware cfg c1 = Ok (gin.Next c2) /\ carries c0 (request_id uuid c0) b c2 /\
    gin.Get "app_key" c2 = gin.Get "app_key" c0 /\ (Z.of_nat (length b) <= read_limit cfg)%Z.
Proof.
  intros Hb Hp c1. unfold BodyCacheMiddleware. fold (body_limit cfg).
  change (gin.Body c1) with (gin.Body c0). rewrite Hb. unfold gin.MaxBytesRead.
  fold (read_limit cfg). destruct r as [b|e|p]; [|by left|done].
  destruct (Z.ltb_spec (read_limit cfg) (Z.of_nat (length b))) as [|Hle]; [by left|].
  destruct (_ <? _)%Z; [by left|right]. exists b. eexists. split_and!; [done|done| | |lia].
  - split; try done.
    + unfold cached_body. by rewrite gin_get_set.
    + unfold gin.GetString. rewrite gin_get_set_ne by done. unfold gin.SetBody, gin.Get. cbn.
      by rewrite lookup_insert_eq.
  - rewrite gin_get_set_ne by done. unfold gin.SetBody, gin.Get. cbn. by rewrite lookup_insert_ne.
Qed.

Lemma handler_abort_code cfg store peek r now now' ns code msg ns' :
  auth.Handler cfg store peek r now now' ns = (auth.Abort code msg, ns') -> code <> 200%Z.
Proof. unfold auth.Handler. intros Hh. repeat case_match; simplify_eq; lia. Qed.

(** The signature of a body under the key of a request. *)
Definition signed (store : auth.AppKeyStore) (c : gin.Context) (b : bytes) : Prop :=
  exists secret, auth.GetSecret store (gin.GetHeader "X-App-Key" c) = Ok secret /\ secret <> "" /\
    auth.verifyHMAC secret b (gin.GetHeader "X-Timestamp" c) (gin.GetHeader "X-Nonce" c)
      (gin.GetHeader "X-Signature" c) = true.

Lemma auth_spec cfg store now now' c0 rid b c ns :
  carries c0 rid b c ->
  let '(v, ns') := authMiddleware cfg store now now' c ns in
  (exists code msg, code <> 200%Z /\ v = gin.reject code msg c) \/
  exists c', v = gin.Next c' /\ carries c0 rid b c' /\
    (config.AuthEnabled (config.Auth cfg) = false -> c' = c) /\
    (config.AuthEnabled (config.Auth cfg) = true -> signed store c0 b /\
       auth.project_ok store peekProject (gin.GetHeader "X-App-Key" c0) b = true).
Proof.
  intros Hc. unfold authMiddleware.
  destruct (auth.Handler _ _ _ _ _ _ ns) as [[k r|code msg] ns'] eqn:Eh; [right|left; eauto using handler_abort_code].
  assert (Hb : cached_body c = Some (Some b)) by apply Hc.
  assert (Hn : auth_next k r c = match k with Some a => gin.Set_ "app_key" (gin.CString a) c | None => c end)
    by (unfold auth_next; by rewrite Hb).
  eexists. split; [done|]. rewrite Hn. split; [destruct k; [by apply carries_set|done]|].
  assert (Hh : forall k, gin.GetHeader k c = gin.GetHeader k c0) by (intros k'; unfold gin.GetHeader; by rewrite (car_header _ _ _ _ Hc)).
  split.
  - intros Hd. unfold auth.Handler in Eh. rewrite Hd in Eh. cbn in Eh. by injection Eh as <- <- <-.
  - intros He. destruct (handler_next _ _ _ _ _ _ _ _ _ _ He Eh) as (_ & b' & secret & ts & Hraw & Hs & Hne & _ & _ & Hv & Hpk & _).
    unfold auth.rawBodyFromContext, auth_request in Hraw. cbn in Hraw. rewrite Hb in Hraw. injection Hraw as <- _.
    cbn in Hs, Hv, Hpk. rewrite !Hh in *. split; [by exists secret|done].
Qed.

Lemma resolution_spec cfg c0 rid b c :
  carries c0 rid b c ->
  (exists code msg, code <> 200%Z /\ ProjectResolutionMiddleware cfg c = gin.reject code msg c) \/
  exists p pj c', ProjectResolutionMiddleware cfg c = gin.Next c' /\ carries c0 rid b c' /\
    jsondec.UnmarshalPeek b = Ok p /\ p <> "" /\ config.find_project p (config.Projects cfg) = Some pj /\
    (config.AuthRequired pj = true -> is_Some (gin.Get "app_key" c)).
Proof.
  intros Hc. unfold ProjectResolutionMiddleware, resolve_project. rewrite (car_body _ _ _ _ Hc).
  destruct (jsondec.UnmarshalPeek b) as [p|e|q]; [|left; by eexists 400%Z, _..].
  destruct (String.eqb_spec p "") as [|Hne]; [left; by eexists 400%Z, _|].
  destruct (config.find_project p (config.Projects cfg)) as [pj|] eqn:Hf; [|left; by eexists 404%Z, _].
  destruct (config.AuthRequired pj) eqn:Ea, (gin.Get "app_key" c) as [k|] eqn:Ek;
    try (left; by eexists 401%Z, _);
    (right; exists p, pj; eexists; split; [done|]; split; [by apply carries_set|]; rewrite ?Ea; naive_solver).
Qed.

Section route.
Context {W K L : Type} `{Sink K} `{MsgLog L} `{RateLimiterLaws}.
Abbreviation Gw := (Gateway W K L).

Lemma wp_andThen (t : Thr Gw gin.verdict) k (Q : result gin.verdict -> Gw -> Prop) g :
  wp t (fun r g => match r with
                   | Ok (gin.Next c) => wp (k c) Q g
                   | r => Q r g
                   end) g ->
  (forall c g, may (k c) g) -> wp (gin.andThen t k) Q g.
Proof.
  intros Ht Hk. apply wp_bindT; [|intros [c|c] g'; [apply Hk|done]].
  eapply wp_mono; [|exact Ht]. by intros [[c|c]|e|p] g'.
Qed.

Lemma wp_lift_rl {A} (t : Thr ratelimit.Manager A) (Q : result A -> Gw -> Prop) g :
  wp t (fun r m => Q r (set_rl m g)) (rlMgr g) -> wp (lift_rl t) Q g.
Proof. apply wp_liftT; [by intros s [] s0|by intros s s' []|by intros s [] [= ->]|done]. Qed.

(** The rate limiters are in order. *)
Definition limits_ok (m : ratelimit.Manager) : Prop := rl_ok m /\ exists M, represents m M.

(** What all middlewares leave alone. *)
Definition same_but_limits (g g' : Gw) : Prop :=
  disp g' = disp g /\ tasks g' = tasks g /\ limits_ok (rlMgr g').

Lemma same_but_limits_set m M (g : Gw) : rl_ok m -> represents m M -> same_but_limits g (set_rl m g).
Proof. intros Hok HM. split; [done|]. split; [done|]. split; [done|]. by exists M. Qed.

Lemma wp_globalLimit clk c (g : Gw) :
  limits_ok (rlMgr g) ->
  wp (globalLimit clk c) (fun r g' => same_but_limits g g' /\ nonceCache g' = nonceCache g /\
    (r = Ok (gin.Next c) \/ r = Ok (gin.reject 429 "global rate limit exceeded" c))) g.
Proof.
  intros [Hok [M HM]]. apply wp_lift_rl. destruct (rl_global _ Hok) as [l Hl].
  unfold ratelimit.GlobalMiddleware, ratelimit.GlobalLimit, ratelimit.allow, atomic. cbn. split; [done|]. rewrite Hl.
  destruct (Allow (c_global clk) l) as [b l']. cbn. destruct (global_write (rlMgr g) M l' Hok HM).
  split; [by eapply same_but_limits_set|]. split; [done|]. destruct b; auto.
Qed.

Lemma wp_projectLimit clk c (g : Gw) cfg :
  config.Get (project.cfg (disp g)) = Ok cfg -> limits_ok (rlMgr g) ->
  wp (projectLimit clk c) (fun r g' => same_but_limits g g' /\
    (r = Ok (gin.Next c) \/ r = Ok (gin.reject 429 "project rate limit exceeded" c))) g.
Proof.
  intros Hcfg [Hok [M HM]]. unfold projectLimit, withConfig. cbn [wp]. split; [done|]. rewrite Hcfg.
  apply wp_lift_rl. set (find := fun n => _).
  destruct (gin.Get "project_name" c) as [[n| |]|] eqn:Hn; [|unfold ratelimit.ProjectMiddleware; rewrite Hn; cbn;
    split; [by eapply same_but_limits_set|by left]..].
  destruct (find n) as [pj|] eqn:Hpj; [|unfold ratelimit.ProjectMiddleware; rewrite Hn, Hpj; cbn;
    split; [by eapply same_but_limits_set|by left]].
  eapply wp_mono; [|by eapply project_middleware_spec]. intros r m' Hr. cbn in Hr.
  destruct (spec_request _ _ _ M) as [b M']. destruct Hr as (-> & Hok' & HM').
  split; [by eapply same_but_limits_set|]. destruct b; auto.
Qed.

(** ** The upload handler *)

(** Nothing of the dispatcher changed but the memory of the messages, which
    is sound. *)
Definition only_messages (g g' : Gw) : Prop :=
  disp g' = project.set_mem (mem g') (disp g) /\ message.pool_ok (mem g').

Lemma only_messages_set p (g : Gw) : message.pool_ok p -> only_messages g (set_mem p g).
Proof. done. Qed.

(** Answered with an error: no task, and no message kept. *)
Definition refused (c0 : gin.Context) (g : Gw) (c : gin.Context) (g' : Gw) : Prop :=
  (exists code resp, code <> 200%Z /\ gin.Written c = gin.Written c0 ++ [(code, resp)]) /\
  tasks g' = tasks g /\ forall x, message.live (mem g') x <-> message.live (mem g) x.

(** Answered with success: one more task, whose message is new and carries
    the request. *)
Definition taken (now : Time) (cfg : config.Config) (rid : string) (c0 : gin.Context) (b : bytes) (g : Gw)
    (c : gin.Context) (g' : Gw) : Prop :=
  exists a req, let tid := trace_id c0 rid in
    gin.Written c = gin.Written c0 ++ [(200%Z, message.MkUploadResponse 0 "success" rid tid)] /\
    tasks g' = tasks g ++ [a] /\ ~ message.live (mem g) a /\
    (forall x, message.live (mem g') x <-> x = a \/ message.live (mem g) x) /\
    jsondec.UnmarshalUpload b = Ok req /\
    cells (mem g') !! a =
      Some (fill rid tid req now (config.Env (config.Server cfg)) message.newMessage) /\
    (Z.of_nat (length b) <= config.MaxBodyBytes (config.Server cfg))%Z /\
    forall pj, config.find_project (message.req_Project req) (config.Projects cfg) = Some pj ->
      (0 < config.ProjMaxBodyBytes pj -> Z.of_nat (length b) <= config.ProjMaxBodyBytes pj)%Z.

Lemma refused_written c0 rid b c code resp (g : Gw) :
  carries c0 rid b c -> code <> 200%Z -> refused c0 g (gin.JSON code resp c) g.
Proof.
  intros Hc Hne. split; [|done]. exists code, resp. split; [done|]. cbn. by rewrite (car_written _ _ _ _ Hc).
Qed.

Lemma wp_AcquireMessage {A} (k : nat -> Thr Gw A) (Q : result A -> Gw -> Prop) (g : Gw) :
  message.pool_ok (mem g) ->
  (forall a p, message.pool_ok p -> cells p !! a = Some message.newMessage -> ~ message.live (mem g) a ->
     (forall x, message.live p x <-> x = a \/ message.live (mem g) x) -> wp (k a) Q (set_mem p g)) ->
  wp (AcquireMessage k) Q g.
Proof.
  intros Hp Hk. unfold AcquireMessage. cbn [wp]. split; [done|]. apply wp_chooseT; [|done]. intros ch.
  cbn [wp atomic]. split; [done|]. unfold onMem, zoom.
  destruct (message.AcquireMessage_spec ch (mem g) Hp) as (a & p & E & _). rewrite E.
  destruct (acquire_live ch (mem g) a p Hp E) as (Hok & Hc & Hn & Hl). by apply Hk.
Qed.

Lemma may_UploadHandler now c (g : Gw) : may (UploadHandler now c) g.
Proof. unfold UploadHandler. by destruct (cached_body c) as [[]|]. Qed.

Lemma wp_UploadHandler now c0 rid b c (g : Gw) cfg :
  carries c0 rid b c -> config.Get (project.cfg (disp g)) = Ok cfg -> message.pool_ok (mem g) ->
  wp (UploadHandler now c) (fun r g' => exists v, r = Ok v /\ only_messages g g' /\
    (refused c0 g (gin.ctx_of v) g' \/ taken now cfg rid c0 b g (gin.ctx_of v) g')) g.
Proof.
  intros Hc Hcfg Hp. unfold UploadHandler. rewrite (car_body _ _ _ _ Hc). unfold withConfig. cbn [wp].
  set (post := fun (r : result gin.verdict) (g' : Gw) => _). split; [done|]. rewrite Hcfg.
  assert (Href : forall code resp, code <> 200%Z -> post (Ok (gin.Next (gin.JSON code resp c))) g).
  { intros code resp Hne. eexists. split; [done|]. split; [by destruct g as [[] ? ? ?]|]. left. by eapply refused_written. }
  destruct (Z.ltb_spec (config.MaxBodyBytes (config.Server cfg)) (Z.of_nat (length b))) as [|Hmax]; [by apply Href|].
  destruct (jsondec.UnmarshalUpload b) as [req|e|q] eqn:Ereq; [|by apply Href..].
  cbn [wp]. split; [done|]. rewrite Hcfg. set (limit := match _ with Some p => _ | None => _ end).
  destruct ((0 <? limit)%Z && (limit <? Z.of_nat (length b))%Z) eqn:Elim; [by apply Href|].
  assert (Hrid : gin.GetString "request_id" c = rid) by apply Hc.
  assert (Htid : trace_id c rid = trace_id c0 rid)
    by (unfold trace_id, gin.GetHeader; by rewrite (car_header _ _ _ _ Hc)).
  rewrite Hrid, Htid. apply wp_AcquireMessage; [done|]. intros a p Hpok Hcell Hnl Hlive.
  assert (Hla : message.live p a) by (apply Hlive; by left).
  set (m1 := fill rid (trace_id c0 rid) req now (config.Env (config.Server cfg)) message.newMessage).
  destruct (store_live a m1 p Hpok Hla) as [Hpok1 Hlive1]. set (p1 := (store a m1 p).2) in *.
  assert (Est : onMem (m <- load a;; store a (fill rid (trace_id c0 rid) req now (config.Env (config.Server cfg)) m)) (set_mem p g)
                = (Ok tt, set_mem p1 g)).
  { unfold onMem, zoom, bind, load. change (mem (set_mem p g)) with p. rewrite Hcell. done. }
  cbn [wp atomic]. split; [done|]. rewrite Est. cbn [fst snd ok_or wp submit_task may atomic].
  split_and!; [intros _; split; [done|]|intros _; split; [done|]|by left].
  - eexists. split; [done|]. split; [by split|]. right. exists a, req. cbn zeta.
    split; [cbn; by rewrite (car_written _ _ _ _ Hc)|]. split; [done|]. split; [done|].
    split; [intros x; rewrite <- Hlive; apply Hlive1|]. split; [done|]. split; [cbn; apply lookup_insert_eq|].
    split; [lia|]. intros pj Hpj Hpos. unfold limit in Elim. rewrite Hpj in Elim.
    destruct (Z.ltb_spec 0 (config.ProjMaxBodyBytes pj)), (Z.ltb_spec (config.ProjMaxBodyBytes pj) (Z.of_nat (length b)));
      done || lia.
  - unfold onMem, zoom. change (mem (set_mem p1 g)) with p1.
    destruct (message.ReleaseMessage_spec a p1 Hpok1) as (p2 & E2 & _); [by apply Hlive1|]. rewrite E2.
    destruct (release_live a p1 p2 Hpok1) as [Hpok2 Hlive2]; [by apply Hlive1|done|]. cbn.
    eexists. split; [done|]. split; [by split|]. left. split; [|split; [done|]].
    + exists 503%Z. eexists. split; [done|]. cbn. by rewrite (car_written _ _ _ _ Hc).
    + intros x. etrans; [apply Hlive2|]. rewrite Hlive1, Hlive. split; [naive_solver|].
      intros Hx. split; [by intros ->|by right].
Qed.

(** ** The route *)

Section upload.
Context (store : auth.AppKeyStore) (clk : Clock) (uuid : string) (cfg : config.Config) (c0 : gin.Context) (g0 : Gw).
Abbreviation rid := (request_id uuid c0).

(** The middlewares passed: the message is for a project of the configuration
    and, where authentication is on, signed and authorized for it. *)
Definition cleared (b : bytes) (p : string) (pj : config.ProjectConfig) : Prop :=
  p <> "" /\ config.find_project p (config.Projects cfg) = Some pj /\
  (config.AuthEnabled (config.Auth cfg) = true -> signed store c0 b /\
     auth.authorizeProject store (gin.GetHeader "X-App-Key" c0) p = true) /\
  (config.AuthRequired pj = true -> config.AuthEnabled (config.Auth cfg) = true).

(** How the route ends. *)
Definition served (r : result gin.verdict) (g' : Gw) : Prop :=
  exists v, r = Ok v /\ only_messages g0 g' /\
    (refused c0 g0 (gin.ctx_of v) g' \/
     exists b, gin.Body c0 = Some (Ok b) /\ (Z.of_nat (length b) <= read_limit cfg)%Z /\ taken (c_message clk) cfg rid c0 b g0 (gin.ctx_of v) g' /\
       forall req, jsondec.UnmarshalUpload b = Ok req -> exists pj, cleared b (message.req_Project req) pj).

(** A rejection by a middleware. *)
Lemma served_reject c code msg (g : Gw) :
  gin.Written c = gin.Written c0 -> code <> 200%Z -> message.pool_ok (mem g0) -> disp g = disp g0 -> tasks g = tasks g0 ->
  served (Ok (gin.reject code msg c)) g.
Proof.
  intros Hc Hne Hp Hd Ht. eexists. split; [done|]. unfold only_messages, mem in *. rewrite Hd. split.
  - split; [by destruct (disp g0)|done].
  - left. split; [|by rewrite Ht; unfold mem; rewrite Hd]. exists code. eexists. split; [done|]. cbn. by rewrite Hc.
Qed.

(** The rest of the chain, once the body is cached. *)
Lemma wp_checked (g : Gw) b c :
  config.Get (project.cfg (disp g)) = Ok cfg -> limits_ok (rlMgr g) -> message.pool_ok (mem g0) ->
  disp g = disp g0 -> tasks g = tasks g0 -> gin.Body c0 = Some (Ok b) -> (Z.of_nat (length b) <= read_limit cfg)%Z ->
  carries c0 rid b c -> gin.Get "app_key" c = None ->
  wp (gin.andThen (authenticate store clk c) (fun c => gin.andThen (projectResolution c) (fun c =>
      gin.andThen (projectLimit clk c) (fun c => UploadHandler (c_message clk) c)))) served g.
Proof.
  intros Hcfg Hlim Hp Hd Ht Hb Hrl Hc Hk. pose proof Hcfg as Hcfg0. rewrite Hd in Hcfg0.
  apply wp_andThen; [|done]. unfold authenticate, withConfig. cbn [wp]. split; [done|]. rewrite Hcfg. cbn [wp atomic].
  split; [done|]. pose proof (auth_spec cfg store (c_auth clk) (c_nonce clk) c0 _ b c (nonceCache g) Hc) as Ha.
  destruct (authMiddleware _ _ _ _ _ _) as [v ns]. cbn [fst snd wp]. set (g1 := set_nonces ns g).
  destruct Ha as [(code & msg & Hne & ->)|(c3 & -> & Hc3 & Hoff & Hon)]; [apply served_reject; try done; apply Hc|].
  apply wp_andThen; [|done]. unfold projectResolution, withConfig. cbn [wp]. split; [done|].
  change (disp g1) with (disp g). rewrite Hcfg. cbn [wp].
  destruct (resolution_spec cfg c0 _ b c3 Hc3) as [(code & msg & Hne & ->)|(p & pj & c4 & -> & Hc4 & Hpk & Hp0 & Hf & Har)];
    [apply served_reject; try done; apply Hc3|].
  assert (Hclr : cleared b p pj).
  { split; [done|]. split; [done|]. split.
    - intros He. destruct (Hon He) as [Hs Hpo]. split; [done|]. unfold auth.project_ok, peekProject in Hpo.
      rewrite Hpk in Hpo. apply String.eqb_neq in Hp0. by rewrite Hp0 in Hpo.
    - intros Ha. destruct (config.AuthEnabled (config.Auth cfg)) eqn:E; [done|].
      rewrite (Hoff eq_refl) in Har. destruct (Har Ha) as [x Hx]. congruence. }
  apply wp_andThen; [|apply may_UploadHandler]. eapply wp_mono; [|by eapply (wp_projectLimit clk c4 g1 cfg)].
  intros r g2 [(Hd2 & Ht2 & _) [-> | ->]]; [|apply served_reject; [apply Hc4|done|done|by rewrite Hd2|by rewrite Ht2]].
  assert (Hm2 : mem g2 = mem g0) by (unfold mem; rewrite Hd2; change (disp g1) with (disp g); by rewrite Hd).
  eapply wp_mono; [|apply (wp_UploadHandler (c_message clk) c0 rid b c4 g2 cfg Hc4); [|by rewrite Hm2]].
  - intros r g3 (v & -> & Ho & Hend). exists v. split; [done|]. destruct Ho as [Ho1 Ho2]. split.
    { split; [|done]. rewrite Ho1, Hd2. change (disp g1) with (disp g). by rewrite Hd. }
    unfold refused, taken in *. rewrite Hm2, Ht2 in Hend. change (tasks g1) with (tasks g) in Hend. rewrite Ht in Hend.
    destruct Hend as [Hend|Hend]; [by left|right]. exists b. split; [done|]. split; [done|]. split; [done|].
    intros req Hreq%upload_and_peek_agree. rewrite Hpk in Hreq. injection Hreq as <-. by exists pj.
  - rewrite Hd2. change (disp g1) with (disp g). done.
Qed.

Lemma route_served r :
  config.Get (project.cfg (disp g0)) = Ok cfg -> limits_ok (rlMgr g0) -> message.pool_ok (mem g0) ->
  gin.Keys c0 = ∅ -> gin.Body c0 = Some r -> is_panic r = false ->
  wp (upload_route store clk uuid c0) served g0.
Proof.
  intros Hcfg Hlim Hp Hkeys Hbody Hr. unfold upload_route. apply wp_recoverT; [|done].
  assert (Hchain : wp (upload_chain store clk uuid c0) served g0);
    [|eapply wp_mono; [|exact Hchain]; by intros ? ? (v & -> & Hv); exists v].
  unfold upload_chain. set (c1 := gin.ctx_of (RequestIDMiddleware uuid c0)).
  apply wp_andThen; [|done]. cbn [wp]. change (RequestIDMiddleware uuid c0) with (gin.Next c1).
  apply wp_andThen; [|done]. eapply wp_mono; [|by apply (wp_globalLimit clk c1 g0)].
  intros r1 g1 ((Hd & Ht & Hl) & _ & [-> | ->]); [|by apply served_reject].
  apply wp_andThen; [|done]. unfold bodyCache, withConfig. cbn [wp]. split; [done|]. rewrite Hd, Hcfg. cbn [wp].
  pose proof (body_cache_spec cfg uuid c0 r Hbody Hr) as Hbc. cbn zeta in Hbc. fold c1 in Hbc.
  destruct Hbc as [-> |(b & c2 & -> & -> & Hc2 & Hk & Hrl)]; [by apply served_reject|].
  apply (wp_checked g1 b c2); try done; [by rewrite Hd|]. rewrite Hk. unfold gin.Get. rewrite Hkeys. apply lookup_empty.
Qed.

(** C5.  A request to the upload route ends with exactly one answer, and
    never with a panic.  The answer is a success only if the message was
    handed to the goroutine pool: the message is then new, in no one else's
    hands, and carries the decoded body unchanged; the body names an enabled
    project and is within the server's and the project's limits; and where
    authentication is enabled the very body was signed with the secret of the
    app key, which is authorized for the project the message goes to.  A
    project that requires authentication gets nothing while it is disabled.
    Any other answer leaves no task and no message behind. *)
Theorem upload_cleared_or_refused r :
  config.Get (project.cfg (disp g0)) = Ok cfg -> limits_ok (rlMgr g0) -> message.pool_ok (mem g0) ->
  gin.Keys c0 = ∅ -> gin.Body c0 = Some r -> is_panic r = false ->
  wp (upload_route store clk uuid c0) served g0.
Proof. apply route_served. Qed.

(** The limits on the body: with a negative max_body_bytes, which the
    defaults do not replace, or with the largest integer, for which
    maxBytes+1 overflows, every upload is refused. *)
Theorem unusable_body_limits r :
  (config.MaxBodyBytes (config.Server cfg) < 0 \/ config.MaxBodyBytes (config.Server cfg) = two63 - 1)%Z ->
  config.Get (project.cfg (disp g0)) = Ok cfg -> limits_ok (rlMgr g0) -> message.pool_ok (mem g0) ->
  gin.Keys c0 = ∅ -> gin.Body c0 = Some r -> is_panic r = false ->
  wp (upload_route store clk uuid c0) (fun res g' => exists v, res = Ok v /\ refused c0 g0 (gin.ctx_of v) g') g0.
Proof.
  intros Hm Hcfg Hl Hp Hk Hb Hr. eapply wp_mono; [|by eapply route_served].
  intros res g' (v & -> & _ & [Href|(b & Hbody & Hrl & (a & req & _ & _ & _ & _ & Hreq & _ & Hmax & _) & _)]); [eauto|].
  exfalso. destruct Hm as [Hneg|Hmx]; [lia|]. 
  assert (Hz : read_limit cfg = 0%Z) by (unfold read_limit, body_limit; by rewrite Hmx). rewrite Hz in Hrl.
  clear Hz. assert (Hz : length b = 0) by lia. apply nil_length_inv in Hz as ->. done.
Qed.
End upload.
End route.
