(* ===== verification/Client.v ===== *)
(** * The example client (examples/send_message_client.go)

    The command that sends signed test messages: how it makes a request of
    its flags, what it makes of the answer, and the workers that share the
    requests.  The network ([http.Client.Do]) and the parsing of the URL are
    parameters; the readings of the clock and of the random generator are
    arguments. *)

From Stdlib Require Import ZArith Lia Ascii String.
From stdpp Require Import base tactics numbers strings gmap list.
From S2P Require Import Prelude GoStrings GoUtf8 GoTime GoCrypto Message ConfigPkg Json JsonDecode JsonEncode JsonCompact JsonEnvelope JsonNumber JsonTime JsonAny Auth.

(** ** [c.JSON] and the client's decoding of it *)

Module jsonresp.
Import json jsondec jsonenc jsonmsg.

(** [json.Marshal] of [message.UploadResponse]. *)
Definition resp_fields (r : message.UploadResponse) : list (string * bytes) :=
  [("code", bytes_of (Itoa (message.resp_Code r))); ("message", quote_string (message.resp_Message r));
   ("request_id", quote_string (message.resp_RequestID r))] ++ unless_empty "trace_id" (message.resp_TraceID r).

Definition MarshalResponse (r : message.UploadResponse) : bytes := obj (resp_fields r).

(** An [int] field. *)
Definition decode_int (v : jval) (old : Z) : Z * bool :=
  match v with
  | JNum lit => match ParseInt (string_of lit) with Some x => (x, true) | None => (old, false) end
  | JNull => (old, true)
  | _ => (old, false)
  end.

Definition names : list string := ["code"; "message"; "request_id"; "trace_id"].

Definition resp_set (n : string) (text : bytes) (v : jval) (r : message.UploadResponse) : message.UploadResponse * bool :=
  let '(message.MkUploadResponse code msg rid tid) := r in
  if String.eqb n "code" then let '(x, ok) := decode_int v code in (message.MkUploadResponse x msg rid tid, ok)
  else if String.eqb n "message" then let '(x, ok) := decode_string v msg in (message.MkUploadResponse code x rid tid, ok)
  else if String.eqb n "request_id" then let '(x, ok) := decode_string v rid in (message.MkUploadResponse code msg x tid, ok)
  else let '(x, ok) := decode_string v tid in (message.MkUploadResponse code msg rid x, ok).

Definition UnmarshalResponse (b : bytes) : result message.UploadResponse :=
  Unmarshal names resp_set (message.MkUploadResponse 0 "" "" "") b.

(** [json.Marshal] of an upload request. *)
Definition MarshalUpload (r : message.UploadRequest) : result bytes :=
  match jsoncompact.MarshalRaw (message.req_Data r) with
  | Ok d => Ok (obj [("project", quote_string (message.req_Project r)); ("router", quote_string (message.req_Router r)); ("data", d)])
  | Err e => Err e
  | Panic p => Panic p
  end.
End jsonresp.

Module client.
Import json jsondec jsonenc jsoncompact jsonmsg jsonresp jsonany.
Local Open Scope go_scope.

(** ** Flags *)

Definition envOrDefault (getenv : string -> string) (key fallback : string) : string :=
  let v := getenv key in if negb (String.eqb v "") then v else fallback.

Record Options := MkOptions {
  url : string;
  appKey : string;
  secret : string;
  project : string;
  router : string;
  data : string;
  count : Z;
  concurrency : Z;
  timeout : Z;
}.

Definition quoted (s : string) : string := String quote s +:+ String quote "".

(** The flags' defaults; the [flag] package overwrites them. *)
Definition defaults (getenv : string -> string) : Options :=
  MkOptions (envOrDefault getenv "LOGATEWAY_URL" "http://127.0.0.1:8080/api/v1/log/upload")
    (envOrDefault getenv "LOGATEWAY_APP_KEY" "test-app-key")
    (envOrDefault getenv "LOGATEWAY_SECRET" "test-secret")
    (envOrDefault getenv "LOGATEWAY_PROJECT" "actilogs")
    (envOrDefault getenv "LOGATEWAY_ROUTER" "CH=Behavior")
    ("{" +:+ quoted "UID" +:+ ":123," +:+ quoted "action" +:+ ":" +:+ quoted "click" +:+ "," +:+ quoted "source" +:+ ":" +:+
     quoted "example-client" +:+ "}")
    1 1 (5 * config.Second).

(** [unicode.IsSpace]. *)
Definition IsSpace (r : Z) : bool :=
  utf8.between 9 13 r || (r =? 32)%Z || (r =? 0x85)%Z || (r =? 0xA0)%Z || (r =? 0x1680)%Z || utf8.between 0x2000 0x200A r ||
  (r =? 0x2028)%Z || (r =? 0x2029)%Z || (r =? 0x202F)%Z || (r =? 0x205F)%Z || (r =? 0x3000)%Z.

(** The bytes of the runes in front that are blank. *)
Fixpoint blanks (segs : list (Z * nat)) : nat :=
  match segs with
  | (r, n) :: segs' => if IsSpace r then n + blanks segs' else 0
  | [] => 0
  end.

(** [strings.TrimSpace]. *)
Definition TrimSpace (b : bytes) : bytes :=
  let b := drop (blanks (segments 0 b)) b in take (length b - blanks (rev (segments 0 b))) b.

(** The checks of [main]; [log.Fatal] ends the program. *)
Definition check (o : Options) : result bytes :=
  if (count o <=? 0)%Z then Err (ErrorString "-count must be greater than 0") else
  if (concurrency o <=? 0)%Z then Err (ErrorString "-concurrency must be greater than 0") else
  let rawData := TrimSpace (bytes_of (data o)) in
  if negb (Valid rawData) then Err (ErrorString ("-data is not valid JSON: " +:+ data o)) else Ok rawData.

(** ** One message *)

Definition sign (secret : string) (body : bytes) (timestamp nonce : string) : string :=
  let data := body ++ bytes_of timestamp ++ bytes_of nonce in
  string_of (hex_EncodeToString (hmac_sha256 (bytes_of secret) data)).

(** [now] is [time.Now().UTC()].  Assigning to a nil map panics. *)
Definition withSequence (raw : bytes) (seq : Z) (now : Time) : result bytes :=
  match UnmarshalMap raw with
  | Ok None => Panic "assignment to entry in nil map"
  | Ok (Some o) =>
      let o := <["_example_seq" := VInt seq]> o in
      let o := <["_example_sent_at" := VString (rfc3339nano now)]> o in
      match MarshalMap (Some o) with Ok out => Ok out | _ => Ok raw end
  | _ => Ok raw
  end.

Definition newNonce (nanos seq rnd : Z) : string := Itoa nanos +:+ "-" +:+ Itoa seq +:+ "-" +:+ Itoa rnd.

(** What [sendOne] reads of the clock and the random generator. *)
Record Draws := MkDraws { sent_at : Time; unix : Z; nonce_ns : Z; nonce_rnd : Z; id_ns : Z; id_rnd : Z }.

Record Request := MkRequest { req_Method : string; req_URL : string; req_Header : gmap string string; req_Body : bytes }.

Section http.
Context (newRequest : string -> option error).      (* http.NewRequestWithContext: the URL *)
Context (Do : Request -> result (Z * bytes)).       (* client.Do and io.ReadAll: status and body *)

Definition the_request (o : Options) (body : bytes) (seq : Z) (dr : Draws) : Request :=
  let timestamp := Itoa (unix dr) in
  let nonce := newNonce (nonce_ns dr) seq (nonce_rnd dr) in
  let signature := sign (secret o) body timestamp nonce in
  let requestID := newNonce (id_ns dr) seq (id_rnd dr) in
  MkRequest "POST" (url o)
    (<["X-Trace-Id" := requestID]> (<["X-Request-Id" := requestID]> (<["X-Signature" := signature]> (<["X-Nonce" := nonce]>
     (<["X-Timestamp" := timestamp]> (<["X-App-Key" := appKey o]> {["Content-Type" := "application/json"]}))))))
    body.

(** What is made of a status and a body: at most a megabyte of it is read. *)
Definition read_response (status : Z) (b : bytes) : result message.UploadResponse :=
  let respBody := take (Z.to_nat (Z.shiftl 1 20)) b in
  if (status <? 200)%Z || (300 <=? status)%Z then
    Err (ErrorString ("status=" +:+ Itoa status +:+ " body=" +:+ string_of (TrimSpace respBody)))
  else
    match UnmarshalResponse respBody with
    | Ok out =>
        if negb (message.resp_Code out =? 0)%Z then
          Err (ErrorString ("gateway code=" +:+ Itoa (message.resp_Code out) +:+ " message=" +:+ message.resp_Message out))
        else Ok out
    | Err e => Err (WrapError "decode response: " e)
    | Panic p => Panic p
    end.

Definition sendOne (o : Options) (raw : bytes) (seq : Z) (dr : Draws) : result message.UploadResponse :=
  match withSequence raw seq (sent_at dr) with
  | Panic p => Panic p
  | Err e => Err e
  | Ok d =>
      match MarshalUpload (message.MkUploadRequest (project o) (router o) (Some d)) with
      | Err e => Err (WrapError "marshal request: " e)
      | Panic p => Panic p
      | Ok body =>
          match newRequest (url o) with
          | Some e => Err (WrapError "new request: " e)
          | None =>
              match Do (the_request o body seq dr) with
              | Err e => Err e
              | Panic p => Panic p
              | Ok (status, b) => read_response status b
              end
          end
      end
  end.
End http.

(** ** The workers

    [jobs] is unbuffered: sending a number hands it to an idle worker.  A
    panic in a worker ends the program. *)

Inductive worker := WIdle | WBusy (seq : Z) | WDone.

#[export] Instance worker_eq_dec : EqDecision worker.
Proof. solve_decision. Defined.

Record MainSt := MkMainSt {
  sent : Z;                        (* i, the numbers sent so far *)
  jobsClosed : bool;
  workers : list worker;
  ok : Z;
  failed : Z;
  finished : list Z;               (* the numbers whose sendOne returned, in order *)
  crashed : bool;
}.

Definition start (o : Options) : MainSt := MkMainSt 0 false (replicate (Z.to_nat (concurrency o)) WIdle) 0 0 [] false.

Inductive step (n : Z) : MainSt -> MainSt -> Prop :=
| StepSend i w ws o f l : (i < n)%Z -> ws !! w = Some WIdle ->
    step n (MkMainSt i false ws o f l false) (MkMainSt (i + 1) false (<[w := WBusy i]> ws) o f l false)
| StepOk i c w ws o f l seq : ws !! w = Some (WBusy seq) ->
    step n (MkMainSt i c ws o f l false) (MkMainSt i c (<[w := WIdle]> ws) (o + 1) f (l ++ [seq]) false)
| StepFailed i c w ws o f l seq : ws !! w = Some (WBusy seq) ->
    step n (MkMainSt i c ws o f l false) (MkMainSt i c (<[w := WIdle]> ws) o (f + 1) (l ++ [seq]) false)
| StepPanic i c w ws o f l seq : ws !! w = Some (WBusy seq) ->
    step n (MkMainSt i c ws o f l false) (MkMainSt i c ws o f l true)
| StepClose i ws o f l : (n <= i)%Z ->
    step n (MkMainSt i false ws o f l false) (MkMainSt i true ws o f l false)
| StepExit i w ws o f l : ws !! w = Some WIdle ->
    step n (MkMainSt i true ws o f l false) (MkMainSt i true (<[w := WDone]> ws) o f l false).

(** [wg.Wait()] returns. *)
Definition waited (s : MainSt) : Prop := jobsClosed s = true /\ Forall (eq WDone) (workers s).

(** [os.Exit(1)] after a failure, and the runtime's 2 after a panic. *)
Definition exit_code (s : MainSt) : Z := if crashed s then 2 else if (0 <? failed s)%Z then 1 else 0.
End client.
