(* ===== verification/Replay.v ===== *)
(** * The replay of the log into the dispatcher (internal/server/server.go)

    The callback [New] gives to [StartReplay]: it waits while the project's
    pools are under pressure, makes a message of the entry and dispatches it
    strictly.  A pass of the replayer calls it entry by entry; in between the
    rest of the gateway goes on. *)

From Stdlib Require Import ZArith Lia Ascii String.
From stdpp Require Import base tactics numbers strings gmap list.
From S2P Require Import Prelude GoStrings GoOs Message Threads Sink SinkOwn SinkTheorems ConfigPkg Pipeline Dispatcher DispatchOwn DispatchTheorems Wal WalSegments WalWriter WalRefine WalReplay JsonEntry WalTheorems.

Module replay.
Import project.
Local Open Scope go_scope.

Section callback.
Context {W K L : Type} `{Sink K} `{MsgLog L}.
Abbreviation Go := (Thr (Dispatcher W K L)).

(** The assignments of [messageFromWALEntry]; the headers stay. *)
Definition message_of_entry (e : wal.Entry) (m : message.Message) : message.Message :=
  message.MkMessage (wal.RequestID e) (wal.TraceID e) (wal.Project e) (wal.Router e) (wal.Data e) (wal.Env e)
    (message.Headers m) (wal.Timestamp e).

Definition messageFromWALEntry (e : wal.Entry) (k : nat -> Go unit) : Go unit :=
  AcquireMessage (fun a =>
    atomic (onMem (m <- load a ;; store a (message_of_entry e m))) (fun r =>
      match r with Ok _ => k a | Err err => Done (Err err) | Panic p => Done (Panic p) end)).

(** The callback; the sleep is left out. *)
Definition replay_entry (e : wal.Entry) : Go unit :=
  if String.eqb (wal.Project e) "" then Done (Err (ErrorString "empty project")) else
  reads (ReplayBackoff (wal.Project e)) (fun r =>
  match r with
  | Err err => Done (Err err)
  | Panic p => Done (Panic p)
  | Ok _ => messageFromWALEntry e (fun a => DispatchStrict (Some a))
  end).

(** ** As the replayer calls it

    [ds n] is the state of the dispatcher when the [n]-th call begins, after
    whatever the rest of the gateway did since the call before, and [pick n]
    resolves the choices of the runtime during the call. *)
Context (ds : nat -> Dispatcher W K L) (pick : nat -> list bool).

Definition callback (e : wal.Entry) : St nat unit := fun n =>
  match exec (replay_entry e) (pick n) (ds n) with
  | Some (r, _) => (r, S n)
  | None => (Panic "blocked", S n)
  end.
End callback.
End replay.

Import project replay.
Local Open Scope go_scope.

Section theorems.
Context {W K L : Type} `{Sink K} `{LogSafe L} `{!LogSpec L}.
Abbreviation Disp := (Dispatcher W K L).
Context (has_log : bool).

(** The pools of a project are distinct and exist, and a channel is closed
    only after the pool was marked closed; a configuration is loaded. *)
Record sound (d : Disp) : Prop := {
  so_inv : disp_inv has_log d [];
  so_pools pm p ps : pools d = Some pm -> pm !! p = Some ps -> NoDup ps /\
    forall i, i ∈ ps -> exists c, heap d !! i = Some c /\
      (sink.closed (sink.life (pc_wp c)) = false -> sink.chClosed (pc_wp c) = false);
  so_cfg : is_ok (config.Get (cfg d)) = true;
}.

(** The entry is at the end of the queue of every pool of its project. *)
Definition queued_everywhere (e : wal.Entry) (d d' : Disp) : Prop :=
  exists pm ps, pools d = Some pm /\ pm !! wal.Project e = Some ps /\ ps <> [] /\
    forall i, i ∈ ps -> exists c c' b, heap d !! i = Some c /\ heap d' !! i = Some c' /\
      sink.ch (pc_wp c') = sink.ch (pc_wp c) ++ [b] /\
      cells (mem d') !! b = Some (message_of_entry e message.newMessage).

(** A pool either takes a strict submission or refuses it. *)
Lemma takes_or_refuses (d : Disp) i c :
  heap d !! i = Some c -> (sink.closed (sink.life (pc_wp c)) = false -> sink.chClosed (pc_wp c) = false) ->
  takes true d i \/ refuses true d i.
Proof.
  intros Hc Hcl. unfold takes, refuses, refusing, open_pool.
  destruct (sink.closed (sink.life (pc_wp c))) eqn:E1; [right; eauto|].
  destruct (sink.circuitOpen (sink.brk (pc_wp c))) eqn:E2; [right; eauto 6|]. specialize (Hcl eq_refl).
  destruct (roomy (pc_wp c)) eqn:E3; [left|right].
  - exists c. rewrite E1, E3. eauto.
  - exists c. split; [done|]. right. rewrite E1. eauto.
Qed.

Lemma split_at_refusal (d : Disp) ps :
  (forall i, i ∈ ps -> takes true d i \/ refuses true d i) ->
  Forall (takes true d) ps \/ exists acc j rest, ps = acc ++ j :: rest /\ Forall (takes true d) acc /\ refuses true d j.
Proof.
  induction ps as [|i ps IH]; intros Hps; [by left|].
  destruct (Hps i) as [Ht|Hr]; [by left| |right; exists [], i, ps; done].
  destruct IH as [IH|(acc & j & rest & -> & Ha & Hj)]; [intros j Hj; apply Hps; by right|left; by constructor|].
  right. exists (i :: acc), j, rest. split; [done|]. split; [by constructor|done].
Qed.

Lemma queued_at (d : Disp) i c b : heap d !! i = Some c -> b ∈ sink.ch (pc_wp c) -> b ∈ queued d.
Proof. intros Hi Hb. unfold queued. rewrite (queues_at _ _ _ Hi). set_solver. Qed.

(** The callback returns nil only when every pool of the project queued the
    entry. *)
Lemma wp_replay_entry (d : Disp) e :
  sound d -> wal.Data e <> Some [] ->
  wp (replay_entry e) (fun r d' => r = Ok tt -> queued_everywhere e d d') d.
Proof.
  intros [HI Hpools Hcfg] Hd. unfold replay_entry. destruct (String.eqb_spec (wal.Project e) "") as [|Hp]; [done|].
  cbn [wp reads]. split; [done|]. destruct (ReplayBackoff (wal.Project e) d) as [delay|err|q] eqn:Eb; [|done..].
  unfold ReplayBackoff in Eb. apply String.eqb_neq in Hp as Hp'. rewrite Hp' in Eb.
  destruct (pools d) as [pm|] eqn:Epm; [|done]. destruct (pm !! wal.Project e) as [[|i0 ps0]|] eqn:Eps; [done| |done].
  set (ps := i0 :: ps0) in *. destruct (Hpools pm _ ps eq_refl Eps) as [Hnd Hex].
  unfold messageFromWALEntry, AcquireMessage. cbn [wp reads]. split; [done|]. apply wp_chooseT; [|done]. intros ch.
  cbn [wp atomic]. split; [done|].
  destruct (inv_AcquireMessage has_log d ch _ HI) as (a & p & -> & HI' & Hb & Hnb & Hoth). cbn [fst snd wp atomic].
  split; [done|]. unfold onMem, zoom, bind, load. cbn [mem set_mem]. rewrite Hb. cbn [fst snd].
  set (v := message_of_entry e message.newMessage).
  set (p' := MkPool (<[a := v]> (cells p)) (free p) (next p)).
  change (wp (DispatchStrict (Some a)) (fun r d' => r = Ok tt -> queued_everywhere e d d') (set_mem p' d)).
  assert (HI2 : disp_inv has_log (set_mem p' d) [a]).
  { change (disp_inv has_log (set_mem p' (set_mem p d)) [a]).
    eapply (inv_store has_log (set_mem p d)); [exact HI'|set_solver|done]. }
  assert (Hv : cells p' !! a = Some v) by apply lookup_insert_eq.
  assert (Hg : is_ok (config.GetProject (message.Project v) (cfg (set_mem p' d))) = true).
  { unfold config.GetProject. change (cfg (set_mem p' d)) with (cfg d). by destruct (config.Get (cfg d)). }
  destruct (split_at_refusal (set_mem p' d) ps) as [Hall|(acc & j & rest & Hsp & Hacc & Hj)].
  { intros i Hi. destruct (Hex i Hi) as (c & Hc & Hcl). by eapply takes_or_refuses. }
  - eapply wp_mono; [|eapply (wp_strict_taken has_log v [] a (set_mem p' d) pm ps []); try done].
    intros r d' (_ & d1 & Hf & _ & (Hd' & Hna & Hlive) & HI3) _. exists pm, ps. split_and!; [done|done|done|].
    intros i Hi. destruct (Hex i Hi) as (c & Hc & _). destruct (f_in _ _ _ _ _ _ Hf i c Hi Hc) as (c' & Hc' & Hroom).
    rewrite Forall_forall in Hall. destruct (Hall i Hi) as (c0 & Hc0 & _ & Ht).
    change (heap (set_mem p' d)) with (heap d) in Hc0. rewrite Hc in Hc0. injection Hc0 as <-.
    destruct (roomy (pc_wp c)); [|by destruct Ht]. destruct Hroom as (b & Hch & Hlb & Hcb).
    assert (Hc2 : heap d' !! i = Some c') by (by rewrite Hd').
    exists c, c', b. split; [done|]. split; [done|]. split; [done|].
    assert (Hba : b <> a).
    { intros ->. apply Hna. pose proof (di_live _ _ _ HI3) as HL. rewrite Forall_forall in HL. apply HL. cbn.
      apply (queued_at d' i c'); [done|]. rewrite Hch. set_solver. }
    by destruct (Hlive b Hba Hlb) as [_ ->].
  - eapply wp_mono; [|eapply (wp_strict_refused has_log v [] a (set_mem p' d) pm acc j rest []); try done].
    + by intros r d' ([err ->] & _).
    + by rewrite <- Hsp.
    + by rewrite <- Hsp.
Qed.

(** Everything the callback accepted was queued everywhere. *)
Context (ds : nat -> Disp) (pick : nat -> list bool).

Definition delivered (e : wal.Entry) : Prop :=
  exists n d', runs (replay_entry e) (ds n) (Ok tt) d' /\ queued_everywhere e (ds n) d'.

Lemma callback_delivers e n n' :
  (forall n, sound (ds n)) -> wal.Data e <> Some [] -> callback ds pick e n = (Ok tt, n') -> delivered e.
Proof.
  intros Hs Hd. unfold callback. destruct (exec _ _ _) as [[[[]|err|q] d']|] eqn:E; try done. intros _.
  apply exec_runs in E. exists n, d'. split; [done|].
  exact (wp_runs _ _ _ _ _ (wp_replay_entry (ds n) e (Hs n) Hd) E eq_refl).
Qed.

Section kept.
Context {C : Type} (fn : wal.Entry -> St C unit) (P : wal.Entry -> Prop)
  (Hfn : forall e c c', fn e c = (Ok tt, c') -> P e).

Definition all_logged (s : C * list wal.Entry) : Prop := Forall P s.2.

Lemma keeps_logged e : keeps all_logged (wal.invokeReplayCallback (logged fn) e).
Proof.
  apply keeps_recovering. intros [c log] Hl. unfold all_logged, logged in *.
  destruct (fn e c) as [[[]|err|q] c'] eqn:E; cbn in *; [|done..].
  apply Forall_app. split; [done|]. constructor; [by eapply Hfn|constructor].
Qed.

Lemma keeps_replay_lines ls n : keeps all_logged (wal.replay_lines (logged fn) ls n).
Proof.
  revert n; induction ls as [|l ls IH]; intros n; cbn [wal.replay_lines]; [apply keeps_ret|].
  destruct (bool_decide (l = [])); [apply IH|]. destruct (wal.unmarshal l) as [e|]; [|apply IH].
  apply keeps_bind; [apply keeps_attempt, keeps_logged|]. intros [u|err|q]; [apply IH|apply keeps_ret|apply IH].
Qed.

Abbreviation kept := (fun s : wal.WalSt * (C * list wal.Entry) => all_logged s.2).

Lemma keeps_onWal {A} (m : St wal.WalSt A) : keeps kept (wal.onWal (C := C * list wal.Entry) m).
Proof. apply keeps_zoom. by intros [w c]. Qed.

Lemma keeps_onCB {A} (m : St (C * list wal.Entry) A) : keeps all_logged m -> keeps kept (wal.onCB m).
Proof. intros Hm. apply keeps_zoom. intros [w c] Hc. cbn in *. by apply Hm. Qed.

Lemma keeps_replay : keeps kept (wal.replaySealedSegments (logged fn)).
Proof.
  apply keeps_bind; [apply keeps_onWal|]. intros active. unfold wal.replay_from.
  apply keeps_bind; [apply keeps_attempt, keeps_onWal|]. intros [entries|err|q]; [|apply keeps_ret..].
  generalize (wal.sealed_segments active entries). intros segs. induction segs as [|seg segs IH]; cbn [wal.replay_segments]; [apply keeps_ret|].
  apply keeps_bind.
  - unfold wal.replaySegment. apply keeps_bind; [apply keeps_onWal|]. intros w.
    apply keeps_bind; [apply keeps_attempt, keeps_onWal|]. intros [rd|err|q]; [|apply keeps_ret|apply keeps_panic].
    destruct (wal.scan_file _ rd) as [lines scanErr]. apply keeps_bind; [apply keeps_onCB, keeps_replay_lines|].
    intros [cnt [err|]]; apply keeps_ret.
  - intros res. destruct (res.2); [apply keeps_ret|]. apply keeps_bind; [apply keeps_onWal|]. intros _. exact IH.
Qed.
End kept.

Lemma entries_decoded limit b e : e ∈ entries_in limit b -> exists l, wal.unmarshal l = Some e.
Proof.
  unfold entries_in, wal.decode_lines. intros (l & _ & Hl)%list_elem_of_omap. exists l.
  by destruct (bool_decide (l = [])).
Qed.

(** C9.  End to end: a pass of the replayer, under any fault of the disk
    and with the dispatcher in any sound state at each call, removes a
    segment file only after the callback of the gateway put every entry that
    can be decoded from it at the end of the queue of every pool of the
    entry's project, in a message with the entry's fields. *)
Theorem replayed_segment_is_queued s n0 :
  (forall n, sound (ds n)) ->
  exists s' n' accepted,
    wal.replaySealedSegments (logged (callback ds pick)) (s, (n0, [])) = (Ok tt, (s', (n', accepted))) /\
    forall name d, entry (wal.fs s) name = Some d -> entry (wal.fs s') name = None ->
      forall e, e ∈ entries_in (line_limit (wal.wr s)) (file_bytes (wal.fs s) name) -> delivered e.
Proof.
  intros Hs. destruct (replay_pass_safe (callback ds pick) s n0 []) as (new & s' & n' & Hrun & _ & Hfiles).
  exists s', n', new. split; [done|]. intros name d Hent Hgone e He.
  destruct (Hfiles name d Hent) as [[Hk _]|(_ & _ & _ & before & after & Hnew)]; [congruence|].
  assert (Hall : Forall (fun e => wal.Data e <> Some [] -> delivered e) new).
  { pose proof (keeps_replay (callback ds pick) (fun e => wal.Data e <> Some [] -> delivered e)
      (fun e c c' Hc Hd => callback_delivers e c c' Hs Hd Hc) (s, (n0, []))) as Hk.
    rewrite Hrun in Hk. cbn in Hk. apply Hk. constructor. }
  rewrite Forall_forall in Hall. destruct (entries_decoded _ _ _ He) as [l Hl].
  apply (Hall e); [rewrite Hnew; set_solver|by apply (decoded_data l)].
Qed.
End theorems.

(** ** An instance *)

Module replay_demo.

(** A log of three entries, two of them in a sealed segment. *)
Definition rotated : wal.WalSt := (write_all [an_entry "a"; an_entry "a"; an_entry "a"] fresh).2.

Definition idle : Dispatcher unit unit bytes :=
  MkDispatcher (disp_demo.settings []) sink.NewRegistry pipeline.NewRegistry (Some {["a" := [0; 1]]}) (Some [])
    sink.BackpressureFallback [disp_demo.cell "a-x-0" 4 []; disp_demo.cell "a-x-1" 4 []] emptyPool.

Lemma idle_sound : sound true idle.
Proof.
  split.
  - split; cbn; try done; [apply message.emptyPool_ok|constructor|repeat constructor; cbn; done].
  - intros pm p ps [= <-] Hps. apply lookup_singleton_Some in Hps as [<- <-]. split.
    + apply NoDup_ListNoDup. repeat constructor; cbn; lia.
    + intros i Hi. repeat (apply elem_of_cons in Hi as [->|Hi]; [eexists; split; [reflexivity|done]|]). by apply elem_of_nil in Hi.
  - done.
Qed.
End replay_demo.

Lemma replayed_segment_is_queued_witness :
  exists s' n' accepted,
    wal.replaySealedSegments (logged (callback (fun _ => replay_demo.idle) (fun _ => []))) (replay_demo.rotated, (0, [])) =
      (Ok tt, (s', (n', accepted))) /\
    forall name d, entry (wal.fs replay_demo.rotated) name = Some d -> entry (wal.fs s') name = None ->
      forall e, e ∈ entries_in (line_limit (wal.wr replay_demo.rotated)) (file_bytes (wal.fs replay_demo.rotated) name) ->
        delivered (fun _ => replay_demo.idle) e.
Proof.
  apply (replayed_segment_is_queued true (fun _ => replay_demo.idle) (fun _ => []) replay_demo.rotated 0).
  intros _. apply replay_demo.idle_sound.
Defined.
