(* ===== verification/ServerLife.v ===== *)
(** * Uploads around a shutdown, and instances of the upload theorems

    [Run] stops the HTTP server, then shuts the dispatcher down and closes
    the log, and only [Close] releases the goroutine pool: a task the pool
    has taken may still begin after the sink pools are closed. *)

From Stdlib Require Import ZArith Lia Ascii String.
From stdpp Require Import base tactics numbers strings gmap list.
From S2P Require Import Prelude GoStrings GoCrypto Message Threads Sink SinkOwn SinkTheorems ConfigPkg Gin RateLimit Json JsonDecode Auth Pipeline Dispatcher DispatchOwn DispatchTheorems Server ServerTheorems Replay.

Import server.
Local Open Scope go_scope.

Section shutdown.
Context {W K L : Type} `{Sink K} `{LogSafe L} `{!LogSpec L} `{RateLimiter}.
Abbreviation Gw := (Gateway W K L).
Context (has_log : bool).

Lemma wp_lift_disp {A} (t : Thr (project.Dispatcher W K L) A) (Q : result A -> Gw -> Prop) g :
  wp t (fun r d => Q r (set_disp d g)) (disp g) -> wp (liftT (fun g => Some (disp g)) set_disp t) Q g.
Proof. apply wp_liftT; [by intros s [] s0|by intros s s' []|by intros s [] [= ->]|done]. Qed.

(** C40.  An acknowledged upload whose task begins after the first pool of
    its project was shut down is lost without a trace: the task ends without
    an error, no pool and no log has the message, and the message is back in
    the message pool.  This holds under the fallback strategy too. *)
Theorem late_task_is_lost (g : Gw) a w v d0 pm i rest O c :
  disp_inv has_log (disp g) (a :: O) -> cells (mem g) !! a = Some w -> message.Project w <> "" ->
  project.pools (disp g) = Some pm -> pm !! message.Project w = Some (i :: rest) ->
  pipelined false a (message.Project w) (disp g) d0 -> cells (project.mem d0) !! a = Some v ->
  message.Data v <> Some [] ->
  project.heap (disp g) !! i = Some c -> sink.closed (sink.life (project.pc_wp c)) = true ->
  wp (dispatch_task a) (fun r g' => r = Ok tt /\ project.heap (disp g') = project.heap (disp g) /\
    project.walWriter (disp g') = project.walWriter (disp g) /\ tasks g' = tasks g /\
    ~ message.live (mem g') a) g.
Proof.
  intros HI Hw Hp Hpm Hps Hpipe Hv Hd Hc Hcl. unfold dispatch_task. apply wp_attemptT; [|done].
  apply wp_lift_disp. unfold project.Dispatch.
  eapply wp_dispatchImpl; [exact Hw|exact Hp|exact Hpm|exact Hps|done|exact Hpipe|].
  assert (Hsame : project.heap d0 = project.heap (disp g) /\ project.walWriter d0 = project.walWriter (disp g))
    by (by destruct Hpipe).
  destruct Hsame as [Hh Hl].
  eapply (wp_submit_refused has_log v); [by eapply pipelined_inv|exact Hv|exact Hd| |].
  - exists c. rewrite Hh. split; [done|]. by left.
  - intros e d' (Hd' & Hnl & _) _. cbn. rewrite Hd' in *. cbn. rewrite Hh, Hl. by split_and!.
Qed.
End shutdown.

(** ** Instances *)

Module server_demo.
Import replay_demo.

Definition cfg : config.Config :=
  config.MkConfig (config.MkServerConfig "" 0 0 1000 0 10 0 "fallback" 0 "test") (config.MkAuthConfig true 300 300 10)
    [config.MkProjectConfig "a" true [] 5 0 true []]
    (config.MkSinksConfig (config.MkRedisSinkConfig "" "" 0 0 0 0 0 0 "" "" 0) (config.MkKafkaSinkConfig [] "" "" "" 0 0))
    ∅ 0 (config.MkLogConfig "" false "" false "" [] 0) (config.MkMetricsConfig false "" 0)
    (config.MkWALConfig true "" 0 0 0) (config.MkPprofConfig false "").

Definition manager : config.Manager unit := config.MkManager (Some cfg) "" [] false false false.

Definition disp0 : project.Dispatcher unit unit bytes :=
  project.MkDispatcher manager sink.NewRegistry pipeline.NewRegistry (Some {["a" := [0; 1]]}) (Some [])
    sink.BackpressureFallback [disp_demo.cell "a-x-0" 4 []; disp_demo.cell "a-x-1" 4 []] emptyPool.

Definition gw : Gateway unit unit bytes := MkGateway disp0 (ratelimit.NewManager 0 cfg) ∅ [].

(** [{"project":"a","data":{}}], signed at second 100. *)
Definition q : string := String "034" "".
Definition body : string :=
  "{" +:+ q +:+ "project" +:+ q +:+ ":" +:+ q +:+ "a" +:+ q +:+ "," +:+ q +:+ "data" +:+ q +:+ ":{}}".
Definition signature : string := string_of (auth.computeHMAC "test-secret" (bytes_of body) "100" "n1").

Definition request (sig : string) : gin.Context :=
  gin.MkContext ∅ (list_to_map [("X-App-Key", "test-app-key"); ("X-Timestamp", "100"); ("X-Nonce", "n1"); ("X-Signature", sig)])
    (Some (Ok (bytes_of body))) [] ∅.

Definition clk : Clock := MkClock 0 (100 * auth.Second) (100 * auth.Second) 0 zeroTime.

Definition status (sig : string) (choices : list bool) : list Z :=
  match exec (upload_route testKeys clk "id" (request sig)) choices gw with
  | Some (Ok v, _) => (gin.Written (gin.ctx_of v)).*1
  | _ => []
  end.

(** A signed request is accepted unless the goroutine pool refuses it, a
    request with another signature is not. *)
Example statuses : status signature [] = [200%Z] /\ status signature [false] = [503%Z] /\ status "00" [] = [401%Z].
Proof. vm_compute. done. Qed.

Lemma gw_limits : limits_ok (rlMgr gw).
Proof. split; [apply NewManager_ok|]. exists ∅. apply NewManager_represents. Qed.
End server_demo.
Import server_demo.

Lemma upload_cleared_or_refused_witness :
  wp (upload_route testKeys clk "id" (request signature)) (served testKeys clk "id" cfg (request signature) gw) gw.
Proof.
  apply (upload_cleared_or_refused testKeys clk "id" cfg (request signature) gw (Ok (bytes_of body)));
    [reflexivity|exact gw_limits|exact message.emptyPool_ok|reflexivity..].
Defined.

Lemma unusable_body_limits_witness :
  let cfg' := config.MkConfig (config.MkServerConfig "" 0 0 (-1) 0 10 0 "fallback" 0 "test") (config.Auth cfg)
                (config.Projects cfg) (config.SinksCfg cfg) ∅ 0 (config.Log cfg) (config.Metrics cfg) (config.WAL cfg) (config.Pprof cfg) in
  let gw' := set_disp (project.MkDispatcher (config.MkManager (Some cfg') "" [] false false false) (project.reg disp0)
               (project.pipelineReg disp0) (project.pools disp0) (project.walWriter disp0) (project.bp disp0)
               (project.heap disp0) (project.mem disp0)) gw in
  wp (upload_route testKeys clk "id" (request signature))
    (fun res g' => exists v, res = Ok v /\ refused (request signature) gw' (gin.ctx_of v) g') gw'.
Proof.
  intros cfg' gw'. apply (unusable_body_limits testKeys clk "id" cfg' (request signature) gw' (Ok (bytes_of body)));
    [by left|reflexivity|exact gw_limits|exact message.emptyPool_ok|reflexivity..].
Defined.

(** The first pool of project "a" after its [Shutdown], with a task pending. *)
Module late_demo.
Definition down (c : project.PoolCell (K := unit)) : project.PoolCell :=
  let w := project.pc_wp c in
  project.MkPoolCell (project.pc_name c)
    (sink.MkWorkerPool (sink.params w) [] true (sink.brk w)
       (sink.MkLife true true true sink.OnceDone (sink.wg (sink.life w))) (sink.walFallbacks w)) (project.pc_snk c).

Definition disp1 : project.Dispatcher unit unit bytes :=
  project.MkDispatcher manager sink.NewRegistry pipeline.NewRegistry (Some {["a" := [0; 1]]}) (Some [])
    sink.BackpressureFallback [down (disp_demo.cell "a-x-0" 4 []); disp_demo.cell "a-x-1" 4 []] (MkPool {[0 := demo.msg "a"]} [] 1).

Definition gw1 : Gateway unit unit bytes := MkGateway disp1 (ratelimit.NewManager 0 cfg) ∅ [].

Lemma disp1_inv : disp_inv true disp1 [0].
Proof.
  split; cbn; try done.
  - split; cbn; [constructor|set_solver|]. intros a [v Hv]. apply lookup_singleton_Some in Hv as [<- _]. lia.
  - repeat constructor; cbn; try done. set_solver.
  - apply NoDup_ListNoDup. repeat constructor; cbn; auto.
  - repeat constructor; cbn; done.
Qed.
End late_demo.
Import late_demo.

Lemma late_task_is_lost_witness :
  wp (dispatch_task 0) (fun r g' => r = Ok tt /\ project.heap (disp g') = project.heap (disp gw1) /\
    project.walWriter (disp g') = project.walWriter (disp gw1) /\ tasks g' = tasks gw1 /\
    ~ message.live (mem g') 0) gw1.
Proof.
  apply (late_task_is_lost true gw1 0 (demo.msg "a") (demo.msg "a") disp1 {["a" := [0; 1]]} 0 [1] []
    (down (disp_demo.cell "a-x-0" 4 []))); try done.
  - exact disp1_inv.
  - by eapply piped_none.
Defined.
