(* ===== verification/ClientTheorems.v ===== *)
(** * The example client against the gateway: theorems

    The client's workers send every number once; a request of the client is
    let through by every check of the upload route, and the client reads the
    gateway's answer back. *)

From Stdlib Require Import ZArith Lia Ascii String.
From stdpp Require Import base tactics numbers strings gmap list.
From S2P Require Import Prelude GoStrings GoUtf8 GoTime GoCrypto Message ConfigPkg Threads Sink Gin RateLimit Json JsonDecode JsonEncode JsonCompact JsonEnvelope JsonNumber JsonTime JsonAny JsonEntry Auth Pipeline Dispatcher SinkTheorems DispatchTheorems Server ServerTheorems Replay ServerLife Client.

Import json jsondec jsonenc jsoncompact jsonmsg jsonentry jsonresp client.
Local Open Scope go_scope.

(** ** The answer comes back *)

Definition canon_resp (r : message.UploadResponse) : message.UploadResponse :=
  message.MkUploadResponse (message.resp_Code r) (valid_text (message.resp_Message r)) (valid_text (message.resp_RequestID r))
    (valid_text (message.resp_TraceID r)).

Definition resp_fields_val (r : message.UploadResponse) : list field :=
  [("code", bytes_of (Itoa (message.resp_Code r)), JNum (bytes_of (Itoa (message.resp_Code r))));
   ("message", quote_string (message.resp_Message r), str (message.resp_Message r));
   ("request_id", quote_string (message.resp_RequestID r), str (message.resp_RequestID r))] ++
  (if String.eqb (message.resp_TraceID r) "" then [] else [("trace_id", quote_string (message.resp_TraceID r), str (message.resp_TraceID r))]).

Lemma decode_int_Itoa n old : in_int64 n -> decode_int (JNum (bytes_of (Itoa n))) old = (n, true).
Proof. intros Hn. unfold decode_int. rewrite string_bytes. pose proof (Atoi_Sprintf 0 n Hn) as E. unfold Atoi in E. unfold Itoa. by rewrite E. Qed.

Ltac resp_step :=
  rewrite decode_field by (vm_compute; reflexivity);
  cbn [resp_set String.eqb Ascii.eqb Bool.eqb decode_string].

Lemma response_reads_back r : (0 <= message.resp_Code r < two63)%Z -> UnmarshalResponse (MarshalResponse r) = Ok (canon_resp r).
Proof.
  intros Hc. assert (Hf : resp_fields r = field_text <$> resp_fields_val r).
  { unfold resp_fields, resp_fields_val, unless_empty. by destruct (String.eqb _ _). }
  unfold UnmarshalResponse, Unmarshal, MarshalResponse. rewrite Hf.
  destruct (parse_obj 1 (resp_fields_val r)) as (ms & -> & Hms); [done| |].
  { apply Forall_app. split; [|destruct (String.eqb _ _); [constructor|constructor; [apply reads_string|constructor]]].
    constructor; [apply reads_uint; unfold two63, two64 in *; lia|]. do 2 (constructor; [apply reads_string|]). constructor. }
  unfold resp_fields_val in Hms. cbn [app] in Hms.
  apply Forall2_cons_inv_r in Hms as ([k1 [t1 v1]] & m1 & (E1 & _ & V1%erase_num) & Hms & ->).
  apply Forall2_cons_inv_r in Hms as ([k2 [t2 v2]] & m2 & (E2 & _ & V2%erase_str) & Hms & ->).
  apply Forall2_cons_inv_r in Hms as ([k3 [t3 v3]] & m3 & (E3 & _ & V3%erase_str) & Hms & ->).
  cbn [fst snd] in *. subst. cbn [foldl]. resp_step.
  rewrite decode_int_Itoa by (unfold in_int64; lia). do 2 resp_step. cbn [andb]. unfold canon_resp.
  destruct (String.eqb_spec (message.resp_TraceID r) "") as [Ee|_].
  - apply Forall2_nil_inv_r in Hms as ->. by rewrite Ee.
  - apply Forall2_cons_inv_r in Hms as ([k4 [t4 v4]] & m4 & (E4 & _ & V4%erase_str) & ->%Forall2_nil_inv_r & ->). cbn [fst snd] in *.
    subst. cbn [foldl]. resp_step. done.
Qed.

(** ** The request comes back *)

Definition canon_request (r : message.UploadRequest) : message.UploadRequest :=
  message.MkUploadRequest (valid_text (message.req_Project r)) (valid_text (message.req_Router r)) (canon_data (message.req_Data r)).

Ltac upload_step :=
  rewrite decode_field by (vm_compute; reflexivity);
  cbn [upload_set String.eqb Ascii.eqb Bool.eqb decode_string message.req_Project message.req_Router message.req_Data].

Lemma upload_reads_back r v b : data_value (message.req_Data r) v -> MarshalUpload r = Ok b -> UnmarshalUpload b = Ok (canon_request r).
Proof.
  intros Hv. unfold MarshalUpload. destruct (data_reads _ _ Hv) as (d & n & Ed & Hd). rewrite Ed. intros [= <-].
  set (fs := [("project", quote_string (message.req_Project r), str (message.req_Project r));
              ("router", quote_string (message.req_Router r), str (message.req_Router r)); ("data", d, v)] : list field).
  change (obj _) with (obj (field_text <$> fs)). unfold UnmarshalUpload, Unmarshal.
  destruct (parse_obj (n + 1) fs) as (ms & -> & Hms); [done| |].
  { do 2 (constructor; [eapply reads_more; [|apply reads_string]; lia|]). constructor; [eapply reads_more; [|exact Hd]; lia|constructor]. }
  unfold fs in Hms.
  apply Forall2_cons_inv_r in Hms as ([k1 [t1 v1]] & m1 & (E1 & _ & V1%erase_str) & Hms & ->).
  apply Forall2_cons_inv_r in Hms as ([k2 [t2 v2]] & m2 & (E2 & _ & V2%erase_str) & Hms & ->).
  apply Forall2_cons_inv_r in Hms as ([k3 [t3 v3]] & m3 & (E3 & T3 & _) & ->%Forall2_nil_inv_r & ->).
  cbn [fst snd] in *. subst. cbn [foldl]. do 3 upload_step. cbn [andb]. unfold canon_request. by rewrite (canon_data_text _ _ Ed).
Qed.

(** ** The workers *)

Definition busy_with (w : worker) : option Z := match w with WBusy seq => Some seq | _ => None end.
Definition in_flight (s : MainSt) : list Z := omap busy_with (workers s).

(** How many more steps a worker may take once it is in a state. *)
Definition credit (w : worker) : nat := match w with WDone => 0 | WIdle => 1 | WBusy _ => 2 end.
Definition credits (ws : list worker) : nat := sum_list_with credit ws.

Lemma worker_insert (ws : list worker) w x y : ws !! w = Some x -> exists rest, ws ≡ₚ x :: rest /\ <[w := y]> ws ≡ₚ y :: rest.
Proof.
  intros Hw. exists (take w ws ++ drop (S w) ws). rewrite insert_take_drop by (by eapply lookup_lt_Some).
  split; [rewrite <- (take_drop_middle ws w x Hw) at 1|]; by rewrite Permutation_middle.
Qed.

(** The effect of a change of one worker on what is in flight. *)
Lemma flight_insert (ws : list worker) w x y : ws !! w = Some x ->
  exists rest, omap busy_with ws ≡ₚ option_list (busy_with x) ++ rest /\ omap busy_with (<[w := y]> ws) ≡ₚ option_list (busy_with y) ++ rest.
Proof.
  intros Hw. destruct (worker_insert ws w x y Hw) as (rest & H1 & H2). exists (omap busy_with rest).
  split; [rewrite H1; cbn; by destruct (busy_with x)|rewrite H2; cbn; by destruct (busy_with y)].
Qed.

Lemma credits_insert (ws : list worker) w x y : ws !! w = Some x -> credits (<[w := y]> ws) + credit x = credits ws + credit y.
Proof.
  intros Hw. destruct (worker_insert ws w x y Hw) as (rest & H1 & H2). unfold credits. rewrite H2, H1. cbn. lia.
Qed.

(** What holds after any number of steps. *)
Record main_inv (n : Z) (k : nat) (s : MainSt) : Prop := {
  mi_range : (0 <= sent s <= n)%Z;
  mi_each : in_flight s ++ finished s ≡ₚ seqZ 0 (sent s);
  mi_count : (ok s + failed s = Z.of_nat (length (finished s)))%Z;
  mi_failed : (0 <= failed s)%Z;
  mi_closed : jobsClosed s = true -> sent s = n;
  mi_done : jobsClosed s = false -> Forall (fun w => w <> WDone) (workers s);
  mi_workers : length (workers s) = k;
}.

Lemma main_step_inv n k s s' : main_inv n k s -> step n s s' -> main_inv n k s'.
Proof.
  intros [Hr He Hc Hf Hcl Hd Hk] Hst. unfold in_flight in *.
  destruct Hst as [i w ws o f l Hi Hw|i c w ws o f l seq Hw|i c w ws o f l seq Hw|i c w ws o f l seq Hw|i ws o f l Hi|i w ws o f l Hw]; cbn in *.
  - destruct (flight_insert ws w WIdle (WBusy i) Hw) as (rest & H1 & H2). cbn in H1, H2.
    split; cbn; try done; [lia| | |by rewrite length_insert].
    + unfold in_flight. cbn. rewrite H2. cbn. rewrite (seqZ_app 0 i 1) by lia. rewrite <- He, H1. change (seqZ (0 + i) 1) with [(0 + i)%Z].
      rewrite Z.add_0_l. apply Permutation_cons_append.
    + intros _. apply Forall_insert; [by apply Hd|done].
  - destruct (flight_insert ws w (WBusy seq) WIdle Hw) as (rest & H1 & H2). cbn in H1, H2.
    split; cbn; try done; [|rewrite length_app; cbn; lia|intros Hx; apply Forall_insert; [by apply Hd|done]|by rewrite length_insert].
    unfold in_flight. cbn. rewrite H2, <- He, H1. cbn. rewrite app_assoc. symmetry. apply Permutation_cons_append.
  - destruct (flight_insert ws w (WBusy seq) WIdle Hw) as (rest & H1 & H2). cbn in H1, H2.
    split; cbn; try done; [|rewrite length_app; cbn; lia|lia|intros Hx; apply Forall_insert; [by apply Hd|done]|by rewrite length_insert].
    unfold in_flight. cbn. rewrite H2, <- He, H1. cbn. rewrite app_assoc. symmetry. apply Permutation_cons_append.
  - split; cbn; try done.
  - split; cbn; try done. lia.
  - destruct (flight_insert ws w WIdle WDone Hw) as (rest & H1 & H2). cbn in H1, H2.
    split; cbn; try done; [|by rewrite length_insert]. unfold in_flight. cbn. by rewrite H2, <- He, H1.
Qed.

Lemma main_start_inv o : (0 < count o)%Z -> main_inv (count o) (Z.to_nat (concurrency o)) (start o).
Proof.
  intros Hn. unfold start. split; cbn; try done; [lia| | |by rewrite length_replicate].
  - unfold in_flight. cbn. generalize (Z.to_nat (concurrency o)). by induction n.
  - intros _. by apply Forall_replicate.
Qed.

(** Every step uses up some of this. *)
Definition steps_left (n : Z) (s : MainSt) : nat :=
  2 * Z.to_nat (n - sent s) + credits (workers s) + (if jobsClosed s then 0 else 1) + (if crashed s then 0 else 1).

Lemma main_step_left n s s' : step n s s' -> S (steps_left n s') <= steps_left n s.
Proof.
  intros Hst. unfold steps_left.
  destruct Hst as [i w ws o f l Hi Hw|i c w ws o f l seq Hw|i c w ws o f l seq Hw|i c w ws o f l seq Hw|i ws o f l Hi|i w ws o f l Hw];
    cbn [sent workers jobsClosed crashed].
  - pose proof (credits_insert ws w WIdle (WBusy i) Hw) as Hc. cbn in Hc. lia.
  - pose proof (credits_insert ws w (WBusy seq) WIdle Hw) as Hc. cbn in Hc. lia.
  - pose proof (credits_insert ws w (WBusy seq) WIdle Hw) as Hc. cbn in Hc. lia.
  - lia.
  - lia.
  - pose proof (credits_insert ws w WIdle WDone Hw) as Hc. cbn in Hc. lia.
Qed.

Lemma main_progress n k s : main_inv n k s -> 0 < k -> crashed s = false -> waited s \/ exists s', step n s s'.
Proof.
  intros [Hr He Hc Hf Hcl Hd Hk] Hpos Hcr. destruct s as [i c ws o f l cr]. cbn in *. subst cr.
  destruct (decide (Forall (eq WDone) ws)) as [Hall|Hnot].
  - destruct c; [by left|]. exfalso. specialize (Hd eq_refl). destruct ws as [|w ws]; [cbn in Hk; lia|].
    apply Forall_cons in Hall as [<- _]. by apply Forall_cons in Hd as [? _].
  - right. apply not_Forall_Exists in Hnot; [|solve_decision]. apply Exists_exists in Hnot as (x & Hin & Hx).
    apply list_elem_of_lookup in Hin as [w Hw]. destruct x as [|seq|]; [|by eexists; eapply StepOk|done].
    destruct c; [by eexists; eapply StepExit|]. destruct (decide (i < n)%Z) as [Hi|Hi]; [by eexists; eapply StepSend|].
    eexists. apply StepClose. lia.
Qed.

(** C26.  The workers of the example client, in any order of their steps:
    the numbers being sent and those answered are together the numbers handed
    out, each once; as long as nothing panicked the program is done or some
    step is possible; it takes at most [2 * count + concurrency + 2] steps;
    and when it is done every number from 0 to [count - 1] was sent exactly
    once, the two counters add up to [count], and the exit code is 0 exactly
    when none failed. *)
Theorem client_sends_each_once o k s :
  (0 < count o)%Z -> (0 < concurrency o)%Z -> nsteps (step (count o)) k (start o) s ->
  (in_flight s ++ finished s ≡ₚ seqZ 0 (sent s)) /\
  (crashed s = false -> waited s \/ exists s', step (count o) s s') /\
  k <= 2 * Z.to_nat (count o) + Z.to_nat (concurrency o) + 2 /\
  (waited s -> finished s ≡ₚ seqZ 0 (count o) /\ (ok s + failed s = count o)%Z /\
     (crashed s = false -> (exit_code s = 0%Z <-> failed s = 0%Z))).
Proof.
  intros Hn Hw Hst.
  assert (Hmain : main_inv (count o) (Z.to_nat (concurrency o)) s /\ k + steps_left (count o) s <= steps_left (count o) (start o)).
  { pose proof (main_start_inv o Hn) as Hi. revert Hi. generalize (start o) Hst. clear Hst.
    intros s0 Hst. induction Hst as [x|k x y z Hxy _ IH]; intros Hi; [done|].
    destruct IH as [Hz Hl]; [by eapply main_step_inv|]. split; [done|]. apply main_step_left in Hxy. lia. }
  destruct Hmain as [Hi Hl]. split; [apply Hi|]. split; [apply (main_progress _ _ _ Hi); lia|]. split.
  - unfold steps_left at 2, start in Hl. cbn [sent workers jobsClosed crashed] in Hl. assert (Hcr : credits (replicate (Z.to_nat (concurrency o)) WIdle) = Z.to_nat (concurrency o)).
    { clear. induction (Z.to_nat (concurrency o)) as [|m IH]; [done|]. unfold credits in *. cbn. by rewrite IH. }
    rewrite Hcr, Z.sub_0_r in Hl. lia.
  - intros [Hc Hall]. pose proof (mi_closed _ _ _ Hi Hc) as Hs. pose proof (mi_each _ _ _ Hi) as He. rewrite Hs in He.
    assert (Hfl : in_flight s = []).
    { unfold in_flight. clear -Hall. induction Hall as [|w ws <- _ IH]; [done|]. exact IH. }
    rewrite Hfl in He. cbn in He. split; [done|]. pose proof (mi_count _ _ _ Hi) as Hcnt. split.
    + rewrite Hcnt, He, length_seqZ. lia.
    + intros Hcr. unfold exit_code. rewrite Hcr. pose proof (mi_failed _ _ _ Hi). destruct (Z.ltb_spec 0 (failed s)); lia.
Qed.

(** ** Texts the client makes *)

Lemma safe_text_valid s : safe_text s -> valid_text s = s.
Proof.
  intros Hs. unfold valid_text. rewrite is_utf8_fixed; [apply string_bytes|]. by apply safe_is_utf8.
Qed.

Lemma newNonce_safe ns seq rnd : safe_text (newNonce ns seq rnd).
Proof. unfold newNonce. repeat apply safe_text_app; try apply Sprintf_safe; by repeat constructor. Qed.

Lemma Itoa_short n : length (bytes_of (Itoa n)) <= 21.
Proof.
  assert (Hc : forall fuel k m, count_digits fuel k m <= fuel + k).
  { induction fuel as [|f IH]; intros k m; cbn; [lia|]. destruct (_ <? _)%Z; [lia|]. pose proof (IH (S k) m). lia. }
  assert (Hf : forall k m, length (bytes_of (fixed_digits k m)) = k) by (induction k as [|k IH]; intros m; cbn; [done|]; by rewrite IH).
  unfold Itoa, Sprintf_0d, ndigits. destruct (n <? 0)%Z; cbn [list_ascii_of_string length]; rewrite Hf.
  - pose proof (Hc 19 1 (- n)%Z). lia.
  - pose proof (Hc 19 1 n). lia.
Qed.

Lemma newNonce_length ns seq rnd : length (bytes_of (newNonce ns seq rnd)) <= 65.
Proof.
  unfold newNonce. rewrite !list_ascii_app, !length_app. cbn [list_ascii_of_string length].
  pose proof (Itoa_short ns). pose proof (Itoa_short seq). pose proof (Itoa_short rnd). lia.
Qed.

(** A rune becomes at most six bytes. *)
Lemma quote_length s : length (quote_string s) <= 6 * length (bytes_of s) + 2.
Proof.
  unfold quote_string, quote_body. cbn [length]. rewrite length_app. cbn [length].
  assert (Hseg : forall b k, length (segments k b) <= length b).
  { induction b as [|c b IH]; intros [|k]; cbn [segments length]; [lia..| |].
    - destruct (utf8.DecodeRune (c :: b)) as [r n]. cbn [length]. pose proof (IH (pred n)). lia.
    - pose proof (IH k). lia. }
  assert (Hesc : forall r n, length (escape_rune r n) <= 6).
  { intros r n. unfold escape_rune, escape_ascii, utf8.EncodeRune, utf8.encode_valid, u00. repeat case_match; cbn; lia. }
  assert (Hcat : forall l : list (Z * nat), length (concat ((fun '(r, n) => escape_rune r n) <$> l)) <= 6 * length l).
  { induction l as [|[r n] l IH]; cbn [fmap list_fmap concat length]; [lia|]. rewrite length_app. pose proof (Hesc r n). lia. }
  pose proof (Hcat (segments 0 (bytes_of s))). pose proof (Hseg (bytes_of s) 0). lia.
Qed.

(** The success answer fits into what the client reads. *)
Lemma success_read rid : length (bytes_of rid) <= 65 -> valid_text rid = rid ->
  read_response 200 (MarshalResponse (message.MkUploadResponse 0 "success" rid rid)) = Ok (message.MkUploadResponse 0 "success" rid rid).
Proof.
  intros Hl Hv. unfold read_response. rewrite take_ge; cycle 1.
  { unfold MarshalResponse, resp_fields, unless_empty, obj. cbn [message.resp_Code message.resp_Message message.resp_RequestID message.resp_TraceID].
    pose proof (quote_length rid) as Hq.
    assert (Hsz : (Z.of_nat (length ("{"%char :: fields_text ([("code", bytes_of (Itoa 0)); ("message", quote_string "success");
      ("request_id", quote_string rid)] ++ (if String.eqb rid "" then [] else [("trace_id", quote_string rid)])) ++ ["}"%char])) <= 2000)%Z);
      [|change (Z.shiftl 1 20) with 1048576%Z; lia].
    destruct (String.eqb rid ""); cbn [app fields_text]; repeat (rewrite length_app || (progress cbn [length]));
      change (length (bytes_of (Itoa 0))) with 1; change (length (quote_string "code")) with 6;
      change (length (quote_string "message")) with 9; change (length (quote_string "success")) with 9;
      change (length (quote_string "request_id")) with 12; try change (length (quote_string "trace_id")) with 10; lia. }
  cbn [Z.ltb Z.leb Z.compare orb]. rewrite response_reads_back by (cbn; unfold two63; lia).
  unfold canon_resp. cbn [message.resp_Code message.resp_Message message.resp_RequestID message.resp_TraceID Z.eqb negb].
  rewrite Hv. by change (valid_text "success") with "success".
Qed.

(** ** The client's request at the gateway *)

Import server.

(** The context of a request that net/http delivers with its headers and its
    body. *)
Definition arrives (r : client.Request) : gin.Context := gin.MkContext ∅ (req_Header r) (Some (Ok (req_Body r))) [] ∅.

Section exchange.
Context {W K L : Type} `{Sink K} `{MsgLog L} `{RateLimiterLaws}.
Abbreviation Gw := (Gateway W K L).
Context (keystore : auth.AppKeyStore) (clk : Clock) (uuid : string) (cfg : config.Config) (g0 : Gw).
Context (o : Options) (sq : Z) (dr : Draws) (body : bytes) (req : message.UploadRequest) (pj : config.ProjectConfig).
Abbreviation nonce := (newNonce (nonce_ns dr) sq (nonce_rnd dr)).
Abbreviation id := (newNonce (id_ns dr) sq (id_rnd dr)).
Abbreviation c0 := (arrives (the_request o body sq dr)).

(** The gateway knows the project and the key, the clocks agree, and the
    nonce was not used. *)
Record welcome : Prop := {
  wel_cfg : config.Get (project.cfg (disp g0)) = Ok cfg;
  wel_limits : limits_ok (rlMgr g0);
  wel_pool : message.pool_ok (mem g0);
  wel_size : (Z.of_nat (length body) <= config.MaxBodyBytes (config.Server cfg) < two63 - 1)%Z;
  wel_named : message.req_Project req <> "";
  wel_project : config.find_project (message.req_Project req) (config.Projects cfg) = Some pj;
  wel_project_size : (0 < config.ProjMaxBodyBytes pj -> Z.of_nat (length body) <= config.ProjMaxBodyBytes pj)%Z;
  wel_required : config.AuthRequired pj = true -> config.AuthEnabled (config.Auth cfg) = true;
  wel_auth : config.AuthEnabled (config.Auth cfg) = true ->
    appKey o <> "" /\ secret o <> "" /\ auth.GetSecret keystore (appKey o) = Ok (secret o) /\
    auth.IsAuthorized keystore (appKey o) (message.req_Project req) = Ok true /\
    in_int64 (unix dr) /\ (auth.abs ((c_auth clk / auth.Second)%Z -64 unix dr) <= config.TimestampWindow (config.Auth cfg))%Z /\
    live_nonces (eff_ttl (config.NonceTTLSeconds (config.Auth cfg))) (c_nonce clk) (nonceCache g0) !! auth.nonce_key (appKey o) nonce = None;
}.

Context (Hreq : UnmarshalUpload body = Ok req).

Lemma client_headers :
  gin.GetHeader "X-App-Key" c0 = appKey o /\ gin.GetHeader "X-Timestamp" c0 = Itoa (unix dr) /\
  gin.GetHeader "X-Nonce" c0 = nonce /\ gin.GetHeader "X-Signature" c0 = sign (secret o) body (Itoa (unix dr)) nonce /\
  gin.GetHeader "X-Request-Id" c0 = id /\ gin.GetHeader "X-Trace-Id" c0 = id.
Proof.
  unfold gin.GetHeader, arrives, the_request. cbn [gin.Header req_Header].
  split_and!; simplify_map_eq; done.
Qed.

Lemma nonce_nonempty ns s r : newNonce ns s r <> "".
Proof.
  intros E. apply (f_equal String.length) in E. unfold newNonce in E. rewrite !string_app_length in E. cbn in E. lia.
Qed.

(** Each check lets the request pass. *)
Lemma body_passes : welcome -> exists c2,
  BodyCacheMiddleware cfg (gin.ctx_of (RequestIDMiddleware uuid c0)) = Ok (gin.Next c2) /\
  carries c0 (request_id uuid c0) body c2 /\ gin.Get "app_key" c2 = None.
Proof.
  intros Hw. pose proof (wel_size Hw) as Hs.
  assert (Hpos : (0 < config.MaxBodyBytes (config.Server cfg))%Z).
  { assert (length body <> 0); [|lia]. intros Hz%nil_length_inv. pose proof Hreq as Hr. by rewrite Hz in Hr. }
  destruct (body_cache_spec cfg uuid c0 (Ok body) eq_refl eq_refl) as [E|(b & c2 & [= <-] & E & Hc & Hk & _)].
  - exfalso. revert E. unfold BodyCacheMiddleware.
    rewrite (proj2 (Z.leb_gt (config.MaxBodyBytes (config.Server cfg)) 0)) by lia. cbn [gin.Body gin.ctx_of RequestIDMiddleware gin.SetRespHeader gin.Set_ arrives the_request req_Body gin.MaxBytesRead].
    rewrite wrap64_id by (unfold in_int64, two63 in *; lia).
    rewrite (proj2 (Z.ltb_ge _ (Z.of_nat (length body)))) by lia. by rewrite (proj2 (Z.ltb_ge _ (Z.of_nat (length body)))) by lia.
  - exists c2. split; [done|]. split; [done|]. rewrite Hk. unfold gin.Get. apply lookup_empty.
Qed.

Lemma auth_passes c ns rid : welcome -> carries c0 rid body c -> ns = nonceCache g0 ->
  exists c' ns', authMiddleware cfg keystore (c_auth clk) (c_nonce clk) c ns = (gin.Next c', ns') /\ carries c0 rid body c' /\
    (config.AuthEnabled (config.Auth cfg) = true -> is_Some (gin.Get "app_key" c')).
Proof.
  intros Hw Hc ->. pose proof (auth_spec cfg keystore (c_auth clk) (c_nonce clk) c0 rid body c (nonceCache g0) Hc) as Hspec.
  destruct (authMiddleware _ _ _ _ _ _) as [v ns'] eqn:Ea.
  assert (Hnext : exists k r, auth.Handler (config.Auth cfg) keystore peekProject (auth_request c) (c_auth clk) (c_nonce clk) (nonceCache g0) = (auth.Next k r, ns')
    /\ v = gin.Next (auth_next k r c) /\ (config.AuthEnabled (config.Auth cfg) = true -> is_Some k)).
  { unfold authMiddleware in Ea. assert (Hh : forall k, gin.GetHeader k c = gin.GetHeader k c0) by (intros k; unfold gin.GetHeader; by rewrite (car_header _ _ _ _ Hc)).
    destruct client_headers as (H1h & H2h & H3h & H4h & _).
    unfold auth.Handler in Ea |- *. unfold auth_request in Ea |- *. cbn [auth.X_App_Key auth.X_Timestamp auth.X_Nonce auth.X_Signature] in *.
    rewrite !Hh, H1h, H2h, H3h, H4h in *. destruct (config.AuthEnabled (config.Auth cfg)) eqn:En; cbn [negb] in Ea |- *.
    2:{ injection Ea as <- <-. by eexists _, _. }
    destruct (wel_auth Hw En) as (Hk & Hs & Hget & Hauth & Hint & Hwin & Hfresh).
    unfold auth.rawBodyFromContext in Ea |- *. cbn [auth.raw_body] in Ea |- *. rewrite (car_body _ _ _ _ Hc) in Ea |- *.
    rewrite (proj2 (String.eqb_neq _ _) Hk) in Ea |- *. unfold auth.valid_secret in Ea |- *. rewrite Hget in Ea |- *.
    rewrite (proj2 (String.eqb_neq _ _) Hs) in Ea |- *.
    pose proof (Atoi_Sprintf 0 (unix dr) Hint) as Hp. unfold Atoi in Hp. unfold Itoa in Ea |- *. rewrite Hp in Ea |- *.
    rewrite (proj2 (Z.ltb_ge _ _) Hwin) in Ea |- *. rewrite (proj2 (String.eqb_neq _ _) (nonce_nonempty _ _ _)) in Ea |- *.
    change (sign (secret o) body (Sprintf_0d 0 (unix dr)) nonce) with (string_of_list_ascii (auth.computeHMAC (secret o) body (Sprintf_0d 0 (unix dr)) nonce)) in *.
    rewrite signature_verified in Ea |- *. cbn [negb] in Ea |- *.
    assert (Hpo : auth.project_ok keystore peekProject (appKey o) body = true).
    { unfold auth.project_ok, peekProject. rewrite (upload_and_peek_agree _ _ Hreq).
      rewrite (proj2 (String.eqb_neq _ _) (wel_named Hw)). unfold auth.authorizeProject. by rewrite Hauth. }
    rewrite Hpo in Ea |- *. cbn [negb] in Ea |- *. rewrite consume_unfold, Hfresh in Ea |- *. injection Ea as <- <-. eexists _, _. split; [done|]. split; [done|]. by eexists. }
  destruct Hnext as (k & r & _ & -> & Hk). destruct Hspec as [(code & msg & _ & [=])|(c' & [= <-] & Hc' & _)].
  exists (auth_next k r c), ns'. split; [done|]. split; [done|]. intros [x ->]%Hk. exists (gin.CString x). unfold auth_next. apply gin_get_set.
Qed.

Lemma resolution_passes c rid : welcome -> carries c0 rid body c ->
  (config.AuthEnabled (config.Auth cfg) = true -> is_Some (gin.Get "app_key" c)) ->
  exists c', ProjectResolutionMiddleware cfg c = gin.Next c' /\ carries c0 rid body c'.
Proof.
  intros Hw Hc Hk. unfold ProjectResolutionMiddleware, resolve_project. rewrite (car_body _ _ _ _ Hc).
  rewrite (upload_and_peek_agree _ _ Hreq), (proj2 (String.eqb_neq _ _) (wel_named Hw)), (wel_project Hw).
  destruct (config.AuthRequired pj) eqn:Er.
  - destruct (Hk (wel_required Hw Er)) as [x ->]. eexists. split; [done|]. by apply carries_set.
  - eexists. split; [done|]. by apply carries_set.
Qed.

(** Too many requests, a pool that is busy, or success. *)
Definition answered (r : result gin.verdict) : Prop :=
  exists v code resp, r = Ok v /\ gin.Written (gin.ctx_of v) = [(code, resp)] /\ (code = 200 \/ code = 429 \/ code = 503)%Z.

Lemma answered_reject c msg : gin.Written c = [] -> answered (Ok (gin.reject 429 msg c)).
Proof. intros Hc. eexists _, _, _. split; [done|]. cbn. rewrite Hc. split; [done|]. auto. Qed.

Lemma handler_answers now c rid (g : Gw) : welcome -> carries c0 rid body c -> disp g = disp g0 ->
  wp (UploadHandler now c) (fun r _ => answered r) g.
Proof.
  intros Hw Hc Hd. pose proof (wel_cfg Hw) as Hcfg. rewrite <- Hd in Hcfg.
  assert (Hp : message.pool_ok (mem g)) by (unfold mem; rewrite Hd; apply (wel_pool Hw)).
  assert (Hans : forall code resp, (code = 200 \/ code = 429 \/ code = 503)%Z -> answered (Ok (gin.Next (gin.JSON code resp c)))).
  { intros code resp Hcode. eexists _, _, _. split; [done|]. cbn. rewrite (car_written _ _ _ _ Hc). by split. }
  unfold UploadHandler. rewrite (car_body _ _ _ _ Hc). unfold withConfig. cbn [wp]. split; [done|]. rewrite Hcfg.
  pose proof (wel_size Hw) as Hs. rewrite (proj2 (Z.ltb_ge _ (Z.of_nat (length body)))) by lia.
  rewrite Hreq. cbn [wp]. split; [done|]. rewrite Hcfg, (wel_project Hw).
  assert (Hlim : ((0 <? config.ProjMaxBodyBytes pj)%Z && (config.ProjMaxBodyBytes pj <? Z.of_nat (length body))%Z) = false).
  { pose proof (wel_project_size Hw) as Hps. destruct (Z.ltb_spec 0 (config.ProjMaxBodyBytes pj)); [|done].
    apply Z.ltb_ge. auto. }
  rewrite Hlim. apply wp_AcquireMessage; [done|]. intros a p Hpok Hcell Hnl Hlive.
  assert (Hla : message.live p a) by (apply Hlive; by left).
  cbn [wp atomic]. split; [done|]. unfold onMem, zoom, bind, load. change (mem (set_mem p g)) with p. rewrite Hcell.
  cbn [fst snd ok_or wp submit_task may atomic store].
  split_and!; [intros _; split; [done|]; apply Hans; auto|intros _; split; [done|]|by left].
  match goal with |- context [message.ReleaseMessage (Some a) ?q] => destruct (message.ReleaseMessage_spec a q) as (p2 & E2 & _) end.
  - by apply (store_live a _ p Hpok Hla).
  - by apply (store_live a _ p Hpok Hla).
  - rewrite E2. cbn. apply Hans. auto.
Qed.

Lemma route_answers : welcome -> wp (upload_route keystore clk uuid c0) (fun r _ => answered r) g0.
Proof.
  intros Hw. unfold upload_route. apply wp_recoverT; [|done].
  assert (Hchain : wp (upload_chain keystore clk uuid c0) (fun r _ => answered r) g0);
    [|eapply wp_mono; [|exact Hchain]; by intros ? ? (v & code & resp & -> & Hv); exists v, code, resp].
  unfold upload_chain. set (c1 := gin.ctx_of (RequestIDMiddleware uuid c0)).
  apply wp_andThen; [|done]. cbn [wp]. change (RequestIDMiddleware uuid c0) with (gin.Next c1).
  apply wp_andThen; [|done]. eapply wp_mono; [|apply (wp_globalLimit clk c1 g0), (wel_limits Hw)].
  intros r1 g1 ((Hd & Ht & Hl) & Hns & [-> | ->]); [|by apply answered_reject].
  pose proof (wel_cfg Hw) as Hcfg. rewrite <- Hd in Hcfg.
  apply wp_andThen; [|done]. unfold bodyCache, withConfig. cbn [wp]. split; [done|]. rewrite Hcfg. cbn [wp].
  destruct (body_passes Hw) as (c2 & E2 & Hc2 & _). fold c1 in E2. rewrite E2.
  apply wp_andThen; [|done]. unfold authenticate, withConfig. cbn [wp]. split; [done|]. rewrite Hcfg. cbn [wp atomic]. split; [done|].
  destruct (auth_passes c2 (nonceCache g1) _ Hw Hc2 Hns) as (c3 & ns' & E3 & Hc3 & Hk3). rewrite E3. cbn [fst snd wp].
  set (g2 := set_nonces ns' g1).
  apply wp_andThen; [|done]. unfold projectResolution, withConfig. cbn [wp]. split; [done|]. change (disp g2) with (disp g1). rewrite Hcfg. cbn [wp].
  destruct (resolution_passes c3 _ Hw Hc3 Hk3) as (c4 & E4 & Hc4). rewrite E4.
  apply wp_andThen; [|apply may_UploadHandler]. eapply wp_mono; [|by apply (wp_projectLimit clk c4 g2 cfg)].
  intros r g3 [(Hd3 & _ & _) [-> | ->]]; [|apply answered_reject; apply Hc4].
  eapply handler_answers; [done|exact Hc4|]. rewrite Hd3. change (disp g2) with (disp g1). done.
Qed.
End exchange.

(** C7.  Client and gateway agree.  When the gateway knows the client's key
    and project, the clocks agree, the nonce is new and the body is within
    the limits, the gateway answers the client's request with success, with
    429 (too many requests) or with 503 (pool busy), and nothing else.  On
    success [sendOne] returns the client's own id, and a task was taken whose
    message has the client's project, router and data and that id; otherwise
    [sendOne] returns an error and no task was taken. *)
Theorem client_and_gateway_agree {W K L} `{Sink K} `{MsgLog L} `{RateLimiterLaws} keystore clk uuid cfg (g0 : Gateway W K L)
    o raw sq dr d v body pj :
  withSequence raw sq (sent_at dr) = Ok d -> data_value (Some d) v ->
  MarshalUpload (message.MkUploadRequest (project o) (router o) (Some d)) = Ok body ->
  welcome keystore clk cfg g0 o sq dr body (canon_request (message.MkUploadRequest (project o) (router o) (Some d))) pj ->
  wp (upload_route keystore clk uuid (arrives (the_request o body sq dr))) (fun r g' =>
    exists vd code resp, r = Ok vd /\ gin.Written (gin.ctx_of vd) = [(code, resp)] /\
    let id := newNonce (id_ns dr) sq (id_rnd dr) in
    let outcome := sendOne (fun _ => None) (fun _ => Ok (code, MarshalResponse resp)) o raw sq dr in
    (code = 200%Z /\ outcome = Ok (message.MkUploadResponse 0 "success" id id) /\
     exists a, tasks g' = tasks g0 ++ [a] /\ cells (mem g') !! a = Some
       (message.MkMessage id id (valid_text (project o)) (valid_text (router o)) (Some (compact false 0 d))
          (config.Env (config.Server cfg)) ∅ (c_message clk))) \/
    ((code = 429 \/ code = 503)%Z /\ (exists e, outcome = Err e) /\ tasks g' = tasks g0)) g0.
Proof.
  intros Hd Hv Hb Hw.
  pose proof (upload_reads_back (message.MkUploadRequest (project o) (router o) (Some d)) v body Hv Hb) as Hread.
  pose proof (route_answers keystore clk uuid cfg g0 o sq dr body _ pj Hread Hw) as Hcodes.
  pose proof (route_served keystore clk uuid cfg (arrives (the_request o body sq dr)) g0 (Ok body)
    (wel_cfg _ _ _ _ _ _ _ _ _ _ Hw) (wel_limits _ _ _ _ _ _ _ _ _ _ Hw) (wel_pool _ _ _ _ _ _ _ _ _ _ Hw) eq_refl eq_refl eq_refl) as Hserved.
  eapply wp_mono; [|exact (wp_conj _ _ _ _ Hcodes Hserved)]. intros r g' [(vd & code & resp & -> & Hwr & Hcode) (vd' & [= <-] & _ & Hend)].
  exists vd, code, resp. split; [done|]. split; [done|]. cbn zeta. unfold sendOne. rewrite Hd, Hb.
  set (id := newNonce (id_ns dr) sq (id_rnd dr)).
  destruct (client_headers o sq dr body) as (_ & _ & _ & _ & Hrid & Htid). fold id in Hrid, Htid.
  assert (Hidne : String.eqb id "" = false) by (apply String.eqb_neq, nonce_nonempty).
  assert (Hid : request_id uuid (arrives (the_request o body sq dr)) = id).
  { unfold request_id. by rewrite Hrid, Hidne. }
  assert (Htr : trace_id (arrives (the_request o body sq dr)) id = id).
  { unfold trace_id. by rewrite Htid, Hidne. }
  destruct Hend as [((code' & resp' & Hne & Hwr') & Ht & _)|(b & [= <-] & _ & Htk & _)].
  - right. cbn in Hwr'. rewrite Hwr in Hwr'. injection Hwr' as <- <-. split; [naive_solver|]. split; [|done].
    unfold read_response. destruct Hcode as [->|[->| ->]]; [done|by eexists..].
  - left. rewrite Hid in Htk. destruct Htk as (a & req & Hwr' & Ht & _ & _ & Hreq & Hcell & _). rewrite Htr in Hwr', Hcell.
    cbn in Hwr'. rewrite Hwr in Hwr'. injection Hwr' as Ec Er. subst code resp. split; [done|].
    split; [apply success_read; [apply newNonce_length|apply safe_text_valid, newNonce_safe]|].
    exists a. split; [done|]. rewrite Hcell. rewrite Hread in Hreq. by injection Hreq as <-.
Qed.

(** ** Instances *)

Module client_demo.
Definition flags : Options := MkOptions "http://gateway" "test-app-key" "test-secret" "a" "r" "{}" 1 1 0.
Definition draws : Draws := MkDraws zeroTime 100 100000000000 7 100000000000 8.
Definition payload : bytes := match withSequence (bytes_of "{}") 0 zeroTime with Ok d => d | _ => [] end.
Definition text : bytes :=
  match MarshalUpload (message.MkUploadRequest (project flags) (router flags) (Some payload)) with Ok b => b | _ => [] end.
Definition read_payload : jval := match value (2 * length payload + 1) 1 (skip_ws payload) with Some (v, _) => v | None => JNull end.
Definition proj : config.ProjectConfig := config.MkProjectConfig "a" true [] 5 0 true [].

Example payload_text : string_of payload =
  "{" +:+ quoted "_example_sent_at" +:+ ":" +:+ quoted "0001-01-01T00:00:00Z" +:+ "," +:+ quoted "_example_seq" +:+ ":0}".
Proof. vm_compute. reflexivity. Qed.

Lemma payload_value : data_value (Some payload) read_payload.
Proof. eexists. split; vm_compute; reflexivity. Qed.

Lemma flags_welcome : welcome server.testKeys server_demo.clk server_demo.cfg server_demo.gw flags 0 draws text
  (canon_request (message.MkUploadRequest (project flags) (router flags) (Some payload))) proj.
Proof.
  split.
  - reflexivity.
  - exact server_demo.gw_limits.
  - exact message.emptyPool_ok.
  - vm_compute. by split.
  - vm_compute. discriminate.
  - vm_compute. reflexivity.
  - vm_compute. discriminate.
  - reflexivity.
  - intros _. by split_and!; vm_compute.
Qed.
End client_demo.

Lemma client_and_gateway_agree_witness :
  wp (upload_route server.testKeys server_demo.clk "id" (arrives (the_request client_demo.flags client_demo.text 0 client_demo.draws))) (fun r g' =>
    exists vd code resp, r = Ok vd /\ gin.Written (gin.ctx_of vd) = [(code, resp)] /\
    let id := newNonce (id_ns client_demo.draws) 0 (id_rnd client_demo.draws) in
    let outcome := sendOne (fun _ => None) (fun _ => Ok (code, MarshalResponse resp)) client_demo.flags (bytes_of "{}") 0 client_demo.draws in
    (code = 200%Z /\ outcome = Ok (message.MkUploadResponse 0 "success" id id) /\
     exists a, tasks g' = tasks server_demo.gw ++ [a] /\ cells (mem g') !! a = Some
       (message.MkMessage id id (valid_text "a") (valid_text "r") (Some (compact false 0 client_demo.payload))
          (config.Env (config.Server server_demo.cfg)) ∅ (c_message server_demo.clk))) \/
    ((code = 429 \/ code = 503)%Z /\ (exists e, outcome = Err e) /\ tasks g' = tasks server_demo.gw)) server_demo.gw.
Proof.
  apply (client_and_gateway_agree server.testKeys server_demo.clk "id" server_demo.cfg server_demo.gw client_demo.flags (bytes_of "{}") 0
    client_demo.draws client_demo.payload client_demo.read_payload client_demo.text client_demo.proj).
  - vm_compute. reflexivity.
  - exact client_demo.payload_value.
  - vm_compute. reflexivity.
  - exact client_demo.flags_welcome.
Defined.

(** One worker, one message. *)
Definition one_sent : MainSt := MkMainSt 1 true [WDone] 1 0 [0%Z] false.

Lemma one_message : nsteps (step 1) 4 (start client_demo.flags) one_sent.
Proof.
  eapply nsteps_l; [by apply (StepSend 1 0 0)|]. eapply nsteps_l; [by apply (StepOk 1 1 false 0 _ 0 0 [] 0)|].
  eapply nsteps_l; [by apply StepClose|]. eapply nsteps_l; [by apply (StepExit 1 1 0)|]. constructor.
Qed.

Lemma client_sends_each_once_witness :
  (in_flight one_sent ++ finished one_sent ≡ₚ seqZ 0 (sent one_sent)) /\
  (crashed one_sent = false -> waited one_sent \/ exists s', step 1 one_sent s') /\ 4 <= 2 * 1 + 1 + 2 /\
  (waited one_sent -> finished one_sent ≡ₚ seqZ 0 1 /\ (ok one_sent + failed one_sent = 1)%Z /\
     (crashed one_sent = false -> (exit_code one_sent = 0%Z <-> failed one_sent = 0%Z))).
Proof. exact (client_sends_each_once client_demo.flags 4 one_sent eq_refl eq_refl one_message). Defined.

(** [-data null] is valid JSON, and the first worker panics on it. *)
Lemma client_panics_on_null newReq Do o seq dr :
  check (MkOptions (url o) (appKey o) (secret o) (project o) (router o) "null" 1 1 0) = Ok (bytes_of "null") /\
  sendOne newReq Do o (bytes_of "null") seq dr = Panic "assignment to entry in nil map".
Proof. split; reflexivity. Qed.
