(* ===== verification/Logging.v ===== *)
(** * The log files (internal/logging)

    [logging.Setup] points Go's standard logger at a list of writers: the
    console, and for each level a filter in front of a file that is replaced
    every day.  A directory is a [FS] of its own, found by its path, so two
    writers given the same directory share it.  The clock is an argument: a
    write is given the day in UTC, a log line its time stamp. *)

From Stdlib Require Import ZArith Lia Ascii String.
From stdpp Require Import base tactics numbers strings gmap list sorting.
From S2P Require Import Prelude GoStrings GoOs GoUtf8 GoText GoFloat GoTime.

Import time.
Local Open Scope go_scope.

Module logging.
(** ** [dailyWriter] *)

Record dailyWriter := MkDaily {
  dir : string; level : string; file : option nat; buf : option BufWriter; today : string }.

Definition newDailyWriter (d l : string) : dailyWriter := MkDaily (Join d l) l None None "".

(** A writer and its directory. *)
Definition DW : Type := dailyWriter * FS.

Definition set_file (f : option nat) (b : option BufWriter) (w : dailyWriter) : dailyWriter :=
  MkDaily (dir w) (level w) f b (today w).
Definition set_today (t : string) (w : dailyWriter) : dailyWriter :=
  MkDaily (dir w) (level w) (file w) (buf w) t.

Definition onFS {A} : St FS A -> St DW A := zoom snd (fun f s => (s.1, f)).
Definition modD (f : dailyWriter -> dailyWriter) : St DW unit := modify (fun s => (f s.1, s.2)).
Definition getD : St DW dailyWriter := fun s => (Ok s.1, s).

(** A call on [w.buf]; its methods need the writer to be there. *)
Definition onBuf {A} (m : St (BufWriter * FS) A) : St DW A := fun s =>
  match buf s.1 with
  | None => (Panic "nil pointer dereference", s)
  | Some b => let '(r, (b', f')) := m (b, s.2) in (r, (set_file (file s.1) (Some b') s.1, f'))
  end.

(** [if w.file != nil { w.buf.Flush(); w.file.Close() }]. *)
Definition close_file : St DW unit :=
  w <- getD ;;
  match file w with
  | None => ret tt
  | Some h => ignore (onBuf BufFlush) ;;; ignore (onFS (FileClose h))
  end.

Definition log_name (t : string) : string := t +:+ ".log".

Definition rotate (t : string) : St DW unit :=
  close_file ;;;
  made <- attempt (onFS MkdirAll) ;;
  match made with
  | Ok _ =>
      opened <- attempt (onFS (OpenAppend true (log_name t))) ;;
      match opened with
      | Ok h => modD (fun w => set_today t (set_file (Some h) (Some (MkBuf [] None h)) w))
      | _ => modD (set_file None None)
      end
  | _ => ret tt
  end.

(** [Write]: the count that is returned with an error is not used by anyone. *)
Definition Write (day : Z) (p : bytes) : St DW Z :=
  let t := format_date day in
  w <- getD ;;
  (if String.eqb (today w) t then ret tt else rotate t) ;;;
  w <- getD ;;
  match file w with
  | None => ret (Z.of_nat (length p))
  | Some _ => n <- onBuf (BufWrite p) ;; ignore (onBuf BufFlush) ;;; ret n
  end.

(** [Close] keeps [w.buf] and [w.today]. *)
Definition CloseDaily : St DW unit :=
  w <- getD ;;
  match file w with
  | None => ret tt
  | Some _ => close_file ;;; modD (fun w => set_file None (buf w) w)
  end.

(** ** [levelFilter] *)

Section logger.
Context (wide : Z -> Z -> bool).

Definition level_tag (level : string) : bytes := list_ascii_of_string ("[" +:+ level +:+ "]").

(** [for i := 0; i <= len(p)-prefixLen; i++]: [p] is what is left from [i] on. *)
Fixpoint contains_from (prefix p : bytes) : bool :=
  if (length p <? length prefix)%nat then false
  else if EqualFold wide (take (length prefix) p) prefix then true
  else match p with [] => false | _ :: p' => contains_from prefix p' end.

Definition containsLevel (p : bytes) (level : string) : bool := contains_from (level_tag level) p.

(** [inner] is the address of a [dailyWriter]. *)
Record levelFilter := MkFilter { inner : nat; flevel : string }.

Inductive out := Console | Filter (f : levelFilter).

Record LogSt := MkLog {
  heap : list dailyWriter;               (* every dailyWriter made so far *)
  fileWriters : list nat;
  output : list out;                     (* what log.SetOutput was given *)
  disk : string -> FS;                   (* the directories, by path *)
  stdout : list bytes;                   (* what the console has shown *)
  stdout_fault : nat -> option error;    (* whether its n-th write fails *)
}.

Definition set_heap (h : list dailyWriter) (s : LogSt) : LogSt :=
  MkLog h (fileWriters s) (output s) (disk s) (stdout s) (stdout_fault s).
Definition set_fileWriters (l : list nat) (s : LogSt) : LogSt :=
  MkLog (heap s) l (output s) (disk s) (stdout s) (stdout_fault s).
Definition set_output (l : list out) (s : LogSt) : LogSt :=
  MkLog (heap s) (fileWriters s) l (disk s) (stdout s) (stdout_fault s).
Definition set_disk (d : string -> FS) (s : LogSt) : LogSt :=
  MkLog (heap s) (fileWriters s) (output s) d (stdout s) (stdout_fault s).
Definition set_stdout (l : list bytes) (s : LogSt) : LogSt :=
  MkLog (heap s) (fileWriters s) (output s) (disk s) l (stdout_fault s).

(** A method of the writer at address [a], with its directory. *)
Definition onWriter {A} (a : nat) (m : St DW A) : St LogSt A := fun s =>
  match heap s !! a with
  | None => (Panic "nil pointer dereference", s)
  | Some w =>
      let '(r, (w', f')) := m (w, disk s (dir w)) in
      (r, set_disk (fun x => if String.eqb x (dir w) then f' else disk s x) (set_heap (<[a := w']> (heap s)) s))
  end.

Definition consoleWrite (p : bytes) : St LogSt Z := fun s =>
  match stdout_fault s (length (stdout s)) with
  | Some e => (Err e, set_stdout (stdout s ++ [[]]) s)
  | None => (Ok (Z.of_nat (length p)), set_stdout (stdout s ++ [p]) s)
  end.

Definition filterWrite (f : levelFilter) (day : Z) (p : bytes) : St LogSt Z :=
  if containsLevel p (flevel f) then onWriter (inner f) (Write day p) else ret (Z.of_nat (length p)).

Definition out_write (o : out) (day : Z) (p : bytes) : St LogSt Z :=
  match o with Console => consoleWrite p | Filter f => filterWrite f day p end.

(** [io.MultiWriter]: an error or a short write of one writer ends the write. *)
Fixpoint multi_write (outs : list out) (day : Z) (p : bytes) : St LogSt unit :=
  match outs with
  | [] => ret tt
  | o :: outs' =>
      n <- out_write o day p ;;
      if Z.eqb n (Z.of_nat (length p)) then multi_write outs' day p else fail (SysError "short write")
  end.

(** [log.Printf] of the standard logger: [stamp] is the date and time that
    [log.LstdFlags] puts in front; the error of the writer is dropped. *)
Definition log_line (stamp msg : string) : bytes :=
  list_ascii_of_string (stamp +:+ msg +:+ (if HasSuffix msg (String "010" "") then "" else String "010" "")).

Definition Printf (day : Z) (stamp msg : string) : St LogSt unit :=
  s <- get ;; ignore (multi_write (output s) day (log_line stamp msg)).

(** ** [Setup] and [Close] *)

Definition default_levels (levels : list string) : list string :=
  if (length levels =? 0)%nat then ["error"; "warn"] else levels.

(** One turn of the loop over the levels. *)
Definition add_level (d : string) (acc : LogSt * list out) (lvl : string) : LogSt * list out :=
  let '(s, writers) := acc in
  let dw := length (heap s) in
  (set_fileWriters (fileWriters s ++ [dw]) (set_heap (heap s ++ [newDailyWriter d lvl]) s),
   writers ++ [Filter (MkFilter dw lvl)]).

Definition setup_message (consoleEnabled : bool) (levels : list string) : string :=
  "[INFO] logging initialized: console=" +:+ (if consoleEnabled then "true" else "false") +:+
  " file_levels=[" +:+ String.concat " " levels +:+ "]".

Definition Setup (day : Z) (stamp : string) (d : string) (consoleEnabled : bool) (levels : list string) : St LogSt unit :=
  let levels := default_levels levels in
  modify (fun s =>
    let '(s', writers) := foldl (add_level d) (s, if consoleEnabled then [Console] else []) levels in
    set_output writers s') ;;;
  Printf day stamp (setup_message consoleEnabled levels).

Fixpoint close_all (ws : list nat) : St LogSt unit :=
  match ws with
  | [] => ret tt
  | a :: ws' => ignore (onWriter a CloseDaily) ;;; close_all ws'
  end.

Definition Close : St LogSt unit :=
  s <- get ;; close_all (fileWriters s) ;;; modify (set_fileWriters []).

(** ** What a level file is given *)

Lemma level_tag_length lvl : (0 < length (level_tag lvl))%nat.
Proof. unfold level_tag. rewrite list_ascii_app, length_app. cbn. lia. Qed.

Lemma level_tag_ascii lvl : Forall ascii_byte (list_ascii_of_string lvl) -> Forall ascii_byte (level_tag lvl).
Proof.
  intros H. unfold level_tag. rewrite !list_ascii_app, !Forall_app. split_and!; [|done|]; by repeat constructor.
Qed.

Lemma contains_from_spec prefix p : (0 < length prefix)%nat -> Forall ascii_byte prefix ->
  contains_from prefix p = true <-> exists a m b, p = a ++ m ++ b /\ same_letters m prefix.
Proof.
  intros Hpos Hasc. assert (Hlen : forall m, same_letters m prefix -> length m = length prefix).
  { intros m Hm. apply (f_equal length) in Hm. by rewrite !length_fmap in Hm. }
  induction p as [|c p IH].
  { cbn [contains_from length]. destruct (Nat.ltb_spec 0 (length prefix)); [|lia]. split; [done|].
    intros (a & m & b & E & Hm). apply Hlen in Hm. symmetry in E.
    apply app_nil in E as [_ E]. apply app_nil in E as [-> _]. cbn in Hm. lia. }
  cbn [contains_from]. destruct (Nat.ltb_spec (length (c :: p)) (length prefix)) as [Hs|Hs].
  { split; [done|]. intros (a & m & b & E & Hm). apply Hlen in Hm. rewrite E, !length_app in Hs. lia. }
  destruct (EqualFold wide (take (length prefix) (c :: p)) prefix) eqn:E.
  { split; [intros _|done]. exists [], (take (length prefix) (c :: p)), (drop (length prefix) (c :: p)).
    rewrite app_nil_l, take_drop. split; [done|]. apply EqualFold_ascii in E; [done..|]. rewrite length_take. lia. }
  rewrite IH. split.
  - intros (a & m & b & -> & Hm). by exists (c :: a), m, b.
  - intros ([|c' a] & m & b & Ep & Hm); [|injection Ep as -> ->; by exists a, m, b].
    exfalso. apply not_true_iff_false in E. apply E. apply EqualFold_ascii; [done| |].
    + rewrite length_take. lia.
    + rewrite app_nil_l in Ep. rewrite Ep. rewrite <- (Hlen m Hm). by rewrite take_app_length.
Qed.

(** ** A daily writer on a disk that works *)

(** A directory whose calls succeed and that holds only files. *)
Record good_dir (f : FS) : Prop := {
  gd_ok : fs_ok f;
  gd_calls : no_faults f;
  gd_files : forall x, entry f x <> Some DDir;
}.

(** The writer has the file of [today] open with nothing left in its buffer,
    or has not been used yet. *)
Definition dw_ok (s : DW) : Prop :=
  good_dir s.2 /\
  match file s.1 with
  | None => today s.1 = ""
  | Some h => buf s.1 = Some (MkBuf [] None h) /\
      exists i, fd_ino h s.2 = Some i /\ entry s.2 (log_name (today s.1)) = Some (DFile i)
  end.

(** Two directories with the same files. *)
Definition same_files (f f' : FS) : Prop := forall x, file_bytes f' x = file_bytes f x.

Lemma good_dir_ext f f' : good_dir f -> fs_ok f' -> fs_fault f' = fs_fault f ->
  (forall x, entry f' x = entry f x) -> good_dir f'.
Proof.
  intros [Hok Hn Hd] Hok' Hf He. split; [done|intros n; by rewrite Hf|]. intros x. rewrite He. apply Hd.
Qed.

Lemma close_file_ok w f : dw_ok (w, f) ->
  exists f', close_file (w, f) = (Ok tt, (w, f')) /\ good_dir f' /\ same_files f f'.
Proof.
  intros [Hg Hf]. unfold close_file, getD, bind. cbn [fst snd] in *.
  destruct (file w) as [h|] eqn:Eh; [|by exists f; split_and!].
  destruct Hf as [Hb (i & Hi & He)].
  unfold ignore, attempt, bind, onBuf, onFS, zoom, ret. cbn [fst snd]. rewrite Hb. cbn [BufFlush b_err b_buf].
  rewrite bool_decide_true by done. cbn [fst snd file set_file].
  destruct (FileClose h f) as [r f1] eqn:Ec.
  destruct (FileClose_spec _ _ _ _ Ec) as (Hd & Hin & _ & Hft & _ & _ & Hnp & Hok).
  exists f1. split; [|split].
  - assert (set_file (file w) (Some (MkBuf [] None h)) w = w) as Ew by (destruct w; cbn in *; by subst).
    rewrite Ew. destruct r as [[]|e|q]; [done..|by destruct (Hnp q)].
  - apply (good_dir_ext f); [done|by apply Hok, gd_ok|done|]. intros x. unfold entry. by rewrite Hd.
  - intros x. unfold file_bytes, entry, ino_data. by rewrite Hd, Hin.
Qed.

(** Opening the log of a day changes no file. *)
Lemma open_log_ok name f : good_dir f -> is_Some (fs_dir f) ->
  exists h f' i, OpenAppend true name f = (Ok h, f') /\ good_dir f' /\ same_files f f' /\
    fd_ino h f' = Some i /\ entry f' name = Some (DFile i).
Proof.
  intros Hg [d Hd]. assert (exists h f', OpenAppend true name f = (Ok h, f')) as (h & f' & E).
  { destruct (d !! name) as [[i|]|] eqn:El.
    - apply (OpenAppend_no_fault true name f d i); [apply Hg|done..].
    - destruct (gd_files f Hg name). unfold entry. by rewrite Hd.
    - unfold OpenAppend, syscall, fault_now. rewrite (gd_calls f Hg). cbn [fs_dir tick]. rewrite Hd, El. by eexists _, _. }
  pose proof (gd_ok f Hg) as Hok.
  destruct (OpenAppend_spec _ _ _ _ _ Hok E) as (Hok' & Hft & _ & Hin & i & d' & Hd' & _ & Hi & Hcase).
  rewrite Hd in Hd'. injection Hd' as <-. exists h, f', i.
  assert (Hdata : forall x j, entry f x = Some (DFile j) -> ino_data j f' = ino_data j f).
  { intros x j Hx. unfold ino_data. rewrite Hin; [done|]. by eapply (ok_dir f Hok). }
  destruct Hcase as [[Hl Hd']|(_ & Hl & Hd' & Hnew & _)].
  - assert (He : forall x, entry f' x = entry f x) by (intros x; unfold entry; by rewrite Hd', Hd).
    split_and!; [done|by apply (good_dir_ext f)| |done|].
    + intros x. unfold file_bytes. rewrite He. destruct (entry f x) as [[j|]|] eqn:Ex; try done. by eapply Hdata.
    + rewrite He. unfold entry. by rewrite Hd.
  - assert (He : forall x, entry f' x = if decide (name = x) then Some (DFile i) else entry f x).
    { intros x. unfold entry. rewrite Hd', Hd. apply lookup_insert. }
    split_and!; [done| | |done|].
    + split; [done|intros n; rewrite Hft; apply Hg|]. intros x. rewrite He. case_decide; [done|]. apply Hg.
    + intros x. unfold file_bytes. rewrite He. case_decide as Hx; [subst x|].
      * unfold ino_data, entry. rewrite Hnew, Hd. cbn. by rewrite Hl.
      * destruct (entry f x) as [[j|]|] eqn:Ex; try done. by eapply Hdata.
    + rewrite He. by rewrite decide_True.
Qed.

Lemma rotate_ok t w f : dw_ok (w, f) ->
  exists w' f', rotate t (w, f) = (Ok tt, (w', f')) /\ dw_ok (w', f') /\ same_files f f' /\
    today w' = t /\ is_Some (file w') /\ dir w' = dir w.
Proof.
  intros Hok. destruct (close_file_ok w f Hok) as (f1 & E1 & Hg1 & Hs1). unfold rotate.
  rewrite (bind_run_Ok _ _ _ _ _ E1).
  destruct (MkdirAll f1) as [r f2] eqn:E2.
  destruct (MkdirAll_spec _ _ _ (gd_ok f1 Hg1) E2) as (Hok2 & _ & Hft2 & Hin2 & _ & He2 & Hd2).
  assert (r = Ok tt) as ->.
  { unfold MkdirAll, syscall, fault_now in E2. rewrite (gd_calls f1 Hg1) in E2. by injection E2. }
  assert (Hg2 : good_dir f2) by (by apply (good_dir_ext f1)).
  assert (E2' : attempt (onFS MkdirAll) (w, f1) = (Ok (Ok tt), (w, f2))).
  { unfold attempt, onFS, zoom. cbn [fst snd]. by rewrite E2. }
  rewrite (bind_run_Ok _ _ _ _ _ E2').
  destruct (open_log_ok (log_name t) f2 Hg2) as (h & f3 & i & E3 & Hg3 & Hs3 & Hi & He); [by rewrite Hd2|].
  assert (E3' : attempt (onFS (OpenAppend true (log_name t))) (w, f2) = (Ok (Ok h), (w, f3))).
  { unfold attempt, onFS, zoom. cbn [fst snd]. by rewrite E3. }
  rewrite (bind_run_Ok _ _ _ _ _ E3'). eexists _, f3. split; [done|]. split_and!; try done.
  - split; [done|]. cbn. split; [done|]. by exists i.
  - intros x. rewrite Hs3. unfold file_bytes. rewrite He2. unfold ino_data. rewrite Hin2. apply Hs1.
Qed.

(** Writing through an empty buffer and flushing it. *)
Lemma write_flush_ok p h i f : no_faults f -> fd_ino h f = Some i ->
  exists b1 f1 f2, BufWrite p (MkBuf [] None h, f) = (Ok (Z.of_nat (length p)), (b1, f1)) /\
    BufFlush (b1, f1) = (Ok tt, (MkBuf [] None h, f2)) /\ appended h p f f2.
Proof.
  intros Hn Hi. pose proof (BufWrite_no_fault p (MkBuf [] None h) f i Hn Hi eq_refl) as Hr.
  destruct (BufWrite p (MkBuf [] None h, f)) as [r [b1 f1]] eqn:E1. cbn in Hr. subst r.
  destruct (BufWrite_spec _ _ _ _ _ _ E1) as (Hfd1 & (w1 & rest & Ha1 & Hw1 & Hrest) & Hok1 & _).
  rewrite (Hrest eq_refl), app_nil_r in Hw1. destruct (Hok1 _ eq_refl) as (_ & _ & Herr1). cbn in Hfd1, Hw1.
  assert (Hi1 : fd_ino (b_fd b1) f1 = Some i) by (rewrite Hfd1; by rewrite (appended_fd_ino _ _ _ _ _ Ha1)).
  assert (Hn1 : no_faults f1) by (intros n; rewrite (appended_fault _ _ _ _ Ha1); apply Hn).
  pose proof (BufFlush_no_fault b1 f1 i Hn1 Hi1 Herr1) as Hr.
  destruct (BufFlush (b1, f1)) as [r [b2 f2]] eqn:E2. cbn in Hr. subst r.
  destruct (BufFlush_spec _ _ _ _ _ E2) as (Hfd2 & (w2 & Ha2 & Hw2) & Hok2 & _).
  destruct (Hok2 eq_refl) as (Hb2 & _ & Herr2). exists b1, f1, f2. split; [done|].
  assert (b2 = MkBuf [] None h) as -> by (destruct b2; cbn in *; congruence).
  split; [done|]. rewrite app_nil_r in Hw2. subst w2. rewrite <- Hw1. rewrite Hfd1 in Ha2. by eapply appended_trans.
Qed.

(** The files after [p] was appended to the file called [name]. *)
Definition one_append (name : string) (p : bytes) (f f' : FS) : Prop :=
  forall x, file_bytes f' x = file_bytes f x ++ if decide (x = name) then p else [].

Lemma appended_files h i name p f f' : fs_ok f -> fd_ino h f = Some i -> entry f name = Some (DFile i) ->
  appended h p f f' -> one_append name p f f'.
Proof.
  intros Hok Hi He Ha x. pose proof (appended_dir _ _ _ _ Ha) as Hd. unfold appended in Ha. rewrite Hi in Ha.
  destruct Ha as (Hfr & Hdata & _). unfold file_bytes.
  assert (entry f' x = entry f x) as -> by (unfold entry; by rewrite Hd).
  case_decide as Hx; [subst x; rewrite He; done|]. rewrite app_nil_r.
  destruct (entry f x) as [[j|]|] eqn:Ex; try done. apply (fs_frame_ino_data i); [done|].
  intros ->. apply Hx. by eapply (ok_inj f Hok).
Qed.

Lemma format_date_nonempty d : format_date d <> "".
Proof.
  unfold format_date. destruct (civil d) as [[y m] dd]. intros E. apply (f_equal String.length) in E.
  rewrite !string_app_length in E. cbn in E. lia.
Qed.

(** [Write] appends the line to the file of the day and nothing else. *)
Lemma Write_ok day p w f : dw_ok (w, f) ->
  exists w' f', Write day p (w, f) = (Ok (Z.of_nat (length p)), (w', f')) /\ dw_ok (w', f') /\
    dir w' = dir w /\ one_append (log_name (format_date day)) p f f'.
Proof.
  intros Hok. unfold Write.
  assert (exists w1 f1, (if String.eqb (today w) (format_date day) then ret tt else rotate (format_date day)) (w, f)
      = (Ok tt, (w1, f1)) /\ dw_ok (w1, f1) /\ same_files f f1 /\ today w1 = format_date day /\ dir w1 = dir w)
    as (w1 & f1 & E1 & Hok1 & Hs1 & Ht1 & Hd1).
  { destruct (String.eqb_spec (today w) (format_date day)) as [Et|Et].
    - exists w, f. by split_and!.
    - destruct (rotate_ok (format_date day) w f Hok) as (w1 & f1 & E1 & Hok1 & Hs1 & Ht1 & _ & Hd1). by exists w1, f1. }
  rewrite (bind_run_Ok getD _ (w, f) w (w, f)) by done. rewrite (bind_run_Ok _ _ _ _ _ E1).
  rewrite (bind_run_Ok getD _ (w1, f1) w1 (w1, f1)) by done.
  destruct Hok1 as [Hg1 Hf1]. cbn [fst snd] in *.
  destruct (file w1) as [h|] eqn:Eh; [|by destruct (format_date_nonempty day); rewrite <- Ht1].
  destruct Hf1 as [Hb1 (i & Hi & He)]. rewrite Ht1 in He.
  destruct (write_flush_ok p h i f1 (gd_calls f1 Hg1) Hi) as (b2 & f2 & f3 & E2 & E3 & Ha).
  assert (E2' : onBuf (BufWrite p) (w1, f1) = (Ok (Z.of_nat (length p)), (set_file (Some h) (Some b2) w1, f2))).
  { unfold onBuf. cbn [fst snd]. by rewrite Hb1, E2, Eh. }
  rewrite (bind_run_Ok _ _ _ _ _ E2').
  assert (E3' : ignore (onBuf BufFlush) (set_file (Some h) (Some b2) w1, f2)
                = (Ok tt, (set_file (Some h) (Some (MkBuf [] None h)) w1, f3))).
  { unfold ignore, attempt, bind, onBuf. cbn [fst snd buf set_file file]. by rewrite E3. }
  rewrite (bind_run_Ok _ _ _ _ _ E3'). eexists _, f3. split; [done|]. cbn [fst snd].
  split; [|split; [done|]].
  - split; cbn [fst snd file buf set_file today].
    + apply (good_dir_ext f1); [done|by eapply fs_ok_appended, gd_ok|by eapply appended_fault|].
      intros x. unfold entry. by rewrite (appended_dir _ _ _ _ Ha).
    + split; [done|]. exists i. split; [by rewrite (appended_fd_ino _ _ _ _ _ Ha)|].
      unfold entry. rewrite (appended_dir _ _ _ _ Ha), Ht1. exact He.
  - intros x. rewrite (appended_files h i _ p f1 f3 (gd_ok f1 Hg1) Hi He Ha x). by rewrite Hs1.
Qed.
End logger.
End logging.
