(* ===== verification/LoggingTheorems.v ===== *)
(** * The log files: theorems

    On disks that work every log line reaches the console and, for each level
    it names, the file of its day, in order and once; under any faults no
    call of the package panics. *)

From Stdlib Require Import ZArith Lia Ascii String.
From stdpp Require Import base tactics numbers strings gmap list sorting.
From S2P Require Import Prelude GoStrings GoOs GoUtf8 GoText GoFloat GoTime Logging.

Import time logging.
Local Open Scope go_scope.

Section logger.
Context (wide : Z -> Z -> bool).

(** ** A logger all of whose writers work *)

Record log_ok (s : LogSt) : Prop := {
  lo_writers : forall a w, heap s !! a = Some w -> dw_ok (w, disk s (dir w));
  lo_dirs : NoDup (dir <$> heap s);
  lo_stdout : forall n, stdout_fault s n = None;
}.

(** From [s] to [s'] the file [x] of the writer at [a] has grown by [adds a x]
    and the console by [shown]. *)
Record grown (s s' : LogSt) (adds : nat -> string -> bytes) (shown : list bytes) : Prop := {
  gr_ok : log_ok s';
  gr_dirs : dir <$> heap s' = dir <$> heap s;
  gr_output : output s' = output s;
  gr_files : forall a d, (dir <$> heap s) !! a = Some d ->
    forall x, file_bytes (disk s' d) x = file_bytes (disk s d) x ++ adds a x;
  gr_shown : stdout s' = stdout s ++ shown;
}.

Lemma grown_refl s : log_ok s -> grown s s (fun _ _ => []) [].
Proof. intros Hs. split; try done; [intros|]; by rewrite app_nil_r. Qed.

Lemma grown_trans s1 s2 s3 A1 A2 S1 S2 :
  grown s1 s2 A1 S1 -> grown s2 s3 A2 S2 -> grown s1 s3 (fun a x => A1 a x ++ A2 a x) (S1 ++ S2).
Proof.
  intros [H1 H2 H3 H4 H5] [K1 K2 K3 K4 K5]. split; try congruence.
  - intros a d Ha x. rewrite (K4 a d) by congruence. rewrite (H4 a d) by done. by rewrite app_assoc.
  - by rewrite K5, H5, app_assoc.
Qed.

Lemma grown_ext s s' A B S1 : (forall a x, A a x = B a x) -> grown s s' A S1 -> grown s s' B S1.
Proof. intros E [H1 H2 H3 H4 H5]. split; try done. intros a d Ha x. by rewrite <- E, (H4 a d). Qed.

(** What the output [o] appends to the file [x] of the writer at [a]. *)
Definition out_adds (day : Z) (p : bytes) (o : out) (a : nat) (x : string) : bytes :=
  match o with
  | Console => []
  | Filter f => if decide (inner f = a /\ containsLevel wide p (flevel f) = true /\ x = log_name (format_date day))
                then p else []
  end.

Definition out_shows (p : bytes) (o : out) : list bytes := match o with Console => [p] | Filter _ => [] end.

Definition out_known (s : LogSt) (o : out) : Prop :=
  match o with Console => True | Filter f => (inner f < length (heap s))%nat end.

Lemma out_write_ok o day p s : log_ok s -> out_known s o ->
  exists s', out_write wide o day p s = (Ok (Z.of_nat (length p)), s') /\ grown s s' (out_adds day p o) (out_shows p o).
Proof.
  intros Hs. destruct o as [|f]; cbn [out_known out_write out_adds out_shows].
  { intros _. unfold consoleWrite. rewrite (lo_stdout s Hs). eexists. split; [done|].
    split; try done; [by destruct Hs|]. intros. by rewrite app_nil_r. }
  intros Hf. unfold filterWrite. destruct (containsLevel wide p (flevel f)) eqn:Ec; cycle 1.
  { exists s. split; [done|]. eapply grown_ext; [|by apply grown_refl]. intros a x.
    unfold out_adds. by rewrite decide_False by (rewrite Ec; naive_solver). }
  destruct (lookup_lt_is_Some_2 (heap s) (inner f) Hf) as [w Hw]. unfold onWriter. rewrite Hw.
  destruct (Write_ok day p w (disk s (dir w)) (lo_writers s Hs _ _ Hw)) as (w' & f' & -> & Hok' & Hd' & Hadd).
  eexists. split; [done|].
  assert (Hdirs : dir <$> <[inner f := w']> (heap s) = dir <$> heap s).
  { rewrite list_fmap_insert, Hd'. apply list_insert_id. by rewrite list_lookup_fmap, Hw. }
  assert (Hdir : forall a d, (dir <$> heap s) !! a = Some d -> d = dir w <-> a = inner f).
  { intros a d Ha. split; [intros ->|intros ->; rewrite list_lookup_fmap, Hw in Ha; by injection Ha].
    eapply (NoDup_lookup _ _ _ _ (lo_dirs s Hs)); [done|]. by rewrite list_lookup_fmap, Hw. }
  split; cbn [heap set_disk set_heap disk output stdout stdout_fault]; try done.
  - split; cbn [heap set_disk set_heap disk stdout_fault]; [|by rewrite Hdirs; apply Hs|apply Hs].
    intros a v. destruct (decide (a = inner f)) as [->|Hne].
    + rewrite list_lookup_insert_eq by done. intros [= <-]. by rewrite Hd', String.eqb_refl.
    + rewrite list_lookup_insert_ne by done. intros Hv. destruct (String.eqb_spec (dir v) (dir w)) as [E|E].
      * exfalso. apply Hne, (Hdir a (dir v)); [by rewrite list_lookup_fmap, Hv|done].
      * by apply (lo_writers s Hs a).
  - intros a d Ha x. destruct (String.eqb_spec d (dir w)) as [->|Hne].
    + rewrite Hadd. f_equal. assert (a = inner f) as -> by (by apply (Hdir a (dir w))).
      unfold out_adds. repeat case_decide; naive_solver.
    + unfold out_adds. rewrite decide_False, app_nil_r; [done|]. intros (<- & _). by apply Hne, (Hdir (inner f)).
  - by rewrite app_nil_r.
Qed.

Lemma out_known_grown s s' A S1 o : grown s s' A S1 -> out_known s o -> out_known s' o.
Proof.
  intros Hg. destruct o as [|f]; cbn; [done|].
  by rewrite <- (length_fmap dir (heap s)), <- (gr_dirs _ _ _ _ Hg), length_fmap.
Qed.

(** What a list of outputs appends to a file, and shows. *)
Definition outs_add (day : Z) (p : bytes) (outs : list out) (a : nat) (x : string) : bytes :=
  concat ((fun o => out_adds day p o a x) <$> outs).
Definition outs_show (outs : list out) (p : bytes) : list bytes := concat (out_shows p <$> outs).

Lemma multi_write_ok outs day p s : log_ok s -> Forall (out_known s) outs ->
  exists s', multi_write wide outs day p s = (Ok tt, s') /\ grown s s' (outs_add day p outs) (outs_show outs p).
Proof.
  revert s; induction outs as [|o outs IH]; intros s Hs; cbn [multi_write].
  { intros _. exists s. split; [done|]. by apply grown_refl. }
  intros [Ho Houts]%Forall_cons. destruct (out_write_ok o day p s Hs Ho) as (s1 & E1 & Hg1).
  rewrite (bind_run_Ok _ _ _ _ _ E1), Z.eqb_refl.
  destruct (IH s1) as (s2 & -> & Hg2); [apply Hg1| |].
  { eapply Forall_impl; [exact Houts|]. intros o'. by apply (out_known_grown s s1 _ _ _ Hg1). }
  exists s2. split; [done|]. by apply (grown_trans _ _ _ _ _ _ _ Hg1 Hg2).
Qed.

(** ** A run of the logger *)

(** A call of [log.Printf]: the day, the time stamp, the message. *)
Definition entry_line (e : Z * string * string) : bytes := log_line e.1.2 e.2.

Fixpoint print_all (es : list (Z * string * string)) : St LogSt unit :=
  match es with
  | [] => ret tt
  | (day, stamp, msg) :: es' => Printf wide day stamp msg ;;; print_all es'
  end.

Lemma print_all_ok es s : log_ok s -> Forall (out_known s) (output s) ->
  exists s', print_all es s = (Ok tt, s') /\
    grown s s' (fun a x => concat ((fun e => outs_add e.1.1 (entry_line e) (output s) a x) <$> es))
               (concat ((fun e => outs_show (output s) (entry_line e)) <$> es)).
Proof.
  revert s; induction es as [|[[day stamp] msg] es IH]; intros s Hs Houts; cbn [print_all].
  { exists s. split; [done|]. by apply grown_refl. }
  destruct (multi_write_ok (output s) day (log_line stamp msg) s Hs Houts) as (s1 & E1 & Hg1).
  assert (E : Printf wide day stamp msg s = (Ok tt, s1)).
  { unfold Printf, get, ignore, attempt, bind. by rewrite E1. }
  rewrite (bind_run_Ok _ _ _ _ _ E). destruct (IH s1) as (s2 & -> & Hg2); [apply Hg1| |].
  { rewrite (gr_output _ _ _ _ Hg1). eapply Forall_impl; [exact Houts|]. intros o. by apply (out_known_grown s s1 _ _ _ Hg1). }
  exists s2. split; [done|]. rewrite (gr_output _ _ _ _ Hg1) in Hg2. by apply (grown_trans _ _ _ _ _ _ _ Hg1 Hg2).
Qed.

(** ** [Setup] *)

(** The filters of consecutive writers from address [n] on. *)
Fixpoint filters (n : nat) (levels : list string) : list out :=
  match levels with
  | [] => []
  | lvl :: levels' => Filter (MkFilter n lvl) :: filters (S n) levels'
  end.

Lemma add_levels d levels s ws :
  foldl (add_level d) (s, ws) levels =
  (set_fileWriters (fileWriters s ++ seq (length (heap s)) (length levels))
     (set_heap (heap s ++ (newDailyWriter d <$> levels)) s), ws ++ filters (length (heap s)) levels).
Proof.
  revert s ws; induction levels as [|lvl levels IH]; intros s ws.
  { destruct s. cbn. by rewrite !app_nil_r. }
  cbn [foldl add_level]. rewrite IH. cbn [heap fileWriters set_heap set_fileWriters].
  rewrite length_app, Nat.add_1_r, <- !app_assoc. done.
Qed.

Lemma filters_known s n levels : (n + length levels <= length (heap s))%nat -> Forall (out_known s) (filters n levels).
Proof.
  revert n; induction levels as [|lvl levels IH]; intros n Hn; cbn in *; constructor; cbn; [lia|]. apply IH. lia.
Qed.

Lemma filters_other day p n levels a x : (a < n)%nat -> outs_add day p (filters n levels) a x = [].
Proof.
  revert n; induction levels as [|lvl levels IH]; intros n Ha; [done|]. unfold outs_add in *.
  cbn [filters fmap list_fmap concat]. rewrite IH by lia. unfold out_adds. rewrite decide_False; [done|].
  cbn. intros [-> _]. lia.
Qed.

(** The one filter in front of a writer decides what it is given. *)
Lemma filters_add day p n levels k lvl x : levels !! k = Some lvl ->
  outs_add day p (filters n levels) (n + k) x
  = if decide (x = log_name (format_date day) /\ containsLevel wide p lvl = true) then p else [].
Proof.
  revert n k; induction levels as [|l levels IH]; intros n [|k]; intros Hk; try done.
  - injection Hk as ->. unfold outs_add. cbn [filters fmap list_fmap concat].
    change (concat _) with (outs_add day p (filters (S n) levels) (n + 0) x).
    rewrite filters_other, app_nil_r by lia. unfold out_adds. cbn [inner flevel].
    repeat case_decide; try done; exfalso; naive_solver lia.
  - cbn [lookup list_lookup] in Hk. specialize (IH (S n) k Hk). unfold outs_add in *.
    cbn [filters fmap list_fmap concat]. replace (n + S k)%nat with (S n + k)%nat by lia. rewrite IH.
    unfold out_adds at 1. rewrite decide_False; [done|]. cbn. intros [E _]. lia.
Qed.

Lemma filters_show n levels p : outs_show (filters n levels) p = [].
Proof. unfold outs_show. revert n; induction levels as [|l levels IH]; intros n; [done|]. apply IH. Qed.

Lemma outs_add_app day p o1 o2 a x : outs_add day p (o1 ++ o2) a x = outs_add day p o1 a x ++ outs_add day p o2 a x.
Proof. unfold outs_add. by rewrite fmap_app, concat_app. Qed.

Lemma outs_show_app o1 o2 p : outs_show (o1 ++ o2) p = outs_show o1 p ++ outs_show o2 p.
Proof. unfold outs_show. by rewrite fmap_app, concat_app. Qed.

(** The lines of [es] that the level file of a day should hold. *)
Definition lines_of (lvl : string) (day : Z) (es : list (Z * string * string)) : bytes :=
  concat (entry_line <$> filter (fun e => e.1.1 = day /\ containsLevel wide (entry_line e) lvl = true) es).

(** Days of the calendar up to the year 10^16. *)
Definition day_ok (day : Z) : Prop := (0 <= day < 2 ^ 62)%Z.

Lemma lines_of_adds outs a lvl day es : day_ok day -> Forall (fun e => day_ok e.1.1) es ->
  (forall d p x, outs_add d p outs a x
     = if decide (x = log_name (format_date d) /\ containsLevel wide p lvl = true) then p else []) ->
  concat ((fun e => outs_add e.1.1 (entry_line e) outs a (log_name (format_date day))) <$> es) = lines_of lvl day es.
Proof.
  intros Hd Hes Ha. induction Hes as [|e es He _ IH]; [done|]. unfold lines_of in *. cbn [fmap list_fmap concat].
  rewrite IH, Ha, filter_cons. clear IH Ha.
  assert (log_name (format_date day) = log_name (format_date e.1.1) <-> e.1.1 = day) as E.
  { split; [|by intros ->]. unfold log_name. intros E. apply (f_equal (fun s => TrimSuffix s ".log")) in E.
    rewrite !TrimSuffix_app in E. symmetry. by apply format_date_inj. }
  repeat case_decide; try done; exfalso; naive_solver.
Qed.

(** The logger after [Setup] has made its writers, before it prints. *)
Definition set_up (d : string) (con : bool) (levels : list string) (s : LogSt) : LogSt :=
  set_output ((if con then [Console] else []) ++ filters (length (heap s)) levels)
    (set_fileWriters (fileWriters s ++ seq (length (heap s)) (length levels))
      (set_heap (heap s ++ (newDailyWriter d <$> levels)) s)).

Lemma Setup_run day stamp d con levels es s :
  (Setup wide day stamp d con levels ;;; print_all es) s =
  print_all ((day, stamp, setup_message con (default_levels levels)) :: es) (set_up d con (default_levels levels) s).
Proof.
  unfold Setup. rewrite bind_bind. cbn [print_all]. erewrite bind_run_Ok; [|reflexivity]. by rewrite add_levels.
Qed.

Lemma new_writers_dirs d (levels : list string) : dir <$> (newDailyWriter d <$> levels) = Join d <$> levels.
Proof. rewrite <- list_fmap_compose. done. Qed.

Lemma set_up_ok d con levels s : heap s = [] -> (forall n, stdout_fault s n = None) -> NoDup (Join d <$> levels) ->
  (forall lvl, lvl ∈ levels -> good_dir (disk s (Join d lvl))) -> log_ok (set_up d con levels s).
Proof.
  intros Hh Hf Hnd Hg. split; cbn [heap set_up set_output set_fileWriters set_heap disk stdout_fault]; [|rewrite Hh; cbn [app]; by rewrite new_writers_dirs|done].
  rewrite Hh. cbn [app]. intros a w. rewrite list_lookup_fmap. destruct (levels !! a) as [lvl|] eqn:El; [|done].
  intros [= <-]. split; [|done]. apply Hg. by eapply list_elem_of_lookup_2.
Qed.

Lemma shown_lines (con : bool) n levels es :
  concat ((fun e => outs_show ((if con then [Console] else []) ++ filters n levels) (entry_line e)) <$> es)
  = if con then entry_line <$> es else [].
Proof.
  induction es as [|e es IH]; [by destruct con|]. cbn [fmap list_fmap concat].
  rewrite IH, outs_show_app, filters_show. by destruct con.
Qed.

(** C24.  On disks that work, from [Setup] on every call of [log.Printf]
    returns, the console shows every line in order when it is enabled, and the
    file of each level and day gains exactly the lines of that day that carry
    the level's tag, in order: also across changes of day in either direction
    and after a restart on the same directory.  The line [Setup] itself prints
    is one of them. *)
Theorem level_files_hold_their_lines day stamp d con levels es s :
  let ls := default_levels levels in
  let all := (day, stamp, setup_message con ls) :: es in
  heap s = [] -> (forall n, stdout_fault s n = None) -> NoDup (Join d <$> ls) ->
  (forall lvl, lvl ∈ ls -> good_dir (disk s (Join d lvl))) -> Forall (fun e => day_ok e.1.1) all ->
  exists s', (Setup wide day stamp d con levels ;;; print_all es) s = (Ok tt, s') /\
    stdout s' = stdout s ++ (if con then entry_line <$> all else []) /\
    forall lvl t, lvl ∈ ls -> day_ok t ->
      file_bytes (disk s' (Join d lvl)) (log_name (format_date t))
      = file_bytes (disk s (Join d lvl)) (log_name (format_date t)) ++ lines_of lvl t all.
Proof.
  intros ls all Hh Hf Hnd Hg Hdays. rewrite Setup_run. fold ls. fold all.
  pose proof (set_up_ok d con ls s Hh Hf Hnd Hg) as Hok.
  destruct (print_all_ok all (set_up d con ls s) Hok) as (s' & E & Hgr).
  { apply Forall_app. split; [by destruct con; repeat constructor|].
    apply filters_known. cbn [heap set_up set_output set_fileWriters set_heap]. by rewrite length_app, length_fmap. }
  exists s'. split; [done|]. split.
  - rewrite (gr_shown _ _ _ _ Hgr). cbn [stdout set_up set_output set_fileWriters set_heap output]. f_equal.
    apply shown_lines.
  - intros lvl t Hl Ht. apply list_elem_of_lookup_1 in Hl as [a Ha].
    rewrite (gr_files _ _ _ _ Hgr a (Join d lvl)); cycle 1.
    { cbn [heap set_up set_output set_fileWriters set_heap]. rewrite Hh. cbn [app].
      by rewrite new_writers_dirs, list_lookup_fmap, Ha. }
    f_equal. apply lines_of_adds; [done..|]. intros t' p x. cbn [output set_up set_output]. rewrite outs_add_app, Hh.
    cbn [length]. rewrite <- (filters_add t' p 0 ls a lvl x Ha). by destruct con.
Qed.

(** ** Under any faults *)

(** [w.buf] is there whenever [w.file] is. *)
Definition dw_safe (w : dailyWriter) : Prop := is_Some (file w) -> is_Some (buf w).

(** A call that returns, keeps the directory of the writer and its safety. *)
Definition tame {A} (m : St DW A) : Prop := forall w f, dw_safe w ->
  exists r w' f', m (w, f) = (r, (w', f')) /\ is_panic r = false /\ dw_safe w' /\ dir w' = dir w.

Lemma tame_ret {A} (a : A) : tame (ret a).
Proof. intros w f Hw. by eexists _, w, f. Qed.

Lemma tame_bind {A B} (m : St DW A) (k : A -> St DW B) : tame m -> (forall a, tame (k a)) -> tame (bind m k).
Proof.
  intros Hm Hk w f Hw. destruct (Hm w f Hw) as (r & w1 & f1 & E & Hr & Hw1 & Hd). unfold bind. rewrite E.
  destruct r as [a|e|q]; [|by eexists _, w1, f1|done].
  destruct (Hk a w1 f1 Hw1) as (r & w2 & f2 & E2 & Hr2 & Hw2 & Hd2). exists r, w2, f2. by rewrite Hd2.
Qed.

Lemma tame_attempt {A} (m : St DW A) : tame m -> tame (attempt m).
Proof.
  intros Hm w f Hw. destruct (Hm w f Hw) as (r & w1 & f1 & E & Hr & Hw1). unfold attempt. rewrite E.
  destruct r; [by eexists _, w1, f1..|done].
Qed.

Lemma tame_ignore {A} (m : St DW A) : tame m -> tame (ignore m).
Proof. intros Hm. apply tame_bind; [by apply tame_attempt|]. intros. apply tame_ret. Qed.

Lemma tame_onFS {A} (m : St FS A) : (forall f, is_panic (m f).1 = false) -> tame (onFS m).
Proof.
  intros Hm w f Hw. unfold onFS, zoom. cbn [snd fst]. specialize (Hm f). destruct (m f) as [r f1]. by exists r, w, f1.
Qed.

Lemma tame_modD g : (forall w, dw_safe w -> dw_safe (g w) /\ dir (g w) = dir w) -> tame (modD g).
Proof. intros Hg w f Hw. destruct (Hg w Hw) as [Hs Hd]. by exists (Ok tt), (g w), f. Qed.

Lemma syscall_calm {A} (m : St FS A) f : (forall g, is_panic (m g).1 = false) -> is_panic (syscall m f).1 = false.
Proof. intros Hm. unfold syscall. by destruct (fault_now f) as [[]|]. Qed.

Lemma BufFlush_calm b f : is_panic (BufFlush (b, f)).1 = false.
Proof.
  destruct (BufFlush (b, f)) as [r [b' f']] eqn:E. destruct (BufFlush_spec _ _ _ _ _ E) as (_ & _ & _ & Hr).
  destruct r as [[]|e|q]; try done. by destruct Hr as (e & He & _).
Qed.

Lemma BufWrite_calm p b f : is_panic (BufWrite p (b, f)).1 = false.
Proof.
  destruct (BufWrite p (b, f)) as [r [b' f']] eqn:E. destruct (BufWrite_spec _ _ _ _ _ _ E) as (_ & _ & _ & _ & Hr).
  destruct r as [z|e|q]; try done. by destruct (Hr q).
Qed.

Lemma FileClose_calm h f : is_panic (FileClose h f).1 = false.
Proof. unfold FileClose. destruct (fd_ino h f); [|done]. by destruct (fault_now f) as [[]|]. Qed.

(** A call on the buffer of a writer that has a file. *)
Lemma onBuf_tame {A} (m : St (BufWriter * FS) A) w f : (forall b g, is_panic (m (b, g)).1 = false) ->
  is_Some (file w) -> dw_safe w ->
  exists r w' f', onBuf m (w, f) = (r, (w', f')) /\ is_panic r = false /\ dw_safe w' /\ dir w' = dir w /\ file w' = file w.
Proof.
  intros Hm Hf Hw. unfold onBuf. cbn [fst snd]. destruct (Hw Hf) as [b ->]. specialize (Hm b f).
  destruct (m (b, f)) as [r [b' f']]. eexists r, _, f'. split; [done|]. split; [done|]. split; [|done].
  intros _. by eexists.
Qed.

Lemma close_file_tame : tame close_file.
Proof.
  intros w f Hw. unfold close_file. rewrite (bind_run_Ok getD _ (w, f) w (w, f)) by done.
  destruct (file w) as [h|] eqn:Eh; [|by eexists _, w, f].
  destruct (onBuf_tame BufFlush w f) as (r & w1 & f1 & E & Hr & Hw1 & Hd1 & _); [apply BufFlush_calm|by rewrite Eh|done|].
  assert (E' : ignore (onBuf BufFlush) (w, f) = (Ok tt, (w1, f1))).
  { unfold ignore, attempt, bind. rewrite E. by destruct r. }
  rewrite (bind_run_Ok _ _ _ _ _ E').
  destruct (tame_ignore (onFS (FileClose h)) (tame_onFS _ (FileClose_calm h)) w1 f1 Hw1) as (r2 & w2 & f2 & E2 & Hr2 & Hw2 & Hd2).
  exists r2, w2, f2. by rewrite Hd2.
Qed.

Lemma rotate_tame t : tame (rotate t).
Proof.
  apply tame_bind; [apply close_file_tame|intros _]. apply tame_bind.
  { apply tame_attempt, tame_onFS. intros f. by apply syscall_calm. }
  intros [u|e|q]; [|apply tame_ret..]. apply tame_bind.
  - apply tame_attempt, tame_onFS. intros f. apply syscall_calm. intros g. repeat case_match; by simplify_eq.
  - intros [h|e|q]; apply tame_modD; intros w Hw; (split; [|done]); intros H; cbn in *; [done|by destruct H..].
Qed.

Lemma Write_tame day p : tame (Write day p).
Proof.
  intros w f Hw. unfold Write. rewrite (bind_run_Ok getD _ (w, f) w (w, f)) by done.
  assert (tame (if String.eqb (today w) (format_date day) then ret tt else rotate (format_date day))) as Ht
    by (destruct (String.eqb _ _); [apply tame_ret|apply rotate_tame]).
  destruct (Ht w f Hw) as (r & w1 & f1 & E & Hr & Hw1 & Hd1). unfold bind at 1. rewrite E.
  destruct r as [u|e|q]; [|by eexists _, w1, f1|done].
  rewrite (bind_run_Ok getD _ (w1, f1) w1 (w1, f1)) by done.
  destruct (file w1) as [h|] eqn:Eh; [|by eexists _, w1, f1].
  destruct (onBuf_tame (BufWrite p) w1 f1) as (r & w2 & f2 & E2 & Hr2 & Hw2 & Hd2 & Hf2); [apply BufWrite_calm|by rewrite Eh|done|].
  unfold bind at 1. rewrite E2. destruct r as [z|e|q]; [|exists (Err e), w2, f2; by rewrite Hd2|done].
  destruct (onBuf_tame BufFlush w2 f2) as (r & w3 & f3 & E3 & Hr3 & Hw3 & Hd3 & _); [apply BufFlush_calm|by rewrite Hf2, Eh|done|].
  unfold ignore, attempt, bind. rewrite E3. exists (Ok z), w3, f3. rewrite Hd3, Hd2. by destruct r.
Qed.

Lemma CloseDaily_tame : tame CloseDaily.
Proof.
  intros w f Hw. unfold CloseDaily. rewrite (bind_run_Ok getD _ (w, f) w (w, f)) by done.
  assert (tame (close_file ;;; modD (fun w => set_file None (buf w) w))) as Ht.
  { apply tame_bind; [apply close_file_tame|intros _]. apply tame_modD. intros v _. split; [|done]. by intros [? ?]. }
  destruct (file w); [by apply Ht|by eexists _, w, f].
Qed.

(** ** The whole logger under any faults *)

Record log_safe (s : LogSt) : Prop := {
  ls_heap : Forall dw_safe (heap s);
  ls_output : Forall (out_known s) (output s);
  ls_files : Forall (fun a => (a < length (heap s))%nat) (fileWriters s);
}.

(** Calls that keep the safe states, and never panic. *)
Definition sound {A} (m : St LogSt A) : Prop := hoare log_safe m (fun r s => is_panic r = false /\ log_safe s).

(** The state differs in the contents of writers and disks only. *)
Definition same_shape (s s' : LogSt) : Prop :=
  length (heap s') = length (heap s) /\ output s' = output s /\ fileWriters s' = fileWriters s.

Lemma log_safe_shape s s' : same_shape s s' -> Forall dw_safe (heap s') -> log_safe s -> log_safe s'.
Proof.
  intros (Hl & Ho & Hf) Hh [_ H2 H3]. split; [done|..].
  - rewrite Ho. eapply Forall_impl; [exact H2|]. intros []; cbn; [done|lia].
  - rewrite Hf. eapply Forall_impl; [exact H3|]. cbn. lia.
Qed.

Lemma onWriter_safe {A} a (m : St DW A) s : tame m -> log_safe s -> (a < length (heap s))%nat ->
  is_panic (onWriter a m s).1 = false /\ log_safe (onWriter a m s).2 /\ same_shape s (onWriter a m s).2.
Proof.
  intros Hm Hs Ha. destruct (lookup_lt_is_Some_2 _ _ Ha) as [w Hw]. unfold onWriter. rewrite Hw.
  assert (Hsafe : dw_safe w) by (by eapply Forall_lookup_1; [apply (ls_heap s Hs)|]).
  destruct (Hm w (disk s (dir w)) Hsafe) as (r & w' & f' & -> & Hr & Hw' & _). cbn [fst snd].
  assert (same_shape s (set_disk (fun x => if String.eqb x (dir w) then f' else disk s x) (set_heap (<[a := w']> (heap s)) s))) as Hsh
    by (split_and!; cbn; by rewrite ?length_insert).
  split_and!; try done; try apply Hsh. apply (log_safe_shape s); [done| |done]. cbn. apply Forall_insert; [apply Hs|done].
Qed.

Lemma out_write_safe o day p s : log_safe s -> out_known s o ->
  is_panic (out_write wide o day p s).1 = false /\ log_safe (out_write wide o day p s).2 /\
  same_shape s (out_write wide o day p s).2.
Proof.
  intros Hs Ho. destruct o as [|f]; cbn [out_write].
  - unfold consoleWrite. destruct (stdout_fault s _); (split_and!; try done); apply (log_safe_shape s); try done; apply Hs.
  - unfold filterWrite. destruct (containsLevel _ _ _); [|done]. apply onWriter_safe; [apply Write_tame|done..].
Qed.

Lemma multi_write_safe outs day p s : log_safe s -> Forall (out_known s) outs ->
  is_panic (multi_write wide outs day p s).1 = false /\ log_safe (multi_write wide outs day p s).2.
Proof.
  revert s; induction outs as [|o outs IH]; intros s Hs; [done|]. intros [Ho Houts]%Forall_cons. cbn [multi_write].
  destruct (out_write_safe o day p s Hs Ho) as (Hp & Hs1 & Hsh). unfold bind.
  destruct (out_write wide o day p s) as [[n|e|q] s1]; cbn [fst snd] in *; [|done..].
  destruct (Z.eqb n _); [|done]. apply IH; [done|]. eapply Forall_impl; [exact Houts|].
  destruct Hsh as (Hl & _). intros []; cbn; [done|lia].
Qed.

Lemma Printf_safe day stamp msg : sound (Printf wide day stamp msg).
Proof.
  intros s Hs. unfold Printf, get, ignore, attempt, bind.
  destruct (multi_write_safe (output s) day (log_line stamp msg) s Hs (ls_output s Hs)) as [Hp Hs'].
  by destruct (multi_write _ _ _ _ s) as [[] s'].
Qed.

Lemma close_all_safe ws s : log_safe s -> Forall (fun a => (a < length (heap s))%nat) ws ->
  (close_all ws s).1 = Ok tt /\ log_safe (close_all ws s).2.
Proof.
  revert s; induction ws as [|a ws IH]; intros s Hs; [done|]. intros [Ha Hws]%Forall_cons. cbn [close_all].
  destruct (onWriter_safe a CloseDaily s CloseDaily_tame Hs Ha) as (Hp & Hs1 & Hl & _).
  unfold ignore, attempt, bind. destruct (onWriter a CloseDaily s) as [[[]|e|q] s1]; cbn [fst snd ret] in *; [| |done];
    (apply IH; [done|]; by rewrite Hl).
Qed.

Inductive log_op :=
  | OSetup (day : Z) (stamp d : string) (con : bool) (levels : list string)
  | OPrintf (day : Z) (stamp msg : string)
  | OClose.

Definition run_op (o : log_op) : St LogSt unit :=
  match o with
  | OSetup day stamp d con levels => Setup wide day stamp d con levels
  | OPrintf day stamp msg => Printf wide day stamp msg
  | OClose => Close
  end.

Lemma set_up_safe d con levels s : log_safe s -> log_safe (set_up d con levels s).
Proof.
  intros [H1 H2 H3]. split; cbn [heap set_up set_output set_fileWriters set_heap output fileWriters].
  - apply Forall_app. split; [done|]. apply Forall_fmap, Forall_true. intros lvl [? ?]. done.
  - apply Forall_app. split; [by destruct con; repeat constructor|]. apply filters_known.
    cbn [heap set_up set_output set_fileWriters set_heap]. by rewrite length_app, length_fmap.
  - rewrite length_app, length_fmap. apply Forall_app. split; [eapply Forall_impl; [exact H3|]; cbn; lia|].
    apply Forall_forall. intros a Ha%elem_of_seq. lia.
Qed.

Lemma run_op_safe o : sound (run_op o).
Proof.
  intros s Hs. destruct o as [day stamp d con levels|day stamp msg|]; cbn [run_op].
  - unfold Setup. erewrite bind_run_Ok; [|reflexivity]. rewrite add_levels. by apply Printf_safe, set_up_safe.
  - by apply Printf_safe.
  - unfold Close, get, modify. unfold bind at 1. destruct (close_all_safe (fileWriters s) s Hs (ls_files s Hs)) as [Hp Hs1].
    unfold bind. destruct (close_all (fileWriters s) s) as [r s1]; cbn [fst snd] in *. subst r.
    split; [done|]. destruct Hs1 as [H1 H2 _]. split; cbn; [done|done|constructor].
Qed.

(** The list of files is emptied by [Close] and not touched by a line. *)
Lemma Close_files s : log_safe s -> fileWriters (Close s).2 = [].
Proof.
  intros Hs. unfold Close, get, bind. destruct (close_all_safe (fileWriters s) s Hs (ls_files s Hs)) as [Hp _].
  destruct (close_all (fileWriters s) s) as [r s1]. cbn in Hp. by subst r.
Qed.

Lemma onWriter_files {A} ws a (m : St DW A) : keeps (fun s => fileWriters s = ws) (onWriter a m).
Proof.
  intros s Hs. unfold onWriter. destruct (heap s !! a) as [w|]; [|done]. by destruct (m (w, disk s (dir w))) as [r [w' f']].
Qed.

Lemma Printf_files ws day stamp msg : keeps (fun s => fileWriters s = ws) (Printf wide day stamp msg).
Proof.
  apply keeps_bind; [by intros s|]. intros s. apply keeps_ignore. generalize (output s) as outs.
  induction outs as [|o outs IH]; [apply keeps_ret|]. apply keeps_bind.
  - destruct o as [|f]; cbn [out_write].
    + intros s' Hs. unfold consoleWrite. by destruct (stdout_fault s' _).
    + unfold filterWrite. destruct (containsLevel _ _ _); [apply onWriter_files|apply keeps_ret].
  - intros n. destruct (Z.eqb _ _); [exact IH|apply keeps_fail].
Qed.

Fixpoint run_ops (os : list log_op) : St LogSt unit :=
  match os with [] => ret tt | o :: os' => run_op o ;;; run_ops os' end.

(** The process before the first [Setup]: the logger writes to one stream. *)
Definition fresh_log (dk : string -> FS) (faults : nat -> option error) : LogSt := MkLog [] [] [Console] dk [] faults.

(** Whatever calls of the operating system fail, and in whatever
    order the logger is set up (again), used and closed, also after [Close],
    no call of the package panics. *)
Theorem logging_never_panics os dk faults :
  is_panic (run_ops os (fresh_log dk faults)).1 = false.
Proof.
  assert (Hs : log_safe (fresh_log dk faults)) by (split; by repeat constructor).
  revert Hs. generalize (fresh_log dk faults) as s.
  induction os as [|o os IH]; intros s Hs; [done|]. cbn [run_ops]. unfold bind.
  destruct (run_op_safe o s Hs) as [Hp Hs1]. destruct (run_op o s) as [[u|e|q] s1]; [by apply IH|done..].
Qed.

(** C30.  The byte-wise search of [containsLevel], which compares every
    window of the line under Unicode case folding, is the reference
    "somewhere in the line stands the level in brackets, in any case", for a
    level written in ASCII: no other text folds to the tag. *)
Theorem contains_level_iff p lvl :
  Forall ascii_byte (list_ascii_of_string lvl) ->
  containsLevel wide p lvl = true <-> exists a m b, p = a ++ m ++ b /\ same_letters m (level_tag lvl).
Proof. intros H. apply contains_from_spec; [apply level_tag_length|by apply level_tag_ascii]. Qed.
End logger.

(** ** Concrete runs *)

Module logging_demo.
Definition no_wide (_ _ : Z) : bool := false.

(** Directories that do not exist yet, on disks that work or that fail. *)
Definition no_dir (fault : nat -> option (nat * error)) : FS := MkFS None ∅ ∅ 0 0 fault.
Definition healthy : LogSt := fresh_log (fun _ => no_dir (fun _ => None)) (fun _ => None).

Lemma no_dir_good : good_dir (no_dir (fun _ => None)).
Proof.
  assert (He : forall x, entry (no_dir (fun _ => None)) x = None) by (intros x; apply lookup_empty).
  split; [|done|by intros x; rewrite He]. split; [intros n i; by rewrite He|intros n1 n2 i; by rewrite He|done].
Qed.

Definition day1 : Z := 739000.
Definition some_lines : list (Z * string * string) :=
  [(day1, "2024/04/25 10:00:00 ", "[ERROR] wal: disk full"); (day1, "2024/04/25 10:00:01 ", "[INFO] fine");
   ((day1 + 1)%Z, "2024/04/26 00:00:00 ", "[Error] again"); (day1, "2024/04/25 23:59:59 ", "[error] late")].

Definition file_text (s : LogSt) (d : string) (day : Z) : string :=
  string_of_list_ascii (file_bytes (disk s d) (log_name (format_date day))).

(** The state after a run. *)
Definition after (os : list log_op) (s : LogSt) : LogSt := (run_ops no_wide os s).2.
Definition prints (es : list (Z * string * string)) : list log_op := (fun e => OPrintf e.1.1 e.1.2 e.2) <$> es.

Definition nl : string := String "010" "".

Example two_days :
  let s := after (OSetup day1 "T " "logs" true [] :: prints some_lines) healthy in
  (file_text s "logs/error" day1, file_text s "logs/error" (day1 + 1), file_text s "logs/warn" day1, length (stdout s))
  = ("2024/04/25 10:00:00 [ERROR] wal: disk full" +:+ nl +:+ "2024/04/25 23:59:59 [error] late" +:+ nl,
     "2024/04/26 00:00:00 [Error] again" +:+ nl, "", 5).
Proof. vm_compute. reflexivity. Qed.

(** With a single level the line that [Setup] prints is taken for one of that
    level: [file_levels] is printed in brackets. *)
Example setup_line_taken_for_an_error :
  file_text (after [OSetup day1 "T " "logs" false ["error"]] healthy) "logs/error" day1
  = "T [INFO] logging initialized: console=false file_levels=[error]" +:+ nl.
Proof. vm_compute. reflexivity. Qed.

(** A structured line has its level in a JSON field and reaches no file. *)
Example json_line_reaches_no_file :
  containsLevel no_wide (list_ascii_of_string (String "034" "level" +:+ String "034" ":" +:+ String "034" "error" +:+ String "034" "")) "error"
  = false.
Proof. vm_compute. reflexivity. Qed.

(** A console that cannot be written starves the level files, which stand
    behind it in the same [io.MultiWriter]. *)
Example broken_console_starves_files :
  let s := fresh_log (fun _ => no_dir (fun _ => None)) (fun _ => Some (SysError "broken pipe")) in
  file_text (after (OSetup day1 "T " "logs" true [] :: prints some_lines) s) "logs/error" day1 = "".
Proof. vm_compute. reflexivity. Qed.

(** After [Close] the lines of the day are dropped without an error; the next
    day opens a file again, which nothing closes. *)
Example lines_after_close :
  let s := after (OSetup day1 "T " "logs" false [] :: OPrintf day1 "A " "[error] a" :: OClose ::
                  prints [(day1, "B ", "[error] b"); ((day1 + 1)%Z, "C ", "[error] c")]) healthy in
  (file_text s "logs/error" day1, file_text s "logs/error" (day1 + 1), fileWriters s)
  = ("A [error] a" +:+ nl, "C [error] c" +:+ nl, []).
Proof. vm_compute. reflexivity. Qed.
End logging_demo.

Lemma level_files_hold_their_lines_witness :
  exists s', (Setup logging_demo.no_wide logging_demo.day1 "T " "logs" true [] ;;;
              print_all logging_demo.no_wide logging_demo.some_lines) logging_demo.healthy = (Ok tt, s') /\
    file_bytes (disk s' "logs/error") "2024-04-25.log"
    = list_ascii_of_string ("2024/04/25 10:00:00 [ERROR] wal: disk full" +:+ logging_demo.nl +:+
                            "2024/04/25 23:59:59 [error] late" +:+ logging_demo.nl).
Proof.
  destruct (level_files_hold_their_lines logging_demo.no_wide logging_demo.day1 "T " "logs" true []
              logging_demo.some_lines logging_demo.healthy) as (s' & E & _ & Hf).
  - reflexivity.
  - reflexivity.
  - apply (bool_decide_unpack _). vm_compute. exact I.
  - intros lvl _. apply logging_demo.no_dir_good.
  - repeat constructor; vm_compute; (done || (split; congruence)).
  - exists s'. split; [exact E|].
    refine (eq_trans (Hf "error" logging_demo.day1 _ _) _).
    + left.
    + split; vm_compute; congruence.
    + vm_compute. reflexivity.
Defined.

Lemma contains_level_iff_witness :
  exists a m b, list_ascii_of_string "10:00 [ERROR] x" = a ++ m ++ b /\ same_letters m (level_tag "error").
Proof.
  apply (contains_level_iff logging_demo.no_wide); [repeat constructor|]. vm_compute. reflexivity.
Defined.
