(* ===== verification/LogLines.v ===== *)
(** * Structured log lines (LogJSON, logJSON and LoggingMiddleware)

    One JSON object per line, made of strings that come from requests:
    identifiers from headers, paths, error texts.  The lines are handed to
    the standard logger of [Logging]. *)

From Stdlib Require Import ZArith Lia Ascii String.
From stdpp Require Import base tactics numbers strings gmap list.
From S2P Require Import Prelude GoStrings GoOs GoUtf8 GoText GoFloat GoTime GoCrypto Message Json JsonEncode JsonCompact JsonEnvelope JsonEntry Gin Server Logging LoggingTheorems.

Module loglines.
Import jsonenc jsonmsg logging.
Local Open Scope go_scope.

(** ** The entry *)

Record JSONLogEntry := MkJSONLogEntry {
  le_Timestamp : string; le_Level : string; le_Message : string; le_RequestID : string;
  le_TraceID : string; le_Project : string; le_Error : string }.

(** [json.Marshal(entry)] cannot fail: every field is a string. *)
Definition entry_fields (e : JSONLogEntry) : list (string * bytes) :=
  [("timestamp", quote_string (le_Timestamp e)); ("level", quote_string (le_Level e));
   ("message", quote_string (le_Message e))] ++
  unless_empty "request_id" (le_RequestID e) ++ unless_empty "trace_id" (le_TraceID e) ++
  unless_empty "project" (le_Project e) ++ unless_empty "error" (le_Error e).

Definition MarshalEntry (e : JSONLogEntry) : bytes := obj (entry_fields e).

(** [log.Println]. *)
Definition println_line (stamp : string) (text : bytes) : bytes := bytes_of stamp ++ text ++ ["010"%char].

Section lines.
Context (wide : Z -> Z -> bool).

Definition Println (day : Z) (stamp : string) (text : bytes) : St LogSt unit :=
  s <- get ;; ignore (multi_write wide (output s) day (println_line stamp text)).

(** [now] is [time.Now().UTC()]. *)
Definition LogJSON (day : Z) (stamp : string) (now : Time) (level msg requestID traceID project errStr : string) :
    St LogSt unit :=
  Println day stamp (MarshalEntry (MkJSONLogEntry (rfc3339nano now) level msg requestID traceID project errStr)).

(** The copy of [LogJSON] in package [server]. *)
Definition logJSON (day : Z) (stamp : string) (now : Time) (level msg requestID traceID project errStr : string) :
    St LogSt unit :=
  Println day stamp (MarshalEntry (MkJSONLogEntry (rfc3339nano now) level msg requestID traceID project errStr)).

(** What is logged for a request after it was served. *)
Definition request_text (method path : string) (status duration : Z) : string :=
  "method=" +:+ method +:+ " path=" +:+ path +:+ " status=" +:+ Itoa status +:+ " duration=" +:+ Duration_String duration.

Definition LoggingMiddleware (day : Z) (stamp : string) (now : Time) (method path : string) (status duration : Z)
    (c : gin.Context) : St LogSt unit :=
  let '(requestID, traceID) := server.log_ids c in
  logJSON day stamp now "info" "request" requestID traceID "" (request_text method path status duration).
End lines.
End loglines.

Import json jsonenc jsoncompact jsonmsg loglines.

(** ** Nothing below the blank *)

Lemma unless_empty_printable k s : Forall (fun kt : string * bytes => Forall printable kt.2) (unless_empty k s).
Proof. unfold unless_empty. destruct (String.eqb _ _); [constructor|]. apply Forall_cons. split; [apply quote_string_printable|constructor]. Qed.

Lemma entry_printable e : Forall printable (MarshalEntry e).
Proof.
  unfold MarshalEntry, obj. constructor; [done|]. apply Forall_app. split; [|by repeat constructor]. apply fields_printable.
  unfold entry_fields. rewrite !Forall_app. split_and!; try apply unless_empty_printable.
  do 3 (apply Forall_cons; split; [apply quote_string_printable|]). constructor.
Qed.

(** ** What a line says *)

Definition optional (k s : string) : list (bytes * (bytes * jval)) := if String.eqb s "" then [] else [named k (str s)].

Definition entry_value (e : JSONLogEntry) : jval :=
  JObj ([named "timestamp" (str (le_Timestamp e)); named "level" (str (le_Level e)); named "message" (str (le_Message e))] ++
        optional "request_id" (le_RequestID e) ++ optional "trace_id" (le_TraceID e) ++
        optional "project" (le_Project e) ++ optional "error" (le_Error e)).

(** A string field with its text and value, left out when empty. *)
Definition opt_field (k s : string) : list field := if String.eqb s "" then [] else [(k, quote_string s, str s)].

Lemma opt_field_text k s : field_text <$> opt_field k s = unless_empty k s.
Proof. unfold opt_field, unless_empty. by destruct (String.eqb s ""). Qed.

Lemma opt_field_reads k s d : Forall (fun x : field => reads 1 d x.1.2 x.2) (opt_field k s).
Proof. unfold opt_field. destruct (String.eqb s ""); [constructor|]. apply Forall_cons. split; [apply reads_string|constructor]. Qed.

Lemma entry_reads e : exists w, parse (MarshalEntry e) = Some w /\ erase w = erase (entry_value e).
Proof.
  set (fs := [("timestamp", quote_string (le_Timestamp e), str (le_Timestamp e)); ("level", quote_string (le_Level e), str (le_Level e));
              ("message", quote_string (le_Message e), str (le_Message e))] ++
             opt_field "request_id" (le_RequestID e) ++ opt_field "trace_id" (le_TraceID e) ++
             opt_field "project" (le_Project e) ++ opt_field "error" (le_Error e) : list field).
  assert (Et : entry_fields e = field_text <$> fs).
  { unfold fs, entry_fields. by rewrite !fmap_app, !opt_field_text. }
  assert (Ev : entry_value e = JObj (field_val <$> fs)).
  { unfold fs, entry_value. rewrite !fmap_app. f_equal. f_equal. unfold optional, opt_field.
    by destruct (String.eqb (le_RequestID e) ""), (String.eqb (le_TraceID e) ""), (String.eqb (le_Project e) ""), (String.eqb (le_Error e) ""). }
  unfold MarshalEntry. rewrite Et, Ev. apply (reads_parse (S (1 + length fs))). apply reads_obj; [done| |done].
  unfold fs. rewrite !Forall_app. split_and!; try apply opt_field_reads.
  do 3 (apply Forall_cons; split; [apply reads_string|]). constructor.
Qed.

(** C28.  A structured log entry is one line, whatever is in it: the text
    holds no control character, so no identifier, path or error text of a
    request can end the line or start another, and it reads back as the entry
    with exactly the fields that were given, the empty optional ones left out.
    What the logger is given is the time stamp, the text and the end of line. *)
Theorem log_entry_is_one_line wide day stamp now level msg requestID traceID project errStr s :
  let e := MkJSONLogEntry (rfc3339nano now) level msg requestID traceID project errStr in
  let text := MarshalEntry e in
  Forall printable text /\
  (exists w, parse text = Some w /\ erase w = erase (entry_value e)) /\
  LogJSON wide day stamp now level msg requestID traceID project errStr s =
    ignore (logging.multi_write wide (logging.output s) day (bytes_of stamp ++ text ++ ["010"%char])) s.
Proof. cbn zeta. split; [apply entry_printable|]. split; [apply entry_reads|]. done. Qed.

(** ** Headers and the level files *)

Definition forged : gin.Context :=
  gin.Set_ "request_id" (gin.CString "r1") (gin.MkContext ∅ {["X-Trace-Id" := "[error]"]} None [] ∅).

(** A client that sends the header X-Trace-Id with the value [error] in brackets has its requests
    logged among the errors, while entries of level error are not. *)
Example trace_id_reaches_the_error_file :
  (logging_demo.file_text
     (LoggingMiddleware logging_demo.no_wide logging_demo.day1 "T " (MkTime 0 0) "GET" "/x" 200 1000 forged
        (logging_demo.after [OSetup logging_demo.day1 "T " "logs" false []] logging_demo.healthy)).2
     "logs/error" logging_demo.day1 <> "") /\
  logging_demo.file_text
     (LogJSON logging_demo.no_wide logging_demo.day1 "T " (MkTime 0 0) "error" "dispatch failed" "r1" "t1" "shop" "refused"
        (logging_demo.after [OSetup logging_demo.day1 "T " "logs" false []] logging_demo.healthy)).2
     "logs/error" logging_demo.day1 = "".
Proof. split; [vm_compute; discriminate|vm_compute; reflexivity]. Qed.
