(* ===== verification/Gateway.v ===== *)
(** * Starting and stopping the gateway (internal/server/server.go)

    [New] reads the configuration, sets the logger up, opens the write-ahead
    log, builds the pools of every enabled project, starts the replayer and
    registers the health probes; [Run] serves until a signal and takes the
    pools and the log down; [Close] releases the rest.  The state [New] builds
    is the one the upload route ([Server]) and the replayer ([Replay]) work on.

    The YAML decoder, fsnotify, the goroutine pool and the HTTP server are not
    part of the repository: what they answer is a parameter. *)

From Stdlib Require Import ZArith Lia Ascii String.
From stdpp Require Import base tactics numbers strings gmap list.
From S2P Require Import Prelude GoStrings GoText GoOs Message Threads Sink ConfigPkg Pipeline Gin RateLimit Observability Auth Dispatcher SinkAdapters Server Wal JsonEntry SinkWal Logging.

Module gateway.
Local Open Scope go_scope.

(** What a library answers: an error or a value. *)
Definition returns {A} (x : error + A) : result A := match x with inl e => Err e | inr a => Ok a end.

Definition resolveBackpressure (s : string) : sink.Backpressure :=
  let s := ToLower s in
  if String.eqb s "block" then sink.BackpressureBlock
  else if String.eqb s "fallback" then sink.BackpressureFallback
  else sink.BackpressureDrop.

(** [nil] when no log is needed. *)
Definition initWAL (cfg : config.Config) (bp : sink.Backpressure) : St FS (option wal.Writer) :=
  if negb (bool_decide (bp = sink.BackpressureFallback)) && negb (config.WALEnabled (config.WAL cfg)) then ret None else
  let w := config.WAL cfg in
  w <- wrapErr "wal init" (wal.NewWriter (wal.MkConfig (config.WALDir w) (config.MaxSegmentBytes w)
                                            (config.MaxSegments w) (config.SyncInterval w))) ;;
  ret (Some w).

Section gateway.
Context {CR : Type} `{adapters.RedisClient CR} {CK : Type} `{adapters.KafkaWriter CK}.
Context `{RateLimiter}.

(** ** The sinks the gateway knows *)

Abbreviation AnySink := (adapters.RedisSink (C := CR) + adapters.KafkaSink (C := CK))%type.

Definition either {A} (l : St (adapters.RedisSink (C := CR)) A) (r : St (adapters.KafkaSink (C := CK)) A) : St AnySink A :=
  fun s => match s with
           | inl x => let '(a, x') := l x in (a, inl x')
           | inr x => let '(a, x') := r x in (a, inr x')
           end.

#[export] Instance any_sink : Sink AnySink := {
  Name := "";
  Send cancelled m := either (adapters.RedisSend cancelled m) (adapters.KafkaSend cancelled m);
  HealthCheck := either (HealthCheck (Sink := adapters.redis_sink "")) (HealthCheck (Sink := adapters.kafka_sink ""));
  SinkClose := either (SinkClose (Sink := adapters.redis_sink "")) (SinkClose (Sink := adapters.kafka_sink ""));
}.

Definition mapR {A B} (f : A -> B) (r : result A) : result B :=
  match r with Ok a => Ok (f a) | Err e => Err e | Panic p => Panic p end.

(** [reg := sink.NewRegistry(); reg.Register("redis", ...); ...]. *)
Definition registry (ep : adapters.EnvPool) : sink.Registry (Cfg := anymap) (A := AnySink) :=
  sink.Register "kafka" (fun name cfg => mapR inr (adapters.KafkaSinkFactory ep name cfg))
    (sink.Register "redis" (fun name cfg => mapR inl (adapters.RedisSinkFactory ep name cfg)) sink.NewRegistry).

(** ** The outside world *)

(** The files that can be read, and the clock. *)
Record Host := MkHost { h_file : string -> error + bytes; h_now : Z; h_day : Z; h_stamp : string }.

(** What a reload of the configuration reads and changes: [rlMgr] is nil
    until it is made. *)
Abbreviation World := (Host * option ratelimit.Manager)%type.
Abbreviation Disp := (project.Dispatcher World AnySink wal.WalSt).

Context (wide : Z -> Z -> bool) (yaml : bytes -> error + config.Config).
Context (newWatcher : option error) (addFile : string -> option error) (newAnts : Z -> option error).
(* gin, asked to add routes one after the other: what it panics with. *)
Context (addRoutes : list (string * string) -> option string).
Context (took : AnySink -> Z) (ep : adapters.EnvPool).

Definition readFile (p : string) : St World bytes := fun w => (returns (h_file w.1 p), w).
Definition decode (b : bytes) : result config.Config := returns (yaml b).
Definition answer {S} (e : option error) : St S unit := fun s => (match e with Some e => Err e | None => Ok tt end, s).

(** The callback [ratelimit.NewManager] registers. *)
Definition limit_reloaded (c : config.Config) : St World unit := fun w =>
  match w.2 with
  | None => (Panic "nil pointer dereference", w)
  | Some m => let '(r, m') := ratelimit.updateGlobalLimiter (h_now w.1) (config.GlobalRateLimit (config.Server c)) m in
              (r, (w.1, Some m'))
  end.

(** ** Health probes *)

(** [observability.SinkProbe]: [took] is how long the sink takes to answer.
    The world of the health checker are the sinks, by address. *)
Definition SinkProbe (si : nat) : observability.Probe (list AnySink) := fun sinks =>
  match sinks !! si with
  | None => observability.MkProbeRun (Panic "nil pointer dereference") 0
  | Some s => observability.MkProbeRun (HealthCheck s).1 (took s)
  end.

Fixpoint register_all (infos : list project.SinkInfo) : St (observability.HealthChecker (list AnySink)) unit :=
  match infos with
  | [] => ret tt
  | info :: infos' => observability.Register (project.si_Name info) (SinkProbe (project.si_Sink info)) ;;; register_all infos'
  end.

Definition registerSinkProbes (d : Disp) : St (observability.HealthChecker (list AnySink)) unit :=
  register_all (project.SinkInfos d) ;;;
  observability.Register "gateway" (fun _ => observability.MkProbeRun (Ok tt) 0).

(** ** [New] *)

(** While [New] runs.  The configuration manager and the log belong to the
    dispatcher once there is one. *)
Record Boot := MkBoot {
  b_host : Host;
  b_logs : logging.LogSt;
  b_disk : FS;                           (* the directory of the log *)
  b_mem : Pool message.Message;
  b_cfg : option (config.Manager World);
  b_wal : option wal.Writer;
  b_disp : option Disp;
}.

Definition set_logs (l : logging.LogSt) (b : Boot) : Boot :=
  MkBoot (b_host b) l (b_disk b) (b_mem b) (b_cfg b) (b_wal b) (b_disp b).
Definition set_disk (f : FS) (b : Boot) : Boot :=
  MkBoot (b_host b) (b_logs b) f (b_mem b) (b_cfg b) (b_wal b) (b_disp b).
Definition set_cfg (m : config.Manager World) (b : Boot) : Boot :=
  MkBoot (b_host b) (b_logs b) (b_disk b) (b_mem b) (Some m) (b_wal b) (b_disp b).
Definition set_wal (w : option wal.Writer) (b : Boot) : Boot :=
  MkBoot (b_host b) (b_logs b) (b_disk b) (b_mem b) (b_cfg b) w (b_disp b).
Definition set_bdisp (d : Disp) (b : Boot) : Boot :=
  MkBoot (b_host b) (b_logs b) (b_disk b) (b_mem b) (b_cfg b) (b_wal b) (Some d).

Definition onLogs {A} : St logging.LogSt A -> St Boot A := zoom b_logs set_logs.
Definition onDisk {A} : St FS A -> St Boot A := zoom b_disk set_disk.

(** [cfgMgr, err := config.NewManager(cfgPath)]. *)
Definition newManager (p : string) : St Boot unit := fun b =>
  match config.NewManager readFile decode p (b_host b, None) with
  | (Ok m, _) => (Ok tt, set_cfg m b)
  | (Err e, _) => (Err e, b)
  | (Panic q, _) => (Panic q, b)
  end.

(** A method of the manager. *)
Definition onCfg {A} (m : St (config.Manager World * World) A) : St Boot A := fun b =>
  match b_cfg b with
  | None => (Panic "nil pointer dereference", b)
  | Some c => let '(r, (c', _)) := m (c, (b_host b, None)) in (r, set_cfg c' b)
  end.

Definition getConfig : St Boot config.Config :=
  onCfg (fun s => (config.Get s.1, s)).

Definition openLog (cfg : config.Config) (bp : sink.Backpressure) : St Boot unit :=
  w <- onDisk (initWAL cfg bp) ;; modify (set_wal w).

(** [project.NewDispatcher(cfgMgr, reg, walWriter, bp)]. *)
Definition newDispatcher (bp : sink.Backpressure) : St Boot unit := fun b =>
  match b_cfg b with
  | None => (Panic "nil pointer dereference", b)
  | Some c =>
      (Ok tt, set_bdisp (project.NewDispatcher c (registry ep)
                           ((fun w => wal.MkWalSt w (b_disk b)) <$> b_wal b) bp (b_mem b)) b)
  end.

Definition onDisp {A} (m : St Disp A) : St Boot A := fun b =>
  match b_disp b with
  | None => (Panic "nil pointer dereference", b)
  | Some d => let '(r, d') := m d in (r, set_bdisp d' b)
  end.

(** A method of the log, when there is one. *)
Definition onLog {A} (m : St wal.WalSt A) : St Disp unit := fun d =>
  match project.walWriter d with
  | None => (Ok tt, d)
  | Some w =>
      let '(r, w') := m w in
      (mapR (fun _ => tt) r,
       project.MkDispatcher (project.cfg d) (project.reg d) (project.pipelineReg d) (project.pools d) (Some w')
         (project.bp d) (project.heap d) (project.mem d))
  end.

(** A method of the configuration manager the dispatcher shares. *)
Definition onDispCfg {A} (h : Host) (m : St (config.Manager World * World) A) : St Disp A := fun d =>
  let '(r, (c, _)) := m (project.cfg d, (h, None)) in
  (r, project.MkDispatcher c (project.reg d) (project.pipelineReg d) (project.pools d) (project.walWriter d)
        (project.bp d) (project.heap d) (project.mem d)).

(** The gateway, as [New] returns it and while it runs.  The configuration,
    the dispatcher and the log are in [gw]. *)
Record Process := MkProcess {
  host : Host;
  logs : logging.LogSt;
  gw : server.Gateway World AnySink wal.WalSt;
  hc : observability.HealthChecker (list AnySink);
  released : bool;                       (* the goroutine pool *)
  stopCh : bool;                         (* whether it is closed *)
  stopHC : bool;                         (* whether it is set *)
  stopOnce : bool;
  closeOnce : bool;
}.

(** The routes of [registerHealthEndpoints]; [r.Any] adds one per method. *)
Definition pprof_routes (c : config.Config) : list (string * string) :=
  if config.PprofEnabled (config.Pprof c) then
    let path := config.PprofPath (config.Pprof c) in
    let path := if String.eqb path "" then "/debug/pprof" else path in
    (fun m => (m, path +:+ "/*action")) <$> ["GET"; "POST"; "PUT"; "PATCH"; "HEAD"; "OPTIONS"; "DELETE"; "CONNECT"; "TRACE"]
  else [].

(** The routes of [buildRouter]. *)
Definition routes (c : config.Config) : list (string * string) :=
  observability.health_routes c ++ pprof_routes c ++ [("POST", "/api/v1/log/upload")].

(** [buildRouter] makes the rate limiters and the authentication. *)
Definition finish (b : Boot) (d : Disp) : result Process :=
  match config.Get (project.cfg d), auth.NewMiddleware server.testKeys with
  | Ok cfg, Ok mw =>
      let rl := ratelimit.NewManager (h_now (b_host b)) cfg in
      let '(_, d') := onDispCfg (b_host b) (config.OnReload limit_reloaded) d in
      let '(r, h) := registerSinkProbes d (observability.NewHealthChecker (project.pc_snk <$> project.heap d) (h_now (b_host b))) in
      match addRoutes (routes cfg) with
      | Some p => Panic p
      | None =>
          mapR (fun _ => MkProcess (b_host b) (b_logs b) (server.MkGateway d' rl (auth.nonceCache mw) []) h
                           false false false false false) r
      end
  | Panic p, _ => Panic p
  | Err e, _ => Err e
  | _, Panic p => Panic p
  | _, Err e => Err e
  end.

(** [if err != nil { cleanup; return nil, fmt.Errorf(what, err) }]: the
    cleanup may wait for goroutines, and its own errors are dropped. *)
Definition orElse {X A} (what : string) (m : St Boot X) (cleanup : Thr Boot unit) (k : X -> Thr Boot A) : Thr Boot A :=
  atomic m (fun r =>
    match r with
    | Ok x => k x
    | Err e => bindT cleanup (fun _ => Done (Err (WrapError what e)))
    | Panic p => Done (Panic p)
    end).

Definition does {A} (m : St Boot unit) (k : Thr Boot A) : Thr Boot A :=
  atomic m (fun r => match r with Panic p => Done (Panic p) | _ => k end).

Definition nothing : Thr Boot unit := Done (Ok tt).
Definition closeLog : St Boot unit := onDisp (onLog wal.Close).
Definition closeConfig : St Boot unit := fun b => onDisp (onDispCfg (b_host b) config.Close) b.
Definition shutdownDisp : Thr Boot unit := liftT b_disp set_bdisp project.Shutdown.

(** From the dispatcher on. *)
Definition start (cfg : config.Config) (bp : sink.Backpressure) : Thr Boot Process :=
  does (newDispatcher bp) (
  orElse "dispatcher" (onDisp project.Initialize) (does closeLog (does closeConfig nothing)) (fun _ =>
  does (onDisp (onLog (wal.StartReplay (5 * wal.Second)))) (
  orElse "ants pool" (answer (newAnts (config.AntsPoolSize (config.Server cfg))))
    (does closeLog (attemptT shutdownDisp (fun _ => does closeConfig nothing))) (fun _ =>
  Atomic (fun _ => true) (fun b => b) (fun b =>
    match b_disp b with
    | None => Done (Panic "nil pointer dereference")
    | Some d => Done (finish b d)
    end))))).

Definition New (cfgPath : string) : Thr Boot Process :=
  orElse "config" (newManager cfgPath) nothing (fun _ =>
  orElse "" getConfig nothing (fun cfg =>
  let l := config.Log cfg in
  does (fun b => onLogs (logging.Setup wide (h_day (b_host b)) (h_stamp (b_host b)) (config.FileDir l)
                           (config.ConsoleEnabled l) (config.FileLevels l)) b) (
  does (onCfg (config.Watch (answer newWatcher) (fun p => answer (addFile p)))) (
  let bp := resolveBackpressure (config.Backpressure (config.Server cfg)) in
  orElse "wal" (openLog cfg bp) (does (onCfg config.Close) nothing) (fun _ => start cfg bp))))).

(** ** Running and stopping *)

Definition set_plogs (l : logging.LogSt) (p : Process) : Process :=
  MkProcess (host p) l (gw p) (hc p) (released p) (stopCh p) (stopHC p) (stopOnce p) (closeOnce p).
Definition set_gw (g : server.Gateway World AnySink wal.WalSt) (p : Process) : Process :=
  MkProcess (host p) (logs p) g (hc p) (released p) (stopCh p) (stopHC p) (stopOnce p) (closeOnce p).
Definition set_hc (h : observability.HealthChecker (list AnySink)) (p : Process) : Process :=
  MkProcess (host p) (logs p) (gw p) h (released p) (stopCh p) (stopHC p) (stopOnce p) (closeOnce p).
Definition set_stops (rel ch st once cl : bool) (p : Process) : Process :=
  MkProcess (host p) (logs p) (gw p) (hc p) rel ch st once cl.

Definition onPLogs {A} : St logging.LogSt A -> St Process A := zoom logs set_plogs.
Definition onHC {A} : St (observability.HealthChecker (list AnySink)) A -> St Process A := zoom hc set_hc.
Definition pdisp (p : Process) : Disp := server.disp (gw p).
Definition set_pdisp (d : Disp) (p : Process) : Process := set_gw (server.set_disp d (gw p)) p.
Definition onPDisp {A} : St Disp A -> St Process A := zoom pdisp set_pdisp.

(** A method of the configuration manager; a reload also changes the rate
    limiters. *)
Definition onPCfg {A} (m : St (config.Manager World * World) A) : St Process A := fun p =>
  let g := gw p in
  let '(r, (c, (h, rl))) := m (project.cfg (server.disp g), (host p, Some (server.rlMgr g))) in
  let d := server.disp g in
  let d' := project.MkDispatcher c (project.reg d) (project.pipelineReg d) (project.pools d) (project.walWriter d)
              (project.bp d) (project.heap d) (project.mem d) in
  (r, set_gw (server.MkGateway d' (default (server.rlMgr g) rl) (server.nonceCache g) (server.tasks g)) p).

(** By the watcher, or by [POST /admin/config/reload]. *)
Definition reload : St Process unit := onPCfg (config.Reload readFile decode).

Definition stopMetrics : St Process unit := fun p =>
  if stopOnce p then (Ok tt, p) else
  if stopCh p then (Panic "close of closed channel", p) else
  (Ok tt, set_stops (released p) true (stopHC p) true (closeOnce p) p).

(** [if g.stopHC != nil { g.stopHC() }]. *)
Definition stopChecks : St Process unit := fun p =>
  if stopHC p then onHC observability.stop p else (Ok tt, p).

(** The deferred calls of [Run]. *)
Definition deferred : St Process unit := stopChecks ;;; stopMetrics.

Definition pstep {A} (m : St Process unit) (k : Thr Process A) : Thr Process A :=
  atomic m (fun r => match r with Panic p => Done (Panic p) | _ => k end).

(** A signal, or the HTTP server failing to listen, whichever comes.  The
    HTTP server itself, which [Shutdown] waits for, is left out. *)
Definition Run : Thr Process unit :=
  pstep (modify (fun p => set_stops (released p) (stopCh p) true (stopOnce p) (closeOnce p) p)) (
  Choose
    (attemptT (liftT (fun p => Some (pdisp p)) set_pdisp project.Shutdown) (fun _ =>
     pstep (onPDisp (onLog wal.Close)) (
     pstep deferred (Done (Ok tt)))))
    (pstep deferred (Done (Err (ErrorString "server listen"))))).

(** The body of [closeOnce.Do]. *)
Definition close_body : St Process unit :=
  stopChecks ;;;
  stopMetrics ;;;
  modify (fun p => set_stops true (stopCh p) (stopHC p) (stopOnce p) (closeOnce p) p) ;;;
  ignore (onPDisp (onLog wal.Close)) ;;;
  onPCfg config.Close ;;;
  onPLogs logging.Close.

Definition Close : St Process unit := fun p =>
  if closeOnce p then (Ok tt, p) else
  close_body (set_stops (released p) (stopCh p) (stopHC p) (stopOnce p) true p).

(** ** The command (cmd/gateway/main.go)

    What [main] does when [gw.Run] has returned, as the status of the
    process.  [log.Fatalf] exits without running the deferred [gw.Close]; a
    panic runs it and then ends the process; [Close] returns nothing. *)
Definition after_run (r : result unit) : St Process Z :=
  match r with
  | Ok _ => ignore Close ;;; ret 0%Z
  | Err _ => ret 1%Z
  | Panic _ => ignore Close ;;; ret 2%Z
  end.

(** [main] once [server.New] has returned a gateway. *)
Definition main : Thr Process Z := attemptT Run (fun r => atomic (after_run r) (fun c => Done c)).
End gateway.
End gateway.
