(* ===== verification/GatewayTheorems.v ===== *)
(** * Starting and stopping the gateway: theorems

    [New] establishes what the theorems on the upload route, the dispatcher
    and the replayer assume of the state they start from, and stopping is
    safe in any order. *)

From Stdlib Require Import ZArith Lia Ascii String.
From stdpp Require Import base tactics numbers strings gmap list.
From S2P Require Import Prelude GoStrings GoText GoOs Message Threads Sink SinkOwn ConfigPkg Pipeline Gin RateLimit Observability Auth Dispatcher DispatchOwn SinkAdapters SinkAdapterTheorems Server ServerTheorems Replay Wal JsonEntry WalWriter WalRefine WalTheorems SinkWal Logging LoggingTheorems Gateway.

Import project.
Local Open Scope go_scope.

(** ** What [Initialize] builds *)

Section initialize.
Context {W K L : Type} `{Sink K} `{MsgLog L}.
Abbreviation Disp := (Dispatcher W K L).

(** The pool for the [i]-th sink of a project, as the configuration describes
    it: idle, with the resolved numbers of workers and of queue places. *)
Definition planned (c : config.Config) (r : sink.Registry) (b : sink.Backpressure) (proj : string) (i : nat)
    (sr : config.SinkRef) : result (PoolCell (K := K)) :=
  let '(sinkType, workers, channelSize, mergedCfg) := resolveSinkConfig c sr in
  let name := proj +:+ "-" +:+ sinkType +:+ "-" +:+ Itoa (Z.of_nat i) in
  match sink.Create sinkType name mergedCfg r with
  | Ok k => Ok (MkPoolCell name (sink.NewWorkerPool (sink.MkWorkerPoolConfig
              (if (workers <=? 0)%Z then readPoolInt mergedCfg "workers" 16 else workers)
              (if (channelSize <=? 0)%Z then readPoolInt mergedCfg "channel_size" 16384 else channelSize)
              10 b (100 * sink.Millisecond))) k)
  | Err e => Err (WrapError ("create sink " +:+ name) e)
  | Panic p => Panic p
  end.

Lemma init_sink_run c proj i sr (d : Disp) : config.Get (cfg d) = Ok c ->
  init_sink proj i sr d =
    match planned c (reg d) (bp d) proj i sr with
    | Ok cell => (Ok (length (heap d)), set_heap (heap d ++ [cell]) d)
    | Err e => (Err e, d)
    | Panic p => (Panic p, d)
    end.
Proof.
  intros Hc. unfold init_sink, planned, getConfig, bind at 1. rewrite Hc.
  destruct (resolveSinkConfig c sr) as [[[ty wk] cs] mc]. unfold bind, wrapErr.
  by destruct (sink.Create _ _ _ _).
Qed.

(** Everything but the pools. *)
Definition same_parts (d d' : Disp) : Prop :=
  cfg d' = cfg d /\ reg d' = reg d /\ pipelineReg d' = pipelineReg d /\ walWriter d' = walWriter d /\
  bp d' = bp d /\ mem d' = mem d.

Definition idle_cell (c : PoolCell (K := K)) : Prop := exists w, pc_wp c = sink.NewWorkerPool w.

(** More idle pools. *)
Definition grown (d d' : Disp) : Prop :=
  same_parts d d' /\ exists new, heap d' = heap d ++ new /\ Forall idle_cell new.

Lemma more_pools_refl d : grown d d.
Proof. split; [done|]. exists []. by rewrite app_nil_r. Qed.

Lemma more_pools_trans d1 d2 d3 : grown d1 d2 -> grown d2 d3 -> grown d1 d3.
Proof.
  intros [(A1 & A2 & A3 & A4 & A5 & A6) (n1 & Hh1 & Hi1)] [(B1 & B2 & B3 & B4 & B5 & B6) (n2 & Hh2 & Hi2)].
  split; [split_and!; by etrans|]. exists (n1 ++ n2). rewrite Hh2, Hh1, app_assoc. split; [done|by apply Forall_app].
Qed.

Lemma grown_lookup d d' i c : grown d d' -> heap d !! i = Some c -> heap d' !! i = Some c.
Proof. intros [_ (n & -> & _)] Hi. by apply lookup_app_l_Some. Qed.

Lemma planned_idle c r b proj i sr cell : planned c r b proj i sr = Ok cell -> idle_cell cell.
Proof.
  unfold planned. destruct (resolveSinkConfig c sr) as [[[ty wk] cs] mc].
  destruct (sink.Create _ _ _ _); [|done..]. intros [= <-]. by eexists.
Qed.

(** The pools of a project are the planned ones, at consecutive addresses. *)
Definition pools_for (c : config.Config) (d : Disp) (p : config.ProjectConfig) (ps : list nat) : Prop :=
  exists a, ps = seq a (length (config.Sinks p)) /\
    forall j sr, config.Sinks p !! j = Some sr ->
      exists cell, planned c (reg d) (bp d) (config.Name p) j sr = Ok cell /\ heap d !! (a + j) = Some cell.

Lemma pools_for_grown c d d' p ps : grown d d' -> pools_for c d p ps -> pools_for c d' p ps.
Proof.
  intros Hg (a & -> & Hps). exists a. split; [done|]. intros j sr Hj. destruct (Hps j sr Hj) as (cell & Hpl & Hh).
  exists cell. split; [|by eapply grown_lookup]. destruct Hg as [(_ & -> & _ & _ & -> & _) _]. done.
Qed.

(** Factories that return. *)
Definition calm (r : sink.Registry (Cfg := anymap) (A := K)) : Prop := forall t n m, is_panic (sink.Create t n m r) = false.

Lemma planned_calm c r b proj i sr : calm r -> is_panic (planned c r b proj i sr) = false.
Proof.
  intros Hr. unfold planned. destruct (resolveSinkConfig c sr) as [[[ty wk] cs] mc].
  specialize (Hr ty (proj +:+ "-" +:+ ty +:+ "-" +:+ Itoa (Z.of_nat i)) mc). by destruct (sink.Create _ _ _ _).
Qed.

Lemma init_sinks_spec c proj refs i d r d' : config.Get (cfg d) = Ok c -> calm (reg d) ->
  init_sinks proj i refs d = (r, d') ->
  grown d d' /\ pools d' = pools d /\ is_panic r = false /\
  forall ps, r = Ok ps -> ps = seq (length (heap d)) (length refs) /\
    forall j sr, refs !! j = Some sr ->
      exists cell, planned c (reg d) (bp d) proj (i + j) sr = Ok cell /\ heap d' !! (length (heap d) + j) = Some cell.
Proof.
  revert i d r d'; induction refs as [|sr refs IH]; intros i d r d' Hc Hr E; cbn [init_sinks] in E.
  { injection E as <- <-. split_and!; [apply more_pools_refl|done..|]. by intros ps [= <-]. }
  pose proof (planned_calm c (reg d) (bp d) proj i sr Hr) as Hcalm. unfold bind at 1 in E.
  rewrite (init_sink_run c) in E by done. destruct (planned c (reg d) (bp d) proj i sr) as [cell|e|q] eqn:Ep; [|by simplify_eq; split_and!; [apply more_pools_refl|..]|done].
  set (d1 := set_heap (heap d ++ [cell]) d) in *.
  assert (Hg1 : grown d d1) by (split; [done|]; exists [cell]; split; [done|]; repeat constructor; by eapply planned_idle).
  unfold bind in E. destruct (init_sinks proj (S i) refs d1) as [r2 d2] eqn:E2.
  destruct (IH _ d1 _ _ Hc Hr E2) as (Hg2 & Hp2 & Hn2 & Hok2).
  assert (Hlen : length (heap d1) = S (length (heap d))) by (cbn; rewrite length_app; cbn; lia).
  destruct r2 as [ps2|e|q]; [|by simplify_eq; split_and!; [by eapply more_pools_trans|..]|done].
  injection E as <- <-. split_and!; [by eapply more_pools_trans|done..|]. intros ps [= <-].
  destruct (Hok2 ps2 eq_refl) as [-> Hcells]. rewrite Hlen. split; [done|]. intros [|j] sr' Hj; cbn in Hj.
  - injection Hj as <-. exists cell. rewrite !Nat.add_0_r. split; [done|]. eapply grown_lookup; [exact Hg2|].
    cbn. by rewrite lookup_app_r, Nat.sub_diag.
  - destruct (Hcells j sr' Hj) as (cell' & Hpl & Hh). exists cell'. rewrite Hlen in Hh.
    rewrite !Nat.add_succ_r. split; [by rewrite <- Nat.add_succ_l|]. by rewrite <- Nat.add_succ_l.
Qed.

(** The project whose sinks a name stands for: the last enabled one. *)
Definition named (name : string) (p : config.ProjectConfig) : Prop := config.Name p = name /\ config.Enabled p = true.
Definition last_named (name : string) (projs : list config.ProjectConfig) : option config.ProjectConfig :=
  last (filter (named name) projs).

Lemma last_named_cons name p projs :
  last_named name (p :: projs) = match last_named name projs with
                                 | Some q => Some q
                                 | None => if decide (named name p) then Some p else None
                                 end.
Proof.
  unfold last_named. rewrite filter_cons. destruct (decide (named name p)); [|by destruct (last _)].
  rewrite last_cons. by destruct (last _).
Qed.

Lemma init_projects_spec c projs d pm r d' : config.Get (cfg d) = Ok c -> calm (reg d) -> pools d = Some pm ->
  init_projects projs d = (r, d') ->
  grown d d' /\ is_panic r = false /\ exists pm', pools d' = Some pm' /\
  (r = Ok tt -> forall name, match last_named name projs with
                            | None => pm' !! name = pm !! name
                            | Some p => exists ps, pm' !! name = Some ps /\ pools_for c d' p ps
                            end).
Proof.
  revert d pm r d'; induction projs as [|p projs IH]; intros d pm r d' Hc Hr Hpm E; cbn [init_projects] in E.
  { injection E as <- <-. split_and!; [apply more_pools_refl|done|]. exists pm. split; [done|]. by intros _ name. }
  destruct (config.Enabled p) eqn:Een.
  2:{ unfold bind in E. cbn [ret] in E. destruct (IH d pm r d' Hc Hr Hpm E) as (Hg & Hn & pm' & Hpm' & Hall).
      split_and!; [done..|]. exists pm'. split; [done|]. intros Hok name. specialize (Hall Hok name).
      rewrite last_named_cons. destruct (last_named name projs); [done|].
      rewrite decide_False by (unfold named; rewrite Een; by intros [_ ?]). done. }
  unfold bind, wrapErr, initProject in E. unfold bind in E.
  destruct (init_sinks (config.Name p) 0 (config.Sinks p) d) as [r1 d1] eqn:E1.
  destruct (init_sinks_spec _ _ _ _ _ _ _ Hc Hr E1) as (Hg1 & Hp1 & Hn1 & Hok1).
  destruct r1 as [ps|e|q]; [|simplify_eq; split_and!; [done..|]; exists pm; by rewrite Hp1|done].
  rewrite Hp1, Hpm in E. set (d2 := set_pools (Some (<[config.Name p := ps]> pm)) d1) in *.
  assert (Hg2 : grown d d2) by (destruct Hg1 as [Hs Hn]; by split).
  assert (Hc2 : config.Get (cfg d2) = Ok c) by (destruct Hg2 as [(-> & _) _]; done).
  assert (Hr2 : calm (reg d2)) by (destruct Hg2 as [(_ & -> & _) _]; done).
  destruct (IH d2 _ r d' Hc2 Hr2 eq_refl E) as (Hg3 & Hn3 & pm' & Hpm' & Hall).
  split_and!; [by eapply more_pools_trans|done|]. exists pm'. split; [done|]. intros Hok name. specialize (Hall Hok name).
  rewrite last_named_cons. destruct (last_named name projs); [done|]. case_decide as Hnm.
  - destruct Hnm as [<- _]. rewrite lookup_insert_eq in Hall. exists ps. split; [done|].
    apply (pools_for_grown c d2); [done|]. destruct (Hok1 ps eq_refl) as [-> Hcells].
    exists (length (heap d)). split; [done|]. intros j sr Hj. destruct (Hcells j sr Hj) as (cell & Hpl & Hh).
    exists cell. split; [|done]. destruct Hg2 as [(_ & -> & _ & _ & -> & _) _]. done.
  - rewrite Hall. rewrite lookup_insert_ne; [done|]. intros Hname. apply Hnm. by split.
Qed.
End initialize.

(** ** The dispatcher is sound from the start *)

Section sound_start.
Context {W K L : Type} `{Sink K} `{LogSafe L}.
Context (has_log : bool).

Lemma idle_cell_ok (c : PoolCell (K := K)) : idle_cell c -> cell_ok c.
Proof.
  intros [w Hw]. split; rewrite Hw; cbn; unfold sink.default_pos; destruct (Z.leb_spec (sink.c_Workers w) 0); lia.
Qed.

Lemma idle_queues (h : list (PoolCell (K := K))) : Forall idle_cell h -> queues h = [].
Proof. unfold queues. induction 1 as [|c h [w Hw] _ IH]; cbn; [done|]. by rewrite Hw, IH. Qed.

(** A dispatcher made with idle pools, on a sound message pool and log. *)
Lemma started_inv (d0 d : Dispatcher W K L) : grown d0 d -> heap d0 = [] -> message.pool_ok (mem d0) ->
  pipelineReg d0 = pipeline.NewRegistry ->
  match walWriter d0 with Some l => has_log = true /\ log_inv l | None => has_log = false end ->
  disp_inv has_log d [].
Proof.
  intros [(Hc & Hr & Hpr & Hw & Hb & Hm) (new & Hh & Hi)] Hh0 Hok Hreg Hlog. rewrite Hh0, app_nil_l in Hh.
  assert (Hq : queued d = []) by (unfold queued; rewrite Hh; by apply idle_queues).
  split; rewrite ?Hq, ?Hm, ?Hw, ?Hpr; try done; [constructor|].
  rewrite Hh. eapply Forall_impl; [exact Hi|]. apply idle_cell_ok.
Qed.

Lemma started_sound (d0 d : Dispatcher W K L) c pm projs : disp_inv has_log d [] ->
  grown d0 d -> heap d0 = [] -> config.Get (cfg d0) = Ok c -> pools d = Some pm ->
  (forall name, match last_named name projs with
                | None => pm !! name = None
                | Some p => exists ps, pm !! name = Some ps /\ pools_for c d p ps
                end) ->
  Replay.sound has_log d.
Proof.
  intros HI [(Hc & _) (new & Hh & Hi)] Hh0 Hcfg Hpm Hall. split; [done| |by rewrite Hc, Hcfg].
  intros pm' name ps Hpm' Hps. rewrite Hpm in Hpm'. injection Hpm' as <-. specialize (Hall name).
  destruct (last_named name projs) as [p|]; [|by rewrite Hps in Hall].
  destruct Hall as (ps' & Hps' & a & -> & Hcells). rewrite Hps in Hps'. injection Hps' as ->.
  split; [apply NoDup_ListNoDup, seq_NoDup|]. intros i [Hlo Hhi]%elem_of_seq.
  destruct (lookup_lt_is_Some_2 (config.Sinks p) (i - a)) as [sr Hsr]; [lia|].
  destruct (Hcells _ _ Hsr) as (cell & Hpl & Hcell). replace (a + (i - a)) with i in Hcell by lia.
  exists cell. split; [done|]. destruct (planned_idle _ _ _ _ _ _ _ Hpl) as [w ->]. done.
Qed.
End sound_start.

(** ** [New] *)

Import gateway.

Section start.
Context {CR : Type} `{adapters.RedisClient CR} {CK : Type} `{adapters.KafkaWriter CK}.
Context `{RateLimiter}.
Context (wide : Z -> Z -> bool) (yaml : bytes -> error + config.Config).
Context (newWatcher : option error) (addFile : string -> option error) (newAnts : Z -> option error).
Context (addRoutes : list (string * string) -> option string).
Context (took : (adapters.RedisSink (C := CR) + adapters.KafkaSink (C := CK)) -> Z) (ep : adapters.EnvPool).

Abbreviation Bt := (Boot (CR := CR) (CK := CK)).
Abbreviation Pr := (Process (CR := CR) (CK := CK)).

Lemma wp_orElse {X A} what (m : St Bt X) (cleanup : Thr Bt unit) (k : X -> Thr Bt A) Q b :
  match m b with
  | (Ok x, b') => wp (k x) Q b'
  | (Err e, b') => wp cleanup (fun r b'' => match r with
                                            | Ok _ => Q (Err (WrapError what e)) b''
                                            | Err e' => Q (Err e') b''
                                            | Panic p => Q (Panic p) b''
                                            end) b'
  | (Panic p, b') => Q (Panic p) b'
  end -> wp (orElse what m cleanup k) Q b.
Proof.
  unfold orElse, atomic. cbn [wp]. intros Hm. split; [done|]. destruct (m b) as [[x|e|p] b']; cbn [fst snd wp]; try done.
  apply wp_bindT; [|done]. eapply wp_mono; [|exact Hm]. by intros [] b''.
Qed.

Lemma wp_does {A} (m : St Bt unit) (k : Thr Bt A) Q b :
  is_panic (m b).1 = false -> wp k Q (m b).2 -> wp (does m k) Q b.
Proof. unfold does, atomic. cbn [wp]. intros Hp Hk. split; [done|]. by destruct (m b) as [[] b']. Qed.

Lemma newManager_run p (b : Bt) :
  newManager yaml p b =
    match h_file (b_host b) p with
    | inl e => (Err e, b)
    | inr data =>
        match yaml data with
        | inl e => (Err e, b)
        | inr c => (Ok tt, set_cfg (config.MkManager (Some (config.applyDefaults c)) p [] false false false) b)
        end
    end.
Proof.
  unfold newManager, config.NewManager, config.load, bind, config.onW, zoom, readFile, decode, returns. cbn [fst snd config.path config.emptyManager].
  destruct (h_file (b_host b) p) as [e|data]; [done|]. by destruct (yaml data).
Qed.

(** Whatever fsnotify answers, only [watching] changes. *)
Lemma Watch_run (m : config.Manager (Host * option ratelimit.Manager)) (b : Bt) :
  b_cfg b = Some m ->
  exists r v, onCfg (config.Watch (answer newWatcher) (fun p => answer (addFile p))) b =
    (r, set_cfg (config.MkManager (config.current m) (config.path m) (config.onReload m) v (config.stopClosed m) (config.closeOnce m)) b)
    /\ is_panic r = false.
Proof.
  intros Hm. unfold onCfg. rewrite Hm. unfold config.Watch. cbn [fst].
  destruct (config.watching m) eqn:Ew.
  { exists (Ok tt), true. split; [|done]. by rewrite <- Ew; destruct m. }
  unfold bind, config.onW, zoom, answer. cbn [fst snd].
  destruct newWatcher as [e|]; [exists (Err e), false; split; [|done]; by rewrite <- Ew; destruct m|].
  destruct (addFile (config.path m)) as [e|]; [exists (Err e), false; split; [|done]; by rewrite <- Ew; destruct m|].
  by exists (Ok tt), true.
Qed.

Lemma initWAL_spec c s f r f' : fs_ok f -> initWAL c s f = (r, f') ->
  is_panic r = false /\
  (forall o, r = Ok o -> match o with
    | None => s <> sink.BackpressureFallback /\ config.WALEnabled (config.WAL c) = false
    | Some w => (s = sink.BackpressureFallback \/ config.WALEnabled (config.WAL c) = true) /\
        wf (wal.MkWalSt w f') /\ wal.closeOnce w = false
    end).
Proof.
  intros Hok. unfold initWAL. case_bool_decide as Hs; destruct (config.WALEnabled (config.WAL c)) eqn:Ew; cbn [andb negb].
  all: try (intros [= <- <-]; split; [done|]; by intros o [= <-]).
  all: unfold bind, wrapErr; destruct (wal.NewWriter _ f) as [[w|e|p] f1] eqn:En;
    destruct (NewWriter_spec _ _ _ _ Hok En) as [Hnp Hw]; [|by intros [= <- <-]|by destruct (Hnp p)].
  all: intros [= <- <-]; split; [done|]; intros o [= <-]; split; [auto|]; split; [by apply Hw|by eapply NewWriter_not_closed].
Qed.

Lemma Create_Register {Cfg A : Type} (r : sink.Registry (Cfg := Cfg) (A := A)) t t' f n m :
  sink.Create t n m (sink.Register t' f r) = if decide (t' = t) then f n m else sink.Create t n m r.
Proof.
  assert (E : sink.Register t' f r !! t = if decide (t' = t) then Some f else r !! t)
    by apply (lookup_insert (M := gmap string)).
  unfold sink.Create at 1.
  lazymatch goal with |- match ?x with Some _ => _ | None => _ end = _ =>
    replace x with (if decide (t' = t) then Some f else r !! t) by (symmetry; exact E) end.
  by case_decide.
Qed.

Lemma registry_calm : calm (registry (CR := CR) (CK := CK) ep).
Proof.
  intros t n m. unfold registry. rewrite !Create_Register. case_decide; [|by case_decide].
  unfold adapters.KafkaSinkFactory, adapters.NewKafkaSink. by repeat case_match.
Qed.
(** Registering probes adds exactly those probes. *)
Lemma register_all_run infos h : exists h',
  register_all took infos h = (Ok tt, h') /\
  observability.stopClosed h' = observability.stopClosed h /\ observability.stopOnce h' = observability.stopOnce h /\
  forall n, is_Some (observability.probes h' !! n) <-> n ∈ si_Name <$> infos \/ is_Some (observability.probes h !! n).
Proof.
  revert h; induction infos as [|i infos IH]; intros h; cbn [register_all].
  { exists h. split_and!; [done..|]. intros n. cbn. rewrite elem_of_nil. tauto. }
  unfold bind at 1, observability.Register, modify.
  destruct (IH (observability.set_probes (<[si_Name i := SinkProbe took (si_Sink i)]> (observability.probes h)) h))
    as (h' & E & Q1 & Q2 & Q3).
  exists h'. rewrite E. split_and!; [done..|]. intros n. rewrite Q3. cbn [fmap list_fmap observability.probes observability.set_probes].
  rewrite elem_of_cons. destruct (decide (si_Name i = n)) as [<-|Hn].
  - rewrite lookup_insert_eq. split; eauto.
  - rewrite lookup_insert_ne by done. split; [intros [?|?]; auto|intros [[->|?]|?]; auto; done].
Qed.

(** ** The state a running gateway keeps *)

(** After [Close]: the goroutine pool is released, the metrics reporter, the
    configuration watcher and the log are stopped, no level file is left. *)
Record down (p : Pr) : Prop := {
  dn_pool : released p = true;
  dn_metrics : stopCh p = true;
  dn_config : config.closeOnce (cfg (pdisp p)) = true;
  dn_log : forall w, walWriter (pdisp p) = Some w -> wal.closeOnce (wal.wr w) = true;
  dn_files : logging.fileWriters (logs p) = [];
}.

Record proc_ok (p : Pr) : Prop := {
  po_stop : stopCh p = stopOnce p;
  po_hc : observability.stopClosed (hc p) = observability.stopOnce (hc p);
  po_logs : log_safe (logs p);
  po_cfg : config.stopClosed (cfg (pdisp p)) = config.closeOnce (cfg (pdisp p));
  po_wal : forall w, walWriter (pdisp p) = Some w -> wf w;
  po_down : closeOnce p = true -> down p;
}.

(** Whether there is a log. *)
Definition logged_by {W K L} (d : Dispatcher W K L) : bool := match walWriter d with Some _ => true | None => false end.

(** A gateway that can serve: its pools are those the configuration describes,
    every pool has a health probe, and there is a log where the strategy or
    the configuration asks for one. *)
Record ready (c : config.Config) (p : Pr) : Prop := {
  rd_cfg : config.Get (cfg (pdisp p)) = Ok c;
  rd_sound : Replay.sound (logged_by (pdisp p)) (pdisp p);
  rd_limits : limits_ok (server.rlMgr (gw p));
  rd_tasks : server.tasks (gw p) = [];
  rd_bp : bp (pdisp p) = resolveBackpressure (config.Backpressure (config.Server c));
  rd_log : logged_by (pdisp p) = true <->
             bp (pdisp p) = sink.BackpressureFallback \/ config.WALEnabled (config.WAL c) = true;
  rd_pools : exists pm, pools (pdisp p) = Some pm /\
    forall name, match last_named name (config.Projects c) with
                 | None => pm !! name = None
                 | Some q => exists ps, pm !! name = Some ps /\ pools_for c (pdisp p) q ps
                 end;
  rd_probes : forall i cell, i ∈ all_pools (pdisp p) -> heap (pdisp p) !! i = Some cell ->
    is_Some (observability.probes (hc p) !! pc_name cell);
  rd_ok : proc_ok p;
}.

(** After a failed start the log and the configuration manager are closed. *)
Definition cleaned (b : Bt) : Prop :=
  match b_disp b with
  | Some d => config.closeOnce (cfg d) = true /\
      forall w, walWriter d = Some w -> wal.closeOnce (wal.wr w) = true /\ wal.activeSeg (wal.wr w) = None
  | None => forall m, b_cfg b = Some m -> config.closeOnce m = true
  end.

(** The dispatcher of a gateway about to start. *)
Record prepared (c : config.Config) (b : Bt) (d : Dispatcher (Host * option ratelimit.Manager)
    (adapters.RedisSink (C := CR) + adapters.KafkaSink (C := CK)) wal.WalSt) : Prop := {
  pr_cfg : config.Get (cfg d) = Ok c;
  pr_stop : config.stopClosed (cfg d) = config.closeOnce (cfg d);
  pr_sound : Replay.sound (logged_by d) d;
  pr_bp : bp d = resolveBackpressure (config.Backpressure (config.Server c));
  pr_log : logged_by d = true <-> bp d = sink.BackpressureFallback \/ config.WALEnabled (config.WAL c) = true;
  pr_pools : exists pm, pools d = Some pm /\
    forall name, match last_named name (config.Projects c) with
                 | None => pm !! name = None
                 | Some q => exists ps, pm !! name = Some ps /\ pools_for c d q ps
                 end;
  pr_wal : forall w, walWriter d = Some w -> wf w;
  pr_logs : log_safe (b_logs b);
}.

Lemma finish_ready c b d : prepared c b d ->
  match addRoutes (routes c) with
  | None => exists p, finish addRoutes took b d = Ok p /\ ready c p
  | Some q => finish addRoutes took b d = Panic q
  end.
Proof.
  intros [Hc Hst Hso Hb Hl Hp Hw Hlg]. unfold finish. rewrite Hc. cbn [auth.NewMiddleware].
  unfold onDispCfg, config.OnReload, config.modM, modify. cbn [fst snd].
  unfold registerSinkProbes, bind.
  destruct (register_all_run (SinkInfos d) (observability.NewHealthChecker (pc_snk <$> heap d) (h_now (b_host b))))
    as (h & -> & Q1 & Q2 & Q3).
  unfold observability.Register, modify. destruct (addRoutes (routes c)); [done|]. cbn [mapR]. eexists. split; [reflexivity|].
  split; cbn [gw server.disp pdisp cfg server.rlMgr server.tasks hc logs stopCh stopOnce]; try done.
  - destruct Hso as [S1 S2 S3]. split; [|exact S2|done]. by destruct S1; split.
  - split; [apply NewManager_ok|]. exists ∅. apply NewManager_represents.
  - intros i cell Hi Hcell. cbn [observability.probes observability.set_probes]. apply lookup_insert_is_Some'. right.
    apply Q3. left. apply list_elem_of_fmap. exists (MkSinkInfo (pc_name cell) i). split; [done|].
    apply list_elem_of_omap. exists i. split; [exact Hi|]. cbn in Hcell. by rewrite Hcell.
  - split; cbn; try done. by rewrite Q1, Q2.
Qed.
Abbreviation GDisp := (Dispatcher (Host * option ratelimit.Manager)
    (adapters.RedisSink (C := CR) + adapters.KafkaSink (C := CK)) wal.WalSt).

(** A method of the log that keeps its invariant keeps the dispatcher's. *)
Lemma onLog_run {A} (m : St wal.WalSt A) (d : GDisp) :
  (forall w, walWriter d = Some w -> is_panic (m w).1 = false /\ wf (m w).2) ->
  exists d', (onLog m d).2 = d' /\ is_panic (onLog m d).1 = false /\ cfg d' = cfg d /\ pools d' = pools d /\
    heap d' = heap d /\ bp d' = bp d /\ reg d' = reg d /\ logged_by d' = logged_by d /\
    (forall w', walWriter d' = Some w' -> exists w, walWriter d = Some w /\ w' = (m w).2) /\
    (forall O, disp_inv (logged_by d) d O -> disp_inv (logged_by d) d' O).
Proof.
  intros Hm. eexists. split; [reflexivity|]. unfold onLog, logged_by. destruct (walWriter d) as [w|] eqn:Ew.
  - destruct (Hm w eq_refl) as [Hp Hwf]. destruct (m w) as [r w'] eqn:Em. cbn [fst snd] in *.
    split_and!; [by destruct r|done..| |].
    + cbn. intros w0 [= <-]. exists w. by rewrite Em.
    + intros O [A1 A2 A3 A4 A5 A6]. by split.
  - cbn. rewrite Ew. split_and!; done.
Qed.

Lemma prepared_replay c (b b' : Bt) (d : GDisp) i : b_logs b' = b_logs b -> prepared c b d ->
  is_panic (onLog (wal.StartReplay i) d).1 = false /\ prepared c b' (onLog (wal.StartReplay i) d).2.
Proof.
  intros Hb [Hc Hst Hso Hbp Hl Hp Hw Hlg].
  assert (Hm : forall w, walWriter d = Some w ->
            is_panic (wal.StartReplay i w).1 = false /\ wf (wal.StartReplay i w).2).
  { intros w Hwd. destruct (wal.StartReplay i w) as [r w'] eqn:Er.
    destruct (StartReplay_spec _ _ _ _ (Hw w Hwd) Er) as (Hwf & [o ->] & _). done. }
  destruct (onLog_run (wal.StartReplay i) d Hm) as (d' & -> & Hnp & E1 & E2 & E3 & E4 & E5 & E6 & E7 & E8).
  split; [done|]. split; rewrite ?E1, ?E2, ?E3, ?E4, ?E6, ?Hb; try done.
  - destruct Hso as [S1 S2 S3]. split; [by apply E8| |by rewrite E1]. rewrite E2, E3. exact S2.
  - destruct Hp as (pm & -> & Hall). exists pm. split; [done|]. intros name. specialize (Hall name).
    destruct (last_named name _) as [q|]; [|done]. destruct Hall as (ps & Hps & a & -> & Hcells).
    exists (seq a (length (config.Sinks q))). split; [done|]. exists a. split; [done|]. intros j sr Hj.
    rewrite E5, E4, E3. by apply Hcells.
  - intros w' (w & Hwd & ->)%E7. by apply Hm.
Qed.

(** The dispatcher [New] makes, and what [Initialize] makes of it. *)
Lemma initialize_prepared c (b : Bt) m (w : option wal.WalSt) s :
  config.Get m = Ok c -> config.stopClosed m = config.closeOnce m -> log_safe (b_logs b) -> message.pool_ok (b_mem b) ->
  s = resolveBackpressure (config.Backpressure (config.Server c)) ->
  (forall w0, w = Some w0 -> wf w0) ->
  (is_Some w <-> s = sink.BackpressureFallback \/ config.WALEnabled (config.WAL c) = true) ->
  exists d', (Initialize (NewDispatcher m (registry ep) w s (b_mem b))).2 = d' /\
    is_panic (Initialize (NewDispatcher m (registry ep) w s (b_mem b))).1 = false /\
    cfg d' = m /\ walWriter d' = w /\
    ((Initialize (NewDispatcher m (registry ep) w s (b_mem b))).1 = Ok tt -> prepared c b d').
Proof.
  intros Hc Hst Hlg Hmem Hs Hw Hlog. set (d0 := NewDispatcher m (registry ep) w s (b_mem b) : GDisp).
  unfold Initialize, bind, project.getConfig. cbn beta. change (config.Get (cfg d0)) with (config.Get m). rewrite Hc.
  destruct (init_projects (config.Projects c) d0) as [r d'] eqn:Ei. cbn [fst snd].
  destruct (init_projects_spec c (config.Projects c) d0 ∅ r d' Hc registry_calm eq_refl Ei) as (Hg & Hnp & pm & Hpm & Hall).
  exists d'. pose proof Hg as [(G1 & G2 & G3 & G4 & G5 & G6) _]. split_and!; [done..|]. intros ->.
  specialize (Hall eq_refl).
  assert (HI : disp_inv (logged_by d') d' []).
  { apply (started_inv _ d0); [done..|]. unfold logged_by. rewrite G4. change (walWriter d0) with w.
    by destruct w as [w0|]; [split; [|apply Hw]|]. }
  assert (Hso : Replay.sound (logged_by d') d').
  { eapply (started_sound _ d0 d' c pm (config.Projects c)); done. }
  assert (Hlb : logged_by d' = true <-> is_Some w).
  { unfold logged_by. rewrite G4. change (walWriter d0) with w. by destruct w; split. }
  split; rewrite ?G1, ?G5; try done.
  - by rewrite Hlb, Hlog.
  - by exists pm.
  - rewrite G4. exact Hw.
Qed.
Lemma onDisp_run {A} (m : St GDisp A) (b : Bt) d : b_disp b = Some d -> onDisp m b = ((m d).1, set_bdisp (m d).2 b).
Proof. intros Hd. unfold onDisp. rewrite Hd. by destruct (m d). Qed.

(** Closing the log and the configuration after [Initialize] failed. *)
Lemma cleanup_run (b : Bt) (d : GDisp) Q : b_disp b = Some d ->
  config.stopClosed (cfg d) = false -> config.closeOnce (cfg d) = false ->
  (forall w, walWriter d = Some w -> wf w /\ wal.closeOnce (wal.wr w) = false) ->
  (forall b', cleaned b' -> Q (Ok tt) b') ->
  wp (does closeLog (does closeConfig nothing)) Q b.
Proof.
  intros Hd Hs Ho Hw HQ.
  assert (Hm : forall w, walWriter d = Some w -> is_panic (wal.Close w).1 = false /\ wf (wal.Close w).2).
  { intros w Hwd. destruct (wal.Close w) as [r w'] eqn:E. destruct (Close_spec _ _ _ (proj1 (Hw w Hwd)) E) as (? & -> & _). done. }
  destruct (onLog_run wal.Close d Hm) as (d' & Ed & Hnp & E1 & _ & _ & _ & _ & _ & E7 & _).
  unfold closeLog. apply wp_does; rewrite (onDisp_run _ _ _ Hd); cbn [fst snd]; [done|].
  set (b1 := set_bdisp (onLog wal.Close d).2 b).
  apply wp_does; unfold closeConfig; rewrite (onDisp_run _ b1 d') by (cbn; by rewrite Ed); cbn [fst snd];
    unfold onDispCfg, config.Close; cbn [fst snd]; rewrite E1, Ho, Hs; cbn [fst snd]; [done|].
  cbn [wp nothing]. apply HQ. unfold cleaned. cbn. split; [done|].
  intros w' (w & Hwd & ->)%E7. destruct (Hw w Hwd) as [Hwf Hoc].
  destruct (wal.Close w) as [r w1] eqn:E. destruct (Close_spec _ _ _ Hwf E) as (_ & _ & ? & Ha). cbn. split; [done|by apply Ha].
Qed.

(** From the dispatcher on: [b] has the configuration and the log. *)
Lemma start_spec c (b : Bt) m :
  b_cfg b = Some m -> config.Get m = Ok c -> config.stopClosed m = false -> config.closeOnce m = false ->
  log_safe (b_logs b) -> message.pool_ok (b_mem b) -> (forall n, newAnts n = None) ->
  (forall w, b_wal b = Some w -> wf (wal.MkWalSt w (b_disk b)) /\ wal.closeOnce w = false) ->
  (is_Some (b_wal b) <-> resolveBackpressure (config.Backpressure (config.Server c)) = sink.BackpressureFallback \/
     config.WALEnabled (config.WAL c) = true) ->
  wp (start newAnts addRoutes took ep c (resolveBackpressure (config.Backpressure (config.Server c)))) (fun r b' =>
    match r with Ok p => ready c p | Err _ => cleaned b' | Panic q => addRoutes (routes c) = Some q end) b.
Proof.
  intros Hm Hc Hsc Hco Hlg Hmem Hants Hwal Hlog. unfold start.
  set (s := resolveBackpressure (config.Backpressure (config.Server c))) in *.
  apply wp_does; unfold newDispatcher; rewrite Hm; cbn [fst snd]; [done|].
  set (w := (fun w => wal.MkWalSt w (b_disk b)) <$> b_wal b). set (b5 := set_bdisp _ _).
  assert (Hwf : forall w0, w = Some w0 -> wf w0 /\ wal.closeOnce (wal.wr w0) = false).
  { unfold w. intros w0. destruct (b_wal b) as [wr|]; [|done]. intros [= <-]. by apply Hwal. }
  destruct (initialize_prepared c b5 m w s) as (d' & Ed & Hnp & Hcf & Hwl & Hprep); try done.
  { by rewrite Hsc, Hco. }
  { intros w0 Hw0. by apply Hwf. }
  { unfold w. by rewrite fmap_is_Some. }
  apply wp_orElse. rewrite (onDisp_run _ b5 _ eq_refl). change (b_mem b5) with (b_mem b) in *.
  destruct (Initialize _) as [r d1] eqn:Einit. cbn [fst snd] in *. subst d1.
  destruct r as [[]|e|p]; [| |done].
  2:{ eapply (cleanup_run _ d'); [done|by rewrite Hcf..| |done]. by rewrite Hwl. }
  specialize (Hprep eq_refl). destruct (prepared_replay c b5 b5 d' (5 * wal.Second) eq_refl Hprep) as [Hrp Hprep'].
  apply wp_does; rewrite (onDisp_run _ (set_bdisp d' b5) d' eq_refl); cbn [fst snd]; [done|].
  apply wp_orElse. unfold answer. rewrite Hants. cbn [wp]. split; [done|]. cbn [b_disp set_bdisp].
  set (b6 := set_bdisp _ _).
  pose proof (finish_ready c b6 (onLog (wal.StartReplay (5 * wal.Second)) d').2) as Hfin.
  destruct (addRoutes (routes c)) as [q|]; [rewrite Hfin; [done|]|destruct Hfin as (p & -> & Hready); [|done]]; by destruct Hprep'; split.
Qed.

Lemma New_spec path (b : Bt) :
  b_cfg b = None -> b_disp b = None -> log_safe (b_logs b) -> fs_ok (b_disk b) -> message.pool_ok (b_mem b) ->
  (forall n, newAnts n = None) ->
  wp (New wide yaml newWatcher addFile newAnts addRoutes took ep path) (fun r b' =>
    match r with
    | Ok p => exists data c, h_file (b_host b) path = inr data /\ yaml data = inr c /\ ready (config.applyDefaults c) p
    | Err _ => cleaned b'
    | Panic q => exists data c, yaml data = inr c /\ addRoutes (routes (config.applyDefaults c)) = Some q
    end) b.
Proof.
  intros Hb0 Hd0 Hlg Hfs Hmem Hants. unfold New. apply wp_orElse. rewrite newManager_run.
  destruct (h_file (b_host b) path) as [e|data] eqn:Ef; [unfold cleaned; cbn; by rewrite Hd0, Hb0|].
  destruct (yaml data) as [e|c0] eqn:Ey; [unfold cleaned; cbn; by rewrite Hd0, Hb0|].
  set (m0 := config.MkManager _ _ _ _ _ _). set (b1 := set_cfg m0 b).
  apply wp_orElse. change (getConfig b1) with (Ok (config.applyDefaults c0), b1).
  set (c := config.applyDefaults c0) in *.
  destruct (run_op_safe wide (OSetup (h_day (b_host b)) (h_stamp (b_host b)) (config.FileDir (config.Log c))
      (config.ConsoleEnabled (config.Log c)) (config.FileLevels (config.Log c))) (b_logs b) Hlg) as [Hsp Hsl].
  cbn [run_op] in Hsp, Hsl.
  destruct (logging.Setup _ _ _ _ _ _ (b_logs b)) as [rs l1] eqn:Es. cbn [fst snd] in Hsp, Hsl.
  apply wp_does; unfold onLogs, zoom; change (b_logs b1) with (b_logs b); change (b_host b1) with (b_host b);
    rewrite Es; cbn [fst snd]; [done|].
  set (b2 := set_logs l1 b1). destruct (Watch_run m0 b2 eq_refl) as (rw & v & Ew & Hrw).
  apply wp_does; rewrite Ew; cbn [fst snd]; [done|].
  set (m1 := config.MkManager _ _ _ _ _ _). set (b3 := set_cfg m1 b2).
  apply wp_orElse. unfold openLog, bind, onDisk, zoom. change (b_disk b3) with (b_disk b).
  destruct (initWAL c _ (b_disk b)) as [r f] eqn:Ei.
  destruct (initWAL_spec _ _ _ _ _ Hfs Ei) as [Hip Hio]. destruct r as [o|e|p]; [| |done].
  2:{ apply wp_does; [done|]. cbn [wp nothing]. unfold cleaned. cbn. rewrite Hd0. by intros m [= <-]. }
  specialize (Hio o eq_refl). cbn [modify fst snd].
  eapply wp_mono; [|apply (start_spec c _ m1); try done].
  - intros [p|e|q] b'; [|done|]; intros Hp; by exists data, c0.
  - cbn. destruct o as [w0|]; [|done]. intros w [= <-]. by destruct Hio as (_ & ? & ?).
  - cbn. destruct o as [w0|]; [split; [intros _; apply Hio|done]|].
    destruct Hio as [Hs Hw]. split; [by intros [? ?]|]. intros [?|Hw']; [done|].
    pose proof (eq_trans (eq_sym Hw') Hw) as Hx. discriminate Hx.
Qed.


(** ** Stopping *)

(** What may happen to a running gateway, as far as stopping is concerned. *)
Inductive life_op :=
| LServe                                         (* [Run] begins *)
| LWrite (e : wal.Entry)
| LLine (day : Z) (stamp msg : string)
| LReload
| LCloseLog                                      (* by [Run], after a signal *)
| LDeferred                                      (* [Run] returns *)
| LClose.

Definition run_life (o : life_op) : St Pr unit :=
  match o with
  | LServe => modify (fun p => set_stops (released p) (stopCh p) true (stopOnce p) (closeOnce p) p)
  | LWrite e => onPDisp (onLog (wal.Write e))
  | LLine day stamp msg => onPLogs (logging.Printf wide day stamp msg)
  | LReload => reload yaml
  | LCloseLog => onPDisp (onLog wal.Close)
  | LDeferred => deferred
  | LClose => Close
  end.

(** One after the other; errors are only logged. *)
Fixpoint run_lives (os : list life_op) : St Pr unit :=
  match os with [] => ret tt | o :: os' => ignore (run_life o) ;;; run_lives os' end.

(** A step that does not panic, keeps the state in order and a stopped health
    checker stopped. *)
Definition good_step (p : Pr) (rp : result unit * Pr) : Prop :=
  is_panic rp.1 = false /\ proc_ok rp.2 /\
  (closeOnce p = true -> closeOnce rp.2 = true) /\ (stopHC p = true -> stopHC rp.2 = true) /\
  (observability.stopClosed (hc p) = true -> observability.stopClosed (hc rp.2) = true).

Lemma log_step (m : St wal.WalSt unit) p : proc_ok p ->
  (forall w, wf w -> is_panic (m w).1 = false /\ wf (m w).2 /\
     (wal.closeOnce (wal.wr w) = true -> wal.closeOnce (wal.wr (m w).2) = true)) ->
  good_step p (onPDisp (onLog m) p).
Proof.
  intros [P1 P2 P3 P4 P5 P6] Hm. unfold onPDisp, zoom.
  destruct (onLog_run m (pdisp p)) as (d' & Ed & Hnp & E1 & _ & _ & _ & _ & _ & E7 & _).
  { intros w Hw. destruct (Hm w (P5 w Hw)) as (? & ? & _). done. }
  destruct (onLog m (pdisp p)) as [r d1]. cbn [fst snd] in *. subst d1. split; [done|]. split; [|done].
  split; cbn; try done.
  - by rewrite E1.
  - intros w' (w & Hw & ->)%E7. by apply Hm, P5.
  - intros Ho. destruct (P6 Ho) as [D1 D2 D3 D4 D5]. split; cbn; try done; [by rewrite E1|].
    intros w' (w & Hw & ->)%E7. apply Hm; [by apply P5|by apply D4].
Qed.

Lemma lines_step (m : St logging.LogSt unit) p : proc_ok p -> LoggingTheorems.sound m ->
  (forall l, logging.fileWriters l = [] -> logging.fileWriters (m l).2 = []) -> good_step p (onPLogs m p).
Proof.
  intros [P1 P2 P3 P4 P5 P6] Hm Hf. unfold onPLogs, zoom. destruct (Hm _ P3) as [Hp Hs]. specialize (Hf (logs p)).
  destruct (m (logs p)) as [r l]. cbn [fst snd] in *. split; [done|]. split; [|done].
  split; cbn; try done. intros Ho. destruct (P6 Ho) as [D1 D2 D3 D4 D5]. split; cbn; auto.
Qed.

Lemma stopChecks_run (p : Pr) : observability.stopClosed (hc p) = observability.stopOnce (hc p) ->
  exists h, stopChecks p = (Ok tt, set_hc h p) /\ observability.stopClosed h = observability.stopOnce h /\
    (stopHC p = true \/ observability.stopClosed (hc p) = true -> observability.stopClosed h = true).
Proof.
  intros Hh. unfold stopChecks, onHC, zoom, observability.stop. destruct (stopHC p).
  - destruct (observability.stopOnce (hc p)) eqn:E; [exists (hc p); by rewrite Hh, E|].
    rewrite Hh. eexists. split; [reflexivity|done].
  - exists (hc p). split; [by destruct p|]. split; [done|]. by intros [?|?].
Qed.

Lemma stopMetrics_run (p : Pr) : stopCh p = stopOnce p ->
  stopMetrics p = (Ok tt, set_stops (released p) true (stopHC p) true (closeOnce p) p).
Proof.
  intros Hs. unfold stopMetrics. destruct (stopOnce p) eqn:E; [|by rewrite Hs].
  destruct p; cbn in *. by subst.
Qed.

Lemma deferred_step p : proc_ok p -> good_step p (deferred p).
Proof.
  intros [P1 P2 P3 P4 P5 P6]. destruct (stopChecks_run p P2) as (h & E & Hh & Hst). unfold deferred, bind. rewrite E.
  rewrite stopMetrics_run by done. split; [done|]. cbn [fst snd]. split; [|split_and!; cbn; auto].
  split; cbn; try done. intros Ho. destruct (P6 Ho) as [D1 D2 D3 D4 D5]. by split.
Qed.

(** The configuration manager's own methods. *)
Lemma reload_step p : proc_ok p -> good_step p (reload yaml p).
Proof.
  intros [P1 P2 P3 P4 P5 P6]. unfold reload, onPCfg, config.Reload, config.load, bind, config.onW, zoom, readFile, decode, returns.
  cbn [fst snd]. destruct (h_file (host p) _) as [e|data]; [|destruct (yaml data) as [e|c]].
  1,2: cbn [fst snd config.onW zoom]; split; [done|]; split; [|done]; split; cbn; try done;
    intros Ho; destruct (P6 Ho) as [D1 D2 D3 D4 D5]; by split.
  unfold config.modM, modify. cbn [fst snd].
  rewrite run_callbacks_all. destruct (foldl _ _ _) as [h rl]. cbn [fst snd].
  split; [done|]. split; [|done]. split; cbn; try done.
  intros Ho. destruct (P6 Ho) as [D1 D2 D3 D4 D5]. by split.
Qed.

(** [Close] stops everything. *)
Lemma Close_step p : proc_ok p -> good_step p (Close p) /\ down (Close p).2 /\ closeOnce (Close p).2 = true /\
  (stopHC p = true -> closeOnce p = false -> observability.stopClosed (hc (Close p).2) = true).
Proof.
  intros Hp. unfold Close. destruct (closeOnce p) eqn:Ho.
  { split; [by split|]. split; [by apply (po_down p Hp)|done]. }
  destruct Hp as [P1 P2 P3 P4 P5 _]. set (p0 := set_stops _ _ _ _ _ p).
  destruct (stopChecks_run p0 P2) as (h & E & Hh & Hst). unfold close_body. rewrite (bind_run_Ok _ _ _ _ _ E).
  set (p1 := set_hc h p0). rewrite (bind_run_Ok _ _ _ _ _ (stopMetrics_run p1 P1)).
  set (p2 := set_stops true true (stopHC p) true true p1). rewrite (bind_run_Ok _ _ _ tt p2) by done.
  destruct (onLog_run wal.Close (pdisp p2)) as (d & Ed & Hnp & E1 & _ & _ & _ & _ & _ & E7 & _).
  { intros w Hw. destruct (wal.Close w) as [r w'] eqn:Ec. by destruct (Close_spec _ _ _ (P5 w Hw) Ec) as (? & -> & _). }
  assert (El : ignore (onPDisp (onLog wal.Close)) p2 = (Ok tt, set_pdisp d p2)).
  { unfold ignore, attempt, bind, onPDisp, zoom. destruct (onLog wal.Close (pdisp p2)) as [[] d1]; cbn in *; by subst. }
  rewrite (bind_run_Ok _ _ _ _ _ El). set (p3 := set_pdisp d p2).
  assert (exists m, onPCfg config.Close p3 = (Ok tt, set_gw (server.MkGateway (MkDispatcher m (reg d) (pipelineReg d) (pools d)
            (walWriter d) (bp d) (heap d) (mem d)) (server.rlMgr (gw p3)) (server.nonceCache (gw p3)) (server.tasks (gw p3))) p3) /\
            config.stopClosed m = config.closeOnce m /\ config.closeOnce m = true) as (m & Em & Hm1 & Hm2).
  { unfold onPCfg, config.Close. change (cfg (server.disp (gw p3))) with (cfg d). rewrite E1. cbn [fst snd].
    change (pdisp p2) with (pdisp p). destruct (config.closeOnce (cfg (pdisp p))) eqn:Eo.
    - exists (cfg (pdisp p)). by rewrite P4, Eo.
    - rewrite P4. eexists. split; [reflexivity|done]. }
  rewrite (bind_run_Ok _ _ _ _ _ Em). set (p4 := set_gw _ p3).
  destruct (run_op_safe wide OClose (logs p) P3) as [Hlp Hls]. cbn [run_op] in Hlp, Hls.
  assert (Hfw : logging.fileWriters (logging.Close (logs p)).2 = []) by (by apply Close_files).
  unfold onPLogs, zoom. change (logs p4) with (logs p). destruct (logging.Close (logs p)) as [r l]. cbn [fst snd] in *.
  assert (Hdown : down (set_plogs l p4)).
  { split; cbn; try done. intros w' (w & Hw & ->)%E7. destruct (wal.Close w) as [r0 w1] eqn:Ec.
    by destruct (Close_spec _ _ _ (P5 w Hw) Ec) as (_ & _ & ? & _). }
  split; [|split; [done|split; [done|]]].
  - split; [done|]. split; [|split_and!; cbn; auto].
    split; cbn; try done. intros w' (w & Hw & ->)%E7. destruct (wal.Close w) as [r0 w1] eqn:Ec.
    by destruct (Close_spec _ _ _ (P5 w Hw) Ec) as (? & _).
  - intros Hh' _. cbn. apply Hst. by left.
Qed.

Lemma life_step o p : proc_ok p -> good_step p (run_life o p).
Proof.
  intros Hp. destruct o; cbn [run_life].
  - split; [done|]. split; [|done]. destruct Hp as [P1 P2 P3 P4 P5 P6]. split; cbn; try done.
    intros Ho. destruct (P6 Ho) as [D1 D2 D3 D4 D5]. by split.
  - apply log_step; [done|]. intros w Hw. pose proof (closed_is_Write true e w) as Hk.
    destruct (wal.Write e w) as [r w'] eqn:E. destruct (Write_spec _ _ _ _ Hw E) as (Hwf & Hnp & _).
    split; [|split; [done|exact Hk]]. destruct r as [u|err|q]; try done. by destruct (Hnp q).
  - apply lines_step; [done|apply Printf_safe|]. intros l Hl. by apply Printf_files.
  - by apply reload_step.
  - apply log_step; [done|]. intros w Hw. destruct (wal.Close w) as [r w'] eqn:E.
    by destruct (Close_spec _ _ _ Hw E) as (? & -> & ? & _).
  - by apply deferred_step.
  - by apply Close_step.
Qed.

Lemma lives_step os p : proc_ok p -> good_step p (run_lives os p).
Proof.
  revert p; induction os as [|o os IH]; intros p Hp; [by split|]. cbn [run_lives].
  destruct (life_step o p Hp) as (Hn & Hp1 & Ho & Hs & Hc). unfold ignore, attempt, bind.
  destruct (run_life o p) as [[[]|e|q] p1]; cbn [fst snd ret] in *; [| |done];
    (destruct (IH p1 Hp1) as (Hn2 & Hp2 & Ho2 & Hs2 & Hc2); split_and!; auto).
Qed.

Lemma run_lives_app os os' p : proc_ok p ->
  run_lives (os ++ os') p = run_lives os' (run_lives os p).2.
Proof.
  revert p; induction os as [|o os IH]; intros p Hp; [done|]. cbn [run_lives app].
  destruct (life_step o p Hp) as (Hn & Hp1 & _). unfold ignore, attempt, bind.
  destruct (run_life o p) as [[[]|e|q] p1]; cbn [fst snd ret] in *; [by apply IH..|done].
Qed.


(** [main] ends with everything closed, except when [Run] fails: then the
    process exits with status 1 and nothing is closed or flushed. *)
Lemma main_closes_unless_run_fails p : proc_ok p ->
  (forall u, exists p', after_run (Ok u) p = (Ok 0%Z, p') /\ down p') /\
  (forall q, exists p', after_run (Panic q) p = (Ok 2%Z, p') /\ down p') /\
  (forall e, after_run (Err e) p = (Ok 1%Z, p)).
Proof.
  intros Hp. destruct (Close_step p Hp) as ((Hn & _) & Hd & _).
  assert (E : ignore Close p = (Ok tt, (Close p).2)).
  { unfold ignore, attempt, bind. by destruct (Close p) as [[[]|e|q] p']. }
  split_and!; [intros u|intros q|done]; (exists (Close p).2; unfold after_run; by rewrite (bind_run_Ok _ _ _ _ _ E)).
Qed.
End start.

(** ** A gateway that starts *)

Module gateway_demo.
Import RateLimit.ratelimit adapter_demo.

(** One project with a Redis sink under the fallback strategy; with [kafka],
    also a Kafka sink without brokers. *)
Definition settings (kafka : bool) : config.Config :=
  config.MkConfig (config.MkServerConfig "" 0 0 0 0 0 0 "Fallback" 0 "test") (config.MkAuthConfig true 300 300 10)
    [config.MkProjectConfig "shop" true
       (config.MkSinkRef "redis" "" 2 8 ∅ :: if kafka then [config.MkSinkRef "kafka" "" 2 8 ∅] else []) 5 0 true []]
    (config.MkSinksConfig (config.MkRedisSinkConfig "redis:6379" "" 0 0 0 0 0 0 "logs" "" 0) (config.MkKafkaSinkConfig [] "" "" "" 0 0))
    ∅ 0 (config.MkLogConfig "" true "" false "" [] 0) (config.MkMetricsConfig false "" 0)
    (config.MkWALConfig false "" 0 0 0) (config.MkPprofConfig false "").

Definition no_fold (_ _ : Z) : bool := false.
Definition host : Host := MkHost (fun p => if String.eqb p "gateway.yaml" then inr [] else inl (SysError "no such file")) 0 0 "".
Definition boot : Boot (CR := adapters.Options * list adapters.Command) (CK := adapters.WriterConfig * list (bytes * bytes)) :=
  MkBoot host (fresh_log (fun _ => empty_dir) (fun _ => None)) empty_dir emptyPool None None None.

(** A router that refuses a method and path it has. *)
Definition no_clash (rs : list (string * string)) : option string :=
  if bool_decide (NoDup rs) then None else Some "handlers are already registered for path".

Definition new (kafka : bool) : Thr (Boot (CR := adapters.Options * list adapters.Command) (CK := adapters.WriterConfig * list (bytes * bytes))) _ :=
  @New _ logged_redis _ logged_kafka bucket_limiter no_fold (fun _ => inr (settings kafka)) None (fun _ => None) (fun _ => None) no_clash (fun _ => 0%Z)
    no_envs "gateway.yaml".

(** It starts with one pool of two workers and a log. *)
Example starts :
  match exec (new false) [] boot with
  | Some (Ok p, _) => logged_by (pdisp p) = true /\
      ((fun c => (pc_name c, sink.workers (sink.params (pc_wp c)))) <$> heap (pdisp p)) = [("shop-redis-0", 2%Z)]
  | _ => False
  end.
Proof. vm_compute. done. Qed.

(** When a later sink cannot be made, the workers of the pools made before it
    keep running although [New] has failed. *)
Example failed_start_leaks_pools :
  match exec (new true) [] boot with
  | Some (Err _, b) =>
      ((fun d => (fun c => (sink.closed (sink.life (pc_wp c)), sink.wg (sink.life (pc_wp c)))) <$> heap d) <$> b_disp b) =
      Some [(false, 2)]
  | _ => False
  end.
Proof. vm_compute. done. Qed.

(** A metrics path that is taken: gin panics in [New]. *)
Lemma metrics_path_clash c : config.MetricsPath (config.Metrics c) = "/health" -> no_clash (routes (config.applyDefaults c)) <> None.
Proof.
  intros Hp. unfold no_clash. rewrite bool_decide_false; [done|]. unfold routes, observability.health_routes, observability.metricsPath.
  cbn [config.Metrics config.applyDefaults]. rewrite Hp. cbn. rewrite !NoDup_cons. set_solver.
Qed.

Lemma boot_ok : log_safe (b_logs boot) /\ fs_ok (b_disk boot) /\ message.pool_ok (b_mem boot).
Proof.
  split; [split; by repeat constructor|]. split; [by destruct empty_dir_good|apply message.emptyPool_ok].
Qed.
End gateway_demo.

(** A run that ends well. *)
Lemma exec_ok {S A} (t : Thr S A) (Q : result A -> S -> Prop) s : wp t Q s ->
  match exec t [] s with Some (Ok _, _) => True | _ => False end -> exists a s', exec t [] s = Some (Ok a, s') /\ Q (Ok a) s'.
Proof.
  intros Hw Hx. destruct (exec t [] s) as [[[a|e|q] s']|] eqn:E; [|done..]. exists a, s'. split; [done|].
  exact (wp_runs _ _ _ _ _ Hw (exec_runs _ _ _ _ _ E)).
Qed.


